(* ===== verification/_CoqProject ===== *)
-Q . S2P
Prelude.v
Storage.v
Memcached.v
MemcachedFacts.v
Sync.v
SyncFacts.v
Handshake.v
Accumulator.v
AccumulatorFacts.v
MapReduce.v
MapReduceFacts.v
MapReduceRuns.v
Counting.v
DataConnections.v
DataConnectionsFacts.v
AccumulatorRounds.v
AccumulatorRoundsFacts.v
ReduceFacts.v
DataFrames.v
DataFramesFacts.v
DMap.v
DMapTree.v
DMapFacts.v
DirectoryCache.v
CacheConnections.v
CacheConnectionsFacts.v
ObjectModel.v
ObjectFacts.v
AccumulatorObject.v
ThreadSystem.v
ThreadSystemFacts.v
Threading.v
ThreadingFacts.v
Proxies.v
ProxiesFacts.v
LocalSync.v
LocalSyncFacts.v
ThreadPool.v
ThreadPoolFacts.v
Shutdown.v
ShutdownFacts.v
ArrayMap.v
ArrayMapFacts.v
Checkpoint.v
CheckpointFacts.v
DirectoryCacheFacts.v
DirectoryCacheRuns.v
Startup.v
StartupFacts.v
FileTools.v
FileToolsFacts.v
