(* ===== verification/Prelude.v ===== *)
(** * Dogee: a verification of the distributed shared memory and its runtime

    Dogee runs a C++ program on several machines (one master, node 0, and slaves) over a
    shared memory of words: a field of an object is addressed by a 32-bit object id and a
    32-bit field id.  The words live in memcached servers; nodes may cache them; the master
    keeps the synchronisation objects; vectors are reduced by accumulators spread over the
    nodes; checkpoints save the memory to files.  This library models these parts as
    executable definitions translated from [src/Dogee/*.cpp] and [src/include/*.h], keeping
    the names of the source, and proves what they do.

    ** Conventions

    [Prelude] holds what every part shares.  A C++ function that can fail is a function into
    [outcome]: [Ret], [Abort] (a failed assertion, [abort()], an access outside a buffer, an
    uninitialised value that matters), [NoFuel] (a loop beyond the iterations the model
    gives it).  Machine integers are [Z] with [u32], [u64], [s32] where the source wraps;
    a buffer is a list with checked accesses ([rd], [wr], [rd_range], [wr_range]); loops are
    [while] with fuel, [for_range], [for_each], each with a rule for invariants.  State is
    passed explicitly; what several threads or nodes do is a step relation.

    ** Files, and the source each models

    - [Storage]: [include/Dogee.h], [include/DogeeStorage.h].  Keys, blocks of 32 words, the
      interface [SoStorage] (class of operations), its laws [SoStorageLaws] (a state denotes
      a memory of words, [so_mem]), [SoReliable] (writes are not refused), and [DSMNoCache].
    - [Memcached], [MemcachedFacts]: [Dogee/DogeeMemcachedStorage.cpp].  The back end with one
      word per key and the one with one block per key, instances of [SoStorage];
      libmemcached is the class [Memcached], its documented behaviour [MemcachedLaws]; a map
      is a concrete server.
    - [Sync], [SyncFacts]: [Dogee/DogeeRemote.cpp].  The master's barriers, semaphores and
      events ([SyncManager]), thread events, commands between the nodes, the client calls, and
      the cluster as a transition system.
    - [Handshake]: [RcMasterHello] and the start of [RcSlave] in [Dogee/DogeeRemote.cpp].
    - [Startup], [StartupFacts]: [Dogee/DogeeShared.cpp], [Dogee/DogeeRemote.cpp], the
      start of master and slaves: the configuration file, the command lines, the calls
      that bring a cluster up, and the restart of a process.
    - [Accumulator], [AccumulatorFacts]: [include/DogeeAccumulator.h],
      [Dogee/DogeeAccumulator.cpp].  How a vector is cut, packed, sent and added up.
    - [AccumulatorObject]: accumulators and map-reduce objects in the shared memory, from
      their constructors to the rounds of the cluster.
    - [Counting]: sums over the nodes of a cluster, shared by the two connection meshes.
    - [DataConnections], [DataConnectionsFacts]: the connections between all nodes that
      [AcSlaveInitDataConnections] and the accept loop of [AcListenData] set up.
    - [AccumulatorRounds], [AccumulatorRoundsFacts], [ReduceFacts]: whole rounds as a step
      relation over the tables of the nodes ([managers]), the connections ([transit]), the
      users inside [_DoAccumulateAndWait] ([users]) and the shared arrays; [_Reduce].
    - [DataFrames], [DataFramesFacts]: the bytes on a data connection ([frame_bytes]), the
      loops of [AcListenData] that receive them ([recv_all], [read_frame]), and the closures
      of [AcExecuteClosureInThreadPool] and [ExecuteClosureInLocalThreadPool].
    - [MapReduce], [MapReduceFacts]: [include/DogeeMR.h], [include/DogeeSerializerImpl.h] and
      [_Map] of [Dogee/DogeeAccumulator.cpp].  Serializers as a class [InputSerializer] with
      laws [SerializerLaws], instances for ints, strings and vectors.
    - [MapReduceRuns]: a whole map-reduce, from the users' pairs to the calls of [DoReduce].
    - [DMap], [DMapTree], [DMapFacts]: [include/DMap.h].  The red-black tree in the shared
      memory: a heap of nodes by object id; the trees a heap represents; the theorems.
    - [DirectoryCache], [DirectoryCacheFacts], [DirectoryCacheRuns]:
      [include/DogeeDirectoryCache.h], [Dogee/DogeeDirectoryCache.cpp].  The coherent
      write-through cache, its protocol, and runs of it.
    - [CacheConnections], [CacheConnectionsFacts]: the control and data connections between
      the caches, [ListenSocketProc] and the constructor of [DSMCacheProtocal], as a step
      relation of all caches; what the destructor closes.
    - [ObjectModel], [ObjectFacts]: [include/DogeeBase.h], [include/DogeeMacro.h],
      [include/DogeeString.h], [include/DogeeSharedConst.h] and the object list of
      [Dogee/DogeeShared.cpp].  Everything is over the class [DSMCache], whose instances are
      the pass-through cache and the directory cache; the theorems are over its laws
      [DSMCacheLaws], proved for the pass-through cache of any reliable back end.
    - [Threading], [ThreadingFacts]: [include/DogeeThreading.h], [Dogee/DogeeThreading.cpp].
      The tables of thread functions, the constructors of the thread classes, and the cluster
      of [Sync] with the threads' entries, statement by statement, and the objects' memory.
    - [ThreadSystem], [ThreadSystemFacts]: [include/DogeeEnv.h], [include/DogeeHelper.h],
      [Dogee/DogeeHelper.cpp], the start and end of threads in [Dogee/DogeeThreading.cpp].  The
      storage of a process, the id, event and memcached client of each of its threads, and
      [thread_lock], as a step relation of the threads.
    - [Shutdown], [ShutdownFacts]: [CloseCluster], the end of [RcSlave], and the objects
      that they delete, each pointer null, live or dangling.
    - [Proxies], [ProxiesFacts]: the references and values of [include/DogeeBase.h], with the
      local objects behind them and [lastobject] ([proxies]), and programs over them ([stmt]).
    - [LocalSync], [LocalSyncFacts]: [include/DogeeLocalSync.h].  Events, barriers, the
      spinning barrier and semaphores of one process.
    - [ThreadPool], [ThreadPoolFacts]: [include/DogeeThreadPool.h],
      [include/DogeeDThreadPool.h], [Dogee/DogeeThreadPool.cpp], [include/DogeeFunctional.h].
      The worker pool on the semaphore of [LocalSync]; the choice of nodes, events and chunks.
    - [ArrayMap], [ArrayMapFacts]: [DData::Map] of [include/DogeeFunctional.h] with [submit]
      of the distributed pool: the caller, the tasks on the nodes, their events and the
      shared memory as a step relation.
    - [Checkpoint], [CheckpointFacts]: [Dogee/DogeeCheckpoint.cpp],
      [include/DogeeCheckpoint.h].  Files of a node, and the checkpoint barrier.
    - [FileTools], [FileToolsFacts]: [ParseCSV], [SkipFileToLine] and the line cache files of
      [Dogee/DogeeShared.cpp].

    ** What the theorems show

    - Storage: both back ends implement a memory of words ([chunk_write_read],
      [word_write_read]) and cannot be told apart ([back_ends_agree]); object ids are claimed
      once, deletion and counters do what they should, but [dec] adds.
    - Cache: without racing accesses to a block the caches implement one memory
      ([cache_refines_memory], from the invariant [copies_current]); operations return,
      eviction takes the oldest block, chunks are read and written at any alignment but for
      one lost write ([local_write_miss_drops]); a race leaves a stale copy
      ([copy_can_stay_stale]).
    - Synchronisation: over any run of the cluster each blocking call is woken once
      ([wakeups_exact]); barriers release whole generations, semaphores keep their bound,
      events are first in first out; the remote thread and hand-shake messages round-trip;
      a join returns only after the thread has run and has written that it stopped
      ([join_after_run]).
    - Start-up: the calls of master and slaves bring the cluster up with the nodes they name
      ([start_cluster]), and connect every pair of nodes once ([mesh_connects]); a restarted
      process has its arguments back ([restart_roundtrip]); other than under Windows they are
      written past the end of their array ([restart_overflows]).
    - Processes: when its threads set themselves up first and take themselves down last, each
      finds its event and its client, and none has another's ([thread_env_safe]); but a
      thread that waits holds the lock that the start and the end of threads need
      ([wait_stops_threads]).  The caches' connections come up ([caches_connect]).  Closing
      a cluster stops every slave and deletes every object once, unless its pool has made
      events, which it then deletes through a deleted back end ([close_cluster]).
    - Accumulators: users and owners cut alike, a user sends every word of a part once, an
      owner's result is the sum over the users for any interleaving; short vectors from a
      slave never reach node 0.  A whole round ends, with the sums in the array and every
      user woken once ([accumulate_round]), from the accumulator's constructor on
      ([new_accumulator_round]); a reduction runs once on every node ([reduce_round]);
      messages and closures survive the connection however their bytes are cut
      ([stream_delivers]).
    - Map-reduce: every pair is mapped on one node, once, and every value is reduced once
      under its key ([map_reduce_all]); the function for the end of a reduction is not called.
    - DMap: insertion keeps a red-black tree of exactly what was inserted, searches and
      walks are right, and logarithmic.
    - Objects: fields of a hierarchy do not overlap, [Fill] and strings do what they say,
      an id that is taken aborts the allocation.  A program with references means what its
      object ids say as long as it copies no virtual reference it has used
      ([references_refine]); a copy ends the original's object.
    - Threads of a process: the barrier goes round by round and forgets nobody; every
      function given to a pool is run once and the workers come to rest.  An array is mapped
      over the cluster's pools without deadlock, whatever the order of the nodes
      ([map_array]).
    - Checkpoints: a restart gives back what was saved (not the last global); a checkpoint
      that the master names is complete on every node.
    - File tools: [ParseCSV] ends and agrees with a plain split of the file
      ([ParseCSV_spec]); a line is found with and without its cache file
      ([SkipFileToLine_spec]); a newline at the end costs a call too many
      ([ParseCSV_stale_cell]).

    ** Fuel, and why it is enough

    [path_fuel] of a tree is two more than the size of its heap and bounds a path
    ([map_search] gives the logarithmic bound); [fetch_fuel] is the number of fetches of an
    object and one; [miss_fuel] is two turns of the loop of a cache miss
    ([cache_operations_return]); [chunk_walk] gets one iteration per block touched;
    batch loops of the back ends get one per batch; [ParseCSV] reads each line with one
    [fgets] and scans its buffer in at most 2048 steps.  The sending loops of the accumulator and
    of [_Map] run for what the calls of [select] report; [user_sends_parts] and [map_delivers]
    say when that is enough.  Loops that draw random ids take them from a list.

    ** What is assumed

    libmemcached behaves as [MemcachedLaws] says, and in the theorems on the cache, the
    objects and checkpoints stores what it is given ([SoReliable]; [SoNewObj] says that
    claiming an object touches no field).  A connection delivers bytes in order, in pieces of
    any size, which [DataFrames] puts together; the step relations take whole messages.  The
    order between connections is free.  In the cache model a client operation with its
    requests and their replies is one step, and there are at most 64 caches, the width of
    the directory's words.  Elements of accumulators form a commutative monoid
    ([ElementLaws]), keys of a DMap are totally ordered ([KeyOrder]).  A section under a mutex
    is one step; a condition variable may wake threads for no reason.  Callbacks of
    the application are parameters.

    Each model takes the parts below it as they are meant to work, also where another file
    shows that they do not always: the cache handles the messages of a connection in order,
    which its two threads for a connection do not ensure ([CacheConnectionsFacts],
    [DirectoryCacheRuns]); closures on a pool reach the shared memory, for which the code
    gives a worker no client, and waiting threads do not stop others, though they hold
    [thread_lock] ([ThreadSystemFacts]).

    ** Not modelled

    [DMap::remove] and [removeFixUp] do not compile when they are used, nor do some operators
    of the proxies: they have no definition.  [RcSend], [RcRecv], [select], [RcConnect] and
    the listening sockets are system calls, of which the models take what they return;
    locks, sleep and process handles are the platform's.  The futures of
    [LThreadPool::submit] are the standard library's.  Detached threads that go on while
    a cluster is closed are not followed.  Accumulators are modelled at a 4-byte element.
    The branches for Windows (but for the restart), tests and examples are left out. *)
From stdpp Require Export base numbers list gmap strings fin_maps.
From Stdlib Require Export ZArith Lia.

#[export] Set Default Goal Selector "!".
Global Open Scope Z_scope.

(** * Outcomes

    A C++ operation either returns ([Ret]), stops the process or has no defined
    behaviour ([Abort]: a failed [assert], [abort()], an access outside a
    buffer), or does not finish within the fuel the model gives it ([NoFuel]). *)
Inductive outcome (A : Type) : Type :=
| Ret (a : A)
| Abort
| NoFuel.
Arguments Ret {A} a.
Arguments Abort {A}.
Arguments NoFuel {A}.

#[export] Instance outcome_ret : MRet outcome := fun A a => Ret a.
#[export] Instance outcome_bind : MBind outcome := fun A B f m =>
  match m with
  | Ret a => f a
  | Abort => Abort
  | NoFuel => NoFuel
  end.
#[export] Instance outcome_fmap : FMap outcome := fun A B f m =>
  match m with
  | Ret a => Ret (f a)
  | Abort => Abort
  | NoFuel => NoFuel
  end.

#[export] Instance outcome_eq_dec `{EqDecision A} : EqDecision (outcome A).
Proof. solve_decision. Defined.

(** [assert(b)] of the C library. *)
Definition c_assert (b : bool) : outcome unit := if b then Ret tt else Abort.

(** * Machine integers

    A [uint32_t] (or [uint64_t]) is the [Z] in [0 .. 2^32-1] (or 64); the
    operations that can wrap are followed by [u32] (or [u64]), and [s32] is the
    conversion to [int]. *)
Definition u32 (x : Z) : Z := x mod 2 ^ 32.
Definition u64 (x : Z) : Z := x mod 2 ^ 64.
Definition s32 (x : Z) : Z := (x + 2 ^ 31) mod 2 ^ 32 - 2 ^ 31.

Definition is_u32 (x : Z) : Prop := 0 <= x < 2 ^ 32.
Definition is_u64 (x : Z) : Prop := 0 <= x < 2 ^ 64.

(** * Loops *)

(** [while (cond) body] over the mutable locals [S]. *)
Fixpoint while {S} (fuel : nat) (cond : S -> bool) (body : S -> outcome S)
    (s : S) : outcome S :=
  match fuel with
  | O => NoFuel
  | Datatypes.S fuel' =>
      if cond s then s' ← body s; while fuel' cond body s' else Ret s
  end.

(** [n] iterations of a counting loop whose counter starts at [i]. *)
Fixpoint count_loop {S} (n : nat) (i : Z) (body : Z -> S -> outcome S)
    (s : S) : outcome S :=
  match n with
  | O => Ret s
  | Datatypes.S n' => s' ← body i s; count_loop n' (i + 1) body s'
  end.

(** [for (i = lo; i < hi; i++) body], where the body changes neither. *)
Definition for_range {S} (lo hi : Z) (body : Z -> S -> outcome S)
    (s : S) : outcome S :=
  count_loop (Z.to_nat (hi - lo)) lo body s.

(** [for (auto x : l) body]. *)
Fixpoint for_each {A S} (l : list A) (body : A -> S -> outcome S)
    (s : S) : outcome S :=
  match l with
  | [] => Ret s
  | x :: l' => s' ← body x s; for_each l' body s'
  end.

(** * Buffers

    A C array is the list of its elements; reads and writes are checked against
    its bounds, and one that falls outside is [Abort]. *)
Definition zlen {A} (l : list A) : Z := Z.of_nat (length l).
Definition zlook {A} (l : list A) (i : Z) : option A :=
  if 0 <=? i then l !! Z.to_nat i else None.

Declare Scope buffer_scope.
Notation "l .[ i ]" := (zlook l i)
  (at level 1, left associativity, format "l .[ i ]") : buffer_scope.
Open Scope buffer_scope.

Definition rd {A} (buf : list A) (i : Z) : outcome A :=
  match buf.[i] with Some x => Ret x | None => Abort end.

Definition wr {A} (buf : list A) (i : Z) (x : A) : outcome (list A) :=
  if (0 <=? i) && (i <? zlen buf)
  then Ret (<[Z.to_nat i := x]> buf) else Abort.

(** The [n] elements from index [i] on, as [memcpy] reads them. *)
Definition rd_range {A} (buf : list A) (i n : Z) : outcome (list A) :=
  if (0 <=? i) && (0 <=? n) && (i + n <=? zlen buf)
  then Ret (take (Z.to_nat n) (drop (Z.to_nat i) buf)) else Abort.

(** [memcpy(buf + i, src, ...)] for the whole of [src]. *)
Definition wr_range {A} (buf : list A) (i : Z) (src : list A) : outcome (list A) :=
  if (0 <=? i) && (i + zlen src <=? zlen buf)
  then Ret (list_inserts (Z.to_nat i) src buf) else Abort.

(** [memset(buf + i, 0, n * sizeof *buf)]. *)
Definition memset0 (buf : list Z) (i n : Z) : outcome (list Z) :=
  wr_range buf i (replicate (Z.to_nat n) 0).

(** * Bytes and words *)

(** The four bytes of a little-endian [uint32_t]. *)
Definition bytes_of_word (w : Z) : list Z :=
  [w mod 256; (w / 256) mod 256; (w / 65536) mod 256; (w / 16777216) mod 256].

Definition bytes_of_words (ws : list Z) : list Z := flat_map bytes_of_word ws.

(** [((uint32_t* )bs)[i]]. *)
Definition word_at (bs : list Z) (i : Z) : outcome Z :=
  l ← rd_range bs (4 * i) 4;
  match l with
  | [b0; b1; b2; b3] => Ret (b0 + 256 * b1 + 65536 * b2 + 16777216 * b3)
  | _ => Abort
  end.

(** The two halves of a [uint64_t] seen as a [uint32_t] array. *)
Definition words_of_u64 (v : Z) : list Z := [u32 v; u32 (v / 2 ^ 32)].
Definition words_of_u64s (vs : list Z) : list Z := flat_map words_of_u64 vs.

(** * Tactics *)

Lemma bind_Ret_inv {A B} (m : outcome A) (f : A -> outcome B) b :
  m ≫= f = Ret b -> exists a, m = Ret a /\ f a = Ret b.
Proof. destruct m; simpl; [eauto | discriminate..]. Qed.

(** Split on the boolean test or match the goal is stuck on. *)
Ltac case_test :=
  match goal with
  | |- context [if ?b then _ else _] => destruct b eqn:?
  end.

Tactic Notation "case_test" "in" hyp(H) :=
  match type of H with
  | context [if ?b then _ else _] => destruct b eqn:?
  end.

(** Goals and hypotheses that only unfold machine ranges. *)
Ltac ranges := unfold is_u32, is_u64 in *; lia.

(** Invert an equation [m = Ret r] down to the steps of [m]. *)
Ltac inv_ret H :=
  match type of H with
  | (_ ≫= _) = Ret _ =>
      let x := fresh "r" in let H1 := fresh H in let H2 := fresh H in
      apply bind_Ret_inv in H as (x & H1 & H2); inv_ret H1; inv_ret H2
  | Ret _ = Ret _ => injection H as H; try subst
  | Abort = Ret _ => discriminate H
  | NoFuel = Ret _ => discriminate H
  | c_assert ?b = Ret _ => unfold c_assert in H; case_test in H; [clear H|discriminate H]
  | _ => idtac
  end.

(** Every element of a literal list is in range. *)
Ltac u32s := repeat first [apply Forall_nil | apply Forall_cons; split]; try ranges.

(** * Lemmas on outcomes and loops *)

Lemma bind_ret {A B} (a : A) (f : A -> outcome B) : (Ret a ≫= f) = f a.
Proof. reflexivity. Qed.

Lemma c_assert_true b : b = true -> c_assert b = Ret tt.
Proof. by intros ->. Qed.

(** A loop with an invariant and a measure that its body decreases ends, in a
    state of the invariant where the condition is false. *)
Lemma while_rule {S} (I : S -> Prop) (mu : S -> nat) cond body fuel (s : S) :
  (forall s, I s -> cond s = true ->
     exists s', body s = Ret s' /\ I s' /\ (mu s' < mu s)%nat) ->
  I s -> (mu s < fuel)%nat ->
  exists s', while fuel cond body s = Ret s' /\ I s' /\ cond s' = false.
Proof.
  intros Hstep. revert s. induction fuel as [|fuel IH]; intros s HI Hmu; [lia|].
  simpl. destruct (cond s) eqn:Hc; [|eauto].
  destruct (Hstep s HI Hc) as (s' & -> & HI' & Hlt). simpl. apply IH; [done|lia].
Qed.

(** What holds at the end of a loop that ends. *)
Lemma while_inv {S} (I : S -> Prop) cond body fuel (s s' : S) :
  (forall s s', I s -> cond s = true -> body s = Ret s' -> I s') ->
  I s -> while fuel cond body s = Ret s' -> I s' /\ cond s' = false.
Proof.
  intros Hstep. revert s. induction fuel as [|fuel IH]; intros s HI; [done|].
  simpl. destruct (cond s) eqn:Hc; [|by intros [= <-]].
  intros (s1 & Hb & Hw)%bind_Ret_inv. by apply (IH s1); [eapply Hstep|].
Qed.

Lemma count_loop_rule {S} (I : Z -> S -> Prop) n lo body (s : S) :
  (forall i s, lo <= i < lo + Z.of_nat n -> I i s ->
     exists s', body i s = Ret s' /\ I (i + 1) s') ->
  I lo s ->
  exists s', count_loop n lo body s = Ret s' /\ I (lo + Z.of_nat n) s'.
Proof.
  revert lo s. induction n as [|n IH]; intros lo s Hstep HI; simpl.
  { exists s. split; [done|]. by rewrite Z.add_0_r. }
  destruct (Hstep lo s) as (s' & -> & HI'); [lia|done|]. simpl.
  destruct (IH (lo + 1) s') as (s'' & Hl & HI''); [intros; apply Hstep; [lia|done]|done|].
  exists s''. split; [done|]. by replace (lo + Z.of_nat (Datatypes.S n))
    with (lo + 1 + Z.of_nat n) by lia.
Qed.

Lemma for_range_rule {S} (I : Z -> S -> Prop) lo hi body (s : S) :
  lo <= hi ->
  (forall i s, lo <= i < hi -> I i s -> exists s', body i s = Ret s' /\ I (i + 1) s') ->
  I lo s ->
  exists s', for_range lo hi body s = Ret s' /\ I hi s'.
Proof.
  intros Hle Hstep HI. unfold for_range.
  destruct (count_loop_rule I (Z.to_nat (hi - lo)) lo body s) as (s' & -> & H); [|done|].
  - intros i s0 Hi. apply Hstep. lia.
  - exists s'. split; [done|]. by replace (lo + Z.of_nat (Z.to_nat (hi - lo))) with hi in H by lia.
Qed.

(** What holds at the end of a counting loop that ends. *)
Lemma for_range_inv {S} (I : Z -> S -> Prop) lo hi body (s s' : S) :
  lo <= hi ->
  (forall i s s', lo <= i < hi -> I i s -> body i s = Ret s' -> I (i + 1) s') ->
  I lo s -> for_range lo hi body s = Ret s' -> I hi s'.
Proof.
  unfold for_range. intros Hle Hstep HI. remember (Z.to_nat (hi - lo)) as n eqn:Hn.
  revert lo s Hle Hstep HI Hn. induction n as [|n IH]; intros lo s Hle Hstep HI Hn; cbn [count_loop].
  - intros [= <-]. by replace hi with lo by lia.
  - intros (s1 & Hb & Hr)%bind_Ret_inv. apply (IH (lo + 1) s1); [lia| |by apply (Hstep lo s); [lia|..]|lia|done].
    intros i x x' Hi. apply Hstep. lia.
Qed.

Lemma for_each_rule {A S} (I : list A -> S -> Prop) (l : list A) body (s : S) :
  (forall pre x post s, l = pre ++ x :: post -> I pre s ->
     exists s', body x s = Ret s' /\ I (pre ++ [x]) s') ->
  I [] s -> exists s', for_each l body s = Ret s' /\ I l s'.
Proof.
  intros Hstep HI.
  assert (forall post pre s, l = pre ++ post -> I pre s ->
    exists s', for_each post body s = Ret s' /\ I l s') as H.
  { induction post as [|x post IH]; intros pre s0 -> Hs.
    - exists s0. split; [done|]. by rewrite app_nil_r.
    - destruct (Hstep pre x post s0 eq_refl Hs) as (s1 & Hb & H1).
      simpl. rewrite Hb. simpl. apply (IH (pre ++ [x])); [by rewrite <-app_assoc|done]. }
  by apply (H l []).
Qed.

(** * Runs of a message handler *)

(** The messages [l] handled one after the other, with all the effects. *)
Fixpoint run_msgs {M A W} (f : M -> A -> outcome (M * list W)) (m : M) (l : list A) :
    outcome (M * list W) :=
  match l with
  | [] => Ret (m, [])
  | a :: l =>
      '(m, ws) ← f m a;
      '(m, ws') ← run_msgs f m l;
      Ret (m, ws ++ ws')
  end.

Lemma run_msgs_app {M A W} (f : M -> A -> outcome (M * list W)) l1 l2 m m1 m2 ws1 ws2 :
  run_msgs f m l1 = Ret (m1, ws1) -> run_msgs f m1 l2 = Ret (m2, ws2) ->
  run_msgs f m (l1 ++ l2) = Ret (m2, ws1 ++ ws2).
Proof.
  revert m ws1. induction l1 as [|a l1 IH]; intros m ws1 H1 H2; cbn [run_msgs app] in *.
  { by injection H1 as -> <-. }
  apply bind_Ret_inv in H1 as ([ma wa] & -> & H1). rewrite bind_ret.
  apply bind_Ret_inv in H1 as ([mb wb] & Hb & H1). injection H1 as -> <-.
  by rewrite (IH ma wb), bind_ret, app_assoc.
Qed.

Lemma run_msgs_rule {M A W} (f : M -> A -> outcome (M * list W))
    (I : list A -> list W -> M -> Prop) l m :
  (forall pre a post ws m, l = pre ++ a :: post -> I pre ws m ->
     exists m' w, f m a = Ret (m', w) /\ I (pre ++ [a]) (ws ++ w) m') ->
  I [] [] m -> exists m' ws, run_msgs f m l = Ret (m', ws) /\ I l ws m'.
Proof.
  intros Hstep HI.
  assert (forall post pre ws m, l = pre ++ post -> I pre ws m ->
    exists m' ws', run_msgs f m post = Ret (m', ws') /\ I l (ws ++ ws') m') as H.
  { induction post as [|a post IH]; intros pre ws m0 -> Hm.
    - exists m0, []. by rewrite !app_nil_r.
    - destruct (Hstep pre a post ws m0 eq_refl Hm) as (m1 & w & Hf & H1).
      destruct (IH (pre ++ [a]) (ws ++ w) m1) as (m2 & ws' & Hr & H2);
        [by rewrite <-app_assoc|done|].
      exists m2, (w ++ ws'). cbn [run_msgs]. rewrite Hf, bind_ret, Hr. split; [done|].
      by rewrite app_assoc. }
  by apply (H l [] [] m).
Qed.

(** A measure that every step decreases as long as an invariant holds: no run is
    infinite. *)
Lemma sn_measure {A} (R : relation A) (P : A -> Prop) (mu : A -> nat) :
  (forall x y, P x -> R x y -> P y /\ (mu y < mu x)%nat) -> forall x, P x -> sn R x.
Proof.
  intros Hstep x. remember (mu x) as k eqn:Ek. revert x Ek. induction k as [k IH] using lt_wf_ind. intros x -> Hx.
  constructor. intros y Hxy. destruct (Hstep x y Hx Hxy) as [Hy Hlt]. by apply (IH (mu y)).
Qed.

(** * Lemmas on buffers *)

Create HintDb dogee.

Section buffers.
Context {A : Type}.
Implicit Types (l : list A) (x : A) (i j n : Z).

Lemma zlen_nonneg l : 0 <= zlen l.
Proof. unfold zlen. lia. Qed.

Lemma zlook_lookup l i : 0 <= i -> l.[i] = l !! Z.to_nat i.
Proof. intros H. unfold zlook. by rewrite (proj2 (Z.leb_le 0 i) H). Qed.

Lemma zlook_Some_range l i x : l.[i] = Some x -> 0 <= i < zlen l.
Proof.
  unfold zlook, zlen. destruct (0 <=? i) eqn:Hi; [|done].
  intros H%lookup_lt_Some. lia.
Qed.

Lemma zlook_is_Some l i : 0 <= i < zlen l -> exists x, l.[i] = Some x.
Proof.
  intros H. rewrite zlook_lookup by lia. apply lookup_lt_is_Some. unfold zlen in H. lia.
Qed.

Lemma zlook_None l i : i < 0 \/ zlen l <= i -> l.[i] = None.
Proof.
  intros H. destruct (l.[i]) eqn:Hx; [|done]. apply zlook_Some_range in Hx. lia.
Qed.

Lemma zlook_ext l1 l2 :
  zlen l1 = zlen l2 -> (forall i, 0 <= i < zlen l1 -> l1.[i] = l2.[i]) -> l1 = l2.
Proof.
  intros Hlen H. apply list_eq. intros k.
  destruct (decide (k < length l1)%nat) as [Hk|Hk].
  - specialize (H (Z.of_nat k)). rewrite !zlook_lookup, !Nat2Z.id in H by lia.
    apply H. unfold zlen. lia.
  - rewrite !lookup_ge_None_2; [done|unfold zlen in Hlen; lia..].
Qed.

Lemma zlook_insert l i j x : 0 <= i < zlen l ->
  (<[Z.to_nat i := x]> l).[j] = if j =? i then Some x else l.[j].
Proof.
  intros Hi. unfold zlook. destruct (0 <=? j) eqn:Hj, (j =? i) eqn:Hji; try lia; [| |done].
  - assert (j = i) as -> by lia. apply list_lookup_insert_eq. unfold zlen in Hi. lia.
  - apply list_lookup_insert_ne. lia.
Qed.

Lemma zlen_insert l k x : zlen (<[k := x]> l) = zlen l.
Proof. unfold zlen. by rewrite length_insert. Qed.

Lemma zlook_app_l l1 l2 i : i < zlen l1 -> (l1 ++ l2).[i] = l1.[i].
Proof.
  intros H. unfold zlook. destruct (0 <=? i) eqn:Hi; [|done].
  apply lookup_app_l. unfold zlen in H. lia.
Qed.

Lemma zlook_app_r l1 l2 i : zlen l1 <= i -> (l1 ++ l2).[i] = l2.[i - zlen l1].
Proof.
  intros H. pose proof (zlen_nonneg l1). rewrite !zlook_lookup by lia.
  rewrite lookup_app_r by (unfold zlen in *; lia). f_equal. unfold zlen in *. lia.
Qed.

Lemma zlen_app l1 l2 : zlen (l1 ++ l2) = zlen l1 + zlen l2.
Proof. unfold zlen. rewrite length_app. lia. Qed.

Lemma zlen_replicate n x : 0 <= n -> zlen (replicate (Z.to_nat n) x) = n.
Proof. intros. unfold zlen. rewrite length_replicate. lia. Qed.

Lemma zlook_replicate n x i : 0 <= i < n -> (replicate (Z.to_nat n) x).[i] = Some x.
Proof. intros. rewrite zlook_lookup by lia. apply lookup_replicate_2. lia. Qed.

Lemma rd_ok l i x : l.[i] = Some x -> rd l i = Ret x.
Proof. unfold rd. by intros ->. Qed.

Lemma rd_Ret l i x : rd l i = Ret x -> l.[i] = Some x.
Proof. unfold rd. destruct (l.[i]); congruence. Qed.

Lemma wr_ok l i x : 0 <= i < zlen l -> exists l',
  wr l i x = Ret l' /\ zlen l' = zlen l /\
  forall j, l'.[j] = if j =? i then Some x else l.[j].
Proof.
  intros H. unfold wr. rewrite (proj2 (andb_true_iff _ _)) by (split; lia).
  eexists. split; [done|]. split; [apply zlen_insert|]. intros. by apply zlook_insert.
Qed.

Lemma zlook_take_drop l i n j : 0 <= i -> 0 <= n ->
  (take (Z.to_nat n) (drop (Z.to_nat i) l)).[j]
  = if (0 <=? j) && (j <? n) then l.[i + j] else None.
Proof.
  intros Hi Hn. unfold zlook. destruct (0 <=? j) eqn:Hj; simpl; [|done].
  rewrite (proj2 (Z.leb_le 0 (i + j))) by lia. destruct (j <? n) eqn:Hjn.
  - rewrite lookup_take_lt by lia. rewrite lookup_drop. f_equal. lia.
  - apply lookup_take_ge. lia.
Qed.

Lemma rd_range_ok l i n : 0 <= i -> 0 <= n -> i + n <= zlen l -> exists l',
  rd_range l i n = Ret l' /\ zlen l' = n /\ forall j, 0 <= j < n -> l'.[j] = l.[i + j].
Proof.
  intros Hi Hn Hl. unfold rd_range.
  rewrite (proj2 (andb_true_iff _ _)) by (split; [apply andb_true_iff; split|]; lia).
  eexists. split; [done|]. split.
  - unfold zlen in *. rewrite length_take, length_drop. lia.
  - intros j Hj. rewrite zlook_take_drop by lia.
    by rewrite (proj2 (andb_true_iff _ _)) by (split; lia).
Qed.

Lemma wr_range_ok l i src : 0 <= i -> i + zlen src <= zlen l -> exists l',
  wr_range l i src = Ret l' /\ zlen l' = zlen l /\
  forall j, l'.[j] = if (i <=? j) && (j <? i + zlen src) then src.[j - i] else l.[j].
Proof.
  intros Hi Hl. unfold wr_range.
  rewrite (proj2 (andb_true_iff _ _)) by (split; lia).
  eexists. split; [done|]. split; [unfold zlen; by rewrite length_inserts|].
  intros j. unfold zlook, zlen in *.
  destruct (0 <=? j) eqn:Hj; [|by rewrite (proj2 (andb_false_iff _ _)) by (left; lia)].
  destruct ((i <=? j) && (j <? i + Z.of_nat (length src))) eqn:Hin.
  - rewrite (proj2 (Z.leb_le 0 (j - i))) by lia.
    rewrite list_lookup_inserts by lia. f_equal. lia.
  - apply andb_false_iff in Hin as [Hlt|Hge].
    + apply list_lookup_inserts_lt. lia.
    + apply list_lookup_inserts_ge. lia.
Qed.

Lemma zlook_Forall (P : A -> Prop) l i x : Forall P l -> l.[i] = Some x -> P x.
Proof.
  unfold zlook. intros HP. destruct (0 <=? i); [|done]. intros H.
  by eapply Forall_lookup_1.
Qed.

Lemma Forall_zlook (P : A -> Prop) l : (forall i x, l.[i] = Some x -> P x) -> Forall P l.
Proof.
  intros H. apply Forall_lookup_2. intros k x Hk. apply (H (Z.of_nat k)).
  rewrite zlook_lookup by lia. by rewrite Nat2Z.id.
Qed.
End buffers.

(** ** Buffers cut at an index *)

Lemma zlen_cons {A} (a : A) l : zlen (a :: l) = zlen l + 1.
Proof. unfold zlen. rewrite length_cons. lia. Qed.

Lemma zlen_split {A} (l : list A) n : 0 <= n <= zlen l -> exists a b, l = a ++ b /\ zlen a = n.
Proof.
  intros Hn. exists (take (Z.to_nat n) l), (drop (Z.to_nat n) l). rewrite take_drop. split; [done|].
  unfold zlen in *. rewrite length_take. lia.
Qed.

Lemma wr_range_split {A} (pre hole post src : list A) i : zlen pre = i -> zlen hole = zlen src ->
  wr_range (pre ++ hole ++ post) i src = Ret (pre ++ src ++ post).
Proof.
  intros <- Hh. destruct (wr_range_ok (pre ++ hole ++ post) (zlen pre) src) as (l & -> & Hlen & Hl).
  - apply zlen_nonneg.
  - rewrite !zlen_app. pose proof (zlen_nonneg post). lia.
  - f_equal. apply zlook_ext; [rewrite Hlen, !zlen_app; lia|]. intros j Hj. rewrite Hl.
    destruct (Z.leb_spec (zlen pre) j); cbn [andb].
    + rewrite !(zlook_app_r pre) by lia. destruct (Z.ltb_spec j (zlen pre + zlen src)).
      * by rewrite zlook_app_l by lia.
      * rewrite !zlook_app_r by lia. f_equal. lia.
    + by rewrite !zlook_app_l by lia.
Qed.

Lemma rd_range_none {A} (l : list A) i : 0 <= i <= zlen l -> rd_range l i 0 = Ret [].
Proof. intros Hi. unfold rd_range. rewrite (proj2 (andb_true_iff _ _)) by (split; [apply andb_true_iff; split|]; lia). done. Qed.

Lemma wr_range_none {A} (l : list A) i : 0 <= i <= zlen l -> wr_range l i [] = Ret l.
Proof. intros Hi. unfold wr_range. rewrite (proj2 (andb_true_iff _ _)) by (change (zlen (@nil A)) with 0; split; lia). done. Qed.

Lemma wr_split {A} (pre post : list A) x y i : zlen pre = i ->
  wr (pre ++ x :: post) i y = Ret (pre ++ y :: post).
Proof.
  intros <-. unfold wr. pose proof (zlen_nonneg post). pose proof (zlen_nonneg pre).
  rewrite (proj2 (andb_true_iff _ _)).
  - f_equal. rewrite insert_app_r_alt by (unfold zlen; lia). f_equal. unfold zlen in *.
    by replace (Z.to_nat (Z.of_nat (length pre)) - length pre)%nat with O by lia.
  - rewrite zlen_app. unfold zlen in *. rewrite length_cons. split; [apply Z.leb_le|apply Z.ltb_lt]; lia.
Qed.

Lemma rd_split {A} (pre post : list A) x i : zlen pre = i -> rd (pre ++ x :: post) i = Ret x.
Proof. intros <-. apply rd_ok. rewrite zlook_app_r by lia. by rewrite Z.sub_diag. Qed.

Lemma rd_range_split {A} (pre mid post : list A) i n : zlen pre = i -> zlen mid = n ->
  rd_range (pre ++ mid ++ post) i n = Ret mid.
Proof.
  intros <- <-. unfold rd_range. rewrite !zlen_app.
  pose proof (zlen_nonneg post). pose proof (zlen_nonneg pre). pose proof (zlen_nonneg mid).
  rewrite (proj2 (andb_true_iff _ _)) by (split; [apply andb_true_iff; split|]; lia).
  f_equal. unfold zlen. rewrite !Nat2Z.id, drop_app_length, take_app_length. done.
Qed.

#[export] Instance zlen_permutation {A} : Proper ((≡ₚ) ==> (=)) (@zlen A).
Proof. intros l1 l2 H. unfold zlen. by rewrite H. Qed.

Lemma zlook_fmap {A B} (f : A -> B) (l : list A) i : (f <$> l).[i] = f <$> l.[i].
Proof. unfold zlook. destruct (0 <=? i); [apply list_lookup_fmap|done]. Qed.

Lemma zlen_fmap {A B} (f : A -> B) (l : list A) : zlen (f <$> l) = zlen l.
Proof. unfold zlen. by rewrite length_fmap. Qed.

Lemma zlen_take {A} (l : list A) n : 0 <= n <= zlen l -> zlen (take (Z.to_nat n) l) = n.
Proof. intros Hn. unfold zlen in *. rewrite length_take. lia. Qed.

Lemma memset0_ok l i n : 0 <= i -> 0 <= n -> i + n <= zlen l -> exists l',
  memset0 l i n = Ret l' /\ zlen l' = zlen l /\
  forall j, l'.[j] = if (i <=? j) && (j <? i + n) then Some 0 else l.[j].
Proof.
  intros Hi Hn Hl. unfold memset0.
  destruct (wr_range_ok l i (replicate (Z.to_nat n) 0)) as (l' & -> & Hlen & Hlook);
    [done|by rewrite zlen_replicate|].
  exists l'. split; [done|]. split; [done|]. intros j. rewrite Hlook, zlen_replicate by lia.
  destruct ((i <=? j) && (j <? i + n)) eqn:Hj; [|done]. apply zlook_replicate. lia.
Qed.

(** * Counting *)

(** How often [x] occurs in a list, and the sum of [f] over the values of a map. *)
Fixpoint occ {A} `{EqDecision A} (x : A) (l : list A) : nat :=
  match l with
  | [] => 0
  | y :: l => (if decide (x = y) then 1 else 0) + occ x l
  end.

Definition map_sum {V} (f : V -> nat) (m : gmap Z V) : nat :=
  map_fold (fun _ v acc => (f v + acc)%nat) O m.

Lemma occ_app {A} `{EqDecision A} (x : A) l1 l2 : occ x (l1 ++ l2) = (occ x l1 + occ x l2)%nat.
Proof. induction l1; simpl; lia. Qed.

Lemma occ_pos {A} `{EqDecision A} (x : A) l : x ∈ l <-> (0 < occ x l)%nat.
Proof.
  induction l as [|y l IH]; simpl; [split; [by intros ?%not_elem_of_nil|lia]|].
  rewrite elem_of_cons, IH. case_decide as Hd; intuition (lia || congruence).
Qed.

Lemma map_sum_insert_None {V} (f : V -> nat) m k v : m !! k = None ->
  map_sum f (<[k := v]> m) = (f v + map_sum f m)%nat.
Proof. intros Hk. unfold map_sum. rewrite map_fold_insert_L; [done|intros; lia|done]. Qed.

Lemma map_sum_insert_Some {V} (f : V -> nat) m k v v' : m !! k = Some v ->
  (map_sum f (<[k := v']> m) + f v = map_sum f m + f v')%nat.
Proof.
  intros Hk. rewrite <-(insert_id m k v) at 2 by done. rewrite <-!(insert_delete_eq m k).
  rewrite !map_sum_insert_None by apply lookup_delete_eq. lia.
Qed.

(** * Lemmas on machine integers, bytes and words *)

Lemma u32_small x : is_u32 x -> u32 x = x.
Proof. intros. apply Z.mod_small. ranges. Qed.

Lemma u32_range x : is_u32 (u32 x).
Proof. unfold is_u32, u32. apply Z.mod_pos_bound. lia. Qed.

Lemma u64_small x : is_u64 x -> u64 x = x.
Proof. intros. apply Z.mod_small. ranges. Qed.

Lemma u64_range x : is_u64 (u64 x).
Proof. unfold is_u64, u64. apply Z.mod_pos_bound. lia. Qed.

Lemma s32_small x : - 2 ^ 31 <= x < 2 ^ 31 -> s32 x = x.
Proof. intros. unfold s32. rewrite Z.mod_small; lia. Qed.

(** A [uint32_t] survives the way through an [int]. *)
Lemma u32_s32 x : is_u32 x -> u32 (s32 x) = x.
Proof.
  unfold is_u32. intros Hx. destruct (Z.lt_ge_cases x (2 ^ 31)).
  - rewrite s32_small by lia. by apply u32_small.
  - assert (s32 x = x - 2 ^ 32) as ->.
    { unfold s32. rewrite <-(Z_mod_plus_full _ (-1)), Z.mod_small; lia. }
    unfold u32. rewrite <-(Z_mod_plus_full _ 1), Z.mod_small; lia.
Qed.

#[export] Hint Resolve u32_range u64_range : dogee.
Create Rewrite HintDb dogee.
#[export] Hint Rewrite @zlen_app @zlen_insert @zlen_fmap : dogee.

Lemma bytes_of_words_cons w ws :
  bytes_of_words (w :: ws) = bytes_of_word w ++ bytes_of_words ws.
Proof. reflexivity. Qed.

Lemma words_of_u64s_cons v vs :
  words_of_u64s (v :: vs) = words_of_u64 v ++ words_of_u64s vs.
Proof. reflexivity. Qed.

Lemma zlen_bytes_of_words ws : zlen (bytes_of_words ws) = 4 * zlen ws.
Proof.
  unfold zlen. induction ws as [|w ws IH]; [done|].
  rewrite bytes_of_words_cons, length_app, length_cons. simpl length. lia.
Qed.

Lemma word_of_bytes w : is_u32 w ->
  w mod 256 + 256 * ((w / 256) mod 256) + 65536 * ((w / 65536) mod 256)
  + 16777216 * ((w / 16777216) mod 256) = w.
Proof.
  intros Hw. unfold is_u32 in Hw.
  replace (w / 65536) with (w / 256 / 256) by (rewrite Z.div_div by lia; f_equal; lia).
  replace (w / 16777216) with (w / 256 / 256 / 256) by (rewrite !Z.div_div by lia; f_equal; lia).
  rewrite (Z.mod_small (w / 256 / 256 / 256)) by (rewrite !Z.div_div by lia;
    split; [apply Z.div_pos; lia|apply Z.div_lt_upper_bound; lia]).
  pose proof (Z.div_mod w 256). pose proof (Z.div_mod (w / 256) 256).
  pose proof (Z.div_mod (w / 256 / 256) 256). lia.
Qed.

Lemma word_at_bytes_of_words ws i w :
  Forall is_u32 ws -> ws.[i] = Some w -> word_at (bytes_of_words ws) i = Ret w.
Proof.
  intros Hws Hi. pose proof (zlook_Some_range _ _ _ Hi) as Hr.
  pose proof (zlook_Forall _ _ _ _ Hws Hi) as Hw.
  unfold word_at, rd_range. rewrite zlen_bytes_of_words.
  rewrite (proj2 (andb_true_iff _ _)) by (split; [apply andb_true_iff; split|]; lia).
  rewrite bind_ret.
  change (Z.to_nat 4) with 4%nat.
  assert (take 4 (drop (Z.to_nat (4 * i)) (bytes_of_words ws)) = bytes_of_word w) as ->.
  { clear Hw Hws. rewrite zlook_lookup in Hi by lia. revert i Hi Hr.
    induction ws as [|w0 ws IH]; intros i Hi Hr; [done|].
    rewrite bytes_of_words_cons.
    destruct (decide (i = 0)) as [->|Hne].
    - simpl in Hi. injection Hi as ->. done.
    - replace (Z.to_nat (4 * i)) with (4 + Z.to_nat (4 * (i - 1)))%nat by lia.
      rewrite <-drop_drop. change (drop 4 (bytes_of_word w0 ++ bytes_of_words ws))
        with (bytes_of_words ws). apply IH.
      + replace (Z.to_nat i) with (S (Z.to_nat (i - 1))) in Hi by lia. done.
      + unfold zlen in *. simpl length in Hr. lia. }
  unfold bytes_of_word. f_equal. by apply word_of_bytes.
Qed.

Lemma word_at_total bs i :
  0 <= i -> 4 * i + 4 <= zlen bs -> exists w, word_at bs i = Ret w.
Proof.
  intros Hi Hl. unfold word_at.
  destruct (rd_range_ok bs (4 * i) 4) as (l & -> & Hlen & _); [lia..|].
  rewrite bind_ret. unfold zlen in Hlen.
  destruct l as [|b0 [|b1 [|b2 [|b3 [|]]]]]; simpl in Hlen; try lia. eauto.
Qed.

Lemma words_of_u64_join v : is_u64 v -> u32 v + 2 ^ 32 * u32 (v / 2 ^ 32) = v.
Proof.
  intros Hv. unfold is_u64, u32 in *.
  rewrite (Z.mod_small (v / 2 ^ 32)) by
    (split; [apply Z.div_pos|apply Z.div_lt_upper_bound]; lia).
  pose proof (Z.div_mod v (2 ^ 32)). lia.
Qed.

Lemma words_of_u64s_u32 vs : Forall is_u32 (words_of_u64s vs).
Proof.
  induction vs as [|v vs IH]; [constructor|].
  rewrite words_of_u64s_cons. apply Forall_app. split; [|done].
  repeat constructor; apply u32_range.
Qed.

Lemma zlen_words_of_u64s vs : zlen (words_of_u64s vs) = 2 * zlen vs.
Proof.
  unfold zlen. induction vs as [|v vs IH]; [done|].
  rewrite words_of_u64s_cons, length_app, length_cons. simpl length. lia.
Qed.
