(* ===== verification/Storage.v ===== *)
(** The storage vocabulary of [include/Dogee.h] and [include/DogeeStorage.h]:
    keys, block arithmetic, status codes, the [SoStorage] interface with what it
    promises to its clients, and the pass-through cache [DSMNoCache]. *)
From S2P Require Import Prelude.

(** * Keys and blocks *)

(** [#define MAKE64(a,b)]; the arguments are [uint32_t]. *)
Definition MAKE64 (a b : Z) : Z := Z.lor (Z.shiftl a 32) b.

Definition DSM_CACHE_BITS : Z := 5.
Definition DSM_CACHE_BLOCK_SIZE : Z := Z.shiftl 1 DSM_CACHE_BITS.
Definition DSM_CACHE_HIGH_MASK : Z :=
  u32 (Z.shiftl (Z.shiftr 0xffffffff DSM_CACHE_BITS) DSM_CACHE_BITS).
Definition DSM_CACHE_LOW_MASK : Z := u32 (Z.lnot DSM_CACHE_HIGH_MASK).
Definition DSM_CACHE_HIGH_MASK_64 : Z :=
  u64 (Z.shiftl (Z.shiftr 0xffffffffffffffff DSM_CACHE_BITS) DSM_CACHE_BITS).
Definition DSM_CACHE_LOW_MASK_64 : Z := u64 (Z.lnot DSM_CACHE_HIGH_MASK_64).
Definition DSM_CACHE_BAD_KEY : Z := DSM_CACHE_LOW_MASK.
Definition DSM_CACHE_SIZE : Z := 1024.

Inductive SoStatus :=
| SoOK
| SoUnknown
| SoKeyNotFound
| SoFail.

#[export] Instance SoStatus_eq_dec : EqDecision SoStatus.
Proof. solve_decision. Defined.

(** * The storage interface *)

(** [class SoStorage]: the operations of a storage back end. [S] is the state of
    the back end; the overloads on [uint64_t] carry the suffix [64]. Output
    buffers are passed with their contents before the call and returned with
    their contents after it; [so_getinfo] takes the two variables its reference
    parameters are bound to. *)
Class SoStorage (S : Type) := {
  so_del : S -> Z -> outcome (S * SoStatus);
  so_newobj : S -> Z -> Z -> Z -> S * SoStatus;
  so_getinfo : S -> Z -> Z * Z -> outcome (SoStatus * (Z * Z));
  so_put64 : S -> Z -> Z -> Z -> outcome (S * SoStatus);
  so_put : S -> Z -> Z -> Z -> outcome (S * SoStatus);
  so_get : S -> Z -> Z -> outcome Z;
  so_getchunk64 : S -> Z -> Z -> Z -> list Z -> outcome (SoStatus * list Z);
  so_getchunk : S -> Z -> Z -> Z -> list Z -> outcome (SoStatus * list Z);
  so_putchunk64 : S -> Z -> Z -> Z -> list Z -> outcome (S * SoStatus);
  so_putchunk : S -> Z -> Z -> Z -> list Z -> outcome (S * SoStatus);
  so_getblock : S -> Z -> list Z -> outcome (SoStatus * list Z);
}.

(** The fields an object may use: the key [0xFFFFFFFF] holds the object's class
    and size, and the loops of the back ends step past the end of a range by at
    most one batch. *)
Definition MAX_FIELD : Z := 2 ^ 32 - 15008.

Definition range_ok (o f len : Z) : Prop :=
  is_u32 o /\ 0 <= f /\ 0 <= len /\ f + len <= MAX_FIELD.

(** The effect of writing the first [len] words of [buf] at field [f] of object
    [o] on a memory: outside the range nothing changes; inside, a word is the new one if the
    operation reports [SoOK], and otherwise the new or the old one. *)
Definition written (mem mem' : Z -> Z -> Z) (o f len : Z) (buf : list Z)
    (st : SoStatus) : Prop :=
  forall o' f', is_u32 o' -> 0 <= f' < MAX_FIELD ->
    if (o' =? o) && (f <=? f') && (f' <? f + len)
    then (st = SoOK -> buf.[f' - f] = Some (mem' o' f')) /\
         (mem' o' f' = mem o' f' \/ buf.[f' - f] = Some (mem' o' f'))
    else mem' o' f' = mem o' f'.

(** What a back end promises: its state denotes a memory of words, [so_mem s o f]
    being the word at field [f] of object [o], and the operations read and write
    that memory. *)
Class SoStorageLaws (S : Type) `{SoStorage S} := {
  so_ok : S -> Prop;
  so_mem : S -> Z -> Z -> Z;
  so_mem_u32 : forall s o f, so_ok s -> is_u32 o -> 0 <= f < MAX_FIELD -> is_u32 (so_mem s o f);
  so_get_law : forall s o f, so_ok s -> is_u32 o -> 0 <= f < MAX_FIELD ->
    so_get s o f = Ret (so_mem s o f);
  so_getchunk_law : forall s o f len buf, so_ok s -> range_ok o f len -> len <= zlen buf ->
    0 < len -> exists buf', so_getchunk s o f len buf = Ret (SoOK, buf') /\ zlen buf' = zlen buf /\
      forall j, buf'.[j] = if (0 <=? j) && (j <? len) then Some (so_mem s o (f + j)) else buf.[j];
  so_getblock_law : forall s o f buf, so_ok s -> is_u32 o -> 0 <= f ->
    f + DSM_CACHE_BLOCK_SIZE <= MAX_FIELD -> Z.land f DSM_CACHE_LOW_MASK = 0 ->
    zlen buf = DSM_CACHE_BLOCK_SIZE ->
    exists buf', so_getblock s (MAKE64 o f) buf = Ret (SoOK, buf') /\ zlen buf' = zlen buf /\
      forall j, 0 <= j < DSM_CACHE_BLOCK_SIZE -> buf'.[j] = Some (so_mem s o (f + j));
  so_putchunk_law : forall s o f len buf, so_ok s -> range_ok o f len -> len <= zlen buf ->
    Forall is_u32 buf ->
    exists s' st, so_putchunk s o f len buf = Ret (s', st) /\ so_ok s' /\
      written (so_mem s) (so_mem s') o f len buf st;
  so_put_law : forall s o f v, so_put s o f v = so_putchunk s o f 1 [v];
  so_put64_law : forall s o f v, so_put64 s o f v = so_putchunk s o f 2 (words_of_u64 v);
  so_putchunk64_law : forall s o f len buf,
    so_putchunk64 s o f len buf = so_putchunk s o f (u32 (len * 2)) buf;
  so_getchunk64_law : forall s o f len buf,
    so_getchunk64 s o f len buf = so_getchunk s o f (u32 (len * 2)) buf;
}.

(** A back end that stores whatever it is given. *)
Class SoReliable (S : Type) `{SoStorageLaws S} : Prop :=
  so_reliable : forall (s : S) o f len buf s' st, so_ok s -> range_ok o f len ->
    so_putchunk s o f len buf = Ret (s', st) -> st = SoOK.

(** * The pass-through cache *)

(** [class DSMNoCache]: every operation goes to the back end it holds. *)
Module DSMNoCache.
Section ops.
Context {S : Type} `{SoStorage S}.

Definition put64 (backend : S) (key fldid v : Z) : outcome (S * SoStatus) :=
  so_put64 backend key fldid v.
Definition put (backend : S) (key fldid v : Z) : outcome (S * SoStatus) :=
  so_put backend key fldid v.
Definition get (backend : S) (key fldid : Z) : outcome Z :=
  so_get backend key fldid.
Definition getchunk64 (backend : S) (key fldid len : Z) (buf : list Z) :=
  so_getchunk64 backend key fldid len buf.
Definition getchunk (backend : S) (key fldid len : Z) (buf : list Z) :=
  so_getchunk backend key fldid len buf.
Definition putchunk64 (backend : S) (key fldid len : Z) (buf : list Z) :=
  so_putchunk64 backend key fldid len buf.
Definition putchunk (backend : S) (key fldid len : Z) (buf : list Z) :=
  so_putchunk backend key fldid len buf.
End ops.
End DSMNoCache.

(** * Lemmas on keys and blocks *)

Lemma block_size_32 : DSM_CACHE_BLOCK_SIZE = 32.
Proof. reflexivity. Qed.

Lemma MAKE64_add a b : is_u32 b -> MAKE64 a b = a * 2 ^ 32 + b.
Proof.
  intros Hb. unfold MAKE64. rewrite <-Z.shiftl_mul_pow2 by lia.
  apply Z.bits_inj'. intros n Hn.
  rewrite Z.add_nocarry_lxor, Z.lor_spec, Z.lxor_spec.
  - destruct (Z.ltb_spec n 32).
    + rewrite Z.shiftl_spec_low by lia. by destruct (Z.testbit b n).
    + unfold is_u32 in Hb. rewrite <-(Z.mod_small b (2 ^ 32)) by lia.
      rewrite Z.mod_pow2_bits_high by lia. by destruct (Z.testbit _ n).
  - apply Z.bits_inj'. intros m Hm. rewrite Z.land_spec, Z.bits_0.
    destruct (Z.ltb_spec m 32).
    + by rewrite Z.shiftl_spec_low by lia.
    + unfold is_u32 in Hb. rewrite <-(Z.mod_small b (2 ^ 32)) by lia.
      rewrite Z.mod_pow2_bits_high by lia. apply andb_false_r.
Qed.

Lemma MAKE64_inj a b a' b' :
  is_u32 b -> is_u32 b' -> MAKE64 a b = MAKE64 a' b' -> a = a' /\ b = b'.
Proof. intros Hb Hb'. rewrite !MAKE64_add by done. ranges. Qed.

Lemma MAKE64_u64 a b : is_u32 a -> is_u32 b -> is_u64 (MAKE64 a b).
Proof. intros. rewrite MAKE64_add by done. ranges. Qed.

Lemma land_ones_mod x n : 0 <= n -> Z.land x (Z.ones n) = x mod 2 ^ n.
Proof. intros. by apply Z.land_ones. Qed.

Lemma land_low_mask x : Z.land x DSM_CACHE_LOW_MASK = x mod 32.
Proof. change DSM_CACHE_LOW_MASK with (Z.ones 5). by rewrite land_ones_mod by lia. Qed.

Lemma land_low_mask_64 x : Z.land x DSM_CACHE_LOW_MASK_64 = x mod 32.
Proof. change DSM_CACHE_LOW_MASK_64 with (Z.ones 5). by rewrite land_ones_mod by lia. Qed.

Lemma land_high_gen x w : 5 <= w -> 0 <= x < 2 ^ w ->
  Z.land x (Z.ldiff (Z.ones w) (Z.ones 5)) = 32 * (x / 32).
Proof.
  intros Hw Hx. transitivity (Z.ldiff x (Z.ones 5)).
  - apply Z.bits_inj'. intros n Hn. rewrite Z.land_spec, !Z.ldiff_spec.
    destruct (Z.ltb_spec n w).
    + rewrite (Z.ones_spec_low w n) by lia. done.
    + rewrite <-(Z.mod_small x (2 ^ w)) by lia. by rewrite Z.mod_pow2_bits_high by lia.
  - rewrite Z.ldiff_ones_r, Z.shiftl_mul_pow2, Z.shiftr_div_pow2 by lia.
    change (2 ^ 5) with 32. lia.
Qed.

Lemma land_high_mask x : is_u32 x -> Z.land x DSM_CACHE_HIGH_MASK = 32 * (x / 32).
Proof.
  intros H. change DSM_CACHE_HIGH_MASK with (Z.ldiff (Z.ones 32) (Z.ones 5)).
  apply land_high_gen; ranges.
Qed.

Lemma land_high_mask_64 x : is_u64 x -> Z.land x DSM_CACHE_HIGH_MASK_64 = 32 * (x / 32).
Proof.
  intros H. change DSM_CACHE_HIGH_MASK_64 with (Z.ldiff (Z.ones 64) (Z.ones 5)).
  apply land_high_gen; ranges.
Qed.
