(* ===== verification/Memcached.v ===== *)
(** The two memcached back ends of [Dogee/DogeeMemcachedStorage.cpp]:
    [SoStorageMemcached] keeps one word per key, [SoStorageChunkMemcached] one
    block of 32 words per key. libmemcached itself is a parameter. *)
From S2P Require Import Prelude Storage.

(** [lia] on quotients and remainders by constants. *)
Ltac Zify.zify_post_hook ::= Z.to_euclidean_division_equations.

(** * libmemcached *)

(** The return codes the code tells apart. *)
Inductive memcached_return :=
| MEMCACHED_SUCCESS
| MEMCACHED_NOTFOUND
| MEMCACHED_FAILURE.

#[export] Instance memcached_return_eq_dec : EqDecision memcached_return.
Proof. solve_decision. Defined.

(** One item handed out by [memcached_fetch_result]: return code, key, value. *)
Abbreviation mresult := (memcached_return * Z * list Z)%type.

(** The calls of libmemcached the code makes, on a client state [M]. A key is the
    8 bytes of a [uint64_t], given as that integer; a value is a list of bytes.
    [memcached_mget] stands for [memcached_mget] and the loop of
    [memcached_fetch_result] calls that follows it. *)
Class Memcached (M : Type) := {
  memcached_set : M -> Z -> list Z -> M * memcached_return;
  memcached_add : M -> Z -> list Z -> M * memcached_return;
  memcached_delete : M -> Z -> M * memcached_return;
  memcached_get : M -> Z -> memcached_return * list Z;
  memcached_mget : M -> list Z -> memcached_return * list mresult;
  memcached_increment : M -> Z -> Z -> M * memcached_return * Z;
}.

(** Its documented behaviour, for servers that answer every request and may
    refuse to store a value (out of memory): [mc_view] is what they hold.

    These are the laws of a client that waits for the answers to its storage commands.
    [InitMemcachedStorage] makes one with [MEMCACHED_BEHAVIOR_NO_BLOCK] and
    [MEMCACHED_BEHAVIOR_NOREPLY], which asks the library not to: there
    [MEMCACHED_SUCCESS] of a [set] or an [add] only says that the command was queued, so a
    value may be missing, and an [add] may have found its key taken, although it reports
    success. What is proved from these laws holds for the runs in which the commands that
    report success were carried out, and in order. *)
Class MemcachedLaws (M : Type) `{Memcached M} := {
  mc_view : M -> gmap Z (list Z);
  mc_set_law : forall m k v m' rc, memcached_set m k v = (m', rc) ->
    mc_view m' = if decide (rc = MEMCACHED_SUCCESS) then <[k := v]> (mc_view m) else mc_view m;
  mc_add_law : forall m k v m' rc, memcached_add m k v = (m', rc) ->
    mc_view m' = (if decide (rc = MEMCACHED_SUCCESS) then <[k := v]> (mc_view m) else mc_view m)
    /\ (rc = MEMCACHED_SUCCESS -> mc_view m !! k = None);
  mc_delete_law : forall m k, mc_view (fst (memcached_delete m k)) = delete k (mc_view m);
  mc_get_law : forall m k,
    match mc_view m !! k with
    | Some v => memcached_get m k = (MEMCACHED_SUCCESS, v)
    | None => fst (memcached_get m k) = MEMCACHED_NOTFOUND
    end;
  mc_mget_law : forall m ks, exists rs, memcached_mget m ks = (MEMCACHED_SUCCESS, rs) /\
    (forall k v, (MEMCACHED_SUCCESS, k, v) ∈ rs -> k ∈ ks /\ mc_view m !! k = Some v) /\
    (forall k v, k ∈ ks -> mc_view m !! k = Some v -> (MEMCACHED_SUCCESS, k, v) ∈ rs);
}.

(** [sprintf(ch, "%lu", n)]: the decimal digits of a [uint64_t], which has at
    most 20 of them. *)
Fixpoint lu_digits (fuel : nat) (n : Z) (acc : list Z) : list Z :=
  match fuel with
  | O => acc
  | S fuel =>
      let acc := (48 + n mod 10) :: acc in
      if n / 10 =? 0 then acc else lu_digits fuel (n / 10) acc
  end.
Definition sprintf_lu (n : Z) : list Z := lu_digits 20 n [].

(** [atoll] on a text that starts with a digit; a number that [long long] does not
    hold has no defined result. *)
Fixpoint atoll_from (acc : Z) (bs : list Z) : Z :=
  match bs with
  | [] => acc
  | b :: bs => if (48 <=? b) && (b <=? 57) then atoll_from (10 * acc + (b - 48)) bs else acc
  end.
Definition atoll (bs : list Z) : outcome Z :=
  let n := atoll_from 0 bs in if n <? 2 ^ 63 then Ret n else Abort.

(** A value that spells [n]; the server pads a number that became shorter with
    spaces. *)
Definition counter_text (n : Z) (v : list Z) : Prop :=
  exists pad, v = sprintf_lu n ++ replicate pad 32.

(** The documented behaviour of [memcached_increment] on a counter: it adds, on 64
    bits, to the number the value spells in decimal. *)
Class MemcachedCounterLaws (M : Type) `{MemcachedLaws M} := {
  mc_increment_law : forall m k n d, is_u64 n ->
    (exists v, mc_view m !! k = Some v /\ counter_text n v) ->
    exists m' v', memcached_increment m k d = (m', MEMCACHED_SUCCESS, u64 (n + d)) /\
      counter_text (u64 (n + d)) v' /\ mc_view m' = <[k := v']> (mc_view m);
}.

(** The status the code derives from a return code. *)
Definition status_of (rc : memcached_return) : SoStatus :=
  if decide (rc = MEMCACHED_SUCCESS) then SoOK else SoFail.

(** * One word per key *)

Definition MEMCACHED_FETCH_BATCH : Z := 490.

Module SoStorageMemcached.
Section ops.
Context {M : Type} `{Memcached M}.

Definition memcached_put (memca : M) (k : Z) (v : list Z) : M * memcached_return :=
  memcached_set memca k v.

Definition fetchchunk (memc : M) (k len : Z) : SoStatus * list mresult :=
  let maddr := (fun i => u64 (k + i)) <$> seqZ 0 len in
  let '(rc, results) := memcached_mget memc maddr in
  (status_of rc, results).

(** The body of the [memcached_fetch_result] loop of [MemcachedGetChunk]. *)
Definition store_word (k : Z) (result : mresult) (buf : list Z) : outcome (list Z) :=
  let '(rc, pkey, pvalue) := result in
  if decide (rc = MEMCACHED_SUCCESS)
  then w ← word_at pvalue 0; wr buf (u64 (pkey - k)) w
  else Ret buf.

(** The instance of the template at [T = uint32_t]. The local [ret] is not
    initialised: it is [None] until the first batch, and returning it then has
    no defined value. *)
Definition MemcachedGetChunk (memc : M) (k len : Z) (buf : list Z) : outcome (SoStatus * list Z) :=
  '(_, ret, buf) ← while (S (Z.to_nat len))
    (fun '(offset, _, _) => offset <? len)
    (fun '(offset, _, buf) =>
       let mylen := if u32 (offset + MEMCACHED_FETCH_BATCH) <? len
                    then MEMCACHED_FETCH_BATCH else u32 (len - offset) in
       buf ← memset0 buf offset mylen;
       let '(ret, results) := fetchchunk memc (u64 (k + offset)) mylen in
       buf ← for_each results (store_word k) buf;
       Ret (u32 (offset + MEMCACHED_FETCH_BATCH), Some ret, buf))
    (0, None, buf);
  match ret with Some ret => Ret (ret, buf) | None => Abort end.

Definition getchunk (memc : M) (key fldid len : Z) (buf : list Z) :=
  MemcachedGetChunk memc (MAKE64 key fldid) len buf.

(** A [uint64_t] buffer is the list of its [uint32_t] halves. *)
Definition getchunk64 (memc : M) (key fldid len : Z) (buf : list Z) :=
  getchunk memc key fldid (u32 (len * 2)) buf.

Definition getblock (memc : M) (id : Z) (buf : list Z) :=
  MemcachedGetChunk memc id DSM_CACHE_BLOCK_SIZE buf.

(** The instance at [T = uint32_t]: [bit_cast<uint32_t>] is the identity. *)
Definition MemcachedPutChunk (memc : M) (key fldid len : Z) (buf : list Z) :
    outcome (M * SoStatus) :=
  '(memc, _, ret) ← for_range 0 len (fun i '(memc, k, ret) =>
    v ← rd buf i;
    let '(memc, rc) := memcached_put memc (MAKE64 key k) (bytes_of_word v) in
    Ret (memc, u32 (k + 1), if decide (rc = MEMCACHED_SUCCESS) then ret else SoFail))
    (memc, fldid, SoOK);
  Ret (memc, ret).

Definition putchunk (memc : M) (key fldid len : Z) (buf : list Z) :=
  MemcachedPutChunk memc key fldid len buf.

Definition putchunk64 (memc : M) (key fldid len : Z) (buf : list Z) :=
  putchunk memc key fldid (u32 (len * 2)) buf.

Definition put (memc : M) (key fldid v : Z) : outcome (M * SoStatus) :=
  let '(memc, rc) := memcached_put memc (MAKE64 key fldid) (bytes_of_word v) in
  Ret (memc, if decide (rc = MEMCACHED_SUCCESS) then SoOK else SoFail).

Definition put64 (memc : M) (key fldid v : Z) : outcome (M * SoStatus) :=
  putchunk memc key fldid 2 (words_of_u64 v).

Definition get (memc : M) (key fldid : Z) : outcome Z :=
  let k := MAKE64 key fldid in
  let '(rc, mret) := memcached_get memc k in
  match rc with
  | MEMCACHED_SUCCESS => word_at mret 0
  | MEMCACHED_NOTFOUND => Ret 0
  | _ => Abort
  end.

(** [struct ObjectInfo], packed. *)
Definition ObjectInfo (id size : Z) : list Z := bytes_of_words [id; size].

Definition newobj (memc : M) (key flag size : Z) : M * SoStatus :=
  let k := MAKE64 key 0xFFFFFFFF in
  let '(memc, rc) := memcached_add memc k (ObjectInfo flag size) in
  (memc, if decide (rc = MEMCACHED_SUCCESS) then SoOK else SoFail).

Definition getinfo (memc : M) (key : Z) (out : Z * Z) : outcome (SoStatus * (Z * Z)) :=
  let k := MAKE64 key 0xFFFFFFFF in
  let '(rc, mret) := memcached_get memc k in
  if decide (rc = MEMCACHED_SUCCESS)
  then flag ← word_at mret 0; size ← word_at mret 1; Ret (SoOK, (flag, size))
  else Ret (SoFail, out).

(** [throw 1] ends the operation without a result. *)
Definition getcounter (memc : M) (key fldid : Z) : outcome Z :=
  let '(rc, return_value) := memcached_get memc (MAKE64 key fldid) in
  if decide (rc = MEMCACHED_SUCCESS) then n ← atoll return_value; Ret (u64 n) else Abort.

Definition setcounter (memc : M) (key fldid n : Z) : M * SoStatus :=
  let '(memc, rc) := memcached_set memc (MAKE64 key fldid) (sprintf_lu n) in
  (memc, if decide (rc = MEMCACHED_SUCCESS) then SoOK else SoFail).

Definition inc (memc : M) (key fldid inc : Z) : outcome (M * Z) :=
  let '(memc, rc, ret) := memcached_increment memc (MAKE64 key fldid) inc in
  if decide (rc = MEMCACHED_SUCCESS) then Ret (memc, ret) else Abort.

Definition dec (memc : M) (key fldid dec : Z) : outcome (M * Z) :=
  let '(memc, rc, ret) := memcached_increment memc (MAKE64 key fldid) dec in
  if decide (rc = MEMCACHED_SUCCESS) then Ret (memc, ret) else Abort.

(** When [getinfo] fails, the bound of the loop is an uninitialised variable. *)
Definition del (memc : M) (key : Z) : outcome (M * SoStatus) :=
  '(st, (_, size)) ← getinfo memc key (0, 0);
  if decide (st = SoOK) then
    memc ← for_range 0 size (fun i memc =>
      Ret (fst (memcached_delete memc (MAKE64 key i)))) memc;
    Ret (fst (memcached_delete memc (MAKE64 key 0xFFFFFFFF)), SoOK)
  else Abort.
End ops.
End SoStorageMemcached.

(** * One block of 32 words per key *)

Definition CHUNK_MEMCACHED_FETCH_BATCH : Z := 15000.

Module SoStorageChunkMemcached.
Import SoStorageMemcached.
Section ops.
Context {M : Type} `{Memcached M}.

Definition fetchchunk2 (memc : M) (k len : Z) : SoStatus * list mresult :=
  let true_len := len / DSM_CACHE_BLOCK_SIZE +
                  (if len mod DSM_CACHE_BLOCK_SIZE =? 0 then 0 else 1) in
  let maddr := (fun i => u64 (k + i)) <$> seqZ 0 true_len in
  let '(rc, results) := memcached_mget memc maddr in
  (status_of rc, results).

(** The body of the fetch loop of [getblock]. *)
Definition store_block (result : mresult) (buf : list Z) : outcome (list Z) :=
  let '(rc, pkey, pvalue) := result in
  if decide (rc = MEMCACHED_SUCCESS)
  then for_range 0 DSM_CACHE_BLOCK_SIZE (fun i buf => w ← word_at pvalue i; wr buf i w) buf
  else Ret buf.

Definition getblock (memc : M) (addr : Z) (buf : list Z) : outcome (SoStatus * list Z) :=
  let k := Z.lor (Z.land addr 0xffffffff00000000)
                 (Z.land addr 0xffffffff / DSM_CACHE_BLOCK_SIZE) in
  buf ← memset0 buf 0 DSM_CACHE_BLOCK_SIZE;
  let '(ret, results) := fetchchunk2 memc k DSM_CACHE_BLOCK_SIZE in
  buf ← for_each results store_block buf;
  Ret (ret, buf).

Definition get (memc : M) (key fldid : Z) : outcome Z :=
  let k := MAKE64 key fldid in
  '(_, buf) ← getblock memc k (replicate (Z.to_nat DSM_CACHE_BLOCK_SIZE) 0);
  rd buf (Z.land k DSM_CACHE_LOW_MASK_64).

(** The inner loop of [do_getchunk]: words [i ..] of a block go to [buf[j ..]];
    the buffer argument of [do_getchunk] is [buf + b]. *)
Definition copy_part (pvalue : list Z) (len b i j : Z) (buf : list Z) : outcome (list Z) :=
  '(_, _, buf) ← while 33
    (fun '(i, j, _) => (i <? DSM_CACHE_BLOCK_SIZE) && (j <? len))
    (fun '(i, j, buf) =>
       w ← word_at pvalue i;
       buf ← wr buf (b + j) w;
       Ret (i + 1, u32 (j + 1), buf)) (i, j, buf);
  Ret buf.

(** The body of the fetch loop of [do_getchunk]. *)
Definition store_part (k offset len b : Z) (result : mresult) (buf : list Z) :
    outcome (list Z) :=
  let '(rc, pkey, pvalue) := result in
  if decide (rc = MEMCACHED_SUCCESS) then
    let idx := u32 (pkey - k) in
    let i := if idx =? 0 then offset else 0 in
    let j := u32 (idx * DSM_CACHE_BLOCK_SIZE + i - offset) in
    copy_part pvalue len b i j buf
  else Ret buf.

Definition do_getchunk (memc : M) (key fldid len : Z) (buf : list Z) (b : Z) :
    outcome (SoStatus * list Z) :=
  let k := MAKE64 key (fldid / DSM_CACHE_BLOCK_SIZE) in
  buf ← memset0 buf b len;
  let offset := fldid mod DSM_CACHE_BLOCK_SIZE in
  let '(ret, results) := fetchchunk2 memc k (u32 (len + offset)) in
  buf ← for_each results (store_part k offset len b) buf;
  Ret (ret, buf).

(** The locals of the loop are [l], whether [SoFail] has been returned, and the
    buffer. *)
Definition splited_getchunk (memc : M) (key fldid len : Z) (buf : list Z) :
    outcome (SoStatus * list Z) :=
  '(l, failed, buf) ←
    (if CHUNK_MEMCACHED_FETCH_BATCH <=? len then
       let limit := u32 (u32 (fldid + len) - CHUNK_MEMCACHED_FETCH_BATCH) in
       while (S (Z.to_nat len))
         (fun '(l, failed, _) => negb failed && (l <? limit))
         (fun '(l, failed, buf) =>
            '(st, buf) ← do_getchunk memc key l CHUNK_MEMCACHED_FETCH_BATCH buf (u32 (l - fldid));
            if decide (st = SoOK)
            then Ret (u32 (l + CHUNK_MEMCACHED_FETCH_BATCH), false, buf)
            else Ret (l, true, buf)) (fldid, false, buf)
     else Ret (fldid, false, buf));
  if (failed : bool) then Ret (SoFail, buf) else
  let remain := u32 (u32 (fldid + len) - l) in
  if remain =? 0 then Ret (SoOK, buf)
  else do_getchunk memc key l remain buf (u32 (l - fldid)).

Definition getchunk (memc : M) (key fldid len : Z) (buf : list Z) :=
  splited_getchunk memc key fldid len buf.

Definition getchunk64 (memc : M) (key fldid len : Z) (buf : list Z) :=
  splited_getchunk memc key fldid (u32 (len * 2)) buf.

(** [memcached_put] of a block: the status is only ever lowered. *)
Definition put_block (memc : M) (k : Z) (ws : list Z) (ret : SoStatus) : M * SoStatus :=
  let '(memc, rc) := memcached_put memc k (bytes_of_words ws) in
  (memc, if decide (rc = MEMCACHED_SUCCESS) then ret else SoFail).

(** The body of the two loops that overlay words of [buf] on a block. *)
Definition fill_step (buf : list Z) (locals : Z * Z * list Z) : outcome (Z * Z * list Z) :=
  let '(i, idx, var) := locals in
  x ← rd buf idx;
  var ← wr var (Z.land i DSM_CACHE_LOW_MASK) x;
  Ret (u32 (i + 1), u32 (idx + 1), var).

(** The three parts of [putchunk]: the words up to the first block boundary, the
    whole blocks, and the words after the last boundary. [i] and [idx] are the
    field and the buffer index the next part starts from; a partial block is
    read back with [getblock] first, whose status is not looked at. *)
Definition putchunk_head (memc : M) (key k k_start k_tail : Z) (buf : list Z) :
    outcome (M * SoStatus * Z) :=
  if k <? k_start then
    '(_, var) ← getblock memc (MAKE64 key k) (replicate (Z.to_nat DSM_CACHE_BLOCK_SIZE) 0);
    '(_, idx, var) ← while 33
      (fun '(i, _, _) => (i <? k_start) && (i <? k_tail))
      (fill_step buf) (k, 0, var);
    let '(memc, ret) := put_block memc (MAKE64 key (k / DSM_CACHE_BLOCK_SIZE)) var SoOK in
    Ret (memc, ret, idx)
  else Ret (memc, SoOK, 0).

Definition putchunk_blocks (memc : M) (key k_start k_end len : Z) (buf : list Z)
    (ret : SoStatus) (idx : Z) : outcome (M * SoStatus * Z * Z) :=
  while (S (Z.to_nat len))
    (fun '(_, _, _, i) => i <? k_end)
    (fun '(memc, ret, idx, i) =>
       ws ← rd_range buf idx DSM_CACHE_BLOCK_SIZE;
       let '(memc, ret) := put_block memc (MAKE64 key (i / DSM_CACHE_BLOCK_SIZE)) ws ret in
       Ret (memc, ret, u32 (idx + DSM_CACHE_BLOCK_SIZE), u32 (i + DSM_CACHE_BLOCK_SIZE)))
    (memc, ret, idx, k_start).

Definition putchunk_tail (memc : M) (key k_end k_tail len : Z) (buf : list Z)
    (ret : SoStatus) (idx i : Z) : outcome (M * SoStatus) :=
  if (idx <? len) && negb (k_end =? k_tail) then
    '(_, var) ← getblock memc (MAKE64 key k_end) (replicate (Z.to_nat DSM_CACHE_BLOCK_SIZE) 0);
    '(_, _, var) ← while 33
      (fun '(i, _, _) => i <? k_tail)
      (fill_step buf) (i, idx, var);
    let '(memc, ret) := put_block memc (MAKE64 key (k_end / DSM_CACHE_BLOCK_SIZE)) var ret in
    Ret (memc, ret)
  else Ret (memc, ret).

Definition putchunk (memc : M) (key fldid len : Z) (buf : list Z) : outcome (M * SoStatus) :=
  let k := fldid in
  let k_tail := u32 (k + len) in
  let k_start := if Z.land k DSM_CACHE_LOW_MASK =? 0 then k
                 else u32 (Z.land k DSM_CACHE_HIGH_MASK + DSM_CACHE_BLOCK_SIZE) in
  let k_end := Z.land k_tail DSM_CACHE_HIGH_MASK in
  '(memc, ret, idx) ← putchunk_head memc key k k_start k_tail buf;
  '(memc, ret, idx, i) ← putchunk_blocks memc key k_start k_end len buf ret idx;
  putchunk_tail memc key k_end k_tail len buf ret idx i.

Definition putchunk64 (memc : M) (key fldid len : Z) (buf : list Z) :=
  putchunk memc key fldid (u32 (len * 2)) buf.

Definition put (memc : M) (key fldid v : Z) : outcome (M * SoStatus) :=
  putchunk memc key fldid 1 [v].

Definition put64 (memc : M) (key fldid v : Z) : outcome (M * SoStatus) :=
  putchunk memc key fldid 2 (words_of_u64 v).

Definition del (memc : M) (key : Z) : outcome (M * SoStatus) :=
  '(st, (_, size)) ← getinfo memc key (0, 0);
  if decide (st = SoOK) then
    let cnt := if size mod DSM_CACHE_BLOCK_SIZE =? 0 then size / DSM_CACHE_BLOCK_SIZE
               else size / DSM_CACHE_BLOCK_SIZE + 1 in
    memc ← for_range 0 cnt (fun i memc =>
      Ret (fst (memcached_delete memc (MAKE64 key i)))) memc;
    Ret (fst (memcached_delete memc (MAKE64 key 0xFFFFFFFF)), SoOK)
  else Abort.
End ops.
End SoStorageChunkMemcached.

(** * The two back ends as instances of the storage interface *)

Section instances.
Context {M : Type} `{Memcached M}.

(** Constructors that select a class, as [SoStorageFactory::make] does. *)
Record word_store := WordStore { word_client : M }.
Record chunk_store := ChunkStore { chunk_client : M }.

Definition lift_word (r : outcome (M * SoStatus)) : outcome (word_store * SoStatus) :=
  '(m, st) ← r; Ret (WordStore m, st).
Definition lift_chunk (r : outcome (M * SoStatus)) : outcome (chunk_store * SoStatus) :=
  '(m, st) ← r; Ret (ChunkStore m, st).

#[export] Instance word_SoStorage : SoStorage word_store := {
  so_del s o := lift_word (SoStorageMemcached.del (word_client s) o);
  so_newobj s o fl sz :=
    let '(m, st) := SoStorageMemcached.newobj (word_client s) o fl sz in (WordStore m, st);
  so_getinfo s o out := SoStorageMemcached.getinfo (word_client s) o out;
  so_put64 s o f v := lift_word (SoStorageMemcached.put64 (word_client s) o f v);
  so_put s o f v := lift_word (SoStorageMemcached.put (word_client s) o f v);
  so_get s o f := SoStorageMemcached.get (word_client s) o f;
  so_getchunk64 s o f n b := SoStorageMemcached.getchunk64 (word_client s) o f n b;
  so_getchunk s o f n b := SoStorageMemcached.getchunk (word_client s) o f n b;
  so_putchunk64 s o f n b := lift_word (SoStorageMemcached.putchunk64 (word_client s) o f n b);
  so_putchunk s o f n b := lift_word (SoStorageMemcached.putchunk (word_client s) o f n b);
  so_getblock s a b := SoStorageMemcached.getblock (word_client s) a b;
}.

#[export] Instance chunk_SoStorage : SoStorage chunk_store := {
  so_del s o := lift_chunk (SoStorageChunkMemcached.del (chunk_client s) o);
  so_newobj s o fl sz :=
    let '(m, st) := SoStorageMemcached.newobj (chunk_client s) o fl sz in (ChunkStore m, st);
  so_getinfo s o out := SoStorageMemcached.getinfo (chunk_client s) o out;
  so_put64 s o f v := lift_chunk (SoStorageChunkMemcached.put64 (chunk_client s) o f v);
  so_put s o f v := lift_chunk (SoStorageChunkMemcached.put (chunk_client s) o f v);
  so_get s o f := SoStorageChunkMemcached.get (chunk_client s) o f;
  so_getchunk64 s o f n b := SoStorageChunkMemcached.getchunk64 (chunk_client s) o f n b;
  so_getchunk s o f n b := SoStorageChunkMemcached.getchunk (chunk_client s) o f n b;
  so_putchunk64 s o f n b := lift_chunk (SoStorageChunkMemcached.putchunk64 (chunk_client s) o f n b);
  so_putchunk s o f n b := lift_chunk (SoStorageChunkMemcached.putchunk (chunk_client s) o f n b);
  so_getblock s a b := SoStorageChunkMemcached.getblock (chunk_client s) a b;
}.
End instances.
Arguments word_store M : clear implicits.
Arguments chunk_store M : clear implicits.

(** * A concrete server: a finite map that accepts everything *)

Module MapServer.
Abbreviation server := (gmap Z (list Z)).

#[export] Instance server_memcached : Memcached server := {
  memcached_set m k v := (<[k := v]> m, MEMCACHED_SUCCESS);
  memcached_add m k v :=
    match m !! k with
    | Some _ => (m, MEMCACHED_FAILURE)
    | None => (<[k := v]> m, MEMCACHED_SUCCESS)
    end;
  memcached_delete m k :=
    (delete k m, match m !! k with Some _ => MEMCACHED_SUCCESS | None => MEMCACHED_NOTFOUND end);
  memcached_get m k :=
    match m !! k with Some v => (MEMCACHED_SUCCESS, v) | None => (MEMCACHED_NOTFOUND, []) end;
  memcached_mget m ks :=
    (MEMCACHED_SUCCESS,
     omap (fun k => (fun v => (MEMCACHED_SUCCESS, k, v)) <$> m !! k) ks);
  memcached_increment m k d :=
    match m !! k with
    | Some v => let r := u64 (atoll_from 0 v + d) in
        (<[k := sprintf_lu r]> m, MEMCACHED_SUCCESS, r)
    | None => (m, MEMCACHED_NOTFOUND, 0)
    end;
}.
End MapServer.
