(* ===== verification/MemcachedFacts.v ===== *)
(** What the two back ends of Memcached.v guarantee: each represents a memory of
    words that reads return and writes update (the [SoStorageLaws] instances), and
    the properties that follow for any sequence of operations. *)
From S2P Require Import Prelude Storage Memcached.

Ltac Zify.zify_post_hook ::= Z.to_euclidean_division_equations.

(** * Lemmas on stored values *)

Definition is_u8 (b : Z) : Prop := 0 <= b < 256.

(** The word the code reads at index [i] of the value under a key; absent values
    read as zero. *)
Definition val_word (v : option (list Z)) (i : Z) : Z :=
  match v with
  | Some bs => match word_at bs i with Ret w => w | _ => 0 end
  | None => 0
  end.

#[global] Arguments val_word : simpl never.

Lemma bytes_of_word_u8 w : Forall is_u8 (bytes_of_word w).
Proof. repeat constructor; apply Z.mod_pos_bound; lia. Qed.

Lemma bytes_of_words_u8 ws : Forall is_u8 (bytes_of_words ws).
Proof.
  induction ws as [|w ws IH]; [constructor|].
  rewrite bytes_of_words_cons. apply Forall_app. split; [apply bytes_of_word_u8|done].
Qed.

Lemma word_at_u32 bs i w : Forall is_u8 bs -> word_at bs i = Ret w -> is_u32 w.
Proof.
  intros Hbs Hw. unfold word_at in Hw. apply bind_Ret_inv in Hw as (l & Hl & Hw).
  assert (Forall is_u8 l) as Hl8.
  { unfold rd_range in Hl. case_test in Hl; [|discriminate]. injection Hl as <-.
    by apply Forall_take, Forall_drop. }
  destruct l as [|b0 [|b1 [|b2 [|b3 [|]]]]]; try discriminate. injection Hw as <-.
  apply Forall_cons in Hl8 as [? Hl8]. apply Forall_cons in Hl8 as [? Hl8].
  apply Forall_cons in Hl8 as [? Hl8]. apply Forall_cons in Hl8 as [? Hl8].
  unfold is_u8, is_u32 in *. lia.
Qed.

Lemma val_word_u32 v i :
  (forall bs, v = Some bs -> Forall is_u8 bs) -> is_u32 (val_word v i).
Proof.
  intros H. unfold val_word. destruct v as [bs|]; [|ranges].
  destruct (word_at bs i) eqn:Hw; [|ranges..]. eapply word_at_u32; [|done]. by apply H.
Qed.

Lemma word_at_val_word bs i : 0 <= i -> 4 * i + 4 <= zlen bs ->
  word_at bs i = Ret (val_word (Some bs) i).
Proof. intros. destruct (word_at_total bs i) as [w Hw]; [done..|]. unfold val_word. by rewrite Hw. Qed.

Lemma val_word_bytes ws i w :
  Forall is_u32 ws -> ws.[i] = Some w -> val_word (Some (bytes_of_words ws)) i = w.
Proof. intros. unfold val_word. by rewrite (word_at_bytes_of_words ws i w). Qed.

Lemma bytes_of_words_one w : bytes_of_words [w] = bytes_of_word w.
Proof. unfold bytes_of_words. simpl. done. Qed.

Lemma elem_of_keys k n x : 0 <= k -> 0 <= n -> k + n <= 2 ^ 64 ->
  x ∈ ((fun i => u64 (k + i)) <$> seqZ 0 n) <-> k <= x < k + n.
Proof.
  intros Hk Hn Hkn. rewrite list_elem_of_fmap. setoid_rewrite elem_of_seqZ. split.
  - intros (i & -> & Hi). rewrite u64_small by ranges. lia.
  - intros Hx. exists (x - k). rewrite u64_small by ranges. lia.
Qed.

(** * The word back end *)

Section word_lemmas.
Context {M : Type} `{MemcachedLaws M}.
Import SoStorageMemcached.

Lemma fetchchunk_spec memc k n : 0 <= k -> 0 <= n -> k + n <= 2 ^ 64 ->
  exists rs, fetchchunk memc k n = (SoOK, rs) /\
    (forall x v, (MEMCACHED_SUCCESS, x, v) ∈ rs -> k <= x < k + n /\ mc_view memc !! x = Some v) /\
    (forall x v, k <= x < k + n -> mc_view memc !! x = Some v -> (MEMCACHED_SUCCESS, x, v) ∈ rs).
Proof.
  intros Hk Hn Hkn. unfold fetchchunk.
  destruct (mc_mget_law memc ((fun i => u64 (k + i)) <$> seqZ 0 n)) as (rs & -> & Hs & Hc).
  exists rs. split; [done|]. split.
  - intros x v Hin. destruct (Hs _ _ Hin) as [Hx Hv]. split; [|done].
    by apply elem_of_keys in Hx.
  - intros x v Hx Hv. apply Hc; [|done]. by apply elem_of_keys.
Qed.

(** Storing the fetched words of keys [k + off .. k + off + n - 1] in a buffer
    that is zero there. *)
Lemma store_results_spec memc k off n rs buf :
  0 <= k -> 0 <= off -> k + off + n <= 2 ^ 64 -> off + n <= zlen buf ->
  (forall x v, (MEMCACHED_SUCCESS, x, v) ∈ rs ->
     k + off <= x < k + off + n /\ mc_view memc !! x = Some v) ->
  (forall x v, k + off <= x < k + off + n -> mc_view memc !! x = Some v ->
     (MEMCACHED_SUCCESS, x, v) ∈ rs) ->
  (forall j v, off <= j < off + n -> mc_view memc !! (k + j) = Some v -> 4 <= zlen v) ->
  (forall j, off <= j < off + n -> buf.[j] = Some 0) ->
  exists buf', for_each rs (store_word k) buf = Ret buf' /\
    zlen buf' = zlen buf /\
    forall j, buf'.[j] = if (off <=? j) && (j <? off + n)
                         then Some (val_word (mc_view memc !! (k + j)) 0) else buf.[j].
Proof.
  intros Hk Hoff Hlim Hlen Hsound Hcompl Hwf Hzero.
  destruct (for_each_rule (fun pre b => zlen b = zlen buf /\ forall j,
    (off <= j < off + n ->
       (b.[j] = Some 0 \/ b.[j] = Some (val_word (mc_view memc !! (k + j)) 0)) /\
       (forall v, (MEMCACHED_SUCCESS, k + j, v) ∈ pre ->
          b.[j] = Some (val_word (mc_view memc !! (k + j)) 0))) /\
    (~ off <= j < off + n -> b.[j] = buf.[j])) rs (store_word k) buf) as (buf' & Hloop & Hl & Hb).
  3: { exists buf'. split; [exact Hloop|]. split; [done|]. intros j.
       destruct (Hb j) as [Hin Hout].
       destruct ((off <=? j) && (j <? off + n)) eqn:Hj; [|apply Hout; lia].
       destruct Hin as [Hin Hin']; [lia|].
       destruct (mc_view memc !! (k + j)) as [v|] eqn:Hv.
       - apply (Hin' v). apply Hcompl; [lia|done].
       - by destruct Hin as [-> | ->]. }
  - intros pre [[rc pkey] pvalue] post b -> (Hbl & Hb). unfold store_word.
    destruct (decide (rc = MEMCACHED_SUCCESS)) as [->|Hne].
    + destruct (Hsound pkey pvalue) as [Hpk Hpv]; [apply elem_of_app; right; left|].
      assert (0 <= pkey - k < 2 ^ 64) as Hr by lia.
      rewrite u64_small by ranges.
      assert (4 <= zlen pvalue) as Hpl by (apply (Hwf (pkey - k)); [lia|];
        by replace (k + (pkey - k)) with pkey by lia).
      rewrite word_at_val_word by lia.
      rewrite bind_ret.
      destruct (wr_ok b (pkey - k) (val_word (Some pvalue) 0)) as (b' & -> & Hl' & Hb');
        [lia|].
      exists b'. split; [done|]. split; [lia|]. intros j. rewrite Hb'.
      destruct (Hb j) as [Hin Hout]. split.
      * intros Hj. destruct (j =? pkey - k) eqn:Hjp.
        -- assert (k + j = pkey) as -> by lia. rewrite Hpv. auto.
        -- destruct (Hin Hj) as [H1 H2]. split; [done|]. intros v.
           rewrite elem_of_app, list_elem_of_singleton. intros [?|[=]]; [eauto|lia].
      * intros Hj. destruct (j =? pkey - k) eqn:Hjp; [lia|]. by apply Hout.
    + exists b. split; [done|]. split; [done|]. intros j. destruct (Hb j) as [Hin Hout].
      split; [|done]. intros Hj. destruct (Hin Hj) as [H1 H2]. split; [done|].
      intros v. rewrite elem_of_app, list_elem_of_singleton. intros [?|[=]]; [eauto|congruence].
  - split; [done|]. intros j. split; [|done]. intros Hj. split; [left; by apply Hzero|].
    intros v Hv. by apply not_elem_of_nil in Hv.
Qed.

Lemma MemcachedGetChunk_spec memc k len buf :
  0 <= k -> 0 < len -> k + len <= 2 ^ 64 -> len + MEMCACHED_FETCH_BATCH <= 2 ^ 32 ->
  len <= zlen buf ->
  (forall j v, 0 <= j < len -> mc_view memc !! (k + j) = Some v -> 4 <= zlen v) ->
  exists buf', MemcachedGetChunk memc k len buf = Ret (SoOK, buf') /\ zlen buf' = zlen buf /\
    forall j, buf'.[j] = if (0 <=? j) && (j <? len)
                         then Some (val_word (mc_view memc !! (k + j)) 0) else buf.[j].
Proof.
  intros Hk Hlen Hlim Hbatch Hbuf Hwf. unfold MemcachedGetChunk, MEMCACHED_FETCH_BATCH in *.
  edestruct (while_rule (fun '(offset, ret, b) => 0 <= offset < len + 490 /\
      zlen b = zlen buf /\ ret = (if offset =? 0 then None else Some SoOK) /\
      forall j, b.[j] = if (0 <=? j) && (j <? Z.min offset len)
                        then Some (val_word (mc_view memc !! (k + j)) 0) else buf.[j])
    (fun '(offset, _, _) => Z.to_nat (len - offset)))
    as ([[offset ret] b] & -> & (Hoff & Hbl & -> & Hb) & Hend).
  4: { rewrite bind_ret. apply Z.ltb_ge in Hend.
       destruct (Z.eqb_spec offset 0); [lia|]. exists b. split; [done|]. split; [done|].
       intros j. rewrite Hb. by rewrite Z.min_r by lia. }
  - intros [[offset ret] b] (Hoff & Hbl & _ & Hb) Hc%Z.ltb_lt.
    set (mylen := if u32 (offset + 490) <? len then 490 else u32 (len - offset)).
    assert (mylen = Z.min 490 (len - offset)) as Hmy.
    { unfold mylen. rewrite !u32_small by ranges. case_test; lia. }
    destruct (memset0_ok b offset mylen) as (b1 & -> & Hl1 & Hb1); [lia..|]. rewrite bind_ret.
    rewrite (u64_small (k + offset)) by ranges.
    destruct (fetchchunk_spec memc (k + offset) mylen) as (rs & -> & Hs & Hcp); [lia..|].
    destruct (store_results_spec memc k offset mylen rs b1) as (b2 & -> & Hl2 & Hb2);
      [lia..|done|done| | |].
    + intros j v Hj. apply Hwf. lia.
    + intros j Hj. rewrite Hb1. case_test; [done|lia].
    + rewrite bind_ret. rewrite u32_small by ranges. eexists. split; [done|]. split; [|lia].
      split; [lia|]. split; [lia|]. split; [by case_test; [lia|]|].
      intros j. rewrite Hb2, Hb1, Hb. repeat case_test; try lia; done.
  - split; [lia|]. split; [done|]. split; [done|]. intros j. rewrite Z.min_l by lia.
    by case_test; [lia|].
  - simpl. lia.
Qed.
End word_lemmas.

Section word_laws.
Context {M : Type} `{MemcachedLaws M}.
Import SoStorageMemcached.

(** The memory the word back end represents, and what its values look like. *)
Definition word_mem (s : word_store M) (o f : Z) : Z :=
  val_word (mc_view (word_client s) !! MAKE64 o f) 0.

Definition word_ok (s : word_store M) : Prop :=
  forall o f v, is_u32 o -> 0 <= f < MAX_FIELD ->
    mc_view (word_client s) !! MAKE64 o f = Some v -> zlen v = 4 /\ Forall is_u8 v.

Lemma word_mem_u32 s o f : word_ok s -> is_u32 o -> 0 <= f < MAX_FIELD -> is_u32 (word_mem s o f).
Proof. intros Hok Ho Hf. apply val_word_u32. intros bs Hbs. by apply (Hok o f). Qed.

Lemma word_get_law s o f : word_ok s -> is_u32 o -> 0 <= f < MAX_FIELD ->
  so_get s o f = Ret (word_mem s o f).
Proof.
  intros Hok Ho Hf. simpl. unfold get, word_mem.
  pose proof (mc_get_law (word_client s) (MAKE64 o f)) as Hg.
  destruct (mc_view (word_client s) !! MAKE64 o f) as [v|] eqn:Hv.
  - rewrite Hg. apply word_at_val_word; [done|]. destruct (Hok o f v) as [-> _]; [done..|lia].
  - destruct (memcached_get _ _) as [rc r]. simpl in Hg. by subst rc.
Qed.

Lemma word_GetChunk_law s o f len buf : word_ok s -> range_ok o f len -> len <= zlen buf ->
  0 < len -> exists buf', MemcachedGetChunk (word_client s) (MAKE64 o f) len buf = Ret (SoOK, buf') /\
    zlen buf' = zlen buf /\
    forall j, buf'.[j] = if (0 <=? j) && (j <? len) then Some (word_mem s o (f + j)) else buf.[j].
Proof.
  intros Hok (Ho & Hf & Hl & Hfl) Hbuf Hpos. unfold MAX_FIELD in *.
  assert (forall j, 0 <= j < len -> MAKE64 o f + j = MAKE64 o (f + j)) as Hk.
  { intros j Hj. rewrite !MAKE64_add by ranges. lia. }
  destruct (MemcachedGetChunk_spec (word_client s) (MAKE64 o f) len buf) as (b & Hb & Hbl & Hbj);
    unfold MEMCACHED_FETCH_BATCH; [rewrite MAKE64_add by ranges; ranges|done|
      rewrite MAKE64_add by ranges; ranges|lia|done| |].
  - intros j v Hj. rewrite Hk by done. intros Hv. unfold MAX_FIELD in Hok.
    destruct (Hok o (f + j) v) as [-> _]; [done|unfold MAX_FIELD; lia|done|lia].
  - exists b. split; [done|]. split; [done|]. intros j. rewrite Hbj. case_test; [|done].
    unfold word_mem. by rewrite Hk by lia.
Qed.

(** One [memcached_put] of a word. *)
Lemma word_put_step m o f v m' rc :
  word_ok (WordStore m) -> is_u32 o -> 0 <= f < MAX_FIELD -> is_u32 v ->
  memcached_put m (MAKE64 o f) (bytes_of_word v) = (m', rc) ->
  word_ok (WordStore m') /\
  forall o' f', is_u32 o' -> 0 <= f' < MAX_FIELD ->
    word_mem (WordStore m') o' f' =
    if (o' =? o) && (f' =? f) then (if decide (rc = MEMCACHED_SUCCESS) then v
                                    else word_mem (WordStore m) o' f')
    else word_mem (WordStore m) o' f'.
Proof.
  intros Hok Ho Hf Hv Hput. apply mc_set_law in Hput. unfold MAX_FIELD in *.
  unfold word_mem, word_ok in *. simpl in *. rewrite Hput.
  destruct (decide (rc = MEMCACHED_SUCCESS)) as [->|Hne].
  2: { split; [done|]. intros. by case_test. }
  rewrite <-bytes_of_words_one. split.
  - intros o' f' w Ho' Hf' Hw. rewrite lookup_insert in Hw. case_decide; [|by apply (Hok o' f')].
    assert (w = bytes_of_words [v]) as -> by congruence.
    split; [by rewrite zlen_bytes_of_words|apply bytes_of_words_u8].
  - intros o' f' Ho' Hf'. rewrite lookup_insert. case_decide as Hk.
    + apply MAKE64_inj in Hk as [<- <-]; [|ranges..]. rewrite !Z.eqb_refl. cbn [andb].
      apply (val_word_bytes [v] 0); [by apply Forall_singleton|done].
    + destruct (Z.eqb_spec o' o) as [->|]; [|done]. destruct (Z.eqb_spec f' f) as [->|]; done.
Qed.

Lemma word_putchunk_law s o f len buf : word_ok s -> range_ok o f len -> len <= zlen buf ->
  Forall is_u32 buf ->
  exists s' st, so_putchunk s o f len buf = Ret (s', st) /\ word_ok s' /\
    written (word_mem s) (word_mem s') o f len buf st.
Proof.
  intros Hok (Ho & Hf & Hl & Hfl) Hbuf Hu. destruct s as [m]. unfold MAX_FIELD in *.
  simpl. unfold putchunk, MemcachedPutChunk.
  edestruct (for_range_rule (fun i '(m', k, ret) => k = f + i /\ word_ok (WordStore m') /\
    written (word_mem (WordStore m)) (word_mem (WordStore m')) o f i buf ret) 0 len)
    as ([[m' k] ret] & -> & (-> & Hok' & Hw)).
  4: { rewrite bind_ret. eauto. }
  - done.
  - intros i [[m1 k] ret] Hi (-> & Hok1 & Hw1).
    destruct (zlook_is_Some buf i) as [v Hv]; [lia|]. rewrite (rd_ok _ _ _ Hv), bind_ret.
    destruct (memcached_put m1 (MAKE64 o (f + i)) (bytes_of_word v)) as [m2 rc] eqn:Hput.
    destruct (word_put_step m1 o (f + i) v m2 rc) as [Hok2 Hm2];
      [done|done|unfold MAX_FIELD; lia|by eapply zlook_Forall|done|].
    eexists. split; [done|]. split; [rewrite u32_small by ranges; lia|]. split; [done|].
    intros o' f' Ho' Hf'. specialize (Hw1 o' f' Ho' Hf'). rewrite (Hm2 o' f') by done.
    destruct (Z.eqb_spec o' o) as [->|Hoo]; simpl in *; [|done].
    destruct (Z.eqb_spec f' (f + i)) as [->|Hff].
    + rewrite (proj2 (andb_true_iff _ _)) by lia.
      rewrite (proj2 (andb_false_iff _ _)) in Hw1 by lia.
      replace (f + i - f) with i by lia. rewrite Hv.
      destruct (decide (rc = MEMCACHED_SUCCESS)); [by auto|]. split; [done|by left].
    + destruct ((f <=? f') && (f' <? f + i)) eqn:Hin.
      * rewrite (proj2 (andb_true_iff _ _)) by lia. destruct Hw1 as [H1 H2].
        split; [|done]. intros Hst. apply H1. by case_decide.
      * rewrite (proj2 (andb_false_iff _ _)) by lia. done.
  - split; [lia|]. split; [done|]. intros o' f' Ho' Hf'.
    case_test; [lia|done].
Qed.

#[export] Instance word_SoStorageLaws : SoStorageLaws (word_store M).
Proof.
  refine {| so_ok := word_ok; so_mem := word_mem |}.
  - exact word_mem_u32.
  - exact word_get_law.
  - intros s o f len buf. exact (word_GetChunk_law s o f len buf).
  - intros s o f buf Hok Ho Hf Hb _ Hlen.
    destruct (word_GetChunk_law s o f DSM_CACHE_BLOCK_SIZE buf) as (b & Hg & Hl & Hj);
      [done|by split; [|split; [|split]]|by rewrite Hlen|done|].
    exists b. split; [done|]. split; [done|]. intros j Hj'. rewrite Hj.
    by rewrite (proj2 (andb_true_iff _ _)) by lia.
  - exact word_putchunk_law.
  - intros [m] o f v. simpl. unfold put, putchunk, MemcachedPutChunk.
    change (for_range 0 1 ?b ?x) with (y ← b 0 x; Ret y). cbn [rd].
    change (rd [v] 0) with (Ret v). rewrite !bind_ret.
    by destruct (memcached_put m (MAKE64 o f) (bytes_of_word v)) as [m' rc].
  - done.
  - done.
  - done.
Defined.
End word_laws.

(** * The block back end *)

Lemma addr_high o f : is_u32 o -> is_u32 f ->
  Z.lor (Z.land (MAKE64 o f) 0xffffffff00000000)
        (Z.land (MAKE64 o f) 0xffffffff / DSM_CACHE_BLOCK_SIZE) = MAKE64 o (f / 32).
Proof.
  intros Ho Hf. rewrite block_size_32.
  change 0xffffffff with (Z.ones 32). rewrite Z.land_ones by lia.
  change 0xffffffff00000000 with (Z.shiftl (Z.ones 32) 32).
  rewrite MAKE64_add by done.
  replace ((o * 2 ^ 32 + f) mod 2 ^ 32) with f
    by (rewrite Z.add_comm, Z.mod_add by lia; rewrite Z.mod_small; ranges).
  unfold MAKE64. f_equal. apply Z.bits_inj'. intros n Hn. rewrite Z.land_spec.
  destruct (Z.ltb_spec n 32).
  { rewrite !Z.shiftl_spec_low by lia. apply andb_false_r. }
  rewrite !Z.shiftl_spec by lia.
  replace (Z.testbit (o * 2 ^ 32 + f) n) with (Z.testbit o (n - 32)).
  - destruct (Z.ltb_spec (n - 32) 32).
    + rewrite Z.ones_spec_low by lia. apply andb_true_r.
    + unfold is_u32 in Ho. rewrite <-(Z.mod_small o (2 ^ 32)) by lia.
      rewrite Z.mod_pow2_bits_high by lia. done.
  - replace (Z.testbit (o * 2 ^ 32 + f) n)
      with (Z.testbit (Z.shiftr (o * 2 ^ 32 + f) 32) (n - 32))
      by (rewrite Z.shiftr_spec by lia; f_equal; lia).
    rewrite Z.shiftr_div_pow2, Z.add_comm, Z.div_add by lia.
    rewrite Z.div_small by ranges. done.
Qed.

Section chunk_lemmas.
Context {M : Type} `{MemcachedLaws M}.
Import SoStorageMemcached SoStorageChunkMemcached.

Definition chunk_mem (s : chunk_store M) (o f : Z) : Z :=
  val_word (mc_view (chunk_client s) !! MAKE64 o (f / 32)) (f mod 32).

Definition chunk_ok (s : chunk_store M) : Prop :=
  forall o b v, is_u32 o -> 0 <= b -> 32 * b < MAX_FIELD ->
    mc_view (chunk_client s) !! MAKE64 o b = Some v -> zlen v = 128 /\ Forall is_u8 v.

Lemma chunk_mem_u32 s o f : chunk_ok s -> is_u32 o -> 0 <= f < MAX_FIELD -> is_u32 (chunk_mem s o f).
Proof.
  intros Hok Ho Hf. apply val_word_u32. intros bs Hbs.
  destruct (Hok o (f / 32) bs) as [_ ?]; [done|lia|lia|done|done].
Qed.

Lemma fetchchunk2_spec memc k len n : 0 <= k -> 0 <= len -> n = (len + 31) / 32 ->
  k + n <= 2 ^ 64 ->
  exists rs, fetchchunk2 memc k len = (SoOK, rs) /\
    (forall x v, (MEMCACHED_SUCCESS, x, v) ∈ rs -> k <= x < k + n /\ mc_view memc !! x = Some v) /\
    (forall x v, k <= x < k + n -> mc_view memc !! x = Some v -> (MEMCACHED_SUCCESS, x, v) ∈ rs).
Proof.
  intros Hk Hl -> Hlim. unfold fetchchunk2. rewrite block_size_32.
  replace (len / 32 + (if len mod 32 =? 0 then 0 else 1)) with ((len + 31) / 32)
    by (case_test; lia).
  destruct (mc_mget_law memc ((fun i => u64 (k + i)) <$> seqZ 0 ((len + 31) / 32)))
    as (rs & -> & Hs & Hc).
  exists rs. split; [done|]. split.
  - intros x v Hin. destruct (Hs _ _ Hin) as [Hx Hv]. split; [|done].
    apply elem_of_keys in Hx; lia.
  - intros x v Hx Hv. apply Hc; [|done]. apply elem_of_keys; lia.
Qed.

Lemma store_block_spec pkey pvalue buf : zlen pvalue = 128 -> 32 <= zlen buf ->
  exists buf', store_block (MEMCACHED_SUCCESS, pkey, pvalue) buf = Ret buf' /\
    zlen buf' = zlen buf /\
    forall j, buf'.[j] = if (0 <=? j) && (j <? 32) then Some (val_word (Some pvalue) j) else buf.[j].
Proof.
  intros Hv Hb. unfold store_block. rewrite decide_True by done.
  destruct (for_range_rule (fun i b => zlen b = zlen buf /\ forall j,
    b.[j] = if (0 <=? j) && (j <? i) then Some (val_word (Some pvalue) j) else buf.[j])
    0 DSM_CACHE_BLOCK_SIZE (fun i buf => w ← word_at pvalue i; wr buf i w) buf)
    as (b & -> & Hl & Hj).
  - done.
  - rewrite block_size_32. intros i b Hi [Hl Hj].
    rewrite word_at_val_word, bind_ret by lia.
    destruct (wr_ok b i (val_word (Some pvalue) i)) as (b' & -> & Hl' & Hj'); [lia|].
    exists b'. split; [done|]. split; [lia|]. intros j. rewrite Hj', Hj.
    destruct (Z.eqb_spec j i) as [->|]; repeat case_test; try lia; done.
  - split; [done|]. intros j. case_test; [lia|done].
  - by exists b.
Qed.

Lemma getblock_spec memc o f buf : chunk_ok (ChunkStore memc) -> is_u32 o -> 0 <= f < MAX_FIELD ->
  32 <= zlen buf ->
  exists buf', getblock memc (MAKE64 o f) buf = Ret (SoOK, buf') /\ zlen buf' = zlen buf /\
    forall j, 0 <= j < 32 -> buf'.[j] = Some (chunk_mem (ChunkStore memc) o (32 * (f / 32) + j)).
Proof.
  intros Hok Ho Hf Hbuf. unfold getblock, MAX_FIELD in *.
  rewrite addr_high by (done || ranges).
  destruct (memset0_ok buf 0 DSM_CACHE_BLOCK_SIZE) as (b0 & -> & Hl0 & Hb0);
    [rewrite ?block_size_32; lia..|]. rewrite bind_ret.
  assert (0 <= MAKE64 o (f / 32) /\ MAKE64 o (f / 32) + 1 <= 2 ^ 64) as Hk
    by (rewrite MAKE64_add by ranges; ranges).
  destruct (fetchchunk2_spec memc (MAKE64 o (f / 32)) DSM_CACHE_BLOCK_SIZE 1)
    as (rs & -> & Hs & Hc); [lia|done|done|lia|].
  assert (forall j, 0 <= j < 32 -> chunk_mem (ChunkStore memc) o (32 * (f / 32) + j)
    = val_word (mc_view memc !! MAKE64 o (f / 32)) j) as Hcm.
  { intros j Hj. unfold chunk_mem. simpl.
    replace ((32 * (f / 32) + j) / 32) with (f / 32) by lia. f_equal. lia. }
  destruct (for_each_rule (fun pre b => zlen b = zlen buf /\ forall j, 0 <= j < 32 ->
      (b.[j] = Some 0 \/ b.[j] = Some (val_word (mc_view memc !! MAKE64 o (f / 32)) j)) /\
      (forall x v, (MEMCACHED_SUCCESS, x, v) ∈ pre ->
         b.[j] = Some (val_word (mc_view memc !! MAKE64 o (f / 32)) j)))
    rs store_block b0) as (b & Hloop & Hl & Hb).
  - intros pre [[rc pkey] pvalue] post b -> [Hl Hb].
    destruct (decide (rc = MEMCACHED_SUCCESS)) as [->|Hne].
    + destruct (Hs pkey pvalue) as [Hpk Hpv]; [apply elem_of_app; right; left|].
      assert (pkey = MAKE64 o (f / 32)) as -> by lia.
      destruct (Hok o (f / 32) pvalue) as [Hpl _]; [done|unfold MAX_FIELD; lia..|done|].
      destruct (store_block_spec (MAKE64 o (f / 32)) pvalue b) as (b' & -> & Hl' & Hb');
        [done|lia|].
      exists b'. split; [done|]. split; [lia|]. intros j Hj. rewrite Hb', Hpv.
      rewrite (proj2 (andb_true_iff _ _)) by lia. auto.
    + exists b. unfold store_block. rewrite decide_False by done. split; [done|].
      split; [done|]. intros j Hj. destruct (Hb j Hj) as [H1 H2]. split; [done|].
      intros x v. rewrite elem_of_app, list_elem_of_singleton. intros [?|[=]]; [eauto|congruence].
  - split; [done|]. intros j Hj. rewrite Hb0, block_size_32. split.
    + left. by case_test; [|lia].
    + intros x v Hx. by apply not_elem_of_nil in Hx.
  - rewrite Hloop, bind_ret. exists b. split; [done|]. split; [done|]. intros j Hj.
    rewrite Hcm by done. destruct (Hb j Hj) as [H1 H2].
    destruct (mc_view memc !! MAKE64 o (f / 32)) as [v|] eqn:Hv; [|by destruct H1 as [-> | ->]].
    apply (H2 (MAKE64 o (f / 32)) v). apply Hc; [lia|done].
Qed.

Lemma copy_part_spec pvalue len b i j buf :
  zlen pvalue = 128 -> 0 <= i <= 32 -> 0 <= j -> 0 <= b -> is_u32 len -> j + 32 < 2 ^ 32 ->
  b + len <= zlen buf ->
  exists buf', copy_part pvalue len b i j buf = Ret buf' /\ zlen buf' = zlen buf /\
    forall x, buf'.[x] =
      if (b + j <=? x) && (x <? b + Z.min len (j + (32 - i)))
      then Some (val_word (Some pvalue) (i + (x - (b + j)))) else buf.[x].
Proof.
  intros Hv Hi Hj Hb Hlen Hj32 Hbuf. unfold copy_part. rewrite block_size_32.
  edestruct (while_rule (fun '(i', j', u) => i <= i' <= 32 /\ j' - j = i' - i /\ zlen u = zlen buf /\
      forall x, u.[x] = if (b + j <=? x) && (x <? b + Z.min len j')
                        then Some (val_word (Some pvalue) (i + (x - (b + j)))) else buf.[x])
    (fun '(i', _, _) => Z.to_nat (32 - i'))) as ([[i1 j1] u] & -> & (Hi1 & Hij & Hu & Hx) & Hend).
  4: { rewrite bind_ret. exists u. split; [done|]. split; [done|]. intros x. rewrite Hx.
       apply andb_false_iff in Hend.
       replace (Z.min len j1) with (Z.min len (j + (32 - i))) by lia. done. }
  - intros [[i1 j1] u] (Hi1 & Hij & Hu & Hx) [Hc1 Hc2]%andb_true_iff.
    rewrite word_at_val_word, bind_ret by lia.
    destruct (wr_ok u (b + j1) (val_word (Some pvalue) i1)) as (u' & -> & Hu' & Hx'); [lia|].
    rewrite bind_ret, u32_small by ranges. eexists. split; [done|]. split; [|lia].
    split; [lia|]. split; [lia|]. split; [lia|]. intros x. rewrite Hx', Hx.
    destruct (Z.eqb_spec x (b + j1)) as [->|].
    + rewrite (proj2 (andb_true_iff _ _)) by lia. do 2 f_equal. lia.
    + repeat case_test; try lia; done.
  - split; [lia|]. split; [lia|]. split; [done|]. intros x. case_test; [lia|done].
  - simpl. lia.
Qed.
End chunk_lemmas.

Section chunk_read.
Context {M : Type} `{MemcachedLaws M}.
Import SoStorageMemcached SoStorageChunkMemcached.

(** The fetch loop of [do_getchunk] over the blocks [k .. k + n - 1] of object
    [o], from field [f] on. *)
Lemma store_parts_spec memc o f len b rs buf :
  chunk_ok (ChunkStore memc) -> range_ok o f len -> 0 <= b -> b + len <= zlen buf ->
  let k := MAKE64 o (f / 32) in let n := (len + f mod 32 + 31) / 32 in
  (forall x v, (MEMCACHED_SUCCESS, x, v) ∈ rs -> k <= x < k + n /\ mc_view memc !! x = Some v) ->
  (forall x v, k <= x < k + n -> mc_view memc !! x = Some v -> (MEMCACHED_SUCCESS, x, v) ∈ rs) ->
  (forall j, 0 <= j < len -> buf.[b + j] = Some 0) ->
  exists buf', for_each rs (store_part k (f mod 32) len b) buf = Ret buf' /\ zlen buf' = zlen buf /\
    forall x, buf'.[x] = if (b <=? x) && (x <? b + len)
                         then Some (chunk_mem (ChunkStore memc) o (f + (x - b))) else buf.[x].
Proof.
  intros Hok (Ho & Hf & Hlen & Hfl) Hb Hbuf k n Hs Hc Hz. unfold MAX_FIELD in *.
  assert (forall m, 0 <= m < n -> k + m = MAKE64 o (f / 32 + m)) as Hk.
  { intros m Hm. unfold k. rewrite !MAKE64_add by ranges. lia. }
  set (val j := chunk_mem (ChunkStore memc) o (f + j)).
  assert (forall j, 0 <= j < len ->
    val j = val_word (mc_view memc !! (k + (f mod 32 + j) / 32)) ((f mod 32 + j) mod 32)) as Hval.
  { intros j Hj. unfold val, chunk_mem. simpl. rewrite Hk by lia.
    replace ((f + j) / 32) with (f / 32 + (f mod 32 + j) / 32) by lia. f_equal. lia. }
  destruct (for_each_rule (fun pre u => zlen u = zlen buf /\ forall x,
      (b <= x < b + len ->
         (u.[x] = Some 0 \/ u.[x] = Some (val (x - b))) /\
         (forall v, (MEMCACHED_SUCCESS, k + (f mod 32 + (x - b)) / 32, v) ∈ pre ->
            u.[x] = Some (val (x - b)))) /\
      (~ b <= x < b + len -> u.[x] = buf.[x]))
    rs (store_part k (f mod 32) len b) buf) as (u & Hloop & Hl & Hu).
  - intros pre [[rc pkey] pvalue] post u -> [Hl Hu]. unfold store_part.
    destruct (decide (rc = MEMCACHED_SUCCESS)) as [->|Hne].
    + destruct (Hs pkey pvalue) as [Hpk Hpv]; [apply elem_of_app; right; left|].
      set (idx := pkey - k). assert (0 <= idx < n) as Hidx by lia.
      rewrite (u32_small idx), block_size_32 by ranges.
      assert (zlen pvalue = 128) as Hpl.
      { apply (Hok o (f / 32 + idx) pvalue); [done|unfold MAX_FIELD; lia..|].
        simpl. rewrite <-Hk by done. by replace (k + idx) with pkey by lia. }
      set (i := if idx =? 0 then f mod 32 else 0).
      assert (0 <= idx * 32 + i - f mod 32 /\ 0 <= i <= 32) as Hij
        by (unfold i; case_test; lia).
      rewrite u32_small by (unfold is_u32; lia).
      destruct (copy_part_spec pvalue len b i (idx * 32 + i - f mod 32) u)
        as (u' & -> & Hl' & Hu'); [done|lia|lia|lia|ranges|lia|lia|].
      exists u'. split; [done|]. split; [lia|]. intros x. destruct (Hu x) as [Hin Hout].
      rewrite Hu'. split.
      * intros Hx. destruct (Hin Hx) as [H1 H2].
        destruct ((b + (idx * 32 + i - f mod 32) <=? x) &&
                  (x <? b + Z.min len (idx * 32 + i - f mod 32 + (32 - i)))) eqn:Hw.
        -- assert ((f mod 32 + (x - b)) / 32 = idx /\
             i + (x - (b + (idx * 32 + i - f mod 32))) = (f mod 32 + (x - b)) mod 32) as [Hq Hr]
             by (unfold i in *; destruct (idx =? 0) eqn:?; lia).
           rewrite Hval, Hq by lia. replace (k + idx) with pkey by lia. rewrite Hpv, Hr. auto.
        -- split; [done|]. intros v. rewrite elem_of_app, list_elem_of_singleton.
           intros [?|[= Hkx _]]; [eauto|].
           assert ((f mod 32 + (x - b)) / 32 = idx) by lia.
           exfalso. unfold i in *. destruct (idx =? 0) eqn:?; lia.
      * intros Hx. case_test; [lia|by apply Hout].
    + exists u. split; [done|]. split; [done|]. intros x. destruct (Hu x) as [Hin Hout].
      split; [|done]. intros Hx. destruct (Hin Hx) as [H1 H2]. split; [done|]. intros v.
      rewrite elem_of_app, list_elem_of_singleton. intros [?|[=]]; [eauto|congruence].
  - split; [done|]. intros x. split; [|done]. intros Hx. split.
    + left. replace x with (b + (x - b)) by lia. apply Hz. lia.
    + intros v Hv. by apply not_elem_of_nil in Hv.
  - exists u. split; [done|]. split; [done|]. intros x. destruct (Hu x) as [Hin Hout].
    destruct ((b <=? x) && (x <? b + len)) eqn:Hx; [|apply Hout; lia].
    destruct Hin as [H1 H2]; [lia|]. fold (val (x - b)). pose proof (Hval (x - b)) as Hv.
    destruct (mc_view memc !! (k + (f mod 32 + (x - b)) / 32)) as [v|] eqn:Hm.
    + apply (H2 v). apply Hc; [lia|done].
    + rewrite Hv in H1 |- * by lia. by destruct H1 as [-> | ->].
Qed.

Lemma do_getchunk_spec memc o f len buf b :
  chunk_ok (ChunkStore memc) -> range_ok o f len -> 0 <= b -> b + len <= zlen buf ->
  exists buf', do_getchunk memc o f len buf b = Ret (SoOK, buf') /\ zlen buf' = zlen buf /\
    forall x, buf'.[x] = if (b <=? x) && (x <? b + len)
                         then Some (chunk_mem (ChunkStore memc) o (f + (x - b))) else buf.[x].
Proof.
  intros Hok Hr Hb Hbuf. pose proof Hr as (Ho & Hf & Hlen & Hfl). unfold MAX_FIELD in *.
  unfold do_getchunk. rewrite block_size_32.
  destruct (memset0_ok buf b len) as (b1 & -> & Hl1 & Hb1); [lia..|]. rewrite bind_ret.
  rewrite u32_small by ranges.
  destruct (fetchchunk2_spec memc (MAKE64 o (f / 32)) (len + f mod 32)
    ((len + f mod 32 + 31) / 32)) as (rs & -> & Hs & Hc);
    [rewrite MAKE64_add by ranges; ranges|lia|done|rewrite MAKE64_add by ranges; ranges|].
  destruct (store_parts_spec memc o f len b rs b1) as (b2 & -> & Hl2 & Hb2);
    [done|done|done|lia|done|done| |].
  - intros j Hj. rewrite Hb1. case_test; [done|lia].
  - rewrite bind_ret. exists b2. split; [done|]. split; [lia|]. intros x.
    rewrite Hb2, Hb1. by case_test.
Qed.

Lemma splited_getchunk_spec memc o f len buf :
  chunk_ok (ChunkStore memc) -> range_ok o f len -> len <= zlen buf ->
  exists buf', splited_getchunk memc o f len buf = Ret (SoOK, buf') /\ zlen buf' = zlen buf /\
    forall x, buf'.[x] = if (0 <=? x) && (x <? len)
                         then Some (chunk_mem (ChunkStore memc) o (f + x)) else buf.[x].
Proof.
  intros Hok Hr Hbuf. pose proof Hr as (Ho & Hf & Hlen & Hfl). unfold MAX_FIELD in *.
  unfold splited_getchunk, CHUNK_MEMCACHED_FETCH_BATCH.
  set (I := fun s : Z * bool * list Z => let '(l, failed, u) := s in
    f <= l <= f + len /\ failed = false /\ zlen u = zlen buf /\
    forall x, u.[x] = if (0 <=? x) && (x <? l - f)
                      then Some (chunk_mem (ChunkStore memc) o (f + x)) else buf.[x]).
  assert (I (f, false, buf)) as HI0.
  { split; [lia|]. split; [done|]. split; [done|]. intros x. case_test; [lia|done]. }
  rewrite (u32_small (f + len)) by ranges.
  assert (exists s, (if 15000 <=? len then
      while (S (Z.to_nat len)) (fun '(l, failed, _) => negb failed && (l <? u32 (f + len - 15000)))
        (fun '(l, failed, buf) =>
          '(st, buf) ← do_getchunk memc o l 15000 buf (u32 (l - f));
          if decide (st = SoOK) then Ret (u32 (l + 15000), false, buf) else Ret (l, true, buf))
        (f, false, buf)
      else Ret (f, false, buf)) = Ret s /\ I s) as (s & -> & HI).
  { case_test; [|eauto]. rewrite (u32_small (f + len - 15000)) by ranges.
    edestruct (while_rule I (fun '(l, _, _) => Z.to_nat (f + len - l))) as (s & -> & HI & _);
      [|exact HI0| |eauto].
    - intros [[l failed] u] (Hl & -> & Hu & Hx) Hc. apply andb_true_iff in Hc as [_ Hc].
      rewrite (u32_small (l - f)) by ranges.
      destruct (do_getchunk_spec memc o l 15000 u (l - f)) as (u' & -> & Hu' & Hx');
        [done|split; [done|]; unfold MAX_FIELD; lia|lia|lia|].
      rewrite bind_ret, decide_True by done. eexists. split; [done|]. unfold I.
      rewrite u32_small by ranges. split; [|lia]. split; [lia|]. split; [done|].
      split; [lia|]. intros x. rewrite Hx', Hx.
      replace (l + (x - (l - f))) with (f + x) by lia. repeat case_test; try lia; done.
    - simpl. lia. }
  rewrite bind_ret. destruct s as [[l failed] u]. destruct HI as (Hl & -> & Hu & Hx).
  rewrite !u32_small by ranges. case_test.
  - exists u. split; [done|]. split; [done|]. intros x. rewrite Hx.
    by replace (l - f) with len by lia.
  - destruct (do_getchunk_spec memc o l (f + len - l) u (l - f)) as (u' & -> & Hu' & Hx');
      [done|split; [done|]; unfold MAX_FIELD; lia|lia|lia|].
    exists u'. split; [done|]. split; [lia|]. intros x. rewrite Hx', Hx.
    replace (l + (x - (l - f))) with (f + x) by lia. repeat case_test; try lia; done.
Qed.

Lemma chunk_get_law s o f : chunk_ok s -> is_u32 o -> 0 <= f < MAX_FIELD ->
  so_get s o f = Ret (chunk_mem s o f).
Proof.
  intros Hok Ho Hf. destruct s as [memc]. simpl. unfold get.
  destruct (getblock_spec memc o f (replicate (Z.to_nat DSM_CACHE_BLOCK_SIZE) 0))
    as (b & -> & _ & Hb); [done|done|done|done|].
  rewrite bind_ret, land_low_mask_64, MAKE64_add by (unfold MAX_FIELD in *; ranges).
  replace ((o * 2 ^ 32 + f) mod 32) with (f mod 32) by lia.
  apply rd_ok. rewrite Hb by lia. do 2 f_equal. lia.
Qed.
End chunk_read.

Section chunk_write.
Context {M : Type} `{MemcachedLaws M}.
Import SoStorageMemcached SoStorageChunkMemcached.

(** The loop that overlays [buf[idx ..]] on the words [s .. e - 1] of a block. *)
Lemma fill_spec cond buf var s e idx :
  (forall i j v, s <= i <= e -> cond (i, j, v) = (i <? e)) ->
  0 <= s <= e -> e <= 32 * (s / 32) + 32 -> e < 2 ^ 32 -> zlen var = 32 ->
  0 <= idx -> idx + (e - s) <= zlen buf -> idx + (e - s) < 2 ^ 32 ->
  exists var', while 33 cond (fill_step buf) (s, idx, var) = Ret (e, idx + (e - s), var') /\
    zlen var' = 32 /\
    forall p, 0 <= p < 32 ->
      var'.[p] = if (s <=? 32 * (s / 32) + p) && (32 * (s / 32) + p <? e)
                 then buf.[idx + (32 * (s / 32) + p - s)] else var.[p].
Proof.
  intros Hcond Hse He Hlim Hvar Hidx Hbuf Hidx32.
  edestruct (while_rule (fun '(i, j, v) => s <= i <= e /\ j = idx + (i - s) /\ zlen v = 32 /\
      forall p, 0 <= p < 32 ->
        v.[p] = if (s <=? 32 * (s / 32) + p) && (32 * (s / 32) + p <? i)
                then buf.[idx + (32 * (s / 32) + p - s)] else var.[p])
    (fun '(i, _, _) => Z.to_nat (e - i))) as ([[i j] v] & -> & (Hi & -> & Hv & Hp) & Hend).
  4: { rewrite Hcond in Hend by lia. assert (i = e) as -> by lia. eauto. }
  - intros [[i j] v] (Hi & -> & Hv & Hp) Hc. rewrite Hcond in Hc by lia. unfold fill_step.
    destruct (zlook_is_Some buf (idx + (i - s))) as [x Hx]; [lia|].
    rewrite (rd_ok _ _ _ Hx), bind_ret, land_low_mask.
    destruct (wr_ok v (i mod 32) x) as (v' & -> & Hv' & Hp'); [lia|].
    rewrite bind_ret, !u32_small by ranges. eexists. split; [done|]. split; [|lia].
    split; [lia|]. split; [lia|]. split; [lia|]. intros p Hp32. rewrite Hp'.
    destruct (Z.eqb_spec p (i mod 32)) as [->|Hne].
    + rewrite (proj2 (andb_true_iff _ _)) by lia.
      by replace (idx + (32 * (s / 32) + i mod 32 - s)) with (idx + (i - s)) by lia.
    + rewrite Hp by done. repeat case_test; try lia; done.
  - split; [lia|]. split; [lia|]. split; [done|]. intros p Hp. case_test; [lia|done].
  - simpl. lia.
Qed.

(** Storing a block whose words [s .. e - 1] come from [buf] and the others from
    the memory extends a write that reached [s] to [e]. *)
Lemma put_block_written m0 m1 o f s e blk ws buf ret m2 ret' :
  chunk_ok (ChunkStore m1) -> is_u32 o -> 0 <= blk -> 32 * blk < MAX_FIELD ->
  f <= s -> 32 * blk <= s -> s <= e -> e <= 32 * blk + 32 ->
  zlen ws = 32 -> Forall is_u32 ws ->
  (forall p, 0 <= p < 32 -> ws.[p] = if (s <=? 32 * blk + p) && (32 * blk + p <? e)
                                     then buf.[32 * blk + p - f]
                                     else Some (chunk_mem (ChunkStore m1) o (32 * blk + p))) ->
  put_block m1 (MAKE64 o blk) ws ret = (m2, ret') ->
  written m0 (chunk_mem (ChunkStore m1)) o f (s - f) buf ret ->
  chunk_ok (ChunkStore m2) /\ written m0 (chunk_mem (ChunkStore m2)) o f (e - f) buf ret'.
Proof.
  intros Hok Ho Hblk Hmax Hfs Hs Hse He Hws Hu Hw Hput Hwr.
  assert (is_u32 blk) as Hb32 by (unfold MAX_FIELD in *; ranges).
  unfold put_block, memcached_put in Hput.
  destruct (memcached_set m1 (MAKE64 o blk) (bytes_of_words ws)) as [m3 rc] eqn:Hset.
  injection Hput as <- <-. apply mc_set_law in Hset.
  assert (forall o' f', is_u32 o' -> 0 <= f' < MAX_FIELD ->
    if decide (rc = MEMCACHED_SUCCESS) then
      if (o' =? o) && (f' / 32 =? blk)
      then ws.[f' mod 32] = Some (chunk_mem (ChunkStore m3) o' f')
      else chunk_mem (ChunkStore m3) o' f' = chunk_mem (ChunkStore m1) o' f'
    else chunk_mem (ChunkStore m3) o' f' = chunk_mem (ChunkStore m1) o' f') as Hmem.
  { intros o' f' Ho' Hf'. unfold chunk_mem. simpl. rewrite Hset. case_decide; [|done].
    rewrite lookup_insert. case_decide as Hk.
    - apply MAKE64_inj in Hk as [<- <-]; [|ranges|unfold MAX_FIELD in *; ranges].
      rewrite !Z.eqb_refl. cbn [andb].
      destruct (zlook_is_Some ws (f' mod 32)) as [w Hw']; [lia|].
      by rewrite (val_word_bytes ws _ w).
    - destruct (Z.eqb_spec o' o) as [->|]; [|done].
      destruct (Z.eqb_spec (f' / 32) blk) as [He'|]; [|done]. congruence. }
  split.
  - intros o' b v Ho' Hb Hbm. simpl. rewrite Hset. case_decide; [|by apply Hok].
    rewrite lookup_insert. case_decide; [|by apply Hok]. intros [= <-].
    split; [rewrite zlen_bytes_of_words; lia|apply bytes_of_words_u8].
  - intros o' f' Ho' Hf'. specialize (Hwr o' f' Ho' Hf'). specialize (Hmem o' f' Ho' Hf').
    destruct (Z.eqb_spec o' o) as [->|]; cbn [andb] in *; [|by case_decide; congruence].
    replace (f + (s - f)) with s in Hwr by lia. replace (f + (e - f)) with e by lia.
    destruct (Z.eqb_spec (f' / 32) blk) as [<-|Hne].
    + specialize (Hw (f' mod 32)). replace (32 * (f' / 32) + f' mod 32) with f' in Hw by lia.
      rewrite Hw in Hmem by lia.
      destruct ((s <=? f') && (f' <? e)) eqn:Hin1.
      * rewrite (proj2 (andb_false_iff _ _)) in Hwr by lia.
        rewrite (proj2 (andb_true_iff _ _)) by lia.
        case_decide; [by auto|]. split; [done|]. left. congruence.
      * assert (chunk_mem (ChunkStore m3) o f' = chunk_mem (ChunkStore m1) o f') as ->
          by (case_decide; congruence).
        destruct ((f <=? f') && (f' <? s)) eqn:Hin2.
        -- rewrite (proj2 (andb_true_iff _ _)) by lia. destruct Hwr as [H1 H2].
           split; [|done]. intros Hst. apply H1. by case_decide.
        -- rewrite (proj2 (andb_false_iff _ _)) by lia. done.
    + assert (chunk_mem (ChunkStore m3) o f' = chunk_mem (ChunkStore m1) o f') as ->
        by (by case_decide).
      destruct ((f <=? f') && (f' <? s)) eqn:Hin2.
      * rewrite (proj2 (andb_true_iff _ _)) by lia. destruct Hwr as [H1 H2].
        split; [|done]. intros Hst. apply H1. by case_decide.
      * rewrite (proj2 (andb_false_iff _ _)) by lia. done.
Qed.

Lemma written_nothing mem o f buf st : written mem mem o f 0 buf st.
Proof. intros o' f' _ _. case_test; [lia|done]. Qed.

(** Reading a block back, overlaying it with the words [s .. e - 1] and storing
    it: the first and the last part of [putchunk]. *)
Lemma partial_block_written m0 m1 o f s e idx cond buf ret :
  chunk_ok (ChunkStore m1) -> is_u32 o -> 0 <= f <= s -> s <= e -> s < MAX_FIELD ->
  e <= 32 * (s / 32) + 32 -> e - f <= zlen buf -> idx = s - f -> Forall is_u32 buf ->
  (forall i j v, s <= i <= e -> cond (i, j, v) = (i <? e)) ->
  written m0 (chunk_mem (ChunkStore m1)) o f (s - f) buf ret ->
  exists var var', getblock m1 (MAKE64 o s) (replicate (Z.to_nat DSM_CACHE_BLOCK_SIZE) 0)
      = Ret (SoOK, var) /\
    while 33 cond (fill_step buf) (s, idx, var) = Ret (e, e - f, var') /\
    forall m2 ret', put_block m1 (MAKE64 o (s / 32)) var' ret = (m2, ret') ->
      chunk_ok (ChunkStore m2) /\ written m0 (chunk_mem (ChunkStore m2)) o f (e - f) buf ret'.
Proof.
  intros Hok Ho Hfs Hse Hmax He Hbuf -> Hu Hcond Hwr. pose proof Hmax as Hmax'.
  unfold MAX_FIELD in Hmax'.
  destruct (getblock_spec m1 o s (replicate (Z.to_nat DSM_CACHE_BLOCK_SIZE) 0))
    as (var & Hg & Hvl & Hv); [done|done|lia|done|].
  destruct (fill_spec cond buf var s e (s - f)) as (var' & Hf & Hvl' & Hv');
    [done|lia|done|lia|done|lia|lia|lia|].
  exists var, var'. split; [done|]. split; [rewrite Hf; do 3 f_equal; lia|].
  intros m2 ret' Hput.
  assert (forall p, 0 <= p < 32 -> var'.[p] =
     if (s <=? 32 * (s / 32) + p) && (32 * (s / 32) + p <? e)
     then buf.[32 * (s / 32) + p - f]
     else Some (chunk_mem (ChunkStore m1) o (32 * (s / 32) + p))) as Hw.
  { intros p Hp. rewrite Hv', Hv by done. case_test; [f_equal; lia|done]. }
  eapply (put_block_written m0 m1 o f s e (s / 32) var'); try done; try lia.
  apply Forall_zlook. intros p x Hx.
  assert (0 <= p < 32) as Hp by (apply zlook_Some_range in Hx; lia).
  rewrite Hw in Hx by done. case_test in Hx; [by eapply zlook_Forall|].
  injection Hx as <-. apply chunk_mem_u32; [done|done|unfold MAX_FIELD; lia].
Qed.

Lemma putchunk_head_spec m o f len buf :
  chunk_ok (ChunkStore m) -> range_ok o f len -> len <= zlen buf -> Forall is_u32 buf ->
  let k_start := if f mod 32 =? 0 then f else 32 * (f / 32) + 32 in
  exists m' ret, putchunk_head m o f k_start (f + len) buf
      = Ret (m', ret, Z.min k_start (f + len) - f) /\
    chunk_ok (ChunkStore m') /\
    written (chunk_mem (ChunkStore m)) (chunk_mem (ChunkStore m')) o f
            (Z.min k_start (f + len) - f) buf ret.
Proof.
  intros Hok (Ho & Hf & Hl & Hfl) Hbuf Hu k_start.
  unfold putchunk_head. destruct (f <? k_start) eqn:Hlt.
  - assert (k_start = 32 * (f / 32) + 32) as Hks
      by (unfold k_start in *; destruct (f mod 32 =? 0); lia).
    assert (f mod 32 <> 0) as Hf32 by (unfold k_start in Hks; destruct (Z.eqb_spec (f mod 32) 0); lia).
    assert (f < MAX_FIELD) as Hfm by (unfold MAX_FIELD in *; lia).
    destruct (partial_block_written (chunk_mem (ChunkStore m)) m o f f
      (Z.min k_start (f + len)) 0 (fun '(i, _, _) => (i <? k_start) && (i <? f + len)) buf SoOK)
      as (var & var' & -> & Hloop & Hput);
      [done|done|lia|lia|done|lia|lia|lia|done|intros; simpl; lia
      |by rewrite Z.sub_diag; apply written_nothing|].
    rewrite bind_ret, Hloop, bind_ret, block_size_32.
    destruct (put_block m (MAKE64 o (f / 32)) var' SoOK) as [m2 ret'] eqn:Hp.
    destruct (Hput m2 ret' eq_refl) as [Hok2 Hw2]. eauto.
  - assert (k_start = f) as Hks by (unfold k_start in *; destruct (f mod 32 =? 0); lia).
    exists m, SoOK. rewrite Z.min_l by lia. rewrite Hks, Z.sub_diag.
    split; [done|]. split; [done|]. apply written_nothing.
Qed.

Lemma putchunk_blocks_spec m0 m o f len s e buf ret :
  chunk_ok (ChunkStore m) -> range_ok o f len -> len <= zlen buf -> Forall is_u32 buf ->
  s mod 32 = 0 -> e mod 32 = 0 -> f <= s <= e -> e <= f + len ->
  written m0 (chunk_mem (ChunkStore m)) o f (s - f) buf ret ->
  exists m' ret', putchunk_blocks m o s e len buf ret (s - f) = Ret (m', ret', e - f, e) /\
    chunk_ok (ChunkStore m') /\ written m0 (chunk_mem (ChunkStore m')) o f (e - f) buf ret'.
Proof.
  intros Hok (Ho & Hf & Hl & Hfl) Hbuf Hu Hs He Hse Hefl Hwr. unfold MAX_FIELD in Hfl.
  unfold putchunk_blocks.
  edestruct (while_rule (fun '(m', ret', idx, i) => s <= i <= e /\ i mod 32 = 0 /\ idx = i - f /\
      chunk_ok (ChunkStore m') /\ written m0 (chunk_mem (ChunkStore m')) o f (i - f) buf ret')
    (fun '(_, _, _, i) => Z.to_nat (e - i)))
    as ([[[m' ret'] idx] i] & -> & (Hi & Him & -> & Hok' & Hw') & Hend).
  4: { assert (i = e) as -> by lia. eauto. }
  - intros [[[m1 r1] idx] i] (Hi & Him & -> & Hok1 & Hw1) Hc%Z.ltb_lt. rewrite block_size_32.
    destruct (rd_range_ok buf (i - f) 32) as (ws & Hrd & Hwl & Hw); [lia..|].
    rewrite Hrd, bind_ret.
    destruct (put_block m1 (MAKE64 o (i / 32)) ws r1) as [m2 r2] eqn:Hput.
    destruct (put_block_written m0 m1 o f i (i + 32) (i / 32) ws buf r1 m2 r2)
      as [Hok2 Hw2]; try done; try lia.
    + unfold MAX_FIELD. lia.
    + apply Forall_zlook. intros p x Hx.
      assert (0 <= p < 32) by (apply zlook_Some_range in Hx; lia).
      rewrite Hw in Hx by done. by eapply zlook_Forall.
    + intros p Hp. rewrite Hw by done. rewrite (proj2 (andb_true_iff _ _)) by lia.
      f_equal. lia.
    + rewrite !u32_small by ranges. eexists. split; [done|]. split; [|lia].
      split; [lia|]. split; [lia|]. split; [lia|]. split; [done|].
      by replace (i + 32 - f) with (i + 32 - f) by lia.
  - split; [lia|]. done.
  - simpl. lia.
Qed.

Lemma chunk_putchunk_law s o f len buf : chunk_ok s -> range_ok o f len -> len <= zlen buf ->
  Forall is_u32 buf ->
  exists s' st, so_putchunk s o f len buf = Ret (s', st) /\ chunk_ok s' /\
    written (chunk_mem s) (chunk_mem s') o f len buf st.
Proof.
  intros Hok Hr Hbuf Hu. destruct s as [m]. pose proof Hr as (Ho & Hf & Hl & Hfl).
  simpl. unfold putchunk. rewrite land_low_mask.
  unfold MAX_FIELD in Hfl. rewrite (u32_small (f + len)) by ranges.
  rewrite !land_high_mask, block_size_32 by ranges. rewrite (u32_small (32 * _ + 32)) by ranges.
  set (k_start := if f mod 32 =? 0 then f else 32 * (f / 32) + 32).
  set (k_end := 32 * ((f + len) / 32)).
  pose proof (putchunk_head_spec m o f len buf Hok Hr Hbuf Hu) as Hhead.
  cbv zeta in Hhead. fold k_start in Hhead. destruct Hhead as (m1 & r1 & -> & Hok1 & Hw1).
  rewrite bind_ret.
  destruct (decide (k_start <= k_end)) as [Hse|Hse].
  - rewrite Z.min_l in Hw1 |- * by lia.
    destruct (putchunk_blocks_spec (chunk_mem (ChunkStore m)) m1 o f len k_start k_end buf r1)
      as (m2 & r2 & -> & Hok2 & Hw2); [done|done|done|done
      |unfold k_start; destruct (f mod 32 =? 0) eqn:?; lia|lia
      |unfold k_start in *; destruct (f mod 32 =? 0) eqn:?; lia|lia|done|].
    rewrite bind_ret. unfold putchunk_tail.
    destruct ((k_end - f <? len) && negb (k_end =? f + len)) eqn:Htail.
    + destruct (partial_block_written (chunk_mem (ChunkStore m)) m2 o f k_end (f + len)
        (k_end - f) (fun '(i, _, _) => i <? f + len) buf r2)
        as (var & var' & -> & Hloop & Hput); try done; try lia.
      { unfold k_start in *; destruct (f mod 32 =? 0) eqn:?; lia. }
      { unfold MAX_FIELD. lia. }
      rewrite bind_ret, Hloop, bind_ret, block_size_32.
      destruct (put_block m2 (MAKE64 o (k_end / 32)) var' r2) as [m3 r3] eqn:Hp.
      destruct (Hput m3 r3 eq_refl) as [Hok3 Hw3].
      replace (f + len - f) with len in Hw3 by lia. eexists _, _. eauto.
    + assert (k_end - f = len) as Heq by lia. rewrite Heq in Hw2. eexists _, _. eauto.
  - rewrite Z.min_r in Hw1 |- *
      by (unfold k_start in *; destruct (f mod 32 =? 0) eqn:?; lia).
    replace (f + len - f) with len in Hw1 |- * by lia.
    unfold putchunk_blocks. destruct (Z.to_nat len) eqn:Hfuel; cbn [while];
      rewrite (proj2 (Z.ltb_ge k_start k_end)) by lia;
      rewrite bind_ret; unfold putchunk_tail; rewrite Z.ltb_irrefl; cbn [andb];
      eexists _, _; eauto.
Qed.

#[export] Instance chunk_SoStorageLaws : SoStorageLaws (chunk_store M).
Proof.
  refine {| so_ok := chunk_ok; so_mem := chunk_mem |}.
  - exact chunk_mem_u32.
  - exact chunk_get_law.
  - intros s o f len buf Hok Hr Hbuf _. destruct s as [m].
    destruct (splited_getchunk_spec m o f len buf) as (b & Hg & Hl & Hb); [done..|]. eauto.
  - intros s o f buf Hok Ho Hf Hb Ha Hlen. destruct s as [m]. rewrite land_low_mask in Ha.
    rewrite block_size_32 in *.
    destruct (getblock_spec m o f buf) as (b & Hg & Hl & Hj);
      [done|done|unfold MAX_FIELD in *; lia|lia|].
    exists b. split; [done|]. split; [done|]. intros j Hj'. rewrite Hj by done.
    do 2 f_equal. lia.
  - exact chunk_putchunk_law.
  - done.
  - done.
  - done.
  - done.
Defined.
End chunk_write.

(** * Sequences of writes through the interface *)

Section storage_clients.
Context {S : Type} `{SoStorageLaws S}.

(** The writes a client issues. *)
Inductive write_op :=
| WPut (o f v : Z)
| WPut64 (o f v : Z)
| WPutChunk (o f len : Z) (buf : list Z)
| WPutChunk64 (o f len : Z) (vs : list Z).

Definition run_op (s : S) (w : write_op) : outcome (S * SoStatus) :=
  match w with
  | WPut o f v => so_put s o f v
  | WPut64 o f v => so_put64 s o f v
  | WPutChunk o f len buf => so_putchunk s o f len buf
  | WPutChunk64 o f len vs => so_putchunk64 s o f len (words_of_u64s vs)
  end.

(** The status is [SoOK] when that of every write is. *)
Fixpoint run_ops (s : S) (ws : list write_op) : outcome (S * SoStatus) :=
  match ws with
  | [] => Ret (s, SoOK)
  | w :: ws =>
      '(s, st) ← run_op s w;
      '(s, st') ← run_ops s ws;
      Ret (s, if decide (st = SoOK) then st' else st)
  end.
End storage_clients.

(** The range of words a write covers, and the words it writes there. *)
Definition op_args (w : write_op) : Z * Z * Z * list Z :=
  match w with
  | WPut o f v => (o, f, 1, [v])
  | WPut64 o f v => (o, f, 2, words_of_u64 v)
  | WPutChunk o f len buf => (o, f, len, buf)
  | WPutChunk64 o f len vs => (o, f, 2 * len, words_of_u64s vs)
  end.

Definition op_ok (w : write_op) : Prop :=
  let '(o, f, len, buf) := op_args w in
  range_ok o f len /\ len <= zlen buf /\ Forall is_u32 buf.

(** The memory after a write that succeeds. *)
Definition op_mem (w : write_op) (mem : Z -> Z -> Z) (o' f' : Z) : Z :=
  let '(o, f, len, buf) := op_args w in
  if (o' =? o) && (f <=? f') && (f' <? f + len)
  then default 0 (buf.[f' - f]) else mem o' f'.

Definition ops_mem (ws : list write_op) (mem : Z -> Z -> Z) : Z -> Z -> Z :=
  fold_left (fun mem w => op_mem w mem) ws mem.

(** Equal on every word a client can name. *)
Definition mem_eq (mem mem' : Z -> Z -> Z) : Prop :=
  forall o f, is_u32 o -> 0 <= f < MAX_FIELD -> mem o f = mem' o f.

#[export] Instance mem_eq_equiv : Equivalence mem_eq.
Proof.
  split; [by intros m o f|intros m m' Hm o f Ho Hf; symmetry; by apply Hm|].
  intros m1 m2 m3 H12 H23 o f Ho Hf. by rewrite H12, H23.
Qed.

#[export] Instance op_mem_proper w : Proper (mem_eq ==> mem_eq) (op_mem w).
Proof.
  intros m m' Hm o f Ho Hf. unfold op_mem. destruct (op_args w) as [[[o' f'] len] buf].
  case_test; [done|by apply Hm].
Qed.

#[export] Instance ops_mem_proper ws : Proper (mem_eq ==> mem_eq) (ops_mem ws).
Proof.
  induction ws as [|w ws IH]; intros m m' Hm; [done|]. apply IH. by rewrite Hm.
Qed.

Section storage_client_lemmas.
Context {S : Type} `{SoStorageLaws S}.

Lemma run_op_putchunk s w : op_ok w ->
  run_op s w = let '(o, f, len, buf) := op_args w in so_putchunk s o f len buf.
Proof.
  destruct w as [o f v|o f v|o f len buf|o f len vs]; simpl; intros Hw.
  - apply so_put_law.
  - apply so_put64_law.
  - done.
  - destruct Hw as ((? & ? & ? & ?) & _). unfold MAX_FIELD in *.
    rewrite so_putchunk64_law, (u32_small (len * 2)) by ranges. f_equal. lia.
Qed.

Lemma run_op_spec s w : so_ok s -> op_ok w -> exists s' st,
  run_op s w = Ret (s', st) /\ so_ok s' /\
  (st = SoOK -> mem_eq (so_mem s') (op_mem w (so_mem s))).
Proof.
  intros Hs Hw. rewrite run_op_putchunk by done. unfold op_ok, op_mem in *.
  destruct (op_args w) as [[[o f] len] buf]. destruct Hw as (Hr & Hl & Hu).
  destruct (so_putchunk_law s o f len buf) as (s' & st & -> & Hs' & Hwr); [done..|].
  exists s', st. split; [done|]. split; [done|]. intros -> o' f' Ho' Hf'.
  specialize (Hwr o' f' Ho' Hf'). case_test; [|done]. destruct Hwr as [Hwr _].
  by rewrite Hwr.
Qed.

Lemma run_ops_spec ws s : so_ok s -> Forall op_ok ws -> exists s' st,
  run_ops s ws = Ret (s', st) /\ so_ok s' /\
  (st = SoOK -> mem_eq (so_mem s') (ops_mem ws (so_mem s))).
Proof.
  revert s. induction ws as [|w ws IH]; intros s Hs Hws.
  - exists s, SoOK. split; [done|]. split; [done|]. done.
  - apply Forall_cons in Hws as [Hw Hws]. cbn [run_ops].
    destruct (run_op_spec s w) as (s1 & st1 & -> & Hs1 & Hm1); [done..|]. rewrite bind_ret.
    destruct (IH s1) as (s2 & st2 & -> & Hs2 & Hm2); [done..|]. rewrite bind_ret.
    eexists _, _. split; [done|]. split; [done|]. case_decide as Hst; [|done].
    intros Hst2. rewrite (Hm2 Hst2). cbn. by rewrite (Hm1 Hst).
Qed.
End storage_client_lemmas.

(** Two states with the same memory answer every read alike. *)
Lemma same_mem_same_reads {S1 S2} `{SoStorageLaws S1} `{SoStorageLaws S2} (s1 : S1) (s2 : S2) :
  so_ok s1 -> so_ok s2 -> mem_eq (so_mem s1) (so_mem s2) ->
  (forall o f, is_u32 o -> 0 <= f < MAX_FIELD -> so_get s1 o f = so_get s2 o f) /\
  (forall o f len buf, range_ok o f len -> 0 < len -> len <= zlen buf ->
     so_getchunk s1 o f len buf = so_getchunk s2 o f len buf).
Proof.
  intros Hs1 Hs2 Hm. split.
  - intros o f Ho Hf. by rewrite !so_get_law, Hm.
  - intros o f len buf Hr Hpos Hlen. pose proof Hr as (Ho & Hf & Hl & Hfl).
    destruct (so_getchunk_law s1 o f len buf) as (b1 & -> & Hl1 & Hb1); [done..|].
    destruct (so_getchunk_law s2 o f len buf) as (b2 & -> & Hl2 & Hb2); [done..|].
    do 2 f_equal. apply zlook_ext; [lia|]. intros i Hi. rewrite Hb1, Hb2.
    case_test; [|done]. by rewrite Hm by (done || lia).
Qed.

(** * The life of an object *)

Section objects.
Context {M : Type} `{MemcachedLaws M}.
Import SoStorageMemcached.

(** The info record of an object. *)
Definition info_key (o : Z) : Z := MAKE64 o 0xFFFFFFFF.

Lemma getinfo_stored m o out fl sz : is_u32 fl -> is_u32 sz ->
  mc_view m !! info_key o = Some (ObjectInfo fl sz) -> getinfo m o out = Ret (SoOK, (fl, sz)).
Proof.
  intros Hfl Hsz Hv. unfold getinfo, info_key in *.
  pose proof (mc_get_law m (MAKE64 o 0xFFFFFFFF)) as Hg. rewrite Hv in Hg. rewrite Hg.
  rewrite decide_True by done. unfold ObjectInfo.
  assert (Forall is_u32 [fl; sz]) by (by repeat (apply Forall_cons; split)).
  by rewrite (word_at_bytes_of_words [fl; sz] 0 fl), (word_at_bytes_of_words [fl; sz] 1 sz).
Qed.

Lemma getinfo_absent m o out : mc_view m !! info_key o = None -> getinfo m o out = Ret (SoFail, out).
Proof.
  intros Hv. unfold getinfo, info_key in *.
  pose proof (mc_get_law m (MAKE64 o 0xFFFFFFFF)) as Hg. rewrite Hv in Hg.
  destruct (memcached_get m _) as [rc r]. simpl in Hg. subst rc. done.
Qed.

Lemma newobj_inv m o fl sz m' st : newobj m o fl sz = (m', st) ->
  (st = SoOK -> mc_view m !! info_key o = None /\
     mc_view m' = <[info_key o := ObjectInfo fl sz]> (mc_view m)) /\
  (st <> SoOK -> st = SoFail /\ mc_view m' = mc_view m).
Proof.
  unfold newobj, info_key.
  destruct (memcached_add m (MAKE64 o 0xFFFFFFFF) (ObjectInfo fl sz)) as [m1 rc] eqn:Ha.
  apply mc_add_law in Ha as [Hv Hn]. intros [= <- <-]. case_decide; split; intros; auto; done.
Qed.

(** The loop of [del]. *)
Lemma delete_range_spec m o n : 0 <= n -> exists m',
  for_range 0 n (fun i m => Ret (fst (memcached_delete m (MAKE64 o i)))) m = Ret m' /\
  forall k, ((exists i, 0 <= i < n /\ k = MAKE64 o i) -> mc_view m' !! k = None) /\
            ((forall i, 0 <= i < n -> k <> MAKE64 o i) -> mc_view m' !! k = mc_view m !! k).
Proof.
  intros Hn.
  destruct (for_range_rule (fun i m' => forall k,
     ((exists j, 0 <= j < i /\ k = MAKE64 o j) -> mc_view m' !! k = None) /\
     ((forall j, 0 <= j < i -> k <> MAKE64 o j) -> mc_view m' !! k = mc_view m !! k)) 0 n
     (fun i m => Ret (fst (memcached_delete m (MAKE64 o i)))) m) as (m' & -> & Hm'); [done| | |eauto].
  - intros i m1 Hi H1. eexists. split; [done|]. intros k. rewrite mc_delete_law.
    destruct (H1 k) as [Hin Hout]. rewrite lookup_delete. case_decide as Hk; split; try done.
    + intros Hne. destruct (Hne i); [lia|done].
    + intros (j & Hj & ->). apply Hin. exists j. split; [|done].
      destruct (decide (j = i)) as [->|]; [done|lia].
    + intros Hne. apply Hout. intros j Hj. apply Hne. lia.
  - intros k. split; [intros (j & Hj & _); lia|done].
Qed.

(** What both [del]s leave when they remove [n] keys and the info record. *)
Lemma delete_object_view m o n : is_u32 o -> 0 <= n <= MAX_FIELD -> exists m1,
  for_range 0 n (fun i m => Ret (fst (memcached_delete m (MAKE64 o i)))) m = Ret m1 /\
  let m' := fst (memcached_delete m1 (MAKE64 o 0xFFFFFFFF)) in
  mc_view m' !! info_key o = None /\
  (forall i, 0 <= i < n -> mc_view m' !! MAKE64 o i = None) /\
  (forall i, n <= i < MAX_FIELD -> mc_view m' !! MAKE64 o i = mc_view m !! MAKE64 o i) /\
  (forall o' i, o' <> o -> is_u32 i ->
     mc_view m' !! MAKE64 o' i = mc_view m !! MAKE64 o' i).
Proof.
  intros Ho Hn. destruct (delete_range_spec m o n) as (m1 & -> & Hv); [lia|].
  exists m1. split; [done|]. cbv zeta. rewrite mc_delete_law. unfold MAX_FIELD, info_key in *.
  split; [by rewrite lookup_delete_eq|]. split; [|split].
  - intros i Hi. rewrite lookup_delete. case_decide; [done|]. apply Hv. eauto.
  - intros i Hi. rewrite lookup_delete_ne.
    + apply Hv. intros j Hj Hk. apply MAKE64_inj in Hk as [_ ->]; [lia|ranges..].
    + intros Hk. apply MAKE64_inj in Hk as [_ Hk]; [lia|ranges..].
  - intros o' i Hne Hi. rewrite lookup_delete_ne.
    + apply Hv. intros j Hj Hk. apply MAKE64_inj in Hk as [-> _]; [done|ranges..].
    + intros Hk. apply MAKE64_inj in Hk as [-> _]; [done|ranges..].
Qed.
End objects.

(** * Counters *)

Lemma atoll_lu_digits fuel n acc : 0 <= n < 10 ^ Z.of_nat fuel -> exists k, 0 <= k /\
  forall a, atoll_from a (lu_digits fuel n acc) = atoll_from (a * 10 ^ k + n) acc.
Proof.
  revert n acc. induction fuel as [|fuel IH]; intros n acc Hn.
  { assert (n = 0) as -> by lia. exists 0. split; [done|]. intros a. simpl. f_equal. lia. }
  assert (forall a, atoll_from a ((48 + n mod 10) :: acc) = atoll_from (10 * a + n mod 10) acc) as Hd.
  { intros a. cbn [atoll_from]. rewrite (proj2 (andb_true_iff _ _)) by lia. f_equal. lia. }
  cbn [lu_digits]. destruct (Z.eqb_spec (n / 10) 0) as [H0|H0].
  - exists 1. split; [lia|]. intros a. rewrite Hd. f_equal. lia.
  - destruct (IH (n / 10) ((48 + n mod 10) :: acc)) as (k & Hk & Ha).
    { rewrite Nat2Z.inj_succ, Z.pow_succ_r in Hn by lia. lia. }
    exists (k + 1). split; [lia|]. intros a. rewrite Ha, Hd, Z.pow_add_r by lia. f_equal. lia.
Qed.

Lemma atoll_sprintf n pad : is_u64 n -> atoll_from 0 (sprintf_lu n ++ replicate pad 32) = n.
Proof.
  intros Hn. assert (Happ : forall fuel n acc, lu_digits fuel n acc ++ replicate pad 32
    = lu_digits fuel n (acc ++ replicate pad 32)).
  { induction fuel as [|fuel IH]; intros n' acc; [done|].
    cbn [lu_digits]. case_test; [done|]. by rewrite IH. }
  unfold sprintf_lu. rewrite Happ.
  destruct (atoll_lu_digits 20 n ([] ++ replicate pad 32)) as (k & _ & ->);
    [unfold is_u64 in Hn; simpl Z.of_nat; lia|].
  rewrite Z.mul_0_l, Z.add_0_l. simpl. destruct pad; done.
Qed.

Section counters.
Context {M : Type} `{MemcachedLaws M}.
Import SoStorageMemcached.

(** The counter at a field holds [n]. *)
Definition counter_is (m : M) (o f n : Z) : Prop :=
  exists v, mc_view m !! MAKE64 o f = Some v /\ counter_text n v.

Lemma setcounter_is m o f n m' : setcounter m o f n = (m', SoOK) -> counter_is m' o f n.
Proof.
  unfold setcounter. destruct (memcached_set m (MAKE64 o f) (sprintf_lu n)) as [m1 rc] eqn:Hs.
  apply mc_set_law in Hs. intros [= <- Hst]. case_decide; [|done].
  exists (sprintf_lu n). rewrite Hs, lookup_insert_eq. split; [done|].
  exists O. by rewrite app_nil_r.
Qed.

Lemma getcounter_is m o f n : is_u64 n -> counter_is m o f n ->
  getcounter m o f = if n <? 2 ^ 63 then Ret n else Abort.
Proof.
  intros Hn (v & Hv & pad & ->). unfold getcounter.
  pose proof (mc_get_law m (MAKE64 o f)) as Hg. rewrite Hv in Hg. rewrite Hg.
  rewrite decide_True by done. unfold atoll. rewrite atoll_sprintf by done.
  case_test; [|done]. by rewrite bind_ret, u64_small.
Qed.

Context `{!MemcachedCounterLaws M}.

Lemma increment_is m o f n d : is_u64 n -> counter_is m o f n -> exists m',
  memcached_increment m (MAKE64 o f) d = (m', MEMCACHED_SUCCESS, u64 (n + d)) /\
  counter_is m' o f (u64 (n + d)).
Proof.
  intros Hn Hc. destruct (mc_increment_law m (MAKE64 o f) n d) as (m' & v & -> & Ht & Hv); [done..|].
  exists m'. split; [done|]. exists v. by rewrite Hv, lookup_insert_eq.
Qed.
End counters.

(** * The concrete server keeps its promises *)

Module MapServerFacts.
Import MapServer.

#[export] Instance server_laws : MemcachedLaws server.
Proof.
  refine {| mc_view := fun m => m |}.
  - by intros m k v m' rc [= <- <-].
  - intros m k v m' rc. simpl. destruct (m !! k) eqn:Hk; by intros [= <- <-].
  - done.
  - intros m k. simpl. by destruct (m !! k).
  - intros m ks. eexists. split; [done|]. split.
    + intros k v Hin. apply list_elem_of_omap in Hin as (k' & Hk' & Hv).
      destruct (m !! k') eqn:Hm; [|done]. by injection Hv as -> ->.
    + intros k v Hk Hv. apply list_elem_of_omap. exists k. split; [done|]. by rewrite Hv.
Defined.

#[export] Instance server_counter_laws : MemcachedCounterLaws server.
Proof.
  constructor. intros m k n d Hn (v & Hv & pad & ->). simpl in *. rewrite Hv.
  rewrite atoll_sprintf by done. eexists _, _. split; [done|]. split; [|done].
  exists O. by rewrite app_nil_r.
Defined.

#[export] Instance word_reliable : SoReliable (word_store server).
Proof.
  intros [m] o f len buf s' st _ (_ & _ & Hl & _). cbn [so_putchunk word_SoStorage lift_word].
  unfold SoStorageMemcached.putchunk, SoStorageMemcached.MemcachedPutChunk. intros Hrun.
  apply bind_Ret_inv in Hrun as ([m' st'] & Hrun & [= <- <-]).
  apply bind_Ret_inv in Hrun as ([[m1 k] ret] & Hrun & [= <- <-]).
  refine (for_range_inv (S := server * Z * SoStatus) (fun _ '(_, _, ret) => ret = SoOK)
    0 len _ _ _ Hl _ _ Hrun); [|done].
  intros i [[m2 k2] ret2] x _ -> Hb. apply bind_Ret_inv in Hb as (v & _ & [= <-]). done.
Qed.
End MapServerFacts.

(** * Properties *)

(** A write and a read through the interface: shared by the two back ends. *)
Lemma write_read {S} `{SoStorageLaws S} (s : S) o f len buf o' f' len' buf' :
  so_ok s -> range_ok o f len -> len <= zlen buf -> Forall is_u32 buf ->
  range_ok o' f' len' -> 0 < len' -> len' <= zlen buf' ->
  exists s' st b0 b1, so_putchunk s o f len buf = Ret (s', st) /\
    so_getchunk s o' f' len' buf' = Ret (SoOK, b0) /\
    so_getchunk s' o' f' len' buf' = Ret (SoOK, b1) /\
    forall j, 0 <= j < len' ->
      if (o' =? o) && (f <=? f' + j) && (f' + j <? f + len)
      then (st = SoOK -> b1.[j] = buf.[f' + j - f]) /\
           (b1.[j] = b0.[j] \/ b1.[j] = buf.[f' + j - f])
      else b1.[j] = b0.[j].
Proof.
  intros Hs Hr Hl Hu Hr' Hpos Hl'. pose proof Hr' as (Ho' & Hf' & _ & Hfl').
  destruct (so_putchunk_law s o f len buf) as (s' & st & Hput & Hs' & Hw); [done..|].
  destruct (so_getchunk_law s o' f' len' buf') as (b0 & Hg0 & _ & Hb0); [done..|].
  destruct (so_getchunk_law s' o' f' len' buf') as (b1 & Hg1 & _ & Hb1); [done..|].
  exists s', st, b0, b1. do 3 (split; [done|]). intros j Hj. rewrite Hb0, Hb1.
  assert ((0 <=? j) && (j <? len') = true) as -> by lia.
  specialize (Hw o' (f' + j) Ho'). case_test; [|by rewrite Hw by (unfold MAX_FIELD in *; lia)].
  destruct Hw as [H1 H2]; [unfold MAX_FIELD in *; lia|]. split; [intros; symmetry; by apply H1|].
  destruct H2 as [-> |H2]; [by left|by right].
Qed.

(** C4. A chunk written to the block back end is what later reads return: after
    [putchunk] of [len] words at field [f] of object [o], reading any range gives, word by
    word, the value written where the range was written, and elsewhere exactly
    what the same read gave before; when a [memcached_set] is refused and the
    status is not [SoOK], each written word is the old or the new one. Neither
    operation leaves a buffer, and both end. *)
Theorem chunk_write_read {M} `{MemcachedLaws M} (m : M) o f len buf o' f' len' buf' :
  chunk_ok (ChunkStore m) -> range_ok o f len -> len <= zlen buf -> Forall is_u32 buf ->
  range_ok o' f' len' -> 0 < len' -> len' <= zlen buf' ->
  exists m' st b0 b1, SoStorageChunkMemcached.putchunk m o f len buf = Ret (m', st) /\
    chunk_ok (ChunkStore m') /\
    SoStorageChunkMemcached.getchunk m o' f' len' buf' = Ret (SoOK, b0) /\
    SoStorageChunkMemcached.getchunk m' o' f' len' buf' = Ret (SoOK, b1) /\
    forall j, 0 <= j < len' ->
      if (o' =? o) && (f <=? f' + j) && (f' + j <? f + len)
      then (st = SoOK -> b1.[j] = buf.[f' + j - f]) /\
           (b1.[j] = b0.[j] \/ b1.[j] = buf.[f' + j - f])
      else b1.[j] = b0.[j].
Proof.
  intros Hm Hr Hl Hu Hr' Hpos Hl'.
  destruct (chunk_putchunk_law (ChunkStore m) o f len buf) as (s & st & Hp & Hok & _); [done..|].
  destruct (write_read (ChunkStore m) o f len buf o' f' len' buf')
    as ([m'] & st' & b0 & b1 & Hput & Hg0 & Hg1 & Hb); [done..|].
  exists m', st', b0, b1. rewrite Hput in Hp. injection Hp as <- <-. simpl in Hput.
  apply bind_Ret_inv in Hput as ([m1 st1] & Hput & [= <- <-]). auto.
Qed.

(** C25. The same for the back end that keeps one word per key. *)
Theorem word_write_read {M} `{MemcachedLaws M} (m : M) o f len buf o' f' len' buf' :
  word_ok (WordStore m) -> range_ok o f len -> len <= zlen buf -> Forall is_u32 buf ->
  range_ok o' f' len' -> 0 < len' -> len' <= zlen buf' ->
  exists m' st b0 b1, SoStorageMemcached.putchunk m o f len buf = Ret (m', st) /\
    word_ok (WordStore m') /\
    SoStorageMemcached.getchunk m o' f' len' buf' = Ret (SoOK, b0) /\
    SoStorageMemcached.getchunk m' o' f' len' buf' = Ret (SoOK, b1) /\
    forall j, 0 <= j < len' ->
      if (o' =? o) && (f <=? f' + j) && (f' + j <? f + len)
      then (st = SoOK -> b1.[j] = buf.[f' + j - f]) /\
           (b1.[j] = b0.[j] \/ b1.[j] = buf.[f' + j - f])
      else b1.[j] = b0.[j].
Proof.
  intros Hm Hr Hl Hu Hr' Hpos Hl'.
  destruct (word_putchunk_law (WordStore m) o f len buf) as (s & st & Hp & Hok & _); [done..|].
  destruct (write_read (WordStore m) o f len buf o' f' len' buf')
    as ([m'] & st' & b0 & b1 & Hput & Hg0 & Hg1 & Hb); [done..|].
  exists m', st', b0, b1. rewrite Hput in Hp. injection Hp as <- <-. simpl in Hput.
  apply bind_Ret_inv in Hput as ([m1 st1] & Hput & [= <- <-]). auto.
Qed.

(** C5. The two back ends are interchangeable: from states with the same words,
    any sequence of writes ([put], [putchunk] and their 64-bit overloads) ends on
    both, and when every write reported [SoOK] every later [get] and [getchunk]
    returns the same result on both. *)
Theorem back_ends_agree {M1 M2} `{MemcachedLaws M1} `{MemcachedLaws M2} (m1 : M1) (m2 : M2) ws :
  word_ok (WordStore m1) -> chunk_ok (ChunkStore m2) ->
  mem_eq (word_mem (WordStore m1)) (chunk_mem (ChunkStore m2)) -> Forall op_ok ws ->
  exists w c st1 st2, run_ops (WordStore m1) ws = Ret (w, st1) /\
    run_ops (ChunkStore m2) ws = Ret (c, st2) /\
    (st1 = SoOK -> st2 = SoOK ->
      (forall o f, is_u32 o -> 0 <= f < MAX_FIELD ->
         SoStorageMemcached.get (word_client w) o f
         = SoStorageChunkMemcached.get (chunk_client c) o f) /\
      (forall o f len buf, range_ok o f len -> 0 < len -> len <= zlen buf ->
         SoStorageMemcached.getchunk (word_client w) o f len buf
         = SoStorageChunkMemcached.getchunk (chunk_client c) o f len buf)).
Proof.
  intros Hw Hc Hm Hws.
  destruct (run_ops_spec ws (WordStore m1)) as (w & st1 & -> & Hw' & Hm1); [done..|].
  destruct (run_ops_spec ws (ChunkStore m2)) as (c & st2 & -> & Hc' & Hm2); [done..|].
  exists w, c, st1, st2. do 2 (split; [done|]). intros Hs1 Hs2.
  assert (mem_eq (so_mem w) (so_mem c)) as Hwc.
  { rewrite (Hm1 Hs1), (Hm2 Hs2). by apply ops_mem_proper. }
  destruct (same_mem_same_reads w c Hw' Hc' Hwc) as [Hg Hch]. split; [exact Hg|exact Hch].
Qed.

(** An object id is claimed once: [newobj] succeeds only on an id without an
    info record; after it [getinfo] returns the class and size given, and a second
    [newobj] on the id fails and changes nothing. *)
Theorem newobj_claims_once {M} `{MemcachedLaws M} (m m' : M) o fl sz out :
  is_u32 fl -> is_u32 sz -> SoStorageMemcached.newobj m o fl sz = (m', SoOK) ->
  SoStorageMemcached.getinfo m o out = Ret (SoFail, out) /\
  SoStorageMemcached.getinfo m' o out = Ret (SoOK, (fl, sz)) /\
  forall fl' sz', exists m2, SoStorageMemcached.newobj m' o fl' sz' = (m2, SoFail) /\
    mc_view m2 = mc_view m'.
Proof.
  intros Hfl Hsz Hnew. apply newobj_inv in Hnew as [Hok _]. destruct Hok as [Hn Hv]; [done|].
  split; [by apply getinfo_absent|]. split.
  - apply getinfo_stored; [done..|]. by rewrite Hv, lookup_insert_eq.
  - intros fl' sz'. destruct (SoStorageMemcached.newobj m' o fl' sz') as [m2 st] eqn:H2.
    apply newobj_inv in H2 as [Hs Hf]. destruct (decide (st = SoOK)) as [Hst|Hst].
    + destruct (Hs Hst) as [Hn' _]. by rewrite Hv, lookup_insert_eq in Hn'.
    + destruct (Hf Hst) as [-> Hv2]. eauto.
Qed.

(** Deleting an object of the block back end: [del] succeeds on an object that
    has an info record, every field below the recorded size then reads zero, the
    info record is gone, and no word of another object changes. *)
Theorem chunk_del_object {M} `{MemcachedLaws M} (m : M) o fl sz :
  chunk_ok (ChunkStore m) -> is_u32 o -> 0 <= sz < MAX_FIELD ->
  SoStorageMemcached.getinfo m o (0, 0) = Ret (SoOK, (fl, sz)) ->
  exists m', SoStorageChunkMemcached.del m o = Ret (m', SoOK) /\
    SoStorageMemcached.getinfo m' o (0, 0) = Ret (SoFail, (0, 0)) /\
    (forall f, 0 <= f < sz -> SoStorageChunkMemcached.get m' o f = Ret 0) /\
    (forall o' f, o' <> o -> is_u32 o' -> 0 <= f < MAX_FIELD ->
       SoStorageChunkMemcached.get m' o' f = SoStorageChunkMemcached.get m o' f).
Proof.
  intros Hok Ho Hsz Hinfo. unfold SoStorageChunkMemcached.del. rewrite Hinfo, bind_ret.
  rewrite decide_True by done. rewrite block_size_32.
  set (cnt := if sz mod 32 =? 0 then sz / 32 else sz / 32 + 1).
  assert (0 <= cnt <= MAX_FIELD /\ sz <= 32 * cnt) as [Hcnt Hcs].
  { unfold cnt, MAX_FIELD in *. destruct (Z.eqb_spec (sz mod 32) 0); lia. }
  destruct (delete_object_view m o cnt) as (m1 & -> & Hn & Hin & Hout & Hoth); [done..|].
  rewrite bind_ret. eexists. split; [done|]. split; [by apply getinfo_absent|].
  assert (chunk_ok (ChunkStore (fst (memcached_delete m1 (MAKE64 o 0xFFFFFFFF))))) as Hok'.
  { intros o' b v Ho' Hb Hb' Hv. cbn [chunk_client] in Hv. destruct (decide (o' = o)) as [->|Hne].
    - destruct (decide (b < cnt)); [by rewrite Hin in Hv by lia|].
      rewrite Hout in Hv by (unfold MAX_FIELD in *; lia). by apply (Hok o b).
    - rewrite Hoth in Hv by (done || (unfold MAX_FIELD in *; ranges)). by apply (Hok o' b). }
  split.
  - intros f Hf. change (so_get (ChunkStore (fst (memcached_delete m1 (MAKE64 o 0xFFFFFFFF)))) o f = Ret 0).
    rewrite so_get_law by (done || lia). cbn. unfold chunk_mem. cbn [chunk_client].
    by rewrite Hin by lia.
  - intros o' f Hne Ho' Hf.
    change (so_get (ChunkStore (fst (memcached_delete m1 (MAKE64 o 0xFFFFFFFF)))) o' f
            = so_get (ChunkStore m) o' f).
    rewrite !so_get_law by done. cbn. unfold chunk_mem. cbn [chunk_client].
    by rewrite Hoth by (done || (unfold MAX_FIELD in *; ranges)).
Qed.

(** Shared counters count on 64 bits: after a successful [setcounter] of [n],
    [getcounter] returns [n] when [long long] holds it, and [inc] by [d] returns
    [n + d] modulo 2^64, which is what the counter then holds. *)
Theorem counter_inc {M} `{MemcachedCounterLaws M} (m m' : M) o f n d :
  is_u64 n -> SoStorageMemcached.setcounter m o f n = (m', SoOK) ->
  (n < 2 ^ 63 -> SoStorageMemcached.getcounter m' o f = Ret n) /\
  exists m2, SoStorageMemcached.inc m' o f d = Ret (m2, u64 (n + d)) /\
    (u64 (n + d) < 2 ^ 63 -> SoStorageMemcached.getcounter m2 o f = Ret (u64 (n + d))).
Proof.
  intros Hn Hset. apply setcounter_is in Hset. split.
  - intros Hlt. rewrite (getcounter_is _ _ _ n) by done. by rewrite (proj2 (Z.ltb_lt _ _)).
  - destruct (increment_is m' o f n d) as (m2 & Hi & Hc); [done..|]. exists m2.
    unfold SoStorageMemcached.inc. rewrite Hi, decide_True by done. split; [done|].
    intros Hlt. rewrite (getcounter_is _ _ _ (u64 (n + d))) by (done || apply u64_range).
    by rewrite (proj2 (Z.ltb_lt _ _)).
Qed.

(** [dec] by [d] adds [d] to the counter, as [inc] does: both call
    [memcached_increment]. *)
Theorem counter_dec_adds {M} `{MemcachedCounterLaws M} (m m' : M) o f n d :
  is_u64 n -> is_u64 d -> 0 < d -> n + d < 2 ^ 63 ->
  SoStorageMemcached.setcounter m o f n = (m', SoOK) ->
  exists m2, SoStorageMemcached.dec m' o f d = Ret (m2, n + d) /\
    SoStorageMemcached.getcounter m2 o f = Ret (n + d).
Proof.
  intros Hn Hd Hpos Hlt Hset. apply setcounter_is in Hset.
  destruct (increment_is m' o f n d) as (m2 & Hi & Hc); [done..|]. exists m2.
  rewrite u64_small in Hi, Hc by ranges.
  unfold SoStorageMemcached.dec. rewrite Hi, decide_True by done. split; [done|].
  rewrite (getcounter_is _ _ _ (n + d)) by (done || ranges). by rewrite (proj2 (Z.ltb_lt _ _)).
Qed.

(** The status of a read on the word back end is that of its last batch of 490
    keys, whatever the fetches of the batches before it returned (the block back
    end stops at the first failure); a read of no words has no defined status. *)
Theorem word_getchunk_last_batch {M} `{Memcached M} (m : M) k len buf :
  (len <= 0 -> SoStorageMemcached.MemcachedGetChunk m k len buf = Abort) /\
  forall st buf', 0 < len -> len + MEMCACHED_FETCH_BATCH <= 2 ^ 32 ->
    SoStorageMemcached.MemcachedGetChunk m k len buf = Ret (st, buf') ->
    let off := (len - 1) / MEMCACHED_FETCH_BATCH * MEMCACHED_FETCH_BATCH in
    st = fst (SoStorageMemcached.fetchchunk m (u64 (k + off)) (len - off)).
Proof.
  unfold SoStorageMemcached.MemcachedGetChunk, MEMCACHED_FETCH_BATCH. split.
  { intros Hlen. replace (Z.to_nat len) with O by lia. cbn [while].
    by rewrite (proj2 (Z.ltb_ge 0 len)) by lia. }
  intros st buf' Hpos Hlim Hget.
  apply bind_Ret_inv in Hget as ([[off' ret] b] & Hw & Hret). cbv zeta.
  apply (while_inv (fun '(off, ret, _) => 0 <= off < len + 490 /\ off mod 490 = 0 /\
    ret = if off =? 0 then None else
      Some (fst (SoStorageMemcached.fetchchunk m (u64 (k + (off - 490)))
                   (Z.min 490 (len - (off - 490))))))) in Hw.
  - destruct Hw as ((Hoff & Hmod & ->) & Hend%Z.ltb_ge).
    destruct (Z.eqb_spec off' 0); [lia|]. injection Hret as <- _.
    assert (off' - 490 = (len - 1) / 490 * 490) as -> by lia. by rewrite Z.min_r by lia.
  - intros [[o1 r1] b1] [[o2 r2] b2] (H1 & Hm1 & _) Hc%Z.ltb_lt Hbody.
    set (mylen := if u32 (o1 + 490) <? len then 490 else u32 (len - o1)) in Hbody.
    assert (mylen = Z.min 490 (len - o1)) as Hmy.
    { unfold mylen. rewrite !u32_small by ranges. case_test; lia. }
    apply bind_Ret_inv in Hbody as (b3 & _ & Hbody).
    destruct (SoStorageMemcached.fetchchunk m (u64 (k + o1)) mylen) as [st1 rs] eqn:Hf.
    apply bind_Ret_inv in Hbody as (b4 & _ & Hbody). injection Hbody as <- <- _.
    rewrite u32_small by ranges. split; [lia|]. split; [lia|].
    destruct (Z.eqb_spec (o1 + 490) 0); [lia|].
    replace (o1 + 490 - 490) with o1 by lia. by rewrite <-Hmy, Hf.
  - split; [lia|]. done.
Qed.

(** * Witnesses: the properties at concrete inputs, on the map server *)

Section witnesses.
Import MapServer MapServerFacts.

Lemma empty_word_ok : word_ok (WordStore (∅ : server)).
Proof. intros o f v _ _ Hv. cbn in Hv. by rewrite lookup_empty in Hv. Qed.

Lemma empty_chunk_ok : chunk_ok (ChunkStore (∅ : server)).
Proof. intros o b v _ _ _ Hv. cbn in Hv. by rewrite lookup_empty in Hv. Qed.

Lemma chunk_write_read_witness : exists m' st b0 b1,
  SoStorageChunkMemcached.putchunk (∅ : server) 7 30 5 [1; 2; 3; 4; 5] = Ret (m', st) /\
  chunk_ok (ChunkStore m') /\
  SoStorageChunkMemcached.getchunk (∅ : server) 7 28 10 (replicate 10 9) = Ret (SoOK, b0) /\
  SoStorageChunkMemcached.getchunk m' 7 28 10 (replicate 10 9) = Ret (SoOK, b1) /\
  forall j, 0 <= j < 10 ->
    if (7 =? 7) && (30 <=? 28 + j) && (28 + j <? 30 + 5)
    then (st = SoOK -> b1.[j] = [1; 2; 3; 4; 5].[28 + j - 30]) /\
         (b1.[j] = b0.[j] \/ b1.[j] = [1; 2; 3; 4; 5].[28 + j - 30])
    else b1.[j] = b0.[j].
Proof.
  apply (chunk_write_read (∅ : server) 7 30 5 [1; 2; 3; 4; 5] 7 28 10 (replicate 10 9)).
  - exact empty_chunk_ok.
  - unfold range_ok, MAX_FIELD. ranges.
  - done.
  - u32s.
  - unfold range_ok, MAX_FIELD. ranges.
  - done.
  - done.
Defined.

Lemma word_write_read_witness : exists m' st b0 b1,
  SoStorageMemcached.putchunk (∅ : server) 7 30 5 [1; 2; 3; 4; 5] = Ret (m', st) /\
  word_ok (WordStore m') /\
  SoStorageMemcached.getchunk (∅ : server) 7 28 10 (replicate 10 9) = Ret (SoOK, b0) /\
  SoStorageMemcached.getchunk m' 7 28 10 (replicate 10 9) = Ret (SoOK, b1) /\
  forall j, 0 <= j < 10 ->
    if (7 =? 7) && (30 <=? 28 + j) && (28 + j <? 30 + 5)
    then (st = SoOK -> b1.[j] = [1; 2; 3; 4; 5].[28 + j - 30]) /\
         (b1.[j] = b0.[j] \/ b1.[j] = [1; 2; 3; 4; 5].[28 + j - 30])
    else b1.[j] = b0.[j].
Proof.
  apply (word_write_read (∅ : server) 7 30 5 [1; 2; 3; 4; 5] 7 28 10 (replicate 10 9)).
  - exact empty_word_ok.
  - unfold range_ok, MAX_FIELD. ranges.
  - done.
  - u32s.
  - unfold range_ok, MAX_FIELD. ranges.
  - done.
  - done.
Defined.

Lemma back_ends_agree_witness :
  let ws := [WPut 1 31 5; WPut64 1 63 (2 ^ 40 + 3); WPutChunk 2 0 3 [7; 8; 9]] in
  exists w c st1 st2, run_ops (WordStore (∅ : server)) ws = Ret (w, st1) /\
    run_ops (ChunkStore (∅ : server)) ws = Ret (c, st2) /\ st1 = SoOK /\ st2 = SoOK /\
    SoStorageMemcached.get (word_client w) 1 64 = SoStorageChunkMemcached.get (chunk_client c) 1 64.
Proof.
  intros ws.
  destruct (back_ends_agree (∅ : server) (∅ : server) ws)
    as (w & c & st1 & st2 & Hw & Hc & Hagree).
  - exact empty_word_ok.
  - exact empty_chunk_ok.
  - intros o f _ _. unfold word_mem, chunk_mem. cbn. by rewrite !lookup_empty.
  - repeat (apply Forall_cons; split; [split; [unfold range_ok, MAX_FIELD; cbn; ranges|
      split; [done|cbn [op_args]; try (apply (words_of_u64s_u32 [_])); u32s]]|]). apply Forall_nil. exact I.
  - exists w, c, st1, st2. split; [exact Hw|]. split; [exact Hc|].
    assert (st1 = SoOK) as -> by (vm_compute in Hw; congruence).
    assert (st2 = SoOK) as -> by (vm_compute in Hc; congruence).
    split; [done|]. split; [done|]. destruct (Hagree eq_refl eq_refl) as [Hg _].
    apply Hg; [ranges|unfold MAX_FIELD; lia].
Defined.

Lemma newobj_claims_once_witness : exists m' : server,
  SoStorageMemcached.getinfo (∅ : server) 5 (1, 2) = Ret (SoFail, (1, 2)) /\
  SoStorageMemcached.getinfo m' 5 (1, 2) = Ret (SoOK, (3, 64)).
Proof.
  destruct (SoStorageMemcached.newobj (∅ : server) 5 3 64) as [m' st] eqn:Hn.
  exists m'. assert (st = SoOK) as -> by (vm_compute in Hn; congruence).
  destruct (newobj_claims_once (∅ : server) m' 5 3 64 (1, 2)) as (H1 & H2 & _);
    [ranges|ranges|exact Hn|]. split; [exact H1|exact H2].
Defined.

Lemma chunk_del_object_witness :
  let m := fst (SoStorageMemcached.newobj (∅ : server) 5 3 64) in
  exists m', SoStorageChunkMemcached.del m 5 = Ret (m', SoOK) /\
    SoStorageMemcached.getinfo m' 5 (0, 0) = Ret (SoFail, (0, 0)).
Proof.
  intros m. destruct (chunk_del_object m 5 3 64) as (m' & Hd & Hi & _).
  - intros o b v Ho Hb Hb' Hv. exfalso. unfold MAX_FIELD in *.
    change (mc_view _) with (<[MAKE64 5 0xFFFFFFFF := SoStorageMemcached.ObjectInfo 3 64]> (∅ : server)) in Hv.
    rewrite lookup_insert_ne in Hv; [by rewrite lookup_empty in Hv|].
    intros Hk. apply MAKE64_inj in Hk as [_ Hk]; [lia|ranges..].
  - ranges.
  - unfold MAX_FIELD. lia.
  - vm_compute. reflexivity.
  - exists m'. split; [exact Hd|exact Hi].
Defined.

Lemma counter_inc_witness :
  let m := fst (SoStorageMemcached.setcounter (∅ : server) 5 3 99) in
  SoStorageMemcached.getcounter m 5 3 = Ret 99 /\
  exists m2, SoStorageMemcached.inc m 5 3 2 = Ret (m2, 101).
Proof.
  intros m. destruct (counter_inc (∅ : server) m 5 3 99 2) as [Hg (m2 & Hi & _)].
  - ranges.
  - vm_compute. reflexivity.
  - split; [apply Hg; lia|]. exists m2. exact Hi.
Defined.

Lemma counter_dec_adds_witness :
  let m := fst (SoStorageMemcached.setcounter (∅ : server) 5 3 99) in
  exists m2, SoStorageMemcached.dec m 5 3 2 = Ret (m2, 101).
Proof.
  intros m. destruct (counter_dec_adds (∅ : server) m 5 3 99 2) as (m2 & Hd & _).
  - ranges.
  - ranges.
  - lia.
  - lia.
  - vm_compute. reflexivity.
  - exists m2. exact Hd.
Defined.

Lemma word_getchunk_last_batch_witness :
  exists st buf', SoStorageMemcached.MemcachedGetChunk (∅ : server) 0 3 [1; 1; 1] = Ret (st, buf') /\
    st = fst (SoStorageMemcached.fetchchunk (∅ : server) (u64 (0 + 0)) (3 - 0)).
Proof.
  destruct (word_getchunk_last_batch (∅ : server) 0 3 [1; 1; 1]) as [_ Hl].
  exists SoOK, [0; 0; 0].
  assert (SoStorageMemcached.MemcachedGetChunk (∅ : server) 0 3 [1; 1; 1] = Ret (SoOK, [0; 0; 0])) as Hg
    by (vm_compute; reflexivity).
  split; [exact Hg|]. apply (Hl SoOK [0; 0; 0]); [lia|unfold MEMCACHED_FETCH_BATCH; lia|exact Hg].
Defined.
End witnesses.
