(* ===== verification/Sync.v ===== *)
(** Cluster-wide synchronisation, [Dogee/DogeeRemote.cpp]: the master's
    [SyncManager] (barriers, semaphores, events), the thread events that wake
    blocked threads, the command messages between slaves and master, and the
    client calls [RcEnterBarrier], [RcEnterSemaphore], ... The last part puts them
    together in a step relation of the whole cluster. *)
From S2P Require Import Prelude Storage.

(** * Messages *)

Inductive RcCommand :=
| RcCmdClose
| RcCmdCreateThread
| RcCmdSuspendThread
| RcCmdStopThread
| RcCmdTriggerGC
| RcCmdDoGC
| RcCmdDoneGC
| RcCmdWakeSync
| RcCmdEnterBarrier
| RcCmdEnterSemaphore
| RcCmdLeaveSemaphore
| RcCmdWaitForEvent
| RcCmdSetEvent
| RcCmdResetEvent
| RcCmdAlive
| RcCmdRestart.

#[export] Instance RcCommand_eq_dec : EqDecision RcCommand.
Proof. solve_decision. Defined.

(** A field the sender leaves uninitialised is 0 here; no receiver reads it.
    [payload] are the bytes that follow the command on the connection. *)
Record RcCommandPack := Pack {
  cmd : RcCommand;
  param : Z;
  param2 : Z;
  param3 : Z;
  param4 : Z;
  payload : list Z;
}.

Record SyncThreadNode := Thread { machine : Z; thread_id : Z }.

#[export] Instance SyncThreadNode_eq_dec : EqDecision SyncThreadNode.
Proof. solve_decision. Defined.

#[export] Instance SyncThreadNode_countable : Countable SyncThreadNode.
Proof.
  refine (inj_countable' (fun t => (machine t, thread_id t)) (fun '(a, b) => Thread a b) _).
  by intros [].
Defined.

(** An [int] computation: overflow has no defined behaviour. *)
Definition c_int (x : Z) : outcome Z :=
  if (- 2 ^ 31 <=? x) && (x <? 2 ^ 31) then Ret x else Abort.

(** * The master's synchronisation objects *)

Inductive SyncKind := Barrier | Semaphore | Event.

#[export] Instance SyncKind_eq_dec : EqDecision SyncKind.
Proof. solve_decision. Defined.

(** [waiting] is the union of [waitlist] (barriers) and [waitqueue] (semaphores and
    events, front first). *)
Record SyncNode := {
  Kind : SyncKind;
  val : Z;
  data : Z;
  waiting : list SyncThreadNode;
}.

Record SyncManager := {
  sync_data : gmap Z SyncNode;
  clocks : list Z;
}.

Definition set_node (m : SyncManager) (b_id : Z) (node : SyncNode) : SyncManager :=
  {| sync_data := <[b_id := node]> (sync_data m); clocks := clocks m |}.

(** Reading the member of the union that belongs to another kind of object has no
    defined behaviour. *)
Definition check_kind (k : SyncKind) (node : SyncNode) : outcome unit :=
  c_assert (bool_decide (Kind node = k)).

Section sync_manager.
(** [DogeeEnv::cache->get]. *)
Context (cache_get : Z -> Z -> outcome Z).

(** Each handler returns the threads it calls [RcWakeRemoteThread] for, in order. *)
Definition handled : Type := SyncManager * list SyncThreadNode.

Definition BarrierMsg (m : SyncManager) (src b_id thread_id : Z) : outcome handled :=
  node ← match sync_data m !! b_id with
         | None => d ← cache_get b_id 0;
                   Ret {| Kind := Barrier; val := 0; data := s32 d; waiting := [] |}
         | Some node => Ret node
         end;
  _ ← check_kind Barrier node;
  v ← c_int (val node + 1);
  if data node <=? v then
    Ret (set_node m b_id {| Kind := Kind node; val := 0; data := data node; waiting := [] |},
         Thread src thread_id :: waiting node)
  else
    Ret (set_node m b_id {| Kind := Kind node; val := v; data := data node;
                            waiting := waiting node ++ [Thread src thread_id] |}, []).

Definition SemaphoreMsg (m : SyncManager) (src b_id thread_id : Z) : outcome handled :=
  node ← match sync_data m !! b_id with
         | None => d ← cache_get b_id 0;
                   Ret {| Kind := Semaphore; val := s32 d; data := s32 d; waiting := [] |}
         | Some node => Ret node
         end;
  _ ← check_kind Semaphore node;
  v ← c_int (val node - 1);
  if 0 <=? v then
    Ret (set_node m b_id {| Kind := Kind node; val := v; data := data node;
                            waiting := waiting node |}, [Thread src thread_id])
  else
    Ret (set_node m b_id {| Kind := Kind node; val := v; data := data node;
                            waiting := waiting node ++ [Thread src thread_id] |}, []).

(** When the object is not known yet, the count read from the cache is used as an
    address, [*(int* )val]. *)
Definition SemaphoreLeaveMsg (m : SyncManager) (src b_id thread_id : Z) : outcome handled :=
  node ← match sync_data m !! b_id with
         | None => d ← cache_get b_id 0; Abort
         | Some node => Ret node
         end;
  _ ← check_kind Semaphore node;
  v ← c_int (val node + 1);
  let node' q := {| Kind := Kind node; val := v; data := data node; waiting := q |} in
  if 0 <=? v then
    match waiting node with
    | [] => Ret (set_node m b_id (node' []), [])
    | th :: q => Ret (set_node m b_id (node' q), [th])
    end
  else Ret (set_node m b_id (node' (waiting node)), []).

Definition CreateEventNode (m : SyncManager) (b_id : Z) : outcome SyncNode :=
  match sync_data m !! b_id with
  | None =>
      d ← cache_get b_id 0;
      v ← cache_get b_id 2;
      Ret {| Kind := Event; val := s32 v; data := s32 d; waiting := [] |}
  | Some node => _ ← check_kind Event node; Ret node
  end.

Definition EventWaitMsg (m : SyncManager) (src b_id thread_id : Z) : outcome handled :=
  node ← CreateEventNode m b_id;
  if negb (val node =? 0) then
    Ret (set_node m b_id {| Kind := Kind node;
                            val := if negb (data node =? 0) then 0 else val node;
                            data := data node; waiting := waiting node |},
         [Thread src thread_id])
  else
    Ret (set_node m b_id {| Kind := Kind node; val := val node; data := data node;
                            waiting := waiting node ++ [Thread src thread_id] |}, []).

Definition SetEventMsg (m : SyncManager) (src b_id : Z) : outcome handled :=
  node ← CreateEventNode m b_id;
  let node' v q := {| Kind := Kind node; val := v; data := data node; waiting := q |} in
  if negb (data node =? 0) then
    match waiting node with
    | [] => Ret (set_node m b_id (node' 1 []), [])
    | th :: q => Ret (set_node m b_id (node' 0 q), [th])
    end
  else Ret (set_node m b_id (node' 1 []), waiting node).

Definition ResetEventMsg (m : SyncManager) (src b_id : Z) : outcome handled :=
  node ← CreateEventNode m b_id;
  Ret (set_node m b_id {| Kind := Kind node; val := 0; data := data node;
                          waiting := waiting node |}, []).

(** [Alive] at time [now]. *)
Definition Alive (m : SyncManager) (src now : Z) : outcome SyncManager :=
  cs ← wr (clocks m) src now;
  Ret {| sync_data := sync_data m; clocks := cs |}.

(** * The cluster *)

(** What the nodes share: the master's [SyncManager], the [ThreadEventMap] of every
    node, and the bytes on their way on the connections of slave [i] to and from
    the master, as whole commands. *)
Record cluster := {
  mgr : SyncManager;
  events : gmap SyncThreadNode bool;
  to_master : gmap Z (list RcCommandPack);
  to_slave : gmap Z (list RcCommandPack);
}.

Definition with_mgr (c : cluster) (m : SyncManager) : cluster :=
  {| mgr := m; events := events c; to_master := to_master c; to_slave := to_slave c |}.
Definition with_events (c : cluster) (e : gmap SyncThreadNode bool) : cluster :=
  {| mgr := mgr c; events := e; to_master := to_master c; to_slave := to_slave c |}.
Definition with_to_master (c : cluster) (q : gmap Z (list RcCommandPack)) : cluster :=
  {| mgr := mgr c; events := events c; to_master := q; to_slave := to_slave c |}.
Definition with_to_slave (c : cluster) (q : gmap Z (list RcCommandPack)) : cluster :=
  {| mgr := mgr c; events := events c; to_master := to_master c; to_slave := q |}.

(** The commands in transit on a connection. *)
Definition queue_of (qs : gmap Z (list RcCommandPack)) (i : Z) : list RcCommandPack :=
  default [] (qs !! i).

(** [RcSend] to the slave [i], and of slave [i] to the master. *)
Definition send_slave (c : cluster) (i : Z) (p : RcCommandPack) : cluster :=
  with_to_slave c (<[i := queue_of (to_slave c) i ++ [p]]> (to_slave c)).
Definition send_master (c : cluster) (i : Z) (p : RcCommandPack) : cluster :=
  with_to_master c (<[i := queue_of (to_master c) i ++ [p]]> (to_master c)).

(** [ThreadEventMap[tid]->SetEvent()] and [->ResetEvent()] on node [n]; the map
    holds a null pointer for a thread it does not know. *)
Definition put_event (c : cluster) (n tid : Z) (b : bool) : outcome cluster :=
  match events c !! Thread n tid with
  | Some _ => Ret (with_events c (<[Thread n tid := b]> (events c)))
  | None => Abort
  end.
Definition RcSetRemoteEvent (c : cluster) (n local_thread_id : Z) : outcome cluster :=
  put_event c n local_thread_id true.
Definition RcResetRemoteEvent (c : cluster) (n tid : Z) : outcome cluster :=
  put_event c n tid false.

Definition RcPrepareNewThread (c : cluster) (n tid : Z) : cluster :=
  with_events c (<[Thread n tid := false]> (events c)).
Definition RcDeleteThread (c : cluster) (n tid : Z) : cluster :=
  with_events c (delete (Thread n tid) (events c)).

Definition RcWakeRemoteThread (c : cluster) (dest tid : Z) : outcome cluster :=
  if dest =? 0 then RcSetRemoteEvent c 0 tid
  else Ret (send_slave c dest (Pack RcCmdWakeSync tid 0 0 0 [])).

(** The wake-ups of a handler, which it issues under the manager's mutex. *)
Definition apply_handled (c : cluster) (h : handled) : outcome cluster :=
  for_each (snd h) (fun th c => RcWakeRemoteThread c (machine th) (thread_id th))
    (with_mgr c (fst h)).

(** One command received by [RcMasterListen] from slave [i] at time [now]; a
    command it does not know is reported and dropped. *)
Definition RcMasterListen_cmd (c : cluster) (i now : Z) (p : RcCommandPack) : outcome cluster :=
  let okey := u32 (param p) in
  match cmd p with
  | RcCmdEnterBarrier => BarrierMsg (mgr c) i okey (param2 p) ≫= apply_handled c
  | RcCmdEnterSemaphore => SemaphoreMsg (mgr c) i okey (param2 p) ≫= apply_handled c
  | RcCmdLeaveSemaphore => SemaphoreLeaveMsg (mgr c) i okey (param2 p) ≫= apply_handled c
  | RcCmdWaitForEvent => EventWaitMsg (mgr c) i okey (param2 p) ≫= apply_handled c
  | RcCmdSetEvent => SetEventMsg (mgr c) i okey ≫= apply_handled c
  | RcCmdResetEvent => ResetEventMsg (mgr c) i okey ≫= apply_handled c
  | RcCmdAlive => m ← Alive (mgr c) i now; Ret (with_mgr c m)
  | _ => Ret c
  end.

(** What the loop of a slave does besides: start a detached thread in
    [ThThreadEntry] or [ThThreadEntryObject], leave the loop, restart the process. *)
Inductive slave_action :=
| SlaveNone
| SlaveThread (index param okey : Z)
| SlaveThreadObject (index param okey : Z) (data : list Z)
| SlaveClose
| SlaveRestart.

(** One command received by [RcSlaveMainLoop] on node [i]. A function object that is
    not received as announced stays in the stream, to be read as commands. *)
Definition RcSlaveMainLoop_cmd (c : cluster) (i : Z) (p : RcCommandPack) :
    outcome (cluster * slave_action) :=
  match cmd p with
  | RcCmdClose => Ret (c, SlaveClose)
  | RcCmdCreateThread =>
      if negb (param4 p =? 0) then
        if (2048 <? param4 p) || negb (zlen (payload p) =? param4 p) then Abort
        else Ret (c, SlaveThreadObject (param p) (u32 (param2 p)) (u32 (param3 p)) (payload p))
      else Ret (c, SlaveThread (param p) (u32 (param2 p)) (u32 (param3 p)))
  | RcCmdWakeSync => c ← RcSetRemoteEvent c i (param p); Ret (c, SlaveNone)
  | RcCmdAlive => Ret (send_master c i p, SlaveNone)
  | RcCmdRestart => Ret (c, SlaveRestart)
  | _ => Ret (c, SlaveNone)
  end.

(** The two overloads of [RcCreateThread], called on the master ([self] is
    [DogeeEnv::self_node_id]). *)
Definition RcCreateThread (c : cluster) (self node_id idx param okey : Z) : outcome cluster :=
  _ ← c_assert (self =? 0);
  Ret (send_slave c node_id (Pack RcCmdCreateThread (s32 idx) (s32 param) (s32 okey) 0 [])).
Definition RcCreateThreadObject (c : cluster) (self node_id idx param okey : Z) (data : list Z) :
    outcome cluster :=
  _ ← c_assert (self =? 0);
  _ ← c_assert (zlen data <=? 2048);
  Ret (send_slave c node_id
         (Pack RcCmdCreateThread (s32 idx) (s32 param) (s32 okey) (zlen data) data)).

(** One round of [RcMasterAliveListen] at time [now] (in milliseconds): the nodes not
    heard of for more than five seconds, and an [RcCmdAlive] to every slave. *)
Definition RcMasterAliveListen_round (c : cluster) (num_nodes now : Z) :
    outcome (cluster * list Z) :=
  for_range 1 num_nodes (fun i '(c, ex) =>
    t ← rd (clocks (mgr c)) i;
    Ret (send_slave c i (Pack RcCmdAlive 0 0 0 0 []),
         if 5000 <? now - t then ex ++ [i] else ex)) (c, []).

(** * The client calls of thread [tid] on node [n] *)

(** The common shape of the calls: the master handles its own request at once, a
    slave sends it. *)
Definition request (c : cluster) (n : Z) (direct : outcome handled) (p : RcCommandPack) :
    outcome cluster :=
  if n =? 0 then direct ≫= apply_handled c else Ret (send_master c n p).

(** A blocking call up to the point where the thread waits for its event. *)
Definition RcEnterBarrier (c : cluster) (n okey tid : Z) : outcome cluster :=
  c ← put_event c n tid false;
  request c n (BarrierMsg (mgr c) 0 okey tid) (Pack RcCmdEnterBarrier (s32 okey) tid 0 0 []).
Definition RcEnterSemaphore (c : cluster) (n okey tid : Z) : outcome cluster :=
  c ← put_event c n tid false;
  request c n (SemaphoreMsg (mgr c) 0 okey tid) (Pack RcCmdEnterSemaphore (s32 okey) tid 0 0 []).
Definition RcWaitForEvent (c : cluster) (n okey tid : Z) : outcome cluster :=
  c ← put_event c n tid false;
  request c n (EventWaitMsg (mgr c) 0 okey tid) (Pack RcCmdWaitForEvent (s32 okey) tid 0 0 []).

Definition RcLeaveSemaphore (c : cluster) (n okey tid : Z) : outcome cluster :=
  request c n (SemaphoreLeaveMsg (mgr c) 0 okey tid) (Pack RcCmdLeaveSemaphore (s32 okey) tid 0 0 []).
Definition RcSetEvent (c : cluster) (n okey : Z) : outcome cluster :=
  request c n (SetEventMsg (mgr c) 0 okey) (Pack RcCmdSetEvent (s32 okey) 0 0 0 []).
Definition RcResetEvent (c : cluster) (n okey : Z) : outcome cluster :=
  request c n (ResetEventMsg (mgr c) 0 okey) (Pack RcCmdResetEvent (s32 okey) 0 0 0 []).

(** The end of a blocking call without a timeout: the thread goes on once its event
    is set. *)
Definition RcWaitForRemoteEvent (c : cluster) (n tid : Z) : bool :=
  match events c !! Thread n tid with Some b => b | None => false end.

(** * The cluster as a transition system

    The state adds the threads that are inside a blocking call (their timeouts are
    infinite, the default of every call). A thread on any node issues calls; the
    master and the slaves receive commands in the order they were sent. *)
Record system := { shared : cluster; blocked : gset SyncThreadNode }.

Inductive step : system -> system -> Prop :=
| step_start c B n tid :
    events c !! Thread n tid = None ->
    step {| shared := c; blocked := B |} {| shared := RcPrepareNewThread c n tid; blocked := B |}
| step_exit c B n tid :
    Thread n tid ∉ B ->
    step {| shared := c; blocked := B |} {| shared := RcDeleteThread c n tid; blocked := B |}
| step_enter c B n tid okey c' (call : cluster -> Z -> Z -> Z -> outcome cluster) :
    call = RcEnterBarrier \/ call = RcEnterSemaphore \/ call = RcWaitForEvent ->
    Thread n tid ∉ B -> is_u32 okey ->
    call c n okey tid = Ret c' ->
    step {| shared := c; blocked := B |}
         {| shared := c'; blocked := {[Thread n tid]} ∪ B |}
| step_resume c B n tid :
    Thread n tid ∈ B -> RcWaitForRemoteEvent c n tid = true ->
    step {| shared := c; blocked := B |} {| shared := c; blocked := B ∖ {[Thread n tid]} |}
| step_post c B n tid okey c' :
    is_u32 okey ->
    RcLeaveSemaphore c n okey tid = Ret c' \/ RcSetEvent c n okey = Ret c' \/
    RcResetEvent c n okey = Ret c' ->
    step {| shared := c; blocked := B |} {| shared := c'; blocked := B |}
| step_master c B i now p q c' :
    i <> 0 -> queue_of (to_master c) i = p :: q ->
    RcMasterListen_cmd (with_to_master c (<[i := q]> (to_master c))) i now p = Ret c' ->
    step {| shared := c; blocked := B |} {| shared := c'; blocked := B |}
| step_slave c B i p q c' a :
    i <> 0 -> queue_of (to_slave c) i = p :: q ->
    RcSlaveMainLoop_cmd (with_to_slave c (<[i := q]> (to_slave c))) i p = Ret (c', a) ->
    step {| shared := c; blocked := B |} {| shared := c'; blocked := B |}
| step_alive c B num_nodes now c' ex :
    RcMasterAliveListen_round c num_nodes now = Ret (c', ex) ->
    step {| shared := c; blocked := B |} {| shared := c'; blocked := B |}
| step_create c B node_id idx param okey data c' :
    RcCreateThread c 0 node_id idx param okey = Ret c' \/
    RcCreateThreadObject c 0 node_id idx param okey data = Ret c' ->
    step {| shared := c; blocked := B |} {| shared := c'; blocked := B |}.

(** No threads, no objects, nothing in transit. *)
Definition initial (n_nodes now : Z) : system :=
  {| shared := {| mgr := {| sync_data := ∅; clocks := replicate (Z.to_nat n_nodes) now |};
                  events := ∅; to_master := ∅; to_slave := ∅ |};
     blocked := ∅ |}.

Inductive reachable (n_nodes now : Z) : system -> Prop :=
| reachable_initial : reachable n_nodes now (initial n_nodes now)
| reachable_step s s' : reachable n_nodes now s -> step s s' -> reachable n_nodes now s'.
End sync_manager.
