(* ===== verification/SyncFacts.v ===== *)
(** The synchronisation service of Sync.v: what the master's objects do to the
    threads that use them, and that over any run of the cluster every blocking
    call is woken exactly once. *)
From S2P Require Import Prelude Storage Sync.

(** * Every handler keeps the number of waiting threads *)

(** The places thread [T] has in the waiting lists of the master. *)
Definition wait_count (m : SyncManager) (T : SyncThreadNode) : nat :=
  map_sum (fun node => occ T (waiting node)) (sync_data m).

Definition old_waiting (m : SyncManager) (b_id : Z) : list SyncThreadNode :=
  match sync_data m !! b_id with Some node => waiting node | None => [] end.

Lemma set_node_count m b node T :
  (wait_count (set_node m b node) T + occ T (old_waiting m b)
   = wait_count m T + occ T (waiting node))%nat.
Proof.
  unfold wait_count, old_waiting. cbn [set_node sync_data].
  destruct (sync_data m !! b) as [old|] eqn:Hb.
  - by apply (map_sum_insert_Some (fun node => occ T (waiting node))).
  - rewrite map_sum_insert_None by done. simpl. lia.
Qed.

(** A handler that adds the threads [ts] to those waiting on [m] and wakes some. *)
Definition hands_over (m : SyncManager) (ts : list SyncThreadNode) (h : handled) : Prop :=
  forall T, (wait_count (fst h) T + occ T (snd h) = wait_count m T + occ T ts)%nat.

Lemma hands_over_set m b node ts ws :
  (forall T, (occ T (waiting node) + occ T ws = occ T (old_waiting m b) + occ T ts)%nat) ->
  hands_over m ts (set_node m b node, ws).
Proof.
  intros H T. cbn [fst snd]. pose proof (set_node_count m b node T). specialize (H T). lia.
Qed.

Section handlers.
Context (cache_get : Z -> Z -> outcome Z).

(** The node a handler works on has the waiting threads the manager has for it. *)
Lemma found_waiting m b node (fresh : outcome SyncNode) :
  match sync_data m !! b with None => fresh | Some n => Ret n end = Ret node ->
  (forall n, fresh = Ret n -> waiting n = []) -> waiting node = old_waiting m b.
Proof.
  intros Hn Hf. unfold old_waiting. destruct (sync_data m !! b); [congruence|by apply Hf].
Qed.

Lemma CreateEventNode_waiting m b node :
  CreateEventNode cache_get m b = Ret node -> waiting node = old_waiting m b.
Proof.
  unfold CreateEventNode, old_waiting. destruct (sync_data m !! b) as [n|]; intros H; inv_ret H; done.
Qed.

Ltac counts Hold := apply hands_over_set; intros ?T; cbn [waiting]; rewrite <-Hold;
  rewrite ?occ_app; cbn [occ]; lia.

Ltac node_waiting H Hold :=
  apply bind_Ret_inv in H as (?node & Hold & H);
  first [ apply CreateEventNode_waiting in Hold
        | apply found_waiting in Hold; [|intros ? Hf; inv_ret Hf; done] ].

Ltac skip_binds H := repeat (apply bind_Ret_inv in H as (? & _ & H)).

Lemma BarrierMsg_hands m src b tid h :
  BarrierMsg cache_get m src b tid = Ret h -> hands_over m [Thread src tid] h.
Proof.
  unfold BarrierMsg. intros H. node_waiting H Hold. skip_binds H.
  case_test in H; injection H as <-; counts Hold.
Qed.

Lemma SemaphoreMsg_hands m src b tid h :
  SemaphoreMsg cache_get m src b tid = Ret h -> hands_over m [Thread src tid] h.
Proof.
  unfold SemaphoreMsg. intros H. node_waiting H Hold. skip_binds H.
  case_test in H; injection H as <-; counts Hold.
Qed.

Lemma SemaphoreLeaveMsg_hands m src b tid h :
  SemaphoreLeaveMsg cache_get m src b tid = Ret h -> hands_over m [] h.
Proof.
  unfold SemaphoreLeaveMsg. intros H. node_waiting H Hold. skip_binds H.
  case_test in H; [|injection H as <-; counts Hold].
  destruct (waiting node) eqn:Hw; injection H as <-; counts Hold.
Qed.

Lemma EventWaitMsg_hands m src b tid h :
  EventWaitMsg cache_get m src b tid = Ret h -> hands_over m [Thread src tid] h.
Proof.
  unfold EventWaitMsg. intros H. node_waiting H Hold.
  case_test in H; injection H as <-; counts Hold.
Qed.

Lemma SetEventMsg_hands m src b h :
  SetEventMsg cache_get m src b = Ret h -> hands_over m [] h.
Proof.
  unfold SetEventMsg. intros H. node_waiting H Hold.
  case_test in H; [|injection H as <-; counts Hold].
  destruct (waiting node) eqn:Hw; injection H as <-; counts Hold.
Qed.

Lemma ResetEventMsg_hands m src b h :
  ResetEventMsg cache_get m src b = Ret h -> hands_over m [] h.
Proof.
  unfold ResetEventMsg. intros H. node_waiting H Hold. injection H as <-. counts Hold.
Qed.

(** * Wake-ups in the cluster *)

Definition enter_of (p : RcCommandPack) : option Z :=
  match cmd p with
  | RcCmdEnterBarrier | RcCmdEnterSemaphore | RcCmdWaitForEvent => Some (param2 p)
  | _ => None
  end.
Definition wake_of (p : RcCommandPack) : option Z :=
  match cmd p with RcCmdWakeSync => Some (param p) | _ => None end.

(** The requests of [T] on their way to the master, the wake-ups on their way to
    [T], and whether its event is set. *)
Definition req_count (c : cluster) (T : SyncThreadNode) : nat :=
  occ (thread_id T) (omap enter_of (queue_of (to_master c) (machine T))).
Definition wake_count (c : cluster) (T : SyncThreadNode) : nat :=
  occ (thread_id T) (omap wake_of (queue_of (to_slave c) (machine T))).
Definition flag (c : cluster) (T : SyncThreadNode) : nat :=
  if RcWaitForRemoteEvent c (machine T) (thread_id T) then 1 else 0.

Lemma queue_of_insert qs i j q :
  queue_of (<[i := q]> qs) j = if decide (i = j) then q else queue_of qs j.
Proof. unfold queue_of. rewrite lookup_insert. by case_decide. Qed.

Lemma Thread_eta T : Thread (machine T) (thread_id T) = T.
Proof. by destruct T. Qed.

Lemma put_event_spec (c : cluster) (n tid : Z) (b : bool) c' : put_event c n tid b = Ret c' ->
  is_Some (events c !! Thread n tid) /\ c' = with_events c (<[Thread n tid := b]> (events c)).
Proof. unfold put_event. destruct (events c !! Thread n tid); [|done]. intros [= <-]. eauto. Qed.

Lemma flag_put (c : cluster) (T : SyncThreadNode) (n tid : Z) (b : bool) :
  flag (with_events c (<[Thread n tid := b]> (events c))) T
  = if decide (T = Thread n tid) then (if b then 1%nat else 0%nat) else flag c T.
Proof.
  unfold flag, RcWaitForRemoteEvent. cbn [with_events events]. rewrite Thread_eta, lookup_insert.
  destruct (decide (Thread n tid = T)) as [<-|Hne]; [by rewrite decide_True|].
  by rewrite decide_False.
Qed.

(** Waking the threads of a list: each one gets its wake-up, on its way or in its
    event. *)
(** Waking a thread: its event is set, or its wake-up is on the way. *)
Lemma wake_thread c th b : events c !! th = Some b -> flag c th = 0%nat -> exists c1,
  RcWakeRemoteThread c (machine th) (thread_id th) = Ret c1 /\ mgr c1 = mgr c /\
  to_master c1 = to_master c /\
  (forall T, (wake_count c1 T + flag c1 T
              = wake_count c T + flag c T + if decide (T = th) then 1 else 0)%nat /\
             (T <> th -> flag c1 T = flag c T /\ wake_count c1 T = wake_count c T)) /\
  (forall T, is_Some (events c1 !! T) <-> is_Some (events c !! T)).
Proof.
  intros Hb Hf0.
  unfold RcWakeRemoteThread. destruct (Z.eqb_spec (machine th) 0) as [H0|H0].
  - unfold RcSetRemoteEvent, put_event. rewrite <-H0, Thread_eta, Hb.
    eexists. split; [done|]. split; [done|]. split; [done|]. split.
    + intros T. rewrite <-(Thread_eta th), flag_put, (Thread_eta th).
      change (wake_count (with_events c _) T) with (wake_count c T).
      case_decide as Ht; [subst T; split; [lia|done]|]. split; [lia|done].
    + intros T. cbn [with_events events]. rewrite lookup_insert.
      case_decide as Ht; [subst T|done]. split; eauto.
  - eexists. split; [done|]. split; [done|]. split; [done|]. split; [|done].
    intros T. change (flag (send_slave c _ _) T) with (flag c T).
    assert (wake_count (send_slave c (machine th) (Pack RcCmdWakeSync (thread_id th) 0 0 0 [])) T
            = wake_count c T + if decide (T = th) then 1 else 0)%nat as ->;
      [|case_decide; [subst; split; [lia|done]|split; [lia|intros _; split; [done|lia]]]].
    unfold wake_count. cbn [send_slave with_to_slave to_slave]. rewrite queue_of_insert.
    destruct (decide (machine th = machine T)) as [Hmm|Hmm].
    + rewrite omap_app, occ_app. cbn. rewrite Hmm.
      destruct (decide (T = th)) as [->|Ht]; [by rewrite decide_True; [lia|]|].
      rewrite decide_False; [lia|]. intros Heq. apply Ht.
      rewrite <-(Thread_eta T), <-(Thread_eta th). by rewrite Hmm, Heq.
    + rewrite decide_False; [lia|]. by intros ->.
Qed.

Lemma apply_handled_spec c m ws :
  (forall T, T ∈ ws -> is_Some (events c !! T) /\ (occ T ws + flag c T <= 1)%nat) ->
  exists c', apply_handled c (m, ws) = Ret c' /\ mgr c' = m /\ to_master c' = to_master c /\
    (forall T, (wake_count c' T + flag c' T = wake_count c T + flag c T + occ T ws)%nat /\
               (occ T ws = 0%nat -> wake_count c' T = wake_count c T)) /\
    (forall T, is_Some (events c' !! T) <-> is_Some (events c !! T)).
Proof.
  intros H. unfold apply_handled. cbn [fst snd].
  assert (forall ws c, mgr c = m ->
    (forall T, T ∈ ws -> is_Some (events c !! T) /\ (occ T ws + flag c T <= 1)%nat) ->
    exists c', for_each ws (fun th c => RcWakeRemoteThread c (machine th) (thread_id th)) c = Ret c' /\
      mgr c' = m /\ to_master c' = to_master c /\
      (forall T, (wake_count c' T + flag c' T = wake_count c T + flag c T + occ T ws)%nat /\
                 (occ T ws = 0%nat -> wake_count c' T = wake_count c T)) /\
      (forall T, is_Some (events c' !! T) <-> is_Some (events c !! T))) as Hgen.
  { clear. intros ws. induction ws as [|th ws IH]; intros c Hm Hw.
    { exists c. split; [done|]. split; [done|]. split; [done|]. split; [|done]. intros T. simpl. lia. }
    cbn [for_each]. destruct (Hw th) as [[b Hb] Hone]; [left|].
    cbn [occ] in Hone. rewrite decide_True in Hone by done.
    assert (flag c th = 0%nat /\ occ th ws = 0%nat) as [Hf0 Ho0] by lia.
    destruct (wake_thread c th b Hb Hf0) as (c1 & -> & Hm1 & Htm1 & Hc1 & He1).
    rewrite bind_ret. destruct (IH c1) as (c' & -> & Hm' & Htm' & Hc' & He'); [congruence| |].
    - intros T HT. destruct (Hw T) as [HbT HoT]; [by right|]. split; [by apply He1|].
      apply occ_pos in HT. destruct (Hc1 T) as [_ Hne].
      assert (T <> th) as Hneq by (intros ->; lia). destruct (Hne Hneq) as [-> _].
      cbn [occ] in HoT. lia.
    - exists c'. split; [done|]. split; [done|]. split; [congruence|]. split.
      + intros T. destruct (Hc' T) as [-> Hw']. destruct (Hc1 T) as [-> Hne]. cbn [occ].
        split; [lia|]. case_decide as Ht; [lia|]. intros Ho. rewrite Hw' by lia. by apply Hne.
      + intros T. by rewrite He'. }
  destruct (Hgen ws (with_mgr c m)) as (c' & Hc' & Hrest); [done|done|]. by exists c'.
Qed.
End handlers.

(** * The token invariant of the cluster

    [ts] are the threads whose request is being handled at this moment. *)
Definition tokens (ts : list SyncThreadNode) (c : cluster) (T : SyncThreadNode) : nat :=
  (req_count c T + occ T ts + wait_count (mgr c) T + wake_count c T)%nat.

Definition inv_with (ts : list SyncThreadNode) (c : cluster) (B : gset SyncThreadNode) : Prop :=
  forall T,
    (T ∈ B -> is_Some (events c !! T) /\ (tokens ts c T + flag c T = 1)%nat) /\
    (T ∉ B -> tokens ts c T = 0%nat).

Lemma inv_handled ts c B h : inv_with ts c B -> hands_over (mgr c) ts h ->
  exists c', apply_handled c h = Ret c' /\ inv_with [] c' B.
Proof.
  intros HI Hh. destruct h as [m ws]. unfold hands_over in Hh. cbn [fst snd] in Hh.
  destruct (apply_handled_spec c m ws) as (c' & -> & Hm & Htm & Hc & He).
  - intros T HT%occ_pos. specialize (Hh T). destruct (HI T) as [Hin Hout]. unfold tokens in *.
    destruct (decide (T ∈ B)) as [HB|HB]; [|specialize (Hout HB); lia].
    destruct (Hin HB) as [Hs Hsum]. split; [done|lia].
  - exists c'. split; [done|]. intros T. specialize (Hh T). destruct (Hc T) as [Hc1 Hc2].
    destruct (HI T) as [Hin Hout]. unfold tokens, req_count in *. rewrite Hm, Htm. cbn [occ].
    split.
    + intros HB. destruct (Hin HB) as [Hs Hsum]. split; [by apply He|lia].
    + intros HB. specialize (Hout HB). rewrite Hc2 by lia. lia.
Qed.

(** Receiving on a connection, and sending on it. *)
Definition enters (i : Z) (p : RcCommandPack) : list SyncThreadNode :=
  match enter_of p with Some tid => [Thread i tid] | None => [] end.

Lemma occ_enters T i p :
  occ T (enters i p) = if decide (i = machine T)
                       then occ (thread_id T) (omap enter_of [p]) else 0%nat.
Proof.
  unfold enters. cbn [omap list_omap]. destruct (enter_of p) as [tid|]; cbn [occ].
  - destruct (decide (i = machine T)) as [->|Hne].
    + cbn [occ]. destruct (decide (T = Thread (machine T) tid)) as [Ht|Ht].
      * rewrite decide_True; [done|]. by rewrite Ht.
      * rewrite decide_False; [done|]. intros Heq. apply Ht. rewrite <-Heq. by rewrite Thread_eta.
    + rewrite decide_False; [done|]. intros Ht. apply Hne. by rewrite Ht.
  - by case_decide.
Qed.

Lemma req_count_recv c i p q T : queue_of (to_master c) i = p :: q ->
  (req_count (with_to_master c (<[i := q]> (to_master c))) T + occ T (enters i p)
   = req_count c T)%nat.
Proof.
  intros Hq. unfold req_count. cbn [with_to_master to_master].
  rewrite queue_of_insert, occ_enters. destruct (decide (i = machine T)) as [<-|]; [|lia].
  rewrite Hq. change (p :: q) with ([p] ++ q). rewrite omap_app, occ_app. lia.
Qed.

Lemma req_count_send c i p T :
  (req_count (send_master c i p) T = req_count c T + occ T (enters i p))%nat.
Proof.
  unfold req_count. cbn [send_master with_to_master to_master].
  rewrite queue_of_insert, occ_enters. destruct (decide (i = machine T)) as [<-|]; [|lia].
  rewrite omap_app, occ_app. lia.
Qed.

Lemma inv_recv c B i p q : queue_of (to_master c) i = p :: q -> inv_with [] c B ->
  inv_with (enters i p) (with_to_master c (<[i := q]> (to_master c))) B.
Proof.
  intros Hq HI T. destruct (HI T) as [Hin Hout]. pose proof (req_count_recv c i p q T Hq) as Hr.
  unfold tokens in *. cbn [occ] in *.
  change (flag (with_to_master c _) T) with (flag c T).
  change (wake_count (with_to_master c _) T) with (wake_count c T). cbn [with_to_master mgr events].
  split.
  - intros HB. destruct (Hin HB). split; [done|lia].
  - intros HB. specialize (Hout HB). lia.
Qed.

Lemma inv_send c B i p : inv_with (enters i p) c B -> inv_with [] (send_master c i p) B.
Proof.
  intros HI T. destruct (HI T) as [Hin Hout]. pose proof (req_count_send c i p T) as Hr.
  unfold tokens in *. rewrite Hr. cbn [occ].
  change (flag (send_master c i p) T) with (flag c T).
  change (wake_count (send_master c i p) T) with (wake_count c T).
  cbn [send_master with_to_master mgr events]. split.
  - intros HB. destruct (Hin HB). split; [done|lia].
  - intros HB. specialize (Hout HB). lia.
Qed.

(** * Its preservation *)

Section runs.
Context (cache_get : Z -> Z -> outcome Z).

Lemma request_preserves c B n direct p c' : inv_with (enters n p) c B ->
  (n = 0 -> forall h, direct = Ret h -> hands_over (mgr c) (enters 0 p) h) ->
  request c n direct p = Ret c' -> inv_with [] c' B.
Proof.
  intros HI Hd. unfold request. destruct (Z.eqb_spec n 0) as [->|].
  - intros (h & Hh & Ha)%bind_Ret_inv. destruct (inv_handled _ c B h HI) as (c1 & Hc1 & HI1);
      [by apply Hd|].
    rewrite Hc1 in Ha. by injection Ha as <-.
  - intros [= <-]. by apply inv_send.
Qed.

Lemma master_preserves c B i now p q c' :
  queue_of (to_master c) i = p :: q -> inv_with [] c B ->
  RcMasterListen_cmd cache_get (with_to_master c (<[i := q]> (to_master c))) i now p = Ret c' ->
  inv_with [] c' B.
Proof.
  intros Hq HI%(inv_recv c B i p q Hq) Hc. unfold RcMasterListen_cmd in Hc.
  unfold enters, enter_of in HI.
  destruct (cmd p); try (injection Hc as <-; exact HI);
    apply bind_Ret_inv in Hc as (h & Hh & Hc);
    try (destruct (inv_handled _ _ B h HI) as (c1 & Hc1 & HI1);
         [|rewrite Hc1 in Hc; by injection Hc as <-]).
  - by apply (BarrierMsg_hands cache_get) in Hh.
  - by apply (SemaphoreMsg_hands cache_get) in Hh.
  - by apply (SemaphoreLeaveMsg_hands cache_get) in Hh.
  - by apply (EventWaitMsg_hands cache_get) in Hh.
  - by apply (SetEventMsg_hands cache_get) in Hh.
  - by apply (ResetEventMsg_hands cache_get) in Hh.
  - injection Hc as <-. unfold Alive in Hh. inv_ret Hh. exact HI.
Qed.

(** A wake-up that arrives finds its thread blocked, with its event not set. *)
Lemma slave_wakes c B i p q : queue_of (to_slave c) i = p :: q -> inv_with [] c B ->
  cmd p = RcCmdWakeSync ->
  Thread i (param p) ∈ B /\ events c !! Thread i (param p) = Some false.
Proof.
  intros Hq HI Hp. destruct (HI (Thread i (param p))) as [Hin Hout].
  assert (0 < wake_count c (Thread i (param p)))%nat as Hw.
  { unfold wake_count. cbn [machine thread_id]. rewrite Hq. cbn [omap list_omap].
    unfold wake_of. rewrite Hp. cbn [occ]. rewrite decide_True by done. lia. }
  unfold tokens in *. destruct (decide (Thread i (param p) ∈ B)) as [HB|HB];
    [|specialize (Hout HB); lia].
  destruct (Hin HB) as [[b Hb] Hsum]. split; [done|]. unfold flag, RcWaitForRemoteEvent in Hsum.
  cbn [machine thread_id] in Hsum. rewrite Hb in *. destruct b; [lia|done].
Qed.

Lemma slave_preserves c B i p q c' a :
  queue_of (to_slave c) i = p :: q -> inv_with [] c B ->
  RcSlaveMainLoop_cmd (with_to_slave c (<[i := q]> (to_slave c))) i p = Ret (c', a) ->
  inv_with [] c' B.
Proof.
  intros Hq HI Hc.
  assert (cmd p <> RcCmdWakeSync ->
    inv_with [] (with_to_slave c (<[i := q]> (to_slave c))) B) as Hother.
  { intros Hp T. destruct (HI T) as [Hin Hout]. unfold tokens in *.
    change (flag (with_to_slave c _) T) with (flag c T).
    change (req_count (with_to_slave c _) T) with (req_count c T).
    assert (wake_count (with_to_slave c (<[i := q]> (to_slave c))) T = wake_count c T) as ->; [|done].
    unfold wake_count. cbn [with_to_slave to_slave]. rewrite queue_of_insert.
    case_decide as Hi; [|done]. subst i. rewrite Hq. cbn [omap list_omap].
    assert (wake_of p = None) as ->; [unfold wake_of; by destruct (cmd p)|done]. }
  unfold RcSlaveMainLoop_cmd in Hc.
  destruct (cmd p) eqn:Hp; try (injection Hc as <- <-; by apply Hother).
  { repeat case_test in Hc; try discriminate Hc; injection Hc as <- <-; by apply Hother. }
  2: { injection Hc as <- <-. apply inv_send. unfold enters, enter_of. rewrite Hp. by apply Hother. }
  destruct (slave_wakes c B i p q Hq HI Hp) as [HB Hev].
  unfold RcSetRemoteEvent in Hc. apply bind_Ret_inv in Hc as (c1 & Hc & Heq).
  injection Heq as <- <-. apply put_event_spec in Hc as [_ ->].
  change (events (with_to_slave c _)) with (events c). intros T.
  destruct (HI T) as [Hin Hout]. unfold tokens in *.
  assert (flag (with_events (with_to_slave c (<[i:=q]> (to_slave c)))
            (<[Thread i (param p):=true]> (events c))) T
          = if decide (T = Thread i (param p)) then 1%nat else flag c T) as ->
    by exact (flag_put c T i (param p) true).
  change (req_count (with_events _ _) T) with (req_count c T).
  change (mgr (with_events _ _)) with (mgr c). cbn [with_events events].
  assert (wake_of p = Some (param p)) as Hwp by (unfold wake_of; by rewrite Hp).
  assert (wake_count (with_events (with_to_slave c (<[i:=q]> (to_slave c)))
            (<[Thread i (param p):=true]> (events c))) T
          + (if decide (T = Thread i (param p)) then 1 else 0) = wake_count c T)%nat as Hw.
  { unfold wake_count. cbn [with_events with_to_slave to_slave]. rewrite queue_of_insert.
    destruct (decide (i = machine T)) as [->|Hne].
    - rewrite Hq. cbn [omap list_omap]. rewrite Hwp. cbn [occ].
      destruct (decide (T = Thread (machine T) (param p))) as [Ht|Ht].
      + rewrite decide_True; [lia|]. by rewrite Ht.
      + rewrite decide_False; [lia|]. intros Heq. apply Ht. by rewrite <-Heq, Thread_eta.
    - rewrite decide_False; [lia|]. by intros ->. }
  split.
  - intros HBT. destruct (Hin HBT) as [Hs Hsum]. split.
    + destruct (decide (T = Thread i (param p))) as [->|Hne];
        [rewrite lookup_insert_eq; eauto|by rewrite lookup_insert_ne by congruence].
    + revert Hw. case_decide as Ht; intros Hw; [|lia]. subst T.
      unfold flag, RcWaitForRemoteEvent in Hsum.
      cbn [machine thread_id] in Hsum. rewrite Hev in Hsum. lia.
  - intros HBT. specialize (Hout HBT). revert Hw. case_decide; lia.
Qed.

(** Starting a blocking call: the event is reset and the request is in hand. *)
Lemma reset_preserves c B n tid c' : inv_with [] c B -> Thread n tid ∉ B ->
  put_event c n tid false = Ret c' -> inv_with [Thread n tid] c' ({[Thread n tid]} ∪ B).
Proof.
  intros HI HB [[b Hb] ->]%put_event_spec T. destruct (HI T) as [Hin Hout]. unfold tokens in *.
  rewrite flag_put. change (req_count (with_events c _) T) with (req_count c T).
  change (wake_count (with_events c _) T) with (wake_count c T).
  cbn [with_events mgr events occ]. rewrite elem_of_union, elem_of_singleton. split.
  - destruct (decide (T = Thread n tid)) as [->|Ht].
    + intros _. specialize (Hout HB). cbn [occ] in Hout.
      split; [rewrite lookup_insert_eq; eauto|lia].
    + intros [?|HBT]; [done|]. destruct (Hin HBT) as [Hs Hsum]. cbn [occ] in Hsum.
      split; [by rewrite lookup_insert_ne by congruence|lia].
  - intros HBT. destruct (decide (T = Thread n tid)) as [->|Ht]; [tauto|].
    assert (T ∉ B) as HnB by tauto. specialize (Hout HnB). cbn [occ] in Hout. lia.
Qed.

(** Commands to a slave other than wake-ups. *)
Lemma inv_send_slave c B i p : wake_of p = None -> inv_with [] c B ->
  inv_with [] (send_slave c i p) B.
Proof.
  intros Hp HI T. destruct (HI T) as [Hin Hout]. unfold tokens in *.
  change (flag (send_slave c i p) T) with (flag c T).
  change (req_count (send_slave c i p) T) with (req_count c T).
  assert (wake_count (send_slave c i p) T = wake_count c T) as ->; [|done].
  unfold wake_count. cbn [send_slave with_to_slave to_slave]. rewrite queue_of_insert.
  case_decide as Hi; [|done]. subst i. rewrite omap_app, occ_app. cbn [omap list_omap].
  rewrite Hp. cbn [occ]. lia.
Qed.

Lemma alive_preserves c B num_nodes now c' ex : inv_with [] c B ->
  RcMasterAliveListen_round c num_nodes now = Ret (c', ex) -> inv_with [] c' B.
Proof.
  intros HI. unfold RcMasterAliveListen_round, for_range.
  set (body := fun i '(c, ex) => _).
  assert (forall n i c ex0, inv_with [] c B -> count_loop n i body (c, ex0) = Ret (c', ex) ->
    inv_with [] c' B) as Hloop; [|by apply Hloop].
  clear c HI. induction n as [|n IH]; intros i c ex0 HI Hl; cbn [count_loop] in Hl.
  - by injection Hl as <-.
  - apply bind_Ret_inv in Hl as ([c2 ex2] & Hb & Hl).
    apply bind_Ret_inv in Hb as (t & _ & Hb). injection Hb as <- <-.
    eapply IH; [|exact Hl]. by apply inv_send_slave.
Qed.

Lemma step_preserves s s' : step cache_get s s' -> inv_with [] (shared s) (blocked s) ->
  inv_with [] (shared s') (blocked s').
Proof.
  intros Hstep HI. destruct Hstep as [c B n tid Hnone|c B n tid HB|c B n tid okey c' call Hcall HB Ho Hc
    |c B n tid HB Hw|c B n tid okey c' Ho Hc|c B i now p q c' Hi Hq Hc|c B i p q c' a Hi Hq Hc
    |c B nn now c' ex Hc|c B node_id idx prm okey data c' Hc];
    cbn [shared blocked] in *.
  - intros T. destruct (HI T) as [Hin Hout]. unfold tokens in *.
    change (RcPrepareNewThread c n tid) with (with_events c (<[Thread n tid:=false]> (events c))).
    rewrite flag_put. split; [|done]. intros HB. destruct (Hin HB) as [[b Hb] Hsum].
    assert (T <> Thread n tid) as Ht by congruence. rewrite decide_False by done.
    split; [|done]. cbn [with_events events]. by rewrite lookup_insert_ne by congruence.
  - intros T. destruct (HI T) as [Hin Hout]. unfold tokens in *. split; [|done].
    intros HT. assert (T <> Thread n tid) as Ht by congruence.
    unfold flag, RcWaitForRemoteEvent. cbn [RcDeleteThread with_events events].
    rewrite Thread_eta, lookup_delete_ne by congruence.
    destruct (Hin HT) as [Hs Hsum]. split; [done|].
    unfold flag, RcWaitForRemoteEvent in Hsum. by rewrite Thread_eta in Hsum.
  - destruct Hcall as [->|[->| ->]]; apply bind_Ret_inv in Hc as (c1 & Hc1 & Hc);
      pose proof (reset_preserves _ _ _ _ _ HI HB Hc1) as HI1;
      (eapply request_preserves; [| |exact Hc]; [exact HI1|]);
      intros -> h Hh; [by apply (BarrierMsg_hands cache_get) in Hh
        |by apply (SemaphoreMsg_hands cache_get) in Hh|by apply (EventWaitMsg_hands cache_get) in Hh].
  - intros T. destruct (HI T) as [Hin Hout]. split.
    + rewrite elem_of_difference. intros [HBT _]. by apply Hin.
    + rewrite elem_of_difference, elem_of_singleton. intros HBT.
      destruct (decide (T = Thread n tid)) as [->|Ht]; [|apply Hout; tauto].
      destruct (Hin HB) as [_ Hsum]. unfold flag in Hsum. cbn [machine thread_id] in Hsum.
      rewrite Hw in Hsum. lia.
  - destruct Hc as [Hc|[Hc|Hc]]; (eapply request_preserves; [| |exact Hc]; [exact HI|]);
      intros -> h Hh; [by apply (SemaphoreLeaveMsg_hands cache_get) in Hh
        |by apply (SetEventMsg_hands cache_get) in Hh|by apply (ResetEventMsg_hands cache_get) in Hh].
  - by eapply master_preserves.
  - by eapply slave_preserves.
  - by eapply alive_preserves.
  - destruct Hc as [Hc|Hc]; unfold RcCreateThread, RcCreateThreadObject in Hc; inv_ret Hc;
      by apply inv_send_slave.
Qed.

Lemma reachable_inv n_nodes now s : reachable cache_get n_nodes now s ->
  inv_with [] (shared s) (blocked s).
Proof.
  induction 1 as [|s s' Hr IH Hs]; [|by eapply step_preserves].
  intros T. split; [by intros ?%not_elem_of_empty|]. intros _.
  unfold tokens, req_count, wait_count, wake_count, queue_of. cbn.
  by rewrite !lookup_empty.
Qed.
End runs.

(** * Sequences of messages to one object *)

Section message_runs.
Context (cache_get : Z -> Z -> outcome Z).

Lemma check_kind_ok k node : Kind node = k -> check_kind k node = Ret tt.
Proof. intros H. unfold check_kind. by rewrite bool_decide_true. Qed.

Lemma c_int_ok x : - 2 ^ 31 <= x < 2 ^ 31 -> c_int x = Ret x.
Proof. intros H. unfold c_int. assert ((- 2 ^ 31 <=? x) && (x <? 2 ^ 31) = true) as -> by lia. done. Qed.

(** * Barriers *)

Definition barrier_msg (b : Z) (m : SyncManager) (T : SyncThreadNode) : outcome handled :=
  BarrierMsg cache_get m (machine T) b (thread_id T).

(** Barrier [b] has count [n] and the threads [w] wait at it. *)
Definition barrier_at (m : SyncManager) (b n : Z) (w : list SyncThreadNode) : Prop :=
  match sync_data m !! b with
  | None => cache_get b 0 = Ret n /\ w = []
  | Some node => node = {| Kind := Barrier; val := zlen w; data := n; waiting := w |}
  end.

Lemma barrier_at_set m b n w :
  barrier_at (set_node m b {| Kind := Barrier; val := zlen w; data := n; waiting := w |}) b n w.
Proof. unfold barrier_at. cbn [set_node sync_data]. by rewrite lookup_insert_eq. Qed.

Lemma barrier_at_waiting m b n w : barrier_at m b n w -> old_waiting m b = w.
Proof.
  unfold barrier_at, old_waiting. destruct (sync_data m !! b); [by intros ->|by intros [_ ->]].
Qed.

Lemma barrier_arrive m b n w T : 1 <= n < 2 ^ 31 -> zlen w < n -> barrier_at m b n w ->
  exists m', barrier_msg b m T = Ret (m', if zlen w + 1 =? n then T :: w else []) /\
    barrier_at m' b n (if zlen w + 1 =? n then [] else w ++ [T]).
Proof.
  intros Hn Hw Hat. pose proof (zlen_nonneg w). unfold barrier_msg, BarrierMsg, barrier_at in *.
  assert (exists m0, (match sync_data m !! b with
     | None => d ← cache_get b 0;
               Ret {| Kind := Barrier; val := 0; data := s32 d; waiting := [] |}
     | Some node => Ret node
     end) = Ret {| Kind := Barrier; val := zlen w; data := n; waiting := w |} /\ m0 = m) as (? & Hnode & _).
  { exists m. split; [|done]. destruct (sync_data m !! b) as [node|]; [by rewrite Hat|].
    destruct Hat as [-> ->]. cbn. by rewrite s32_small by lia. }
  rewrite Hnode, bind_ret. cbn [val data waiting Kind].
  rewrite check_kind_ok by done. rewrite bind_ret.
  rewrite c_int_ok by lia.
  rewrite bind_ret, Thread_eta.
  destruct (Z.eqb_spec (zlen w + 1) n) as [Heq|Hne].
  - rewrite (proj2 (Z.leb_le _ _)) by lia. eexists. split; [done|]. apply (barrier_at_set m b n []).
  - rewrite (proj2 (Z.leb_gt _ _)) by lia. eexists. split; [done|].
    replace (zlen w + 1) with (zlen (w ++ [T])) by (rewrite zlen_app; done).
    apply (barrier_at_set m b n (w ++ [T])).
Qed.

Lemma barrier_fill m b n w l : 1 <= n < 2 ^ 31 -> zlen w + zlen l < n -> barrier_at m b n w ->
  exists m', run_msgs (barrier_msg b) m l = Ret (m', []) /\ barrier_at m' b n (w ++ l).
Proof.
  intros Hn Hl Hat.
  destruct (run_msgs_rule (barrier_msg b)
    (fun pre ws m => ws = [] /\ barrier_at m b n (w ++ pre)) l m) as (m' & ws & Hr & -> & Hat').
  - intros pre a post ws m1 -> [-> H1]. rewrite zlen_app in Hl.
    pose proof (zlen_nonneg post). change (zlen (a :: post)) with (zlen ([a] ++ post)) in Hl.
    rewrite zlen_app in Hl. change (zlen [a]) with 1 in Hl.
    destruct (barrier_arrive m1 b n (w ++ pre) a) as (m2 & Hm & H2);
      [done|rewrite zlen_app; lia|done|].
    assert (zlen (w ++ pre) + 1 =? n = false) as Hf by (rewrite zlen_app; lia).
    rewrite Hf in *. exists m2, []. split; [done|]. split; [done|]. by rewrite app_assoc.
  - split; [done|]. by rewrite app_nil_r.
  - eauto.
Qed.

(** The order in which a full barrier wakes its threads: the last one first. *)
Definition release (g : list SyncThreadNode) : list SyncThreadNode :=
  match reverse g with [] => [] | T :: r => T :: reverse r end.

Lemma barrier_generation m b n g : 1 <= n < 2 ^ 31 -> zlen g = n -> barrier_at m b n [] ->
  exists m', run_msgs (barrier_msg b) m g = Ret (m', release g) /\ barrier_at m' b n [].
Proof.
  intros Hn Hg Hat. destruct g as [|T w _] using rev_ind; [unfold zlen in Hg; simpl in Hg; lia|].
  rewrite zlen_app in Hg. change (zlen [T]) with 1 in Hg.
  destruct (barrier_fill m b n [] w) as (m1 & Hr1 & Hat1); [done|unfold zlen in *; simpl; lia|done|].
  destruct (barrier_arrive m1 b n w T) as (m2 & Hr2 & Hat2); [done|lia|done|].
  rewrite (proj2 (Z.eqb_eq _ _)) in Hr2, Hat2 by lia. exists m2. split; [|done].
  unfold release. rewrite reverse_snoc, reverse_involutive.
  rewrite (run_msgs_app _ w [T] m m1 m2 [] (T :: w)); [done|done|].
  cbn [run_msgs]. rewrite Hr2. cbn. by rewrite app_nil_r.
Qed.

(** * Semaphores *)

Inductive sem_msg := SemEnter (T : SyncThreadNode) | SemLeave (T : SyncThreadNode).

Definition sem_step (b : Z) (m : SyncManager) (x : sem_msg) : outcome handled :=
  match x with
  | SemEnter T => SemaphoreMsg cache_get m (machine T) b (thread_id T)
  | SemLeave T => SemaphoreLeaveMsg cache_get m (machine T) b (thread_id T)
  end.

Definition sem_enters (l : list sem_msg) : list SyncThreadNode :=
  omap (fun x => match x with SemEnter T => Some T | SemLeave _ => None end) l.
Definition sem_leaves (l : list sem_msg) : list SyncThreadNode :=
  omap (fun x => match x with SemEnter _ => None | SemLeave T => Some T end) l.

(** The state of semaphore [b] with initial count [n] after the messages [l], when
    [ws] have been let in. *)
Definition sem_at (m : SyncManager) (b n : Z) (l : list sem_msg) (ws : list SyncThreadNode) : Prop :=
  match sync_data m !! b with
  | None => cache_get b 0 = Ret n /\ l = [] /\ ws = []
  | Some node => Kind node = Semaphore /\
      val node = n - zlen (sem_enters l) + zlen (sem_leaves l) /\
      ws ++ waiting node ≡ₚ sem_enters l /\ - zlen (waiting node) <= val node
  end.

Lemma sem_snoc l x :
  sem_enters (l ++ [x]) = sem_enters l ++ (match x with SemEnter T => [T] | _ => [] end) /\
  sem_leaves (l ++ [x]) = sem_leaves l ++ (match x with SemLeave T => [T] | _ => [] end).
Proof. unfold sem_enters, sem_leaves. rewrite !omap_app. by destruct x. Qed.

Lemma sem_counts l : zlen (sem_enters l) + zlen (sem_leaves l) = zlen l.
Proof.
  induction l as [|x l IH] using rev_ind; [done|]. destruct (sem_snoc l x) as [-> ->].
  rewrite !zlen_app. destruct x; unfold zlen in *; cbn [length]; lia.
Qed.

Lemma sem_step_spec m b n l ws x : 0 <= n -> n + zlen l + 1 < 2 ^ 31 ->
  (l = [] -> exists T, x = SemEnter T) -> sem_at m b n l ws ->
  exists m' w, sem_step b m x = Ret (m', w) /\ sem_at m' b n (l ++ [x]) (ws ++ w).
Proof.
  intros Hn Hlen Hfirst Hat. pose proof (sem_counts l) as Hc.
  pose proof (zlen_nonneg (sem_enters l)). pose proof (zlen_nonneg (sem_leaves l)).
  destruct (sem_snoc l x) as [He Hl].
  assert (forall v ws' q, v = n - zlen (sem_enters (l ++ [x])) + zlen (sem_leaves (l ++ [x])) ->
    ws' ++ q ≡ₚ sem_enters (l ++ [x]) -> - zlen q <= v ->
    forall d, sem_at (set_node m b {| Kind := Semaphore; val := v; data := d; waiting := q |})
                b n (l ++ [x]) ws') as Hset.
  { intros v ws' q Hv Hq Hle d. unfold sem_at. cbn [set_node sync_data].
    rewrite lookup_insert_eq. cbn [Kind val waiting]. done. }
  assert (exists node, Kind node = Semaphore /\
      val node = n - zlen (sem_enters l) + zlen (sem_leaves l) /\
      ws ++ waiting node ≡ₚ sem_enters l /\ - zlen (waiting node) <= val node /\
      match sync_data m !! b with
      | None => (d ← cache_get b 0;
                 Ret {| Kind := Semaphore; val := s32 d; data := s32 d; waiting := [] |}) = Ret node
                /\ l = []
      | Some node' => node' = node
      end) as (node & HK & Hv & Hw & Hle & Hnode).
  { unfold sem_at in Hat. destruct (sync_data m !! b) as [node|];
      [exists node; destruct Hat as (? & ? & ? & ?); done|].
    destruct Hat as (-> & -> & ->). cbn. rewrite s32_small by lia. eexists.
    split; [|split; [|split; [|split; [|by split]]]]; cbn; try done; lia. }
  rewrite He, Hl, !zlen_app in Hset.
  pose proof (zlen_nonneg (waiting node)).
  assert (zlen (waiting node) <= zlen (sem_enters l)).
  { rewrite <-Hw. rewrite zlen_app. pose proof (zlen_nonneg ws). lia. }
  destruct x as [T|T]; cbn [sem_step]; cbv iota in Hset; change (zlen [T]) with 1 in Hset;
    change (zlen (@nil SyncThreadNode)) with 0 in Hset.
  - unfold SemaphoreMsg.
    assert ((match sync_data m !! b with
      | None => d ← cache_get b 0;
                Ret {| Kind := Semaphore; val := s32 d; data := s32 d; waiting := [] |}
      | Some node => Ret node end) = Ret node) as ->
      by (destruct (sync_data m !! b); [by rewrite Hnode|destruct Hnode as [Hx _]; exact Hx]).
    rewrite bind_ret. rewrite check_kind_ok by done. rewrite bind_ret.
    rewrite c_int_ok by lia.
    rewrite bind_ret, Thread_eta, HK. case_test; eexists _, _; (split; [done|]); apply Hset.
    + lia.
    + rewrite <-Hw. by rewrite <-!app_assoc, (Permutation_app_comm [T]).
    + lia.
    + lia.
    + by rewrite app_nil_r, app_assoc, Hw.
    + rewrite zlen_app. change (zlen [T]) with 1. lia.
  - unfold SemaphoreLeaveMsg. destruct (sync_data m !! b) as [node'|].
    2: { destruct Hnode as [_ Hnil]. by destruct (Hfirst Hnil). }
    subst node'. rewrite bind_ret. rewrite check_kind_ok by done. rewrite bind_ret.
    rewrite c_int_ok by lia.
    rewrite bind_ret, HK. rewrite app_nil_r in Hset. case_test.
    + destruct (waiting node) as [|T0 q] eqn:Hq; eexists _, _; (split; [done|]); apply Hset.
      * lia.
      * by rewrite app_nil_r.
      * change (zlen (@nil SyncThreadNode)) with 0. lia.
      * lia.
      * rewrite <-Hw. by rewrite <-app_assoc.
      * pose proof (zlen_nonneg q). lia.
    + eexists _, _. split; [done|]. apply Hset; [lia|by rewrite app_nil_r|lia].
Qed.
End message_runs.

(** * Events *)

Section events.
Context (cache_get : Z -> Z -> outcome Z).

Inductive event_msg := EvWait (T : SyncThreadNode) | EvSet | EvReset.

#[export] Instance event_msg_eq_dec : EqDecision event_msg.
Proof. solve_decision. Defined.

Definition ev_step (b : Z) (m : SyncManager) (x : event_msg) : outcome handled :=
  match x with
  | EvWait T => EventWaitMsg cache_get m (machine T) b (thread_id T)
  | EvSet => SetEventMsg cache_get m 0 b
  | EvReset => ResetEventMsg cache_get m 0 b
  end.

Definition ev_waits (l : list event_msg) : list SyncThreadNode :=
  omap (fun x => match x with EvWait T => Some T | _ => None end) l.
Definition ev_sets (l : list event_msg) : Z :=
  zlen (filter (fun x => x = EvSet) l).

Definition nonzero (v : Z) : Z := if v =? 0 then 0 else 1.

(** Event [b] whose object holds [auto_reset] and [is_signal], after the messages
    [l], when [ws] have been woken. *)
Definition ev_at (m : SyncManager) (b auto_reset is_signal : Z) (l : list event_msg)
    (ws : list SyncThreadNode) : Prop :=
  match sync_data m !! b with
  | None => l = [] /\ ws = []
  | Some node => Kind node = Event /\ data node = s32 auto_reset /\
      ws ++ waiting node = ev_waits l /\ (val node <> 0 -> waiting node = []) /\
      (s32 auto_reset <> 0 -> zlen ws + nonzero (val node) <= nonzero (s32 is_signal) + ev_sets l)
  end.

Lemma ev_snoc l x :
  ev_waits (l ++ [x]) = ev_waits l ++ (match x with EvWait T => [T] | _ => [] end) /\
  ev_sets (l ++ [x]) = ev_sets l + (match x with EvSet => 1 | _ => 0 end).
Proof.
  unfold ev_waits, ev_sets. rewrite omap_app, filter_app, zlen_app. by destruct x.
Qed.

Lemma CreateEventNode_spec m b a s l ws :
  cache_get b 0 = Ret a -> cache_get b 2 = Ret s -> ev_at m b a s l ws ->
  exists node, CreateEventNode cache_get m b = Ret node /\ Kind node = Event /\
    data node = s32 a /\ ws ++ waiting node = ev_waits l /\
    (val node <> 0 -> waiting node = []) /\
    (s32 a <> 0 -> zlen ws + nonzero (val node) <= nonzero (s32 s) + ev_sets l).
Proof.
  intros Ha Hs Hat. unfold ev_at, CreateEventNode in *.
  destruct (sync_data m !! b) as [node|].
  - destruct Hat as (HK & Hrest). rewrite check_kind_ok, bind_ret by done. eauto.
  - destruct Hat as [-> ->]. rewrite Ha, Hs. cbn. eexists. split; [done|]. cbn.
    unfold ev_sets, zlen. cbn. split; [done|]. split; [done|]. split; [done|]. split; [done|]. lia.
Qed.

Lemma ev_step_spec m b a s l ws x :
  cache_get b 0 = Ret a -> cache_get b 2 = Ret s -> ev_at m b a s l ws ->
  exists m' w, ev_step b m x = Ret (m', w) /\ ev_at m' b a s (l ++ [x]) (ws ++ w).
Proof.
  intros Ha Hs Hat.
  destruct (CreateEventNode_spec m b a s l ws Ha Hs Hat) as (node & Hn & HK & Hd & Hw & Hv & Hc).
  destruct (ev_snoc l x) as [Hx1 Hx2]. pose proof (zlen_nonneg ws).
  assert (forall v q ws', ws' ++ q = ev_waits (l ++ [x]) -> (v <> 0 -> q = []) ->
    (s32 a <> 0 -> zlen ws' + nonzero v <= nonzero (s32 s) + ev_sets (l ++ [x])) ->
    ev_at (set_node m b {| Kind := Event; val := v; data := s32 a; waiting := q |}) b a s
      (l ++ [x]) ws') as Hset.
  { intros v q ws' H1 H2 H3. unfold ev_at. cbn [set_node sync_data]. by rewrite lookup_insert_eq. }
  rewrite Hx1, Hx2 in Hset.
  assert (forall v, 0 <= nonzero v <= 1) as Hnz by (intros v; unfold nonzero; case_test; lia).
  assert (nonzero 0 = 0 /\ nonzero 1 = 1) as [Hz0 Hz1] by done.
  assert (forall v, v <> 0 -> nonzero v = 1) as Hnz1
    by (intros v Hv0; unfold nonzero; case_test; [lia|done]).
  destruct x as [T| |]; cbn [ev_step].
  - unfold EventWaitMsg. rewrite Hn, bind_ret, Hd, HK, Thread_eta.
    destruct (Z.eqb_spec (val node) 0) as [H0|H0]; cbn [negb]; eexists _, _; (split; [done|]).
    + rewrite H0. apply Hset; [by rewrite app_nil_r, app_assoc, Hw|done|].
      rewrite app_nil_r. intros Hsa. specialize (Hc Hsa). rewrite H0 in Hc. lia.
    + rewrite (Hv H0), app_nil_r in Hw. rewrite (Hv H0).
      apply Hset; [by rewrite app_nil_r, Hw|done|]. intros Hsa. specialize (Hc Hsa).
      rewrite (Hnz1 _ H0) in Hc.
      destruct (Z.eqb_spec (s32 a) 0); [done|]. cbn [negb]. rewrite zlen_app.
      change (zlen [T]) with 1. lia.
  - unfold SetEventMsg. rewrite Hn, bind_ret, Hd, HK.
    destruct (Z.eqb_spec (s32 a) 0) as [H0|H0]; cbn [negb].
    + eexists _, _. split; [done|]. apply Hset; [by rewrite !app_nil_r|done|done].
    + specialize (Hc H0). pose proof (Hnz (val node)).
      destruct (waiting node) as [|T q] eqn:Hq; eexists _, _; (split; [done|]); apply Hset.
      * rewrite !app_nil_r. by rewrite app_nil_r in Hw.
      * done.
      * intros _. rewrite app_nil_r. lia.
      * by rewrite app_nil_r, <-Hw, <-app_assoc.
      * done.
      * intros _. rewrite zlen_app. change (zlen [T]) with 1. lia.
  - unfold ResetEventMsg. rewrite Hn, bind_ret, Hd, HK. eexists _, _. split; [done|].
    apply Hset; [by rewrite !app_nil_r|done|]. intros Hsa. specialize (Hc Hsa).
    pose proof (Hnz (val node)). rewrite app_nil_r. lia.
Qed.

Lemma ev_at_facts m b a s l ws : ev_at m b a s l ws ->
  ws ++ old_waiting m b = ev_waits l /\
  (forall node, sync_data m !! b = Some node -> val node <> 0 -> waiting node = []) /\
  (s32 a <> 0 -> zlen ws <= nonzero (s32 s) + ev_sets l).
Proof.
  intros Hat. unfold ev_at, old_waiting in *.
  assert (forall v, 0 <= nonzero v) as Hnz by (intros v; unfold nonzero; case_test; lia).
  destruct (sync_data m !! b) as [node|].
  - destruct Hat as (_ & _ & Hw & Hv & Hc). split; [done|]. split; [by intros ? [= <-]|].
    intros Hsa. specialize (Hc Hsa). pose proof (Hnz (val node)). lia.
  - destruct Hat as [-> ->]. split; [done|]. split; [done|]. intros _.
    pose proof (Hnz (s32 s)). unfold ev_sets, zlen. cbn. lia.
Qed.

(** The event that [SyncManager] should implement: a flag and the threads that wait, and
    what a message does to it and whom it wakes. *)
Record event_spec := EventSpec { signalled : bool; waiters : list SyncThreadNode }.

Definition spec_step (auto : bool) (e : event_spec) (x : event_msg) : event_spec * list SyncThreadNode :=
  match x with
  | EvWait T => if signalled e then (EventSpec (negb auto) (waiters e), [T])
                else (EventSpec false (waiters e ++ [T]), [])
  | EvSet => if auto then match waiters e with
                          | [] => (EventSpec true [], [])
                          | T :: q => (EventSpec false q, [T])
                          end
             else (EventSpec true [], waiters e)
  | EvReset => (EventSpec false (waiters e), [])
  end.
Fixpoint spec_run (auto : bool) (e : event_spec) (l : list event_msg) : event_spec * list SyncThreadNode :=
  match l with
  | [] => (e, [])
  | x :: l => let '(e, ws) := spec_step auto e x in let '(e, ws') := spec_run auto e l in (e, ws ++ ws')
  end.

(** The node that [CreateEventNode] gives is the event [e]. *)
Definition ev_is (m : SyncManager) (b a : Z) (e : event_spec) : Prop := exists node,
  CreateEventNode cache_get m b = Ret node /\ Kind node = Event /\ data node = s32 a /\
  waiting node = waiters e /\ negb (val node =? 0) = signalled e /\ (signalled e = true -> waiters e = []).

Lemma ev_is_set m b a e v q : negb (v =? 0) = signalled e -> q = waiters e -> (signalled e = true -> waiters e = []) ->
  ev_is (set_node m b {| Kind := Event; val := v; data := s32 a; waiting := q |}) b a e.
Proof.
  intros Hv -> Hq. eexists. unfold CreateEventNode. cbn [set_node sync_data]. rewrite lookup_insert_eq.
  split; [done|]. by repeat split.
Qed.

Lemma ev_step_is m b a e x : ev_is m b a e ->
  exists m', ev_step b m x = Ret (m', snd (spec_step (negb (s32 a =? 0)) e x)) /\
    ev_is m' b a (fst (spec_step (negb (s32 a =? 0)) e x)).
Proof.
  intros (node & Hn & HK & Hd & Hw & Hv & Hq).
  destruct x as [T| |]; cbn [ev_step spec_step]; unfold EventWaitMsg, SetEventMsg, ResetEventMsg; rewrite Hn, bind_ret, HK, Hd, Hw.
  - rewrite Hv, Thread_eta. destruct (signalled e) eqn:Es; cbn [fst snd]; eexists; (split; [done|]).
    + apply ev_is_set; cbn [signalled waiters]; [|done|intros _; by apply Hq].
      destruct (s32 a =? 0); cbn [negb]; [exact Hv|done].
    + apply ev_is_set; cbn [signalled waiters]; [exact Hv|done|done].
  - destruct (s32 a =? 0); cbn [negb].
    + eexists. split; [done|]. by apply ev_is_set.
    + destruct (waiters e) as [|T q]; cbn [fst snd]; eexists; (split; [done|]); by apply ev_is_set.
  - eexists. split; [done|]. by apply ev_is_set.
Qed.

Lemma ev_run_is b a l : forall m e, ev_is m b a e ->
  exists m', run_msgs (ev_step b) m l = Ret (m', snd (spec_run (negb (s32 a =? 0)) e l)) /\
    ev_is m' b a (fst (spec_run (negb (s32 a =? 0)) e l)).
Proof.
  induction l as [|x l IH]; intros m e He; cbn [run_msgs spec_run]; [by exists m|].
  destruct (ev_step_is m b a e x He) as (m1 & -> & H1). destruct (spec_step _ e x) as [e1 w1]. cbn [fst snd] in *.
  destruct (IH m1 e1 H1) as (m2 & E & H2). rewrite bind_ret, E. destruct (spec_run _ e1 l) as [e2 w2]. cbn.
  by exists m2.
Qed.
End events.

(** * A semaphore whose value and queue are known *)

Section semaphore_runs.
Context (cache_get : Z -> Z -> outcome Z).

Definition sem_is (m : SyncManager) (b n v : Z) (q : list SyncThreadNode) : Prop :=
  match sync_data m !! b with
  | None => cache_get b 0 = Ret n /\ v = n /\ q = [] /\ 0 <= n < 2 ^ 31
  | Some node => node = {| Kind := Semaphore; val := v; data := n; waiting := q |}
  end.

Lemma sem_is_set m b n v q :
  sem_is (set_node m b {| Kind := Semaphore; val := v; data := n; waiting := q |}) b n v q.
Proof. unfold sem_is. cbn [set_node sync_data]. by rewrite lookup_insert_eq. Qed.

Lemma sem_enter_is m b n v q T : sem_is m b n v q -> - 2 ^ 31 < v < 2 ^ 31 ->
  exists m', sem_step cache_get b m (SemEnter T) = Ret (m', if 1 <=? v then [T] else []) /\
    sem_is m' b n (v - 1) (if 1 <=? v then q else q ++ [T]).
Proof.
  intros Hs Hv. cbn [sem_step]. unfold SemaphoreMsg.
  assert (match sync_data m !! b with
    | None => d ← cache_get b 0;
              Ret {| Kind := Semaphore; val := s32 d; data := s32 d; waiting := [] |}
    | Some node => Ret node end
    = Ret {| Kind := Semaphore; val := v; data := n; waiting := q |}) as ->.
  { unfold sem_is in Hs. destruct (sync_data m !! b); [by rewrite Hs|].
    destruct Hs as (-> & -> & -> & Hn). cbn. by rewrite s32_small by lia. }
  rewrite bind_ret, check_kind_ok, bind_ret by done. cbn [val data waiting Kind].
  rewrite c_int_ok, bind_ret, Thread_eta by lia.
  destruct (Z.leb_spec 1 v), (Z.leb_spec 0 (v - 1)); try lia;
    eexists; (split; [done|]); apply sem_is_set.
Qed.

Lemma sem_hold_run m b n v hs q : sem_is m b n v q -> v < 2 ^ 31 -> zlen hs <= v ->
  exists m', run_msgs (sem_step cache_get b) m (SemEnter <$> hs) = Ret (m', hs) /\
    sem_is m' b n (v - zlen hs) q.
Proof.
  revert m v. induction hs as [|T hs IH]; intros m v Hs Hv Hl.
  { exists m. by rewrite Z.sub_0_r. }
  change (zlen (T :: hs)) with (zlen ([T] ++ hs)) in *. rewrite zlen_app in *.
  change (zlen [T]) with 1 in *. pose proof (zlen_nonneg hs).
  destruct (sem_enter_is m b n v q T Hs) as (m1 & Hm1 & H1); [lia|].
  rewrite (proj2 (Z.leb_le 1 v)) in Hm1, H1 by lia.
  destruct (IH m1 (v - 1) H1) as (m2 & Hm2 & H2); [lia..|]. exists m2.
  cbn [fmap list_fmap run_msgs]. rewrite Hm1, bind_ret, Hm2. split; [done|].
  by replace (v - (1 + zlen hs)) with (v - 1 - zlen hs) by lia.
Qed.

Lemma sem_queue_run m b n v ws q : sem_is m b n v q -> v <= 0 -> - 2 ^ 31 < v - zlen ws ->
  exists m', run_msgs (sem_step cache_get b) m (SemEnter <$> ws) = Ret (m', []) /\
    sem_is m' b n (v - zlen ws) (q ++ ws).
Proof.
  revert m v q. induction ws as [|T ws IH]; intros m v q Hs Hv Hl.
  { exists m. by rewrite Z.sub_0_r, app_nil_r. }
  change (zlen (T :: ws)) with (zlen ([T] ++ ws)) in *. rewrite zlen_app in *.
  change (zlen [T]) with 1 in *. pose proof (zlen_nonneg ws).
  destruct (sem_enter_is m b n v q T Hs) as (m1 & Hm1 & H1); [lia|].
  rewrite (proj2 (Z.leb_gt 1 v)) in Hm1, H1 by lia.
  destruct (IH m1 (v - 1) _ H1) as (m2 & Hm2 & H2); [lia..|]. exists m2.
  cbn [fmap list_fmap run_msgs]. rewrite Hm1, bind_ret, Hm2. split; [done|].
  rewrite <-app_assoc in H2. by replace (v - (1 + zlen ws)) with (v - 1 - zlen ws) by lia.
Qed.

Lemma sem_leave_run m b n v hs q : sem_is m b n v q -> - 2 ^ 31 < v -> v + zlen hs < 0 ->
  exists m', run_msgs (sem_step cache_get b) m (SemLeave <$> hs) = Ret (m', []) /\
    sem_is m' b n (v + zlen hs) q.
Proof.
  revert m v. induction hs as [|T hs IH]; intros m v Hs Hv Hl.
  { exists m. by rewrite Z.add_0_r. }
  change (zlen (T :: hs)) with (zlen ([T] ++ hs)) in *. rewrite zlen_app in *.
  change (zlen [T]) with 1 in *. pose proof (zlen_nonneg hs).
  assert (exists m1, sem_step cache_get b m (SemLeave T) = Ret (m1, []) /\
    sem_is m1 b n (v + 1) q) as (m1 & Hm1 & H1).
  { cbn [sem_step]. unfold SemaphoreLeaveMsg, sem_is in Hs |- *.
    destruct (sync_data m !! b); [|lia]. subst.
    rewrite bind_ret, check_kind_ok, bind_ret by done. cbn [val data waiting Kind].
    rewrite c_int_ok, bind_ret by lia. rewrite (proj2 (Z.leb_gt 0 _)) by lia.
    eexists. split; [done|]. cbn [set_node sync_data]. by rewrite lookup_insert_eq. }
  destruct (IH m1 (v + 1) H1) as (m2 & Hm2 & H2); [lia..|]. exists m2.
  cbn [fmap list_fmap run_msgs]. rewrite Hm1, bind_ret, Hm2. split; [done|].
  by replace (v + (1 + zlen hs)) with (v + 1 + zlen hs) by lia.
Qed.
End semaphore_runs.

(** * Properties *)


(** A wake-up command never reaches a node that does not know the thread: in
    any reachable state [RcSlaveMainLoop] handles the [RcCmdWakeSync] it receives,
    the thread named is in a blocking call and its event was not set. *)
Theorem wakeup_finds_thread cache_get n_nodes now s i p q : reachable cache_get n_nodes now s ->
  queue_of (to_slave (shared s)) i = p :: q -> cmd p = RcCmdWakeSync ->
  Thread i (param p) ∈ blocked s /\
  RcWaitForRemoteEvent (shared s) i (param p) = false /\
  exists c', RcSlaveMainLoop_cmd (with_to_slave (shared s) (<[i := q]> (to_slave (shared s)))) i p
             = Ret (c', SlaveNone) /\ RcWaitForRemoteEvent c' i (param p) = true.
Proof.
  intros Hr Hq Hp.
  destruct (slave_wakes _ _ i p q Hq (reachable_inv cache_get n_nodes now s Hr) Hp) as [HB Hev].
  split; [done|]. unfold RcWaitForRemoteEvent, RcSlaveMainLoop_cmd. rewrite Hev. split; [done|].
  rewrite Hp. unfold RcSetRemoteEvent, put_event. cbn [with_to_slave events]. rewrite Hev.
  eexists. split; [done|]. cbn [with_events events]. by rewrite lookup_insert_eq.
Qed.

(** C23. A barrier of count [n] releases its threads in generations: of any sequence
    of arrivals the master lets every [n] consecutive ones go together, the last
    before the others, none earlier, and the fewer than [n] that came after the last
    full generation wait. *)
Theorem barrier_generations cache_get m b n gens rest :
  sync_data m !! b = None -> cache_get b 0 = Ret n -> 1 <= n < 2 ^ 31 ->
  Forall (fun g => zlen g = n) gens -> zlen rest < n ->
  exists m', run_msgs (fun m T => BarrierMsg cache_get m (machine T) b (thread_id T)) m
               (concat gens ++ rest) = Ret (m', concat (release <$> gens)) /\
    old_waiting m' b = rest.
Proof.
  intros Hb Hc Hn Hg Hrest.
  assert (barrier_at cache_get m b n []) as Hat by (unfold barrier_at; by rewrite Hb).
  clear Hb Hc. revert m Hat. induction Hg as [|g gens Hlen _ IH]; intros m Hat.
  - destruct (barrier_fill cache_get m b n [] rest) as (m' & Hr & Hat'); [done|done|done|].
    exists m'. split; [exact Hr|]. by eapply barrier_at_waiting.
  - destruct (barrier_generation cache_get m b n g Hn Hlen Hat) as (m1 & Hr1 & Hat1).
    destruct (IH m1 Hat1) as (m2 & Hr2 & Hw). exists m2. split; [|done].
    cbn [concat fmap list_fmap]. rewrite <-app_assoc. by eapply run_msgs_app.
Qed.

(** C26. A semaphore with initial count [n] never lets in more threads than [n] plus
    the number of releases, whatever the order of the messages (the first one being
    an acquire), and every thread that asked has been let in or is in the queue. *)
Theorem semaphore_bound cache_get m b n T l :
  sync_data m !! b = None -> cache_get b 0 = Ret n -> 0 <= n ->
  n + zlen (SemEnter T :: l) < 2 ^ 31 ->
  exists m' ws, run_msgs (sem_step cache_get b) m (SemEnter T :: l) = Ret (m', ws) /\
    zlen ws <= n + zlen (sem_leaves (SemEnter T :: l)) /\
    ws ++ old_waiting m' b ≡ₚ sem_enters (SemEnter T :: l).
Proof.
  intros Hb Hc Hn Hlen.
  destruct (run_msgs_rule (sem_step cache_get b)
    (fun pre ws m => sem_at cache_get m b n pre ws) (SemEnter T :: l) m) as (m' & ws & Hr & Hat).
  - intros pre a post ws m1 Heq Hat. apply sem_step_spec; [done| | |done].
    + rewrite Heq, zlen_app in Hlen. change (zlen (a :: post)) with (zlen ([a] ++ post)) in Hlen.
      rewrite zlen_app in Hlen. change (zlen [a]) with 1 in Hlen. pose proof (zlen_nonneg post). lia.
    + intros ->. injection Heq as <- _. eauto.
  - unfold sem_at. by rewrite Hb.
  - exists m', ws. split; [done|]. unfold sem_at, old_waiting in *.
    destruct (sync_data m' !! b) as [node|]; [|by destruct Hat as (_ & ? & _)].
    destruct Hat as (_ & Hv & Hw & Hle). split; [|done].
    apply zlen_permutation in Hw. rewrite zlen_app in Hw. lia.
Qed.

(** A release with two or more threads in the queue wakes nobody: when [n]
    threads hold a semaphore of count [n] and more than [n] others wait, all the
    holders can leave and the master wakes none of the waiting threads, which then
    wait for a semaphore that nobody holds. *)
Theorem semaphore_deadlock cache_get m b n hs ws :
  sync_data m !! b = None -> cache_get b 0 = Ret n -> 1 <= n -> zlen hs = n -> n < zlen ws ->
  n + zlen hs + zlen ws < 2 ^ 31 ->
  exists m', run_msgs (sem_step cache_get b) m
      ((SemEnter <$> hs) ++ (SemEnter <$> ws) ++ (SemLeave <$> hs)) = Ret (m', hs) /\
    old_waiting m' b = ws.
Proof.
  intros Hb Hc Hn Hhs Hws Hlen.
  assert (sem_is cache_get m b n n []) as H0 by (unfold sem_is; rewrite Hb; repeat split; [done|lia|lia]).
  pose proof (zlen_nonneg ws).
  destruct (sem_hold_run cache_get m b n n hs [] H0) as (m1 & Hr1 & H1); [lia..|].
  destruct (sem_queue_run cache_get m1 b n (n - zlen hs) ws [] H1) as (m2 & Hr2 & H2); [lia..|].
  destruct (sem_leave_run cache_get m2 b n (n - zlen hs - zlen ws) hs ws H2) as (m3 & Hr3 & H3);
    [lia..|].
  exists m3. split.
  - rewrite (run_msgs_app _ (SemEnter <$> hs) _ m m1 m3 hs []); [by rewrite app_nil_r|done|].
    by apply (run_msgs_app _ (SemEnter <$> ws) _ m1 m2 m3 [] []).
  - unfold sem_is, old_waiting in *. destruct (sync_data m3 !! b); [by subst|lia].
Qed.

(** C37. An event does, over any sequence of waits, sets and resets, what a flag with a
    queue should do ([spec_step]): a wait passes when the flag is up, which an auto-reset
    event takes down, and queues otherwise; a set wakes the first thread of an auto-reset
    event and all of the other kind, and raises the flag when nobody is left waiting; a
    reset takes the flag down. It wakes exactly the threads that this event wakes, in this
    order, and ends in its state. So it serves its threads in the order they came, without
    losing or repeating any; nobody waits while the event is signalled; and an
    auto-reset event wakes at most one thread per set, plus one if it was created
    signalled. *)
Theorem event_fifo cache_get m b a s l :
  sync_data m !! b = None -> cache_get b 0 = Ret a -> cache_get b 2 = Ret s ->
  exists m' e ws, run_msgs (ev_step cache_get b) m l = Ret (m', ws) /\
    spec_run (negb (s32 a =? 0)) (EventSpec (negb (s32 s =? 0)) []) l = (e, ws) /\
    (exists node, CreateEventNode cache_get m' b = Ret node /\ waiting node = waiters e /\ negb (val node =? 0) = signalled e) /\
    ws ++ old_waiting m' b = ev_waits l /\
    (forall node, sync_data m' !! b = Some node -> val node <> 0 -> waiting node = []) /\
    (s32 a <> 0 -> zlen ws <= nonzero (s32 s) + ev_sets l).
Proof.
  intros Hb Ha Hs.
  destruct (ev_run_is cache_get b a l m (EventSpec (negb (s32 s =? 0)) [])) as (m1 & E & node & Hn & _ & _ & Hw & Hv & _).
  { eexists. unfold CreateEventNode. rewrite Hb, Ha, Hs, !bind_ret. split; [done|]. by repeat split. }
  destruct (run_msgs_rule (ev_step cache_get b) (fun pre ws m => ev_at m b a s pre ws) l m)
    as (m' & ws & Hr & Hat).
  - intros pre x post ws m2 _ Hat. by apply ev_step_spec.
  - unfold ev_at. by rewrite Hb.
  - rewrite Hr in E. injection E as <- Ews. exists m'. eexists _, ws. split; [done|].
    split; [rewrite Ews; apply surjective_pairing|]. split; [by exists node|].
    by apply ev_at_facts.
Qed.

(** A barrier does not tell its threads apart: when the wait of a thread at a
    barrier of count 2 times out and the thread enters again, its second request
    completes the barrier alone and it is woken twice. *)
Theorem barrier_timeout_releases_alone cache_get m b T :
  sync_data m !! b = None -> cache_get b 0 = Ret 2 ->
  exists m', run_msgs (fun m T => BarrierMsg cache_get m (machine T) b (thread_id T)) m [T; T]
             = Ret (m', [T; T]).
Proof.
  intros Hb Hc. destruct (barrier_generation cache_get m b 2 [T; T]) as (m' & Hr & _);
    [lia|done|unfold barrier_at; by rewrite Hb|]. exists m'. exact Hr.
Qed.

(** Starting a thread on a slave: the command [RcCreateThread] sends for a
    function object of 1 to 2048 bytes makes the slave that receives it start a
    thread with the same function index, parameter, object id and bytes. *)
Theorem create_thread_roundtrip c n idx prm okey data :
  0 <= idx < 2 ^ 31 -> is_u32 prm -> is_u32 okey -> 1 <= zlen data <= 2048 ->
  exists c' p, RcCreateThreadObject c 0 n idx prm okey data = Ret c' /\
    queue_of (to_slave c') n = queue_of (to_slave c) n ++ [p] /\
    forall c1, RcSlaveMainLoop_cmd c1 n p = Ret (c1, SlaveThreadObject idx prm okey data).
Proof.
  intros Hidx Hp Ho Hd. unfold RcCreateThreadObject. cbn [c_assert Z.eqb].
  rewrite bind_ret, c_assert_true, bind_ret by lia. eexists _, _. split; [done|]. split.
  - cbn [send_slave with_to_slave to_slave]. by rewrite queue_of_insert, decide_True.
  - intros c1. cbn [RcSlaveMainLoop_cmd cmd param param2 param3 param4 payload].
    rewrite Z.eqb_refl. destruct (Z.eqb_spec (zlen data) 0); [lia|]. cbn [negb].
    rewrite (proj2 (Z.ltb_ge _ _)) by lia. cbn [orb negb].
    by rewrite !u32_s32, s32_small by (done || lia).
Qed.

(** * Witnesses: a cluster of two nodes, two threads of node 1 at a barrier *)

Section witnesses.
Let cg : Z -> Z -> outcome Z := fun _ _ => Ret 2.

Definition ret_or {A} (d : A) (m : outcome A) : A := match m with Ret a => a | _ => d end.

(** The master takes the first command of slave 1. *)
Definition master_takes (cg : Z -> Z -> outcome Z) (c : cluster) : cluster :=
  match queue_of (to_master c) 1 with
  | p :: q => ret_or c (RcMasterListen_cmd cg (with_to_master c (<[1 := q]> (to_master c))) 1 0 p)
  | [] => c
  end.

Let c0 : cluster := shared (initial 2 0).
Let c1 : cluster := RcPrepareNewThread (RcPrepareNewThread c0 1 1) 1 2.
Let c2 : cluster := ret_or c1 (RcEnterBarrier cg c1 1 7 1).
Let c3 : cluster := ret_or c2 (RcEnterBarrier cg c2 1 7 2).
Let c4 : cluster := master_takes cg (master_takes cg c3).

Lemma demo_reachable : reachable cg 2 0
  {| shared := c4; blocked := {[Thread 1 2]} ∪ ({[Thread 1 1]} ∪ ∅) |}.
Proof.
  assert (forall c B p q, reachable cg 2 0 {| shared := c; blocked := B |} ->
    queue_of (to_master c) 1 = p :: q ->
    (exists c', RcMasterListen_cmd cg (with_to_master c (<[1 := q]> (to_master c))) 1 0 p = Ret c') ->
    reachable cg 2 0 {| shared := master_takes cg c; blocked := B |}) as Hm.
  { intros c B p q Hr Hq [c' Hc']. eapply reachable_step; [exact Hr|].
    eapply (step_master cg c B 1 0 p q); [lia|done|].
    unfold master_takes. by rewrite Hq, Hc'. }
  eapply Hm; [eapply Hm; [|vm_compute; reflexivity|eexists; vm_compute; reflexivity]
    |vm_compute; reflexivity|eexists; vm_compute; reflexivity].
  eapply reachable_step; [eapply reachable_step; [eapply reachable_step;
    [eapply reachable_step; [apply reachable_initial|]|]|]|].
  - apply (step_start cg c0 ∅ 1 1). vm_compute. reflexivity.
  - apply (step_start cg _ _ 1 2). vm_compute. reflexivity.
  - apply (step_enter cg c1 ∅ 1 1 7 c2 (RcEnterBarrier cg)); [by left|set_solver|ranges|].
    vm_compute. reflexivity.
  - apply (step_enter cg c2 _ 1 2 7 c3 (RcEnterBarrier cg)); [by left|set_solver|ranges|].
    vm_compute. reflexivity.
Qed.


Lemma wakeup_finds_thread_witness : exists c',
  RcSlaveMainLoop_cmd (with_to_slave c4 (<[1 := [Pack RcCmdWakeSync 1 0 0 0 []]]> (to_slave c4))) 1
    (Pack RcCmdWakeSync 2 0 0 0 []) = Ret (c', SlaveNone) /\ RcWaitForRemoteEvent c' 1 2 = true.
Proof.
  apply (wakeup_finds_thread cg 2 0 _ 1 (Pack RcCmdWakeSync 2 0 0 0 [])
    [Pack RcCmdWakeSync 1 0 0 0 []] demo_reachable).
  - vm_compute. reflexivity.
  - reflexivity.
Defined.

Lemma barrier_generations_witness : exists m',
  run_msgs (fun m T => BarrierMsg cg m (machine T) 7 (thread_id T)) (mgr c0)
    (concat [[Thread 1 1; Thread 2 1]; [Thread 2 1; Thread 1 1]] ++ [Thread 3 1])
  = Ret (m', concat (release <$> [[Thread 1 1; Thread 2 1]; [Thread 2 1; Thread 1 1]])) /\
  old_waiting m' 7 = [Thread 3 1].
Proof.
  apply (barrier_generations cg (mgr c0) 7 2).
  - reflexivity.
  - reflexivity.
  - lia.
  - repeat (apply Forall_cons; split; [reflexivity|]). apply Forall_nil. exact I.
  - reflexivity.
Defined.

Lemma semaphore_bound_witness : exists m' ws,
  run_msgs (sem_step cg 7) (mgr c0) [SemEnter (Thread 1 1); SemEnter (Thread 1 2);
    SemEnter (Thread 1 3); SemLeave (Thread 1 1)] = Ret (m', ws) /\
  zlen ws <= 2 + 1.
Proof.
  destruct (semaphore_bound cg (mgr c0) 7 2 (Thread 1 1)
    [SemEnter (Thread 1 2); SemEnter (Thread 1 3); SemLeave (Thread 1 1)]) as (m' & ws & Hr & Hle & _).
  - reflexivity.
  - reflexivity.
  - lia.
  - reflexivity.
  - exists m', ws. split; [exact Hr|exact Hle].
Defined.

Lemma semaphore_deadlock_witness : exists m',
  run_msgs (sem_step (fun _ _ => Ret 1) 7) (mgr c0)
    ((SemEnter <$> [Thread 1 1]) ++ (SemEnter <$> [Thread 1 2; Thread 1 3])
     ++ (SemLeave <$> [Thread 1 1])) = Ret (m', [Thread 1 1]) /\
  old_waiting m' 7 = [Thread 1 2; Thread 1 3].
Proof.
  apply (semaphore_deadlock (fun _ _ => Ret 1) (mgr c0) 7 1 [Thread 1 1] [Thread 1 2; Thread 1 3]).
  - reflexivity.
  - reflexivity.
  - lia.
  - reflexivity.
  - reflexivity.
  - reflexivity.
Defined.

Lemma event_fifo_witness : exists m' e,
  run_msgs (ev_step cg 7) (mgr c0) [EvSet; EvWait (Thread 1 1); EvReset; EvWait (Thread 1 2)]
    = Ret (m', [Thread 1 1]) /\ e = EventSpec false [Thread 1 2] /\ old_waiting m' 7 = waiters e.
Proof.
  destruct (event_fifo cg (mgr c0) 7 2 2
    [EvSet; EvWait (Thread 1 1); EvReset; EvWait (Thread 1 2)]) as (m' & e & ws & Hr & He & _ & Hw & _);
    [reflexivity..|].
  vm_compute in He. injection He as <- <-. exists m'. eexists. split; [exact Hr|]. split; [reflexivity|].
  cbn in Hw. by injection Hw.
Defined.

Lemma barrier_timeout_releases_alone_witness : exists m',
  run_msgs (fun m T => BarrierMsg cg m (machine T) 7 (thread_id T)) (mgr c0)
    [Thread 1 1; Thread 1 1] = Ret (m', [Thread 1 1; Thread 1 1]).
Proof.
  apply (barrier_timeout_releases_alone cg (mgr c0) 7 (Thread 1 1)).
  - reflexivity.
  - reflexivity.
Defined.

Lemma create_thread_roundtrip_witness : exists c' p,
  RcCreateThreadObject c0 0 1 3 4000000000 9 [1; 2; 3] = Ret c' /\
  queue_of (to_slave c') 1 = queue_of (to_slave c0) 1 ++ [p] /\
  forall c1, RcSlaveMainLoop_cmd c1 1 p = Ret (c1, SlaveThreadObject 3 4000000000 9 [1; 2; 3]).
Proof.
  apply (create_thread_roundtrip c0 1 3 4000000000 9 [1; 2; 3]).
  - lia.
  - ranges.
  - ranges.
  - split; vm_compute; discriminate.
Defined.
End witnesses.
