(* ===== verification/Handshake.v ===== *)
(** The hand-shake between the master and a slave, [RcMasterHello] and the first
    part of [RcSlave] in [Dogee/DogeeRemote.cpp]: the byte stream in which the master
    tells a slave the cluster's hosts and memory servers, and the slave's parser. *)
From S2P Require Import Prelude.

(** * Byte streams *)

(** [RcRecv(s, buf, n) == n]: one [recv], which takes what it can of the bytes that have
    arrived together, the first piece of [stream]; the [n] bytes asked for and the rest,
    or nothing when fewer are there or none come, with which the callers give up. *)
Fixpoint RcRecv (n : Z) (stream : list (list Z)) : option (list Z * list (list Z)) :=
  if n =? 0 then Some ([], stream)
  else
    match stream with
    | [] => None
    | [] :: stream => RcRecv n stream
    | piece :: stream =>
        if (0 <=? n) && (n <=? zlen piece)
        then Some (take (Z.to_nat n) piece, drop (Z.to_nat n) piece :: stream) else None
    end.

(** A [uint32_t] (or [int]) as it is sent. *)
Definition word_bytes (w : Z) : list Z := bytes_of_word (u32 w).

(** [std::string(buf)]: the characters before the first zero. Without one among the
    bytes received the string runs into what the buffer held before. *)
Fixpoint c_string (buf : list Z) : outcome (list Z) :=
  match buf with
  | [] => Abort
  | c :: buf => if c =? 0 then Ret [] else s ← c_string buf; Ret (c :: s)
  end.

(** * Messages *)

Definition RC_MAGIC_MASTER : Z := 0x12335edf.
Definition RC_MAGIC_SLAVE : Z := 0x33950f0e.

Record MasterInfo := {
  magic : Z;
  num_mem_server : Z;
  num_nodes : Z;
  node_id : Z;
  localport : Z;
  backty : Z;
  cachety : Z;
  checkpoint : Z;
}.

Definition master_info_bytes (mi : MasterInfo) : list Z :=
  word_bytes (magic mi) ++ word_bytes (num_mem_server mi) ++ word_bytes (num_nodes mi)
  ++ word_bytes (node_id mi) ++ word_bytes (localport mi) ++ word_bytes (backty mi)
  ++ word_bytes (cachety mi) ++ word_bytes (checkpoint mi).

Definition read_master_info (bs : list Z) : outcome MasterInfo :=
  a ← word_at bs 0; b ← word_at bs 1; c ← word_at bs 2; d ← word_at bs 3;
  e ← word_at bs 4; f ← word_at bs 5; g ← word_at bs 6; h ← word_at bs 7;
  Ret {| magic := s32 a; num_mem_server := b; num_nodes := c; node_id := d;
         localport := s32 e; backty := f; cachety := g; checkpoint := s32 h |}.

(** * The master's side *)

(** One entry of the host lists; a name of 255 characters or more is cut by writing a
    zero into the master's own copy. *)
Definition send_host (host : list Z) (port : Z) : outcome (list Z * list Z) :=
  let sendl := zlen host + 1 in
  '(sendl, host) ← (if 255 <? sendl then h ← wr host 254 0; Ret (255, h) else Ret (sendl, host));
  bs ← rd_range (host ++ [0]) 0 sendl;
  Ret (host, word_bytes sendl ++ bs ++ word_bytes port).

(** The entries [lo .. length hosts - 1]: the host list after it, and what was sent. *)
Definition send_hosts (lo : Z) (hosts : list (list Z)) (ports : list Z) :
    outcome (list (list Z) * list Z) :=
  for_range lo (zlen hosts) (fun i '(hosts, sent) =>
    host ← rd hosts i;
    port ← rd ports i;
    '(host, bs) ← send_host host port;
    hosts ← wr hosts i host;
    Ret (hosts, sent ++ bs)) (hosts, []).

(** The value returned, the two host lists after the call and the bytes sent;
    [stream] is what the slave sends, in the pieces in which it arrives. *)
Definition RcMasterHello (stream : list (list Z)) (hosts : list (list Z)) (ports : list Z)
    (memhosts : list (list Z)) (memports : list Z) (nid backty cachety checkpoint : Z) :
    outcome (Z * list (list Z) * list (list Z) * list Z) :=
  match RcRecv 4 stream with
  | None => Ret (1, hosts, memhosts, [])
  | Some (bs, _) =>
      m ← word_at bs 0;
      if negb (s32 m =? RC_MAGIC_SLAVE) then Ret (2, hosts, memhosts, []) else
      p0 ← rd ports 0;
      let mi := {| magic := RC_MAGIC_MASTER; num_mem_server := zlen memhosts;
                   num_nodes := zlen hosts; node_id := nid; localport := p0;
                   backty := backty; cachety := cachety; checkpoint := checkpoint |} in
      '(hosts, sent1) ← send_hosts 1 hosts ports;
      '(memhosts, sent2) ← send_hosts 0 memhosts memports;
      Ret (0, hosts, memhosts, master_info_bytes mi ++ sent1 ++ sent2)
  end.

(** * The slave's side *)

(** [n] entries of a host list, or the value of [err] with which the hand-shake is
    given up. *)
Fixpoint recv_hosts (n : nat) (stream : list (list Z)) (hosts : list (list Z)) (ports : list Z) :
    outcome (Z + list (list Z) * list Z * list (list Z)) :=
  match n with
  | O => Ret (inr (hosts, ports, stream))
  | S n =>
      match RcRecv 4 stream with
      | None => Ret (inl 5)
      | Some (lb, stream) =>
          len ← word_at lb 0;
          if 255 <? len then Ret (inl 6) else
          match RcRecv len stream with
          | None => Ret (inl 7)
          | Some (buf, stream) =>
              match RcRecv 4 stream with
              | None => Ret (inl 8)
              | Some (pb, stream) =>
                  port ← word_at pb 0;
                  host ← c_string buf;
                  recv_hosts n stream (hosts ++ [host]) (ports ++ [s32 port])
              end
          end
      end
  end.

(** What a slave has learnt when it starts its storage. *)
Record slave_config := {
  cfg_info : MasterInfo;
  cfg_hosts : list (list Z);
  cfg_ports : list Z;
  cfg_memhosts : list (list Z);
  cfg_memports : list Z;
}.

(** The slave greets ([slave_greeting]) and reads what the master, whose address is
    [peer], sends: its configuration, or the error it reports. *)
Definition slave_greeting : list Z := word_bytes RC_MAGIC_SLAVE.

Definition RcSlave_handshake (peer : list Z) (stream : list (list Z)) : outcome (Z + slave_config) :=
  match RcRecv 32 stream with
  | None => Ret (inl 0)
  | Some (bs, stream) =>
      mi ← read_master_info bs;
      if negb (magic mi =? RC_MAGIC_MASTER) then Ret (inl 0) else
      r ← recv_hosts (Z.to_nat (num_nodes mi - 1)) stream [peer] [localport mi];
      match r with
      | inl err => Ret (inl err)
      | inr (hosts, ports, stream) =>
          r ← recv_hosts (Z.to_nat (num_mem_server mi)) stream [] [];
          match r with
          | inl err => Ret (inl err)
          | inr (memhosts, memports, _) =>
              Ret (inr {| cfg_info := mi; cfg_hosts := hosts; cfg_ports := ports;
                          cfg_memhosts := memhosts; cfg_memports := memports |})
          end
      end
  end.

(** * Lemmas *)

Lemma zlen_word_bytes w : zlen (word_bytes w) = 4.
Proof. reflexivity. Qed.

Lemma RcRecv_app n l1 l2 more : zlen l1 = n -> RcRecv n ((l1 ++ l2) :: more) = Some (l1, l2 :: more).
Proof.
  intros <-. destruct l1 as [|x l1]; [done|]. pose proof (zlen_nonneg l1). pose proof (zlen_nonneg l2).
  cbn [RcRecv app]. rewrite zlen_cons, (proj2 (Z.eqb_neq _ 0)) by lia.
  rewrite zlen_cons, zlen_app, (proj2 (andb_true_iff _ _)) by lia.
  replace (Z.to_nat (zlen l1 + 1)) with (length (x :: l1)) by (unfold zlen; cbn [length]; lia).
  change (x :: l1 ++ l2) with ((x :: l1) ++ l2). by rewrite take_app_length, drop_app_length.
Qed.

Lemma word_at_word_bytes w : word_at (word_bytes w) 0 = Ret (u32 w).
Proof.
  unfold word_bytes. replace (bytes_of_word (u32 w)) with (bytes_of_words [u32 w])
    by (unfold bytes_of_words; simpl; done).
  apply word_at_bytes_of_words; [apply Forall_singleton; apply u32_range|done].
Qed.

Lemma s32_u32 x : - 2 ^ 31 <= x < 2 ^ 31 -> s32 (u32 x) = x.
Proof.
  intros Hx. unfold s32, u32. rewrite Zplus_mod_idemp_l. rewrite Z.mod_small; lia.
Qed.

(** A host name as it arrives. *)
Definition cut (host : list Z) : list Z := take 254 host.

Lemma c_string_app s rest : 0 ∉ s -> c_string (s ++ 0 :: rest) = Ret s.
Proof.
  induction s as [|c s IH]; intros Hs; simpl; [done|].
  apply not_elem_of_cons in Hs as [Hc Hs]. destruct (Z.eqb_spec c 0); [congruence|].
  by rewrite IH.
Qed.

(** The entry a host leaves on the wire, and what the parser makes of it. *)
Lemma send_host_spec host port : 0 ∉ host -> exists host' bs,
  send_host host port = Ret (host', bs) /\ cut host' = cut host /\
  (zlen host < 255 -> host' = host) /\
  bs = word_bytes (zlen (cut host) + 1) ++ (cut host ++ [0]) ++ word_bytes port.
Proof.
  intros Hh. unfold send_host, cut. destruct (Z.ltb_spec 255 (zlen host + 1)).
  - unfold wr. assert ((0 <=? 254) && (254 <? zlen host) = true) as -> by lia.
    rewrite !bind_ret. unfold rd_range. rewrite zlen_app, zlen_insert.
    assert ((0 <=? 0) && (0 <=? 255) && (0 + 255 <=? zlen host + zlen [0]) = true) as ->.
    { change (zlen [0]) with 1. lia. }
    rewrite bind_ret. change (Z.to_nat 254) with 254%nat. change (Z.to_nat 255) with 255%nat.
    unfold zlen in *. eexists _, _. split; [done|].
    split; [by rewrite take_insert_ge by lia|]. split; [lia|].
    rewrite length_take. rewrite drop_0. do 2 f_equal; [f_equal; lia|].
    f_equal. rewrite take_app_le by (rewrite length_insert; lia).
    rewrite insert_take_drop, take_app, length_take by lia.
    rewrite take_ge by (rewrite length_take; lia). f_equal.
    by replace (255 - 254 `min` length host)%nat with 1%nat by lia.
  - rewrite bind_ret. unfold rd_range. rewrite zlen_app. change (zlen [0]) with 1.
    pose proof (zlen_nonneg host).
    assert ((0 <=? 0) && (0 <=? zlen host + 1) && (0 + (zlen host + 1) <=? zlen host + 1) = true)
      as -> by lia.
    rewrite bind_ret. eexists _, _. split; [done|]. split; [done|]. split; [done|].
    unfold zlen in *. rewrite (take_ge host) by lia. rewrite drop_0, take_ge; [done|].
    rewrite length_app. simpl. lia.
Qed.

(** The bytes of a list of entries. *)
Definition entry (host : list Z) (port : Z) : list Z :=
  word_bytes (zlen (cut host) + 1) ++ (cut host ++ [0]) ++ word_bytes port.
Definition entries (hosts : list (list Z)) (ports : list Z) : list Z :=
  concat (zip_with entry hosts ports).

Lemma zip_with_snoc {A B C} (f : A -> B -> C) l1 l2 a b : length l1 = length l2 ->
  zip_with f (l1 ++ [a]) (l2 ++ [b]) = zip_with f l1 l2 ++ [f a b].
Proof. intros H. by rewrite zip_with_app by done. Qed.

Lemma send_hosts_spec lo hosts ports :
  0 <= lo <= zlen hosts -> zlen hosts <= zlen ports -> Forall (fun h => 0 ∉ h) hosts ->
  exists hosts' sent, send_hosts lo hosts ports = Ret (hosts', sent) /\
    cut <$> hosts' = cut <$> hosts /\
    (Forall (fun h => zlen h < 255) hosts -> hosts' = hosts) /\
    sent = entries (drop (Z.to_nat lo) hosts)
             (take (Z.to_nat (zlen hosts - lo)) (drop (Z.to_nat lo) ports)).
Proof.
  intros Hlo Hports Hz. unfold send_hosts.
  destruct (for_range_rule (fun i '(hs, sent) => zlen hs = zlen hosts /\
      (forall j, i <= j -> hs.[j] = hosts.[j]) /\ (cut <$> hs = cut <$> hosts) /\
      (Forall (fun h => zlen h < 255) hosts -> hs = hosts) /\
      sent = entries (take (Z.to_nat (i - lo)) (drop (Z.to_nat lo) hosts))
               (take (Z.to_nat (i - lo)) (drop (Z.to_nat lo) ports))) lo (zlen hosts)
      (fun i '(hosts, sent) =>
         host ← rd hosts i; port ← rd ports i; '(host, bs) ← send_host host port;
         hosts ← wr hosts i host; Ret (hosts, sent ++ bs)) (hosts, []))
    as ([hs sent] & -> & (Hl & _ & Hc & Hshort & ->)); [lia| | |].
  - intros i [hs sent] Hi (Hl & Hsame & Hc & Hshort & ->).
    destruct (zlook_is_Some hosts i) as [h Hh]; [lia|].
    destruct (zlook_is_Some ports i) as [p Hp]; [lia|].
    rewrite (rd_ok hs i h) by (by rewrite Hsame by lia). rewrite bind_ret.
    rewrite (rd_ok _ _ _ Hp), bind_ret.
    destruct (send_host_spec h p) as (h' & bs & -> & Hcut & Hkeep & ->);
      [by eapply (zlook_Forall _ _ _ _ Hz)|]. rewrite bind_ret.
    destruct (wr_ok hs i h') as (hs' & -> & Hl' & Hlook); [lia|]. rewrite bind_ret.
    eexists. split; [done|]. split; [lia|]. split; [|split; [|split]].
    + intros j Hj. rewrite Hlook. destruct (Z.eqb_spec j i); [lia|]. apply Hsame. lia.
    + rewrite <-Hc. apply zlook_ext; [by rewrite !zlen_fmap|]. intros j _.
      rewrite !zlook_fmap, Hlook. destruct (Z.eqb_spec j i) as [->|]; [|done].
      rewrite Hsame, Hh by lia. cbn. by rewrite Hcut.
    + intros Hs. apply zlook_ext; [lia|]. intros j _. rewrite Hlook, Hshort by done.
      destruct (Z.eqb_spec j i) as [->|]; [|done]. rewrite Hh, Hkeep; [done|].
      by apply (zlook_Forall _ _ _ _ Hs Hh).
    + rewrite zlook_lookup in Hh by lia. rewrite zlook_lookup in Hp by lia. unfold entries.
      replace (Z.to_nat (i + 1 - lo)) with (S (Z.to_nat (i - lo))) by lia.
      rewrite (take_S_r _ _ h), (take_S_r _ _ p)
        by (rewrite lookup_drop; rewrite <-?Hh, <-?Hp; f_equal; lia).
      rewrite zip_with_snoc, concat_app;
        [|unfold zlen in *; rewrite !length_take, !length_drop; lia].
      cbn [concat]. by rewrite app_nil_r.
  - split; [done|]. split; [done|]. split; [done|]. split; [done|]. rewrite Z.sub_diag. done.
  - eexists _, _. split; [done|]. split; [done|]. split; [done|]. do 2 f_equal. apply take_ge.
    unfold zlen. rewrite length_drop. lia.
Qed.

Lemma recv_hosts_entries hs : forall ps rest more hosts ports,
  length hs = length ps -> Forall (fun h => 0 ∉ h) hs ->
  Forall (fun p => - 2 ^ 31 <= p < 2 ^ 31) ps ->
  recv_hosts (length hs) ((entries hs ps ++ rest) :: more) hosts ports
  = Ret (inr (hosts ++ (cut <$> hs), ports ++ ps, rest :: more)).
Proof.
  induction hs as [|h hs IH]; intros [|p ps] rest more hosts ports Hlen Hh Hp; try discriminate Hlen.
  { cbn. by rewrite !app_nil_r. }
  apply Forall_cons in Hh as [Hh Hhs], Hp as [Hp Hps].
  unfold entries. cbn [length recv_hosts zip_with concat].
  unfold entry. rewrite <-!app_assoc. rewrite (RcRecv_app 4) by apply zlen_word_bytes.
  rewrite word_at_word_bytes, bind_ret.
  assert (0 <= zlen (cut h) <= 254) as Hcl.
  { unfold cut, zlen. rewrite length_take. lia. }
  rewrite u32_small by ranges. rewrite (proj2 (Z.ltb_ge _ _)) by lia.
  rewrite (app_assoc (cut h)), (RcRecv_app (zlen (cut h) + 1)) by (by rewrite zlen_app).
  rewrite (RcRecv_app 4) by apply zlen_word_bytes. rewrite word_at_word_bytes, bind_ret.
  assert (0 ∉ cut h) as Hz.
  { unfold cut. intros Hin. apply Hh. apply elem_of_take in Hin as (k & Hk & _).
    by eapply list_elem_of_lookup_2. }
  rewrite (c_string_app (cut h) []) by done. rewrite bind_ret, s32_u32 by done.
  rewrite (IH ps) by (done || by injection Hlen). cbn [fmap list_fmap].
  by rewrite <-!app_assoc.
Qed.

Lemma read_master_info_bytes mi :
  - 2 ^ 31 <= magic mi < 2 ^ 31 -> is_u32 (num_mem_server mi) -> is_u32 (num_nodes mi) ->
  is_u32 (node_id mi) -> - 2 ^ 31 <= localport mi < 2 ^ 31 -> is_u32 (backty mi) ->
  is_u32 (cachety mi) -> - 2 ^ 31 <= checkpoint mi < 2 ^ 31 ->
  read_master_info (master_info_bytes mi) = Ret mi.
Proof.
  intros H1 H2 H3 H4 H5 H6 H7 H8. unfold read_master_info.
  assert (master_info_bytes mi = bytes_of_words (u32 <$> [magic mi; num_mem_server mi;
    num_nodes mi; node_id mi; localport mi; backty mi; cachety mi; checkpoint mi])) as ->.
  { reflexivity. }
  set (ws := u32 <$> _).
  assert (Forall is_u32 ws) as Hw.
  { apply Forall_fmap, Forall_forall. intros x _. apply u32_range. }
  rewrite (word_at_bytes_of_words ws 0 (u32 (magic mi))), bind_ret by done.
  rewrite (word_at_bytes_of_words ws 1 (u32 (num_mem_server mi))), bind_ret by done.
  rewrite (word_at_bytes_of_words ws 2 (u32 (num_nodes mi))), bind_ret by done.
  rewrite (word_at_bytes_of_words ws 3 (u32 (node_id mi))), bind_ret by done.
  rewrite (word_at_bytes_of_words ws 4 (u32 (localport mi))), bind_ret by done.
  rewrite (word_at_bytes_of_words ws 5 (u32 (backty mi))), bind_ret by done.
  rewrite (word_at_bytes_of_words ws 6 (u32 (cachety mi))), bind_ret by done.
  rewrite (word_at_bytes_of_words ws 7 (u32 (checkpoint mi))), bind_ret by done.
  rewrite !s32_u32, !u32_small by done. by destruct mi.
Qed.

(** What a slave makes of the master's part. *)
Lemma hello_parsed peer rest more hosts ports memhosts memports nid bt ct chk :
  0 < zlen hosts -> zlen hosts < 2 ^ 31 -> zlen ports = zlen hosts ->
  zlen memhosts < 2 ^ 31 -> zlen memports = zlen memhosts ->
  Forall (fun h => 0 ∉ h) hosts -> Forall (fun h => 0 ∉ h) memhosts ->
  Forall (fun p => - 2 ^ 31 <= p < 2 ^ 31) ports ->
  Forall (fun p => - 2 ^ 31 <= p < 2 ^ 31) memports ->
  is_u32 nid -> is_u32 bt -> is_u32 ct -> - 2 ^ 31 <= chk < 2 ^ 31 ->
  exists hosts' memhosts' sent p0,
    RcMasterHello ((slave_greeting ++ rest) :: more) hosts ports memhosts memports nid bt ct chk
      = Ret (0, hosts', memhosts', sent) /\ head ports = Some p0 /\
    (Forall (fun h => zlen h < 255) hosts -> hosts' = hosts) /\
    (Forall (fun h => zlen h < 255) memhosts -> memhosts' = memhosts) /\
    RcSlave_handshake peer [sent] = Ret (inr
      {| cfg_info := {| magic := RC_MAGIC_MASTER; num_mem_server := zlen memhosts;
                        num_nodes := zlen hosts; node_id := nid; localport := p0;
                        backty := bt; cachety := ct; checkpoint := chk |};
         cfg_hosts := peer :: (cut <$> tail hosts); cfg_ports := ports;
         cfg_memhosts := cut <$> memhosts; cfg_memports := memports |}).
Proof.
  intros Hh0 Hh1 Hp Hm1 Hmp Hz Hmz Hpr Hmr Hn Hb Hc Hk.
  destruct hosts as [|h0 hosts]; [unfold zlen in Hh0; simpl in Hh0; lia|].
  destruct ports as [|p0 ports]; [unfold zlen in Hp; simpl in Hp; lia|].
  pose proof (zlen_nonneg memhosts).
  unfold RcMasterHello. rewrite (RcRecv_app 4) by done.
  unfold slave_greeting. rewrite word_at_word_bytes, bind_ret, s32_u32
    by (unfold RC_MAGIC_SLAVE; lia). rewrite Z.eqb_refl. cbn [negb].
  change (rd (p0 :: ports) 0) with (Ret p0). rewrite bind_ret.
  destruct (send_hosts_spec 1 (h0 :: hosts) (p0 :: ports)) as (hs & s1 & -> & _ & Hs1 & ->); [lia|lia|done|].
  rewrite bind_ret.
  destruct (send_hosts_spec 0 memhosts memports) as (mhs & s2 & -> & _ & Hs2 & ->); [lia|lia|done|].
  rewrite bind_ret. eexists _, _, _, p0. split; [done|]. split; [done|]. split; [done|]. split; [done|].
  change (Z.to_nat 1) with 1%nat. change (Z.to_nat 0) with 0%nat.
  cbn [drop tail]. rewrite !drop_0. unfold RcSlave_handshake.
  set (mi := {| magic := RC_MAGIC_MASTER |}).
  rewrite (RcRecv_app 32) by done. apply Forall_cons in Hz as [Hz0 Hz], Hpr as [Hp0 Hpr].
  rewrite read_master_info_bytes, bind_ret;
    [|unfold mi, RC_MAGIC_MASTER; cbn; ranges..].
  rewrite Z.eqb_refl. cbn [negb]. unfold zlen in *. cbn [length] in *.
  rewrite (take_ge ports) by lia. rewrite (take_ge memports) by lia.
  replace (Z.to_nat (num_nodes mi - 1)) with (length hosts)
    by (change (num_nodes mi) with (Z.of_nat (length (h0 :: hosts))); cbn [length]; lia).
  rewrite recv_hosts_entries; [|lia|exact Hz|exact Hpr]. rewrite bind_ret.
  replace (Z.to_nat (num_mem_server mi)) with (length memhosts)
    by (change (num_mem_server mi) with (Z.of_nat (length memhosts)); lia).
  rewrite <-(app_nil_r (entries memhosts memports)).
  rewrite recv_hosts_entries; [|lia|exact Hmz|exact Hmr]. rewrite bind_ret. done.
Qed.

(** * Properties *)

(** C30. The hand-shake carries the configuration: when the master answers a slave's
    greeting, it succeeds, and the slave reads back the node id, back end, cache and
    checkpoint, the hosts (its peer's address for the master), the ports and the
    memory servers, names being cut to 254 characters. What the other side sent has
    arrived when it is read: a receive that gets less than it asks for is taken for an
    error. *)
Theorem handshake_roundtrip peer rest more hosts ports memhosts memports nid bt ct chk :
  0 < zlen hosts -> zlen hosts < 2 ^ 31 -> zlen ports = zlen hosts ->
  zlen memhosts < 2 ^ 31 -> zlen memports = zlen memhosts ->
  Forall (fun h => 0 ∉ h) hosts -> Forall (fun h => 0 ∉ h) memhosts ->
  Forall (fun p => - 2 ^ 31 <= p < 2 ^ 31) ports ->
  Forall (fun p => - 2 ^ 31 <= p < 2 ^ 31) memports ->
  is_u32 nid -> is_u32 bt -> is_u32 ct -> - 2 ^ 31 <= chk < 2 ^ 31 ->
  exists hosts' memhosts' sent p0,
    RcMasterHello ((slave_greeting ++ rest) :: more) hosts ports memhosts memports nid bt ct chk
      = Ret (0, hosts', memhosts', sent) /\ head ports = Some p0 /\
    RcSlave_handshake peer [sent] = Ret (inr
      {| cfg_info := {| magic := RC_MAGIC_MASTER; num_mem_server := zlen memhosts;
                        num_nodes := zlen hosts; node_id := nid; localport := p0;
                        backty := bt; cachety := ct; checkpoint := chk |};
         cfg_hosts := peer :: (cut <$> tail hosts); cfg_ports := ports;
         cfg_memhosts := cut <$> memhosts; cfg_memports := memports |}).
Proof.
  intros Hh0 Hh1 Hp Hm1 Hmp Hz Hmz Hpr Hmr Hn Hb Hc Hk.
  destruct (hello_parsed peer rest more hosts ports memhosts memports nid bt ct chk)
    as (hosts' & memhosts' & sent & p0 & E1 & E2 & _ & _ & E3); [done..|]. by exists hosts', memhosts', sent, p0.
Qed.

Lemma handshake_roundtrip_witness :
  let hosts := [[49; 46; 49]; replicate 300 65] in
  exists hosts' memhosts' sent p0,
    RcMasterHello [slave_greeting ++ []] hosts [18080; 18090] [[50]] [11211] 1 2 1 (-1)
      = Ret (0, hosts', memhosts', sent) /\ head [18080; 18090] = Some p0 /\
    RcSlave_handshake [48] [sent] = Ret (inr
      {| cfg_info := {| magic := RC_MAGIC_MASTER; num_mem_server := 1; num_nodes := 2;
                        node_id := 1; localport := p0; backty := 2; cachety := 1;
                        checkpoint := -1 |};
         cfg_hosts := [48] :: (cut <$> tail hosts); cfg_ports := [18080; 18090];
         cfg_memhosts := cut <$> [[50]]; cfg_memports := [11211] |}).
Proof.
  intros hosts.
  assert (Forall (fun h => 0 ∉ h) hosts) as Hz.
  { repeat (apply Forall_cons; split); [..|by apply Forall_nil].
    - apply (bool_decide_unpack _). vm_compute. exact I.
    - apply (bool_decide_unpack _). vm_compute. exact I. }
  apply (handshake_roundtrip [48] [] [] hosts [18080; 18090] [[50]] [11211] 1 2 1 (-1)).
  - reflexivity.
  - reflexivity.
  - reflexivity.
  - reflexivity.
  - reflexivity.
  - exact Hz.
  - apply Forall_singleton. apply (bool_decide_unpack _). vm_compute. exact I.
  - repeat (apply Forall_cons; split); [lia|lia|by apply Forall_nil].
  - apply Forall_singleton. lia.
  - ranges.
  - ranges.
  - ranges.
  - lia.
Defined.
