(* ===== verification/Accumulator.v ===== *)
(** The distributed accumulator, [include/DogeeAccumulator.h] and
    [Dogee/DogeeAccumulator.cpp]: each node owns a part of the output vector; a user
    cuts its input by owner, packs each part into dense or sparse messages and sends
    them; an owner adds them up and writes its part to the shared array when every
    user is done. The templates are modelled at a 4-byte element type [T]
    ([dsm_size_of] is 1, one word per element). *)
From S2P Require Import Prelude Storage Sync.

(** * Elements *)

(** The operations of the arithmetic type [T] that the templates use. *)
Class Element (T : Type) := {
  zero : T;
  add : T -> T -> T;
  opp : T -> T;
  ltb : T -> T -> bool;
  leb : T -> T -> bool;
  eqb : T -> T -> bool;
}.

Definition BD_DATA_PROCESS_SIZE : Z := 16 * 1024.

(** [sizeof(uint32_t)], and [sizeof(SparseElement<T>)] of the packed pair. *)
Definition sizeof_word : Z := 4.
Definition sizeof_SparseElement : Z := 8.

Inductive AcDataType := TypeDense | TypeSparse.
Inductive AccumulatorMode := DenseMode | SparseMode | AutoMode.

(** [struct SparseElement]. *)
Record SparseElement (T : Type) := Sparse { index : Z; sdata : T }.
Arguments Sparse {T} _ _.
Arguments index {T} _.
Arguments sdata {T} _.

(** What a data message carries behind its header. *)
Inductive payload (T : Type) :=
| Dense (l : list T)
| SparseList (l : list (SparseElement T)).
Arguments Dense {T} l.
Arguments SparseList {T} l.

(** * Which node owns what *)

(** The blocks of 32 words of each node, as both sides compute it. *)
Definition node_blocks (sz num_nodes : Z) : Z :=
  let blocks := if sz mod DSM_CACHE_BLOCK_SIZE =? 0 then sz / DSM_CACHE_BLOCK_SIZE
                else sz / DSM_CACHE_BLOCK_SIZE + 1 in
  if blocks mod num_nodes =? 0 then blocks / num_nodes else blocks / num_nodes + 1.

(** [init_data_node]: [node->size] and [node->base] of node [self]. *)
Definition node_size (sz num_nodes self : Z) : Z :=
  let blocks := node_blocks sz num_nodes in
  if sz <? u32 (blocks * DSM_CACHE_BLOCK_SIZE * (self + 1)) then
    if sz <? u32 (blocks * self * DSM_CACHE_BLOCK_SIZE) then 0
    else u32 (sz - u32 (blocks * self * DSM_CACHE_BLOCK_SIZE))
  else u32 (blocks * DSM_CACHE_BLOCK_SIZE).
Definition node_base (sz num_nodes self : Z) : Z :=
  u32 (node_blocks sz num_nodes * self * DSM_CACHE_BLOCK_SIZE).

(** [_DoAccumulateAndWait]: [send_idx[i]] and the end [send_size[i]] of part [i]. *)
Definition part_start (sz num_nodes i : Z) : Z :=
  u32 (i * node_blocks sz num_nodes * DSM_CACHE_BLOCK_SIZE).
Definition part_end (sz num_nodes i : Z) : Z :=
  let start := part_start sz num_nodes i in
  let stop := u32 (node_blocks sz num_nodes * DSM_CACHE_BLOCK_SIZE + start) in
  if sz <? stop then sz else stop.

(** * Packing *)

Section packing.
Context {T : Type} `{Element T}.

(** The test is [(double)zeros / i > 0.52], which for 31-bit counts is exactly
    this comparison (and false, as of a NaN, for an empty vector). *)
Definition IsProfitableToCompress (vec : list T) (vsize : Z) (threshold : T) : outcome bool :=
  '(i, zeros, used) ← while (S (Z.to_nat vsize))
    (fun '(i, zeros, used) => (i <? vsize) && (used <? BD_DATA_PROCESS_SIZE))
    (fun '(i, zeros, used) =>
       val ← rd vec i;
       if (leb zero val && leb val threshold) || (ltb val zero && leb (opp threshold) val)
       then Ret (i + 1, zeros + 1, used)
       else Ret (i + 1, zeros, used + sizeof_SparseElement)) (0, 0, 0);
  Ret (52 * i <? 100 * zeros).

(** The value a sparse message carries for [val]; zero is not sent. *)
Definition cut_small (threshold val : T) : T :=
  if leb zero val && ltb val threshold then zero
  else if ltb val zero && ltb (opp threshold) val then zero
  else val.

(** The number of elements consumed and the elements packed. *)
Definition MakeSparseArray (vec : list T) (src vsize : Z) (threshold : T) :
    outcome (Z * list (SparseElement T)) :=
  '(i, _, dest) ← while (S (Z.to_nat (vsize - src)))
    (fun '(i, stop, dest) => negb stop && (i <? vsize))
    (fun '(i, stop, dest) =>
       if BD_DATA_PROCESS_SIZE <=? zlen dest * sizeof_SparseElement + sizeof_SparseElement
       then Ret (i, true, dest)
       else
         val ← rd vec i;
         let val := cut_small threshold val in
         Ret (i + 1, false, if eqb val zero then dest else dest ++ [Sparse i val]))
    (src, false, []);
  Ret (i - src, dest).

(** The words of [src] from [idx] that go into the next message, [outsize] and the
    message's contents. *)
Definition AcAccumulatePrepareBuffer (config_mode : AccumulatorMode) (threshold : T)
    (src : list T) (idx size : Z) : outcome (Z * Z * payload T) :=
  mode ← match config_mode with
         | AutoMode =>
             b ← IsProfitableToCompress (drop (Z.to_nat idx) src) (size - idx) threshold;
             Ret (if b : bool then SparseMode else DenseMode)
         | m => Ret m
         end;
  match mode with
  | SparseMode =>
      '(n, dest) ← MakeSparseArray src idx size threshold;
      Ret (n, zlen dest * sizeof_SparseElement, SparseList dest)
  | _ =>
      let send_idx_size := if size <? u32 (idx + BD_DATA_PROCESS_SIZE / sizeof_word)
                           then u32 (size - idx) else BD_DATA_PROCESS_SIZE / sizeof_word in
      dest ← rd_range src idx send_idx_size;
      Ret (send_idx_size, send_idx_size * sizeof_word, Dense dest)
  end.
End packing.

(** * Adding up *)

(** The virtual functions of a [DAccumulator]: input elements, input length and
    index, output buffer, output index and length. *)
Record accumulator (T : Type) := {
  DoAccumulateDense : list T -> Z -> Z -> list T -> Z -> Z -> outcome (list T);
  DoAccumulateSparse : list (SparseElement T) -> Z -> Z -> list T -> Z -> Z -> outcome (list T);
}.
Arguments DoAccumulateDense {T} _.
Arguments DoAccumulateSparse {T} _.

(** [DFunctionalAccumulator] with [Func(in, index, out)], the new [out] being the
    result. *)
Definition DFunctionalAccumulator {T} (Func : T -> Z -> T -> T) : accumulator T := {|
  DoAccumulateDense in_data in_len in_index out_data out_index out_len :=
    let offset := s32 (u32 (in_index - out_index)) in
    _ ← c_assert ((0 <=? offset) && (u32 (offset + in_len) <=? out_len));
    for_range 0 in_len (fun i out_data =>
      x ← rd in_data i;
      y ← rd out_data (offset + i);
      wr out_data (offset + i) (Func x (u32 (i + in_index)) y)) out_data;
  DoAccumulateSparse in_data in_len in_index out_data out_index out_len :=
    for_range 0 in_len (fun i out_data =>
      e ← rd in_data i;
      let idx := index e in
      _ ← c_assert ((out_index <=? idx) && (idx <? u32 (out_index + out_len)));
      y ← rd out_data (idx - out_index);
      wr out_data (idx - out_index) (Func (sdata e) idx y)) out_data;
|}.

(** [DAddAccumulator]. *)
Definition DAddAccumulator {T} `{Element T} : accumulator T := {|
  DoAccumulateDense in_data in_len in_index out_data out_index out_len :=
    let offset := s32 (u32 (in_index - out_index)) in
    _ ← c_assert ((0 <=? offset) && (u32 (offset + in_len) <=? out_len));
    for_range 0 in_len (fun i out_data =>
      x ← rd in_data i;
      y ← rd out_data (offset + i);
      wr out_data (offset + i) (add y x)) out_data;
  DoAccumulateSparse in_data in_len in_index out_data out_index out_len :=
    for_range 0 in_len (fun i out_data =>
      e ← rd in_data i;
      let idx := index e in
      _ ← c_assert ((out_index <=? idx) && (idx <? u32 (out_index + out_len)));
      y ← rd out_data (idx - out_index);
      wr out_data (idx - out_index) (add y (sdata e))) out_data;
|}.

Definition BaseDoAccumulateDense {T} (acc : accumulator T) (in_data : list T)
    (in_bytes in_offset : Z) (out_data : list T) (out_offset out_len : Z) :=
  DoAccumulateDense acc in_data (in_bytes / sizeof_word) in_offset out_data out_offset out_len.
Definition BaseDoAccumulateSparse {T} (acc : accumulator T) (in_data : list (SparseElement T))
    (in_bytes in_offset : Z) (out_data : list T) (out_offset out_len : Z) :=
  DoAccumulateSparse acc in_data (in_bytes / sizeof_SparseElement) in_offset out_data out_offset out_len.

(** * The owner of a part *)

Inductive AcDataCommand :=
| AcDataHello
| AcDataAccumulate
| AcDataAccumulatePartialDone
| AcDataLocalReduce
| AcThreadPoolExec.

(** [RcDataPack] and the bytes behind it; [dp_size] counts these bytes. Fields the
    sender leaves uninitialised are 0. *)
Record RcDataPack (T : Type) := {
  dp_cmd : AcDataCommand;
  dp_size : Z;
  dp_id : Z;
  dp_param0 : Z;
  dp_param12 : Z;
  dp_body : payload T;
}.
Arguments dp_cmd {T} _.
Arguments dp_size {T} _.
Arguments dp_id {T} _.
Arguments dp_param0 {T} _.
Arguments dp_param12 {T} _.
Arguments dp_body {T} _.

Record DataSyncNode (T : Type) := {
  done_node_cnt : Z;
  dn_val : Z;
  count : Z;
  waitlist : list SyncThreadNode;
  total_size : Z;
  base : Z;
  buf : list T;
  size : Z;
  outarray : Z;
}.
Arguments done_node_cnt {T} _.
Arguments dn_val {T} _.
Arguments count {T} _.
Arguments waitlist {T} _.
Arguments total_size {T} _.
Arguments base {T} _.
Arguments buf {T} _.
Arguments size {T} _.
Arguments outarray {T} _.

(** What a handler does outside its node's table, in order: write to the shared
    array, wake a thread, send to another node. *)
Inductive ac_effect (T : Type) :=
| EPutChunk (outarray base size : Z) (buf : list T)
| EWake (th : SyncThreadNode)
| ESend (dest : Z) (p : RcDataPack T).
Arguments EPutChunk {T} _ _ _ _.
Arguments EWake {T} _.
Arguments ESend {T} _ _.

(** [AcConnectionManager::map]. *)
Abbreviation ac_manager T := (gmap Z (DataSyncNode T)).

Section node.
Context {T : Type} `{Element T}.
(** [DogeeEnv::cache->get], the virtual functions of the accumulator objects, and the
    node. *)
Context (cache_get : Z -> Z -> outcome Z) (accu : Z -> accumulator T).
Context (num_nodes self_node_id : Z).

(** The fields [arr], [len] and [num_users] of an accumulator are its first three. *)
Definition init_data_node (aid : Z) : outcome (DataSyncNode T) :=
  num_users ← cache_get aid 4;
  sz ← cache_get aid 2;
  arr ← cache_get aid 0;
  if sz <=? 1024 * 1024 * 128 then
    let sz' := node_size sz num_nodes self_node_id in
    Ret {| done_node_cnt := 0; dn_val := 0; count := s32 num_users; waitlist := [];
           total_size := sz; base := node_base sz num_nodes self_node_id;
           buf := replicate (Z.to_nat sz') zero; size := sz'; outarray := arr |}
  else Abort.

Definition FindOrCreateDataSyncNode (m : ac_manager T) (aid : Z) : outcome (DataSyncNode T) :=
  match m !! aid with Some node => Ret node | None => init_data_node aid end.

Definition set_wait (node : DataSyncNode T) (cnt : Z) (w : list SyncThreadNode) : DataSyncNode T :=
  {| done_node_cnt := cnt; dn_val := dn_val node; count := count node; waitlist := w;
     total_size := total_size node; base := base node; buf := buf node; size := size node;
     outarray := outarray node |}.

Definition set_buf (node : DataSyncNode T) (v : Z) (b : list T) : DataSyncNode T :=
  {| done_node_cnt := done_node_cnt node; dn_val := v; count := count node;
     waitlist := waitlist node; total_size := total_size node; base := base node; buf := b;
     size := size node; outarray := outarray node |}.

Definition AcAccumulatePartialDoneMsg (m : ac_manager T) (aid : Z) :
    outcome (ac_manager T * list (ac_effect T)) :=
  node ← FindOrCreateDataSyncNode m aid;
  cnt ← c_int (done_node_cnt node + 1);
  if num_nodes <=? cnt then Ret (<[aid := set_wait node 0 []]> m, EWake <$> waitlist node)
  else Ret (<[aid := set_wait node cnt (waitlist node)]> m, []).

(** What every handler does when this node has finished its part: the master counts
    itself, a slave tells the master. *)
Definition partial_done (m : ac_manager T) (aid : Z) : outcome (ac_manager T * list (ac_effect T)) :=
  if self_node_id =? 0 then AcAccumulatePartialDoneMsg m aid
  else Ret (m, [ESend 0 {| dp_cmd := AcDataAccumulatePartialDone; dp_size := 0; dp_id := aid;
                           dp_param0 := 0; dp_param12 := 0; dp_body := Dense [] |}]).

(** [BaseDoReduce] of the object, a map-reduce accumulator, is a parameter. *)
Definition AcLocalReduceMsg (BaseDoReduce : list T -> outcome (list T)) (m : ac_manager T)
    (aid : Z) : outcome (ac_manager T * list (ac_effect T)) :=
  node ← FindOrCreateDataSyncNode m aid;
  b ← BaseDoReduce (buf node);
  partial_done (<[aid := set_buf node (dn_val node) b]> m) aid.

(** The part of [AcAccumulateMsg] that adds a message to the buffer. *)
Definition accumulate_body (aid : Z) (node : DataSyncNode T) (offset size_bytes : Z)
    (data : payload T) : outcome (list T) :=
  if negb (size_bytes =? 0) then
    match data with
    | Dense l => BaseDoAccumulateDense (accu aid) l size_bytes offset (buf node) (base node) (size node)
    | SparseList l => BaseDoAccumulateSparse (accu aid) l size_bytes offset (buf node) (base node) (size node)
    end
  else Ret (buf node).

Definition AcAccumulateMsg (m : ac_manager T) (src aid thread_id offset size_bytes : Z)
    (data : payload T) : outcome (ac_manager T * list (ac_effect T)) :=
  node ← FindOrCreateDataSyncNode m aid;
  b ← accumulate_body aid node offset size_bytes data;
  let node := set_buf node (dn_val node) b in
  if negb (thread_id =? 0) then
    v ← c_int (dn_val node + 1);
    let w := if self_node_id =? 0 then waitlist node ++ [Thread src thread_id] else waitlist node in
    let node := set_wait (set_buf node v (buf node)) (done_node_cnt node) w in
    if count node <=? v then
      let '(node, effs) :=
        if negb (size node =? 0)
        then (set_buf node 0 (replicate (Z.to_nat (size node)) zero),
              [EPutChunk (outarray node) (base node) (size node) (buf node)])
        else (set_buf node 0 (buf node), []) in
      '(m, effs') ← partial_done (<[aid := node]> m) aid;
      Ret (m, effs ++ effs')
    else Ret (<[aid := node]> m, [])
  else Ret (<[aid := node]> m, []).

(** * Connections *)

Definition nodeid2idx (node_id : Z) : outcome Z :=
  let ret := if node_id =? 0 then self_node_id - 1 else node_id - 1 in
  _ ← c_assert ((0 <=? ret) && (ret <? num_nodes - 1));
  Ret ret.
Definition idx2nodeid (idx : Z) : outcome Z :=
  let ret := if idx =? self_node_id - 1 then 0 else idx + 1 in
  _ ← c_assert ((0 <=? ret) && (ret <? num_nodes));
  Ret ret.

(** One message that [AcListenData] takes from connection [i]; closures for the
    thread pool are handed on and not modelled here, and a message larger than the
    buffer ends the listener. *)
Definition AcListenData_cmd (BaseDoReduce : list T -> outcome (list T)) (m : ac_manager T) (i : Z)
    (p : RcDataPack T) : outcome (option (ac_manager T * list (ac_effect T))) :=
  if BD_DATA_PROCESS_SIZE <? dp_size p then Ret None else
  match dp_cmd p with
  | AcDataAccumulate =>
      src ← idx2nodeid i;
      r ← AcAccumulateMsg m src (dp_id p) (s32 (u32 (dp_param12 p))) (dp_param0 p) (dp_size p)
            (dp_body p);
      Ret (Some r)
  | AcDataAccumulatePartialDone =>
      if self_node_id =? 0 then
        r ← AcAccumulatePartialDoneMsg m (dp_id p); Ret (Some r)
      else Ret (Some (m, []))
  | AcDataLocalReduce => r ← AcLocalReduceMsg BaseDoReduce m (dp_id p); Ret (Some r)
  | _ => Ret (Some (m, []))
  end.

(** * The user's side *)

(** The locals of [_DoAccumulateAndWait]: [send_idx], [send_size], [done] and the
    messages sent, each with its destination. *)
Record send_state := {
  send_idx : list Z;
  send_size : list Z;
  done : Z;
  sent : list (Z * RcDataPack T);
}.

Definition data_pack (okey sz offset tid : Z) (body : payload T) : RcDataPack T :=
  {| dp_cmd := AcDataAccumulate; dp_size := sz; dp_id := okey; dp_param0 := offset;
     dp_param12 := tid; dp_body := body |}.

(** The first loop: the parts, and an empty message to the owner of an empty part. *)
Definition send_plan_turn (sz okey tid i : Z) (st : send_state) : outcome send_state :=
  let s := part_start sz num_nodes i in
  let e := part_end sz num_nodes i in
  Ret {| send_idx := send_idx st ++ [s]; send_size := send_size st ++ [e];
         done := if e <=? s then done st + 1 else done st;
         sent := if (e <=? s) && negb (i =? self_node_id)
                 then sent st ++ [(i, data_pack okey 0 0 tid (Dense []))] else sent st |}.
Definition send_plan (sz okey tid : Z) : outcome send_state :=
  for_range 0 num_nodes (send_plan_turn sz okey tid)
    {| send_idx := []; send_size := []; done := 1; sent := [] |}.

(** One pass of the last loop over the nodes, for the connections [ready] that
    [select] reports writable; [func] packs the next message from [in_buf]. *)
Definition send_turn (func : Z -> Z -> outcome (Z * Z * payload T)) (okey tid : Z)
    (ready : Z -> bool) (i : Z) (st : send_state) : outcome send_state :=
  si ← rd (send_idx st) i;
  ss ← rd (send_size st) i;
  if (si <? ss) && negb (i =? self_node_id) && ready i then
    '(n, bytes, body) ← func si ss;
    idx ← wr (send_idx st) i (u32 (si + n));
    let last := u32 (si + n) =? ss in
    Ret {| send_idx := idx; send_size := send_size st;
           done := if last then done st + 1 else done st;
           sent := sent st ++ [(i, data_pack okey bytes si (if last then tid else 0) body)] |}
  else Ret st.
Definition send_pass (func : Z -> Z -> outcome (Z * Z * payload T)) (okey tid : Z)
    (ready : Z -> bool) (st : send_state) : outcome send_state :=
  for_range 0 num_nodes (send_turn func okey tid ready) st.

(** The loop, for the results [readies] of the successive [select] calls. *)
Fixpoint send_loop (func : Z -> Z -> outcome (Z * Z * payload T)) (okey tid : Z)
    (readies : list (Z -> bool)) (st : send_state) : outcome send_state :=
  if done st <? num_nodes then
    match readies with
    | [] => NoFuel
    | ready :: readies => st ← send_pass func okey tid ready st; send_loop func okey tid readies st
    end
  else Ret st.

(** [_DoAccumulateAndWait] up to its wait: the node's table and the effects of its
    own part, and the messages sent to the other nodes. *)
Definition DoAccumulateAndWait (m : ac_manager T) (mode : AccumulatorMode) (threshold : T)
    (in_buf : list T) (len okey tid : Z) (readies : list (Z -> bool)) :
    outcome (ac_manager T * list (ac_effect T) * list (Z * RcDataPack T)) :=
  st ← send_plan len okey tid;
  si ← rd (send_idx st) self_node_id;
  ss ← rd (send_size st) self_node_id;
  let localsend := if si <? ss then ss - si else 0 in
  local ← rd_range in_buf (if 0 <? localsend then si else 0) localsend;
  '(m, effs) ← AcAccumulateMsg m self_node_id okey tid si (localsend * sizeof_word) (Dense local);
  idx ← wr (send_idx st) self_node_id ss;
  st ← send_loop (fun s e => AcAccumulatePrepareBuffer mode threshold in_buf s e) okey tid readies
         {| send_idx := idx; send_size := send_size st; done := done st; sent := sent st |};
  Ret (m, effs, sent st).
End node.
