(* ===== verification/AccumulatorFacts.v ===== *)
(** The distributed accumulator of Accumulator.v: both sides cut the vector alike,
    the messages of a user carry each word of a part once, an owner's buffer is the
    sum of what it received in any order, and the runs in which the sender stops
    early. *)
From S2P Require Import Prelude Storage Sync Accumulator.

Ltac Zify.zify_post_hook ::= Z.to_euclidean_division_equations.

(** * The partition *)

Lemma ceil_div_bounds c n : 0 <= c -> 0 < n ->
  c <= (if c mod n =? 0 then c / n else c / n + 1) * n <= c + n - 1.
Proof.
  intros Hc Hn. pose proof (Z.div_mod c n). pose proof (Z.mod_pos_bound c n).
  destruct (Z.eqb_spec (c mod n) 0); nia.
Qed.

Lemma node_blocks_bounds sz n : 0 <= sz -> 0 < n ->
  0 <= node_blocks sz n /\ sz <= 32 * (node_blocks sz n * n) < sz + 32 * n.
Proof.
  intros Hs Hn. unfold node_blocks. rewrite block_size_32.
  set (c := if sz mod 32 =? 0 then sz / 32 else sz / 32 + 1).
  assert (sz <= 32 * c < sz + 32) as Hc by (unfold c; destruct (Z.eqb_spec (sz mod 32) 0); lia).
  pose proof (ceil_div_bounds c n). split; [|lia].
  assert (0 <= c / n) by (apply Z.div_pos; lia). case_test; lia.
Qed.

(** The limits within which no computation of the partition wraps. *)
Definition part_ok (sz n i : Z) : Prop := 0 <= sz <= 2 ^ 27 /\ 0 < n <= 2 ^ 20 /\ 0 <= i < n.

Lemma part_bounds sz n i : part_ok sz n i ->
  0 <= node_blocks sz n /\ 0 <= 32 * (i * node_blocks sz n) /\
  32 * ((i + 1) * node_blocks sz n) < 2 ^ 30 /\ 32 * (i * node_blocks sz n) < 2 ^ 30.
Proof.
  intros (Hs & Hn & Hi). destruct (node_blocks_bounds sz n) as [H0 H1]; [lia..|].
  split; [done|]. split; [nia|]. split; nia.
Qed.

Lemma part_start_eq sz n i : part_ok sz n i -> part_start sz n i = 32 * (i * node_blocks sz n).
Proof.
  intros H. destruct (part_bounds _ _ _ H) as (? & ? & ? & ?).
  unfold part_start. rewrite block_size_32, u32_small by ranges. lia.
Qed.

Lemma part_end_eq sz n i : part_ok sz n i ->
  part_end sz n i = Z.min sz (32 * ((i + 1) * node_blocks sz n)).
Proof.
  intros H. destruct (part_bounds _ _ _ H) as (? & ? & ? & ?).
  unfold part_end. rewrite part_start_eq, block_size_32, u32_small by (done || ranges).
  case_test; lia.
Qed.

Lemma node_base_eq sz n i : part_ok sz n i -> node_base sz n i = part_start sz n i.
Proof.
  intros H. destruct (part_bounds _ _ _ H) as (? & ? & ? & ?). rewrite part_start_eq by done.
  unfold node_base. rewrite block_size_32, u32_small by ranges. lia.
Qed.

Lemma node_size_eq sz n i : part_ok sz n i ->
  node_size sz n i = Z.max 0 (part_end sz n i - part_start sz n i).
Proof.
  intros H. destruct (part_bounds _ _ _ H) as (? & ? & ? & ?). pose proof H as ((? & ?) & _ & _).
  rewrite part_end_eq, part_start_eq by done. unfold node_size.
  rewrite block_size_32. rewrite (u32_small (_ * 32 * (i + 1))) by ranges.
  rewrite (u32_small (_ * i * 32)) by ranges. rewrite (u32_small (_ * 32)) by ranges.
  destruct (Z.ltb_spec sz (node_blocks sz n * 32 * (i + 1))); [|lia].
  destruct (Z.ltb_spec sz (node_blocks sz n * i * 32)); [lia|].
  rewrite u32_small by ranges. lia.
Qed.

Ltac Zify.zify_post_hook ::= idtac.

(** * What messages carry *)

(** The laws of addition that sums in any order need: those of the unsigned and of
    the mathematical integers. *)
Class ElementLaws (T : Type) `{Element T} := {
  add_comm : forall x y : T, add x y = add y x;
  add_assoc : forall x y z : T, add x (add y z) = add (add x y) z;
  add_zero_l : forall x : T, add zero x = x;
  eqb_zero : forall x : T, eqb x zero = true <-> x = zero;
  ltb_geb : forall x : T, ltb x zero = negb (leb zero x);
  ltb_leb : forall x : T, ltb zero x = true -> leb zero x = true;
  opp_zero : opp zero = (zero : T);
}.

Section messages.
Context {T : Type} `{ElementLaws T}.
Implicit Types (p : RcDataPack T) (ms : list (RcDataPack T)).

Lemma add_zero_r (x : T) : add x zero = x.
Proof. by rewrite add_comm, add_zero_l. Qed.

Lemma cut_small_zero (x : T) : cut_small zero x = x.
Proof.
  unfold cut_small. rewrite ltb_geb, opp_zero. destruct (leb zero x) eqn:Hl; cbn [andb negb]; [done|].
  destruct (ltb zero x) eqn:Hz; [|done]. apply ltb_leb in Hz. congruence.
Qed.

(** The positions of the output vector a message adds to, with the values. *)
Definition positions (p : RcDataPack T) : list (Z * T) :=
  match dp_body p with
  | Dense l => zip (seqZ (dp_param0 p) (zlen l)) l
  | SparseList es => (fun e => (index e, sdata e)) <$> es
  end.

Fixpoint at_pos (cs : list (Z * T)) (x : Z) : T :=
  match cs with
  | [] => zero
  | (k, v) :: cs => if k =? x then add v (at_pos cs x) else at_pos cs x
  end.

Definition total (ms : list (RcDataPack T)) (x : Z) : T := at_pos (ms ≫= positions) x.

Lemma at_pos_app cs1 cs2 x : at_pos (cs1 ++ cs2) x = add (at_pos cs1 x) (at_pos cs2 x).
Proof.
  induction cs1 as [|[k v] cs1 IH]; cbn [at_pos app]; [by rewrite add_zero_l|].
  case_test; [|done]. by rewrite IH, add_assoc.
Qed.

#[export] Instance at_pos_perm : Proper ((≡ₚ) ==> (=) ==> (=)) at_pos.
Proof.
  intros cs1 cs2 Hp x ? <-. induction Hp as [|[k v] l1 l2 _ IH|[k1 v1] [k2 v2] l|]; cbn [at_pos].
  - done.
  - case_test; by rewrite IH.
  - repeat case_test; try done. by rewrite !add_assoc, (add_comm v1).
  - congruence.
Qed.

#[export] Instance total_perm : Proper ((≡ₚ) ==> (=) ==> (=)) total.
Proof. intros ms1 ms2 Hp x ? <-. unfold total. by rewrite Hp. Qed.

Lemma total_app ms1 ms2 x : total (ms1 ++ ms2) x = add (total ms1 x) (total ms2 x).
Proof. unfold total. by rewrite bind_app, at_pos_app. Qed.

Lemma at_pos_dense off (l : list T) x :
  at_pos (zip (seqZ off (zlen l)) l) x = default zero (l.[x - off]).
Proof.
  revert off. induction l as [|v l IH]; intros off; [unfold zlook; by case_test|].
  change (zlen (v :: l)) with (zlen ([v] ++ l)). rewrite zlen_app. change (zlen [v]) with 1.
  pose proof (zlen_nonneg l). rewrite seqZ_cons by lia. cbn [zip zip_with at_pos].
  replace (Z.pred (1 + zlen l)) with (zlen l) by lia. fold (zip (seqZ (Z.succ off) (zlen l)) l).
  rewrite IH. destruct (Z.eqb_spec off x) as [->|Hne].
  - rewrite Z.sub_diag. cbn [zlook]. rewrite (zlook_None l) by lia. cbn. by rewrite add_zero_r.
  - unfold zlook. destruct (Z.leb_spec 0 (x - Z.succ off)), (Z.leb_spec 0 (x - off)); try lia; [|done].
    by replace (Z.to_nat (x - off)) with (S (Z.to_nat (x - Z.succ off))) by lia.
Qed.

(** The messages [ms] carry the words [lo .. hi - 1] of [vec], each once. *)
Definition size_ok p : Prop :=
  dp_size p = match dp_body p with
              | Dense l => zlen l * sizeof_word
              | SparseList es => zlen es * sizeof_SparseElement
              end.
Definition within (lo hi : Z) p : Prop := forall k v, (k, v) ∈ positions p -> lo <= k < hi.

Definition carries (vec : list T) (lo hi : Z) ms : Prop :=
  Forall size_ok ms /\ Forall (within lo hi) ms /\
  forall x, total ms x = if (lo <=? x) && (x <? hi) then default zero (vec.[x]) else zero.

Lemma carries_nil vec lo : carries vec lo lo [].
Proof. split; [done|]. split; [done|]. intros x. case_test; [lia|done]. Qed.

Lemma carries_snoc vec lo mid hi ms p : lo <= mid <= hi ->
  carries vec lo mid ms -> carries vec mid hi [p] -> carries vec lo hi (ms ++ [p]).
Proof.
  intros Hm (Hs1 & Hw1 & Ht1) (Hs2 & Hw2 & Ht2). split; [by apply Forall_app|]. split.
  - apply Forall_app. split; eapply Forall_impl; [exact Hw1| |exact Hw2|];
      intros q Hq k v Hkv; specialize (Hq k v Hkv); lia.
  - intros x. rewrite total_app, Ht1, Ht2.
    repeat case_test; try lia; by rewrite ?add_zero_l, ?add_zero_r.
Qed.
End messages.

(** * Packing *)

Section packing_lemmas.
Context {T : Type} `{ElementLaws T}.

Lemma IsProfitableToCompress_total (vec : list T) vsize threshold :
  vsize <= zlen vec -> exists b, IsProfitableToCompress vec vsize threshold = Ret b.
Proof.
  intros Hv. unfold IsProfitableToCompress.
  edestruct (while_rule (S := Z * Z * Z) (fun '(i, _, _) => 0 <= i)
      (fun '(i, _, _) => Z.to_nat (vsize - i)))
    as ([[i z] u] & -> & _); [| | |by eauto].
  - intros [[i z] u] Hi Hc. apply andb_true_iff in Hc as [Hc _].
    destruct (zlook_is_Some vec i) as [v Hv']; [lia|]. rewrite (rd_ok _ _ _ Hv'), bind_ret.
    case_test; eexists; (split; [done|]); cbn; lia.
  - done.
  - simpl. lia.
Qed.

Lemma total_singleton (p : RcDataPack T) x : total [p] x = at_pos (positions p) x.
Proof. unfold total. cbn. by rewrite app_nil_r. Qed.

(** The sparse elements packed from [src .. i - 1]. *)
Definition sparse_of (vec : list T) (src i : Z) (dest : list (SparseElement T)) : Prop :=
  let cs := (fun e => (index e, sdata e)) <$> dest in
  (forall k v, (k, v) ∈ cs -> src <= k < i) /\
  forall x, at_pos cs x = if (src <=? x) && (x <? i) then default zero (vec.[x]) else zero.

Lemma sparse_of_snoc vec src i dest v : src <= i -> vec.[i] = Some v ->
  sparse_of vec src i dest ->
  sparse_of vec src (i + 1) (if eqb v zero then dest else dest ++ [Sparse i v]).
Proof.
  intros Hi Hv [Hin Hat]. destruct (eqb v zero) eqn:Hz.
  - apply eqb_zero in Hz. subst v. split.
    + intros k v Hk. specialize (Hin k v Hk). lia.
    + intros x. rewrite Hat. destruct (decide (x = i)) as [->|]; repeat case_test; try lia; try done.
      by rewrite Hv.
  - split.
    + intros k w. rewrite fmap_app, elem_of_app. intros [Hk|Hk]; [specialize (Hin k w Hk); lia|].
      apply list_elem_of_singleton in Hk. injection Hk as -> ->. lia.
    + intros x. rewrite fmap_app, at_pos_app, Hat. cbn [fmap list_fmap at_pos index sdata].
      destruct (Z.eqb_spec i x) as [<-|]; repeat case_test; try lia;
        rewrite ?add_zero_r, ?add_zero_l; try done. by rewrite Hv.
Qed.

Lemma MakeSparseArray_spec (vec : list T) src vsize : 0 <= src < vsize -> vsize <= zlen vec ->
  exists n dest, MakeSparseArray vec src vsize zero = Ret (n, dest) /\ 1 <= n <= vsize - src /\
    zlen dest * sizeof_SparseElement <= BD_DATA_PROCESS_SIZE /\ sparse_of vec src (src + n) dest.
Proof.
  intros Hs Hv. unfold MakeSparseArray, sizeof_SparseElement, BD_DATA_PROCESS_SIZE.
  edestruct (while_rule (S := Z * bool * list (SparseElement T)) (fun '(i, stop, dest) => src <= i <= vsize /\
      (stop = true -> src < i) /\ zlen dest <= i - src /\ zlen dest < 2048 /\ sparse_of vec src i dest)
    (fun '(i, stop, _) => if (stop : bool) then O else Z.to_nat (vsize - i)))
    as ([[i stop] dest] & -> & (Hi & Hst & Hl & Hd & Hsp) & Hend).
  4: { rewrite bind_ret. eexists _, _. split; [done|].
       assert (src < i) as Hlt.
       { destruct stop; [by apply Hst|]. cbn [negb andb] in Hend. lia. }
       split; [lia|]. split; [lia|]. by replace (src + (i - src)) with i by lia. }
  - intros [[i stop] dest] (Hi & Hst & Hl & Hd & Hsp) Hc.
    destruct stop; [done|]. cbn [negb andb] in Hc.
    destruct (Z.leb_spec (16 * 1024) (zlen dest * 8 + 8)).
    + eexists. split; [done|]. split; [|lia]. split; [lia|]. split; [lia|]. done.
    + destruct (zlook_is_Some vec i) as [v Hv']; [lia|]. rewrite (rd_ok _ _ _ Hv'), bind_ret.
      rewrite cut_small_zero. eexists. split; [done|]. split; [|lia]. split; [lia|]. split; [done|].
      split; [|split; [|apply sparse_of_snoc; [lia|done|done]]]; case_test; try lia;
        rewrite zlen_app; change (zlen [_]) with 1; lia.
  - split; [lia|]. split; [done|]. split; [unfold zlen; simpl; lia|]. split; [done|].
    split; [by intros k v ?%not_elem_of_nil|]. intros x. case_test; [lia|done].
  - simpl. lia.
Qed.

Lemma dense_carries (vec l : list T) idx n p :
  0 <= n -> zlen l = n -> (forall j, 0 <= j < n -> l.[j] = vec.[idx + j]) ->
  dp_body p = Dense l -> dp_param0 p = idx -> dp_size p = n * sizeof_word ->
  carries vec idx (idx + n) [p].
Proof.
  intros Hn Hl Hj Hb Hp Hs. split; [|split].
  - apply Forall_singleton. unfold size_ok. rewrite Hb, Hs. lia.
  - apply Forall_singleton. intros k v Hk. unfold positions in Hk. rewrite Hb, Hp in Hk.
    apply elem_of_zip_l, elem_of_seqZ in Hk. lia.
  - intros x. rewrite total_singleton. unfold positions. rewrite Hb, Hp, at_pos_dense.
    case_test.
    + rewrite Hj by lia. by replace (idx + (x - idx)) with x by lia.
    + by rewrite zlook_None by lia.
Qed.

Lemma sparse_carries (vec : list T) dest idx n p : sparse_of vec idx (idx + n) dest ->
  dp_body p = SparseList dest -> dp_size p = zlen dest * sizeof_SparseElement ->
  carries vec idx (idx + n) [p].
Proof.
  intros [Hin Hat] Hb Hs. split; [|split].
  - apply Forall_singleton. unfold size_ok. by rewrite Hb.
  - apply Forall_singleton. intros k v Hk. unfold positions in Hk. rewrite Hb in Hk. by apply (Hin k v).
  - intros x. rewrite total_singleton. unfold positions. by rewrite Hb.
Qed.

(** The next message of a part: at least one word of progress, no more bytes than a
    message may have, and the words it covers. *)
Lemma prepare_spec mode (src : list T) idx sz :
  0 <= idx < sz -> sz <= zlen src -> sz <= 2 ^ 27 ->
  exists n bytes body, AcAccumulatePrepareBuffer mode zero src idx sz = Ret (n, bytes, body) /\
    1 <= n <= sz - idx /\ 0 <= bytes <= BD_DATA_PROCESS_SIZE /\
    forall okey tid, carries src idx (idx + n) [data_pack okey bytes idx tid body].
Proof.
  intros Hi Hs H27.
  assert (exists n bytes body,
    (let send_idx_size := if sz <? u32 (idx + BD_DATA_PROCESS_SIZE / sizeof_word)
                          then u32 (sz - idx) else BD_DATA_PROCESS_SIZE / sizeof_word in
     dest ← rd_range src idx send_idx_size;
     Ret (send_idx_size, send_idx_size * sizeof_word, Dense dest)) = Ret (n, bytes, body) /\
    1 <= n <= sz - idx /\ 0 <= bytes <= BD_DATA_PROCESS_SIZE /\
    forall okey tid, carries src idx (idx + n) [data_pack okey bytes idx tid body]) as Hdense.
  { cbv zeta. change (BD_DATA_PROCESS_SIZE / sizeof_word) with 4096.
    change BD_DATA_PROCESS_SIZE with 16384. change sizeof_word with 4.
    rewrite !u32_small by ranges. set (n := if sz <? idx + 4096 then sz - idx else 4096).
    assert (1 <= n <= sz - idx /\ n <= 4096) as [Hn Hn'].
    { unfold n. destruct (Z.ltb_spec sz (idx + 4096)); lia. }
    destruct (rd_range_ok src idx n) as (l & -> & Hl & Hj); [lia..|]. rewrite bind_ret.
    eexists _, _, _. split; [done|]. split; [done|]. split; [lia|]. intros okey tid.
    by apply (dense_carries src l idx n); [lia|..]. }
  assert (exists n bytes body,
    ('(n, dest) ← MakeSparseArray src idx sz zero;
     Ret (n, zlen dest * sizeof_SparseElement, SparseList dest)) = Ret (n, bytes, body) /\
    1 <= n <= sz - idx /\ 0 <= bytes <= BD_DATA_PROCESS_SIZE /\
    forall okey tid, carries src idx (idx + n) [data_pack okey bytes idx tid body]) as Hsparse.
  { destruct (MakeSparseArray_spec src idx sz) as (n & dest & -> & Hn & Hb & Hsp); [lia|lia|].
    rewrite bind_ret. eexists _, _, _. split; [done|]. split; [done|].
    split; [pose proof (zlen_nonneg dest); unfold sizeof_SparseElement in *; lia|].
    intros okey tid. by apply (sparse_carries src dest idx n). }
  unfold AcAccumulatePrepareBuffer. destruct mode.
  - exact Hdense.
  - exact Hsparse.
  - destruct (IsProfitableToCompress_total (drop (Z.to_nat idx) src) (sz - idx) zero) as [b ->].
    { unfold zlen in *. rewrite length_drop. lia. }
    rewrite bind_ret, bind_ret. destruct b; [exact Hsparse|exact Hdense].
Qed.
End packing_lemmas.

(** * Adding up *)

Section adding.
Context {T : Type} `{ElementLaws T}.

(** The buffer after a message: each position has gained what the message carries. *)
Definition gained (out out' : list T) (cs : list (Z * T)) (out_index : Z) : Prop :=
  zlen out' = zlen out /\
  forall j y, out.[j] = Some y -> out'.[j] = Some (add y (at_pos cs (out_index + j))).

Lemma gained_nil out out_index : gained out out [] out_index.
Proof. split; [done|]. intros j y Hy. cbn [at_pos]. by rewrite add_zero_r. Qed.

Lemma gained_trans out1 out2 out3 cs1 cs2 out_index :
  gained out1 out2 cs1 out_index -> gained out2 out3 cs2 out_index ->
  gained out1 out3 (cs1 ++ cs2) out_index.
Proof.
  intros [Hl1 H1] [Hl2 H2]. split; [lia|]. intros j y Hy.
  by rewrite (H2 _ _ (H1 _ _ Hy)), at_pos_app, add_assoc.
Qed.

(** Adding one value. *)
Lemma add_one (out : list T) out_index k v y : out.[k - out_index] = Some y ->
  exists out', wr out (k - out_index) (add y v) = Ret out' /\ gained out out' [(k, v)] out_index.
Proof.
  intros Hy. pose proof (zlook_Some_range _ _ _ Hy) as Hr.
  destruct (wr_ok out (k - out_index) (add y v)) as (out' & -> & Hl & Hj); [done|].
  exists out'. split; [done|]. split; [done|]. intros j z Hz. rewrite Hj. cbn [at_pos].
  destruct (Z.eqb_spec j (k - out_index)) as [->|Hne].
  - rewrite (proj2 (Z.eqb_eq k _)) by lia. rewrite add_zero_r. congruence.
  - rewrite (proj2 (Z.eqb_neq k _)) by lia. by rewrite add_zero_r.
Qed.

Lemma DAdd_sparse (es : list (SparseElement T)) in_index out out_index :
  (forall k v, (k, v) ∈ ((fun e => (index e, sdata e)) <$> es) ->
     out_index <= k < out_index + zlen out) ->
  0 <= out_index -> out_index + zlen out < 2 ^ 32 ->
  exists out', DoAccumulateSparse DAddAccumulator es (zlen es) in_index out out_index (zlen out)
      = Ret out' /\ gained out out' ((fun e => (index e, sdata e)) <$> es) out_index.
Proof.
  intros Hk Ho Hlim. cbn [DAddAccumulator DoAccumulateSparse].
  destruct (for_range_rule (fun i out' =>
      gained out out' ((fun e => (index e, sdata e)) <$> take (Z.to_nat i) es) out_index) 0 (zlen es)
    (fun i out_data =>
      e ← rd es i;
      _ ← c_assert ((out_index <=? index e) && (index e <? u32 (out_index + zlen out)));
      y ← rd out_data (index e - out_index);
      wr out_data (index e - out_index) (add y (sdata e))) out) as (out' & -> & Hg).
  - apply zlen_nonneg.
  - intros i out1 Hi Hg. destruct (zlook_is_Some es i) as [e He]; [lia|].
    rewrite (rd_ok _ _ _ He), bind_ret. pose proof Hg as [Hl _].
    rewrite zlook_lookup in He by lia.
    destruct (Hk (index e) (sdata e)) as [Hk1 Hk2].
    { apply list_elem_of_fmap. exists e. split; [done|]. by eapply list_elem_of_lookup_2. }
    rewrite u32_small by (pose proof (zlen_nonneg out); ranges).
    rewrite c_assert_true, bind_ret by lia.
    destruct (zlook_is_Some out1 (index e - out_index)) as [y Hy]; [lia|].
    rewrite (rd_ok _ _ _ Hy), bind_ret.
    destruct (add_one out1 out_index (index e) (sdata e) y Hy) as (out2 & -> & Hg2).
    eexists. split; [done|]. replace (Z.to_nat (i + 1)) with (S (Z.to_nat i)) by lia.
    rewrite (take_S_r _ _ e He), fmap_app. by eapply gained_trans.
  - apply gained_nil.
  - exists out'. split; [done|]. rewrite take_ge in Hg by (unfold zlen; lia). done.
Qed.

Lemma zip_seqZ_snoc (l : list T) a i x : zlen l = i ->
  zip (seqZ a (i + 1)) (l ++ [x]) = zip (seqZ a i) l ++ [(a + i, x)].
Proof.
  intros Hl. pose proof (zlen_nonneg l). rewrite (seqZ_app a i 1) by lia.
  change (seqZ (a + i) 1) with [a + i]. change [(a + i, x)] with (zip [a + i] [x]).
  apply zip_with_app.
  rewrite length_seqZ. unfold zlen in Hl. lia.
Qed.

Lemma DAdd_dense (l : list T) in_index out out_index :
  out_index <= in_index -> in_index + zlen l <= out_index + zlen out ->
  0 <= out_index -> out_index + zlen out < 2 ^ 31 ->
  exists out', DoAccumulateDense DAddAccumulator l (zlen l) in_index out out_index (zlen out)
      = Ret out' /\ gained out out' (zip (seqZ in_index (zlen l)) l) out_index.
Proof.
  intros H1 H2 H3 H4. cbn [DAddAccumulator DoAccumulateDense].
  pose proof (zlen_nonneg l). pose proof (zlen_nonneg out).
  rewrite (u32_small (in_index - out_index)), s32_small by ranges.
  rewrite u32_small by ranges. rewrite c_assert_true, bind_ret by lia.
  destruct (for_range_rule (fun i out' =>
      gained out out' (zip (seqZ in_index i) (take (Z.to_nat i) l)) out_index) 0 (zlen l)
    (fun i out_data =>
      x ← rd l i; y ← rd out_data (in_index - out_index + i);
      wr out_data (in_index - out_index + i) (add y x)) out) as (out' & -> & Hg).
  - done.
  - intros i out1 Hi Hg. destruct (zlook_is_Some l i) as [x Hx]; [lia|].
    rewrite (rd_ok _ _ _ Hx), bind_ret. pose proof Hg as [Hl _].
    replace (in_index - out_index + i) with (in_index + i - out_index) by lia.
    destruct (zlook_is_Some out1 (in_index + i - out_index)) as [y Hy]; [lia|].
    rewrite (rd_ok _ _ _ Hy), bind_ret.
    destruct (add_one out1 out_index (in_index + i) x y Hy) as (out2 & -> & Hg2).
    eexists. split; [done|]. rewrite zlook_lookup in Hx by lia.
    replace (Z.to_nat (i + 1)) with (S (Z.to_nat i)) by lia. rewrite (take_S_r _ _ x Hx).
    rewrite zip_seqZ_snoc by (unfold zlen in *; rewrite ?length_take; lia).
    by eapply gained_trans.
  - apply gained_nil.
  - exists out'. split; [done|]. rewrite take_ge in Hg by (unfold zlen; lia). done.
Qed.
End adding.

(** * An owner *)

Lemma elem_zip_seqZ {A} (l : list A) a k v : l.[k] = Some v -> (a + k, v) ∈ zip (seqZ a (zlen l)) l.
Proof.
  intros Hk. pose proof (zlook_Some_range _ _ _ Hk). rewrite zlook_lookup in Hk by lia.
  apply (list_elem_of_lookup_2 _ (Z.to_nat k)). apply lookup_zip_with_Some.
  exists (a + k), v. split; [done|]. split; [|done]. rewrite lookup_seqZ. lia.
Qed.

Section owner.
Context {T : Type} `{ElementLaws T}.
Context (cache_get : Z -> Z -> outcome Z) (accu : Z -> accumulator T).
Context (num_nodes self : Z).

(** The last message of a user names the thread that waits. *)
Definition thread_of (p : RcDataPack T) : Z := s32 (u32 (dp_param12 p)).
Definition terminals (ms : list (Z * RcDataPack T)) : Z :=
  zlen (filter (fun x => thread_of (snd x) <> 0) ms).

(** Messages of [AcAccumulateMsg] as they come from node [fst x]. *)
Definition accumulate_msg (aid : Z) (m : ac_manager T) (x : Z * RcDataPack T) :=
  let p := snd x in
  AcAccumulateMsg cache_get accu num_nodes self m (fst x) aid (thread_of p)
    (dp_param0 p) (dp_size p) (dp_body p).

Lemma accumulate_body_spec aid (node : DataSyncNode T) (p : RcDataPack T) :
  accu aid = DAddAccumulator -> zlen (buf node) = size node -> 0 <= base node ->
  base node + size node < 2 ^ 31 -> size_ok p -> within (base node) (base node + size node) p ->
  exists b, accumulate_body accu aid node (dp_param0 p) (dp_size p) (dp_body p) = Ret b /\
    gained (buf node) b (positions p) (base node).
Proof.
  intros Ha Hbuf Hbase Hlim Hsz Hw. unfold size_ok, within, positions in *. unfold accumulate_body.
  rewrite Ha. destruct (dp_body p) as [l|es]; rewrite Hsz.
  - pose proof (zlen_nonneg l). unfold sizeof_word. destruct (Z.eqb_spec (zlen l * 4) 0) as [Hz0|Hz0].
    + assert (zlen l = 0) as -> by lia. eexists. split; [done|]. destruct l; [apply gained_nil|done].
    + cbn [negb]. unfold BaseDoAccumulateDense, sizeof_word. rewrite Z.div_mul by lia.
      destruct (zlook_is_Some l 0) as [v0 Hv0]; [lia|].
      destruct (zlook_is_Some l (zlen l - 1)) as [v1 Hv1]; [lia|].
      apply (elem_zip_seqZ l (dp_param0 p)), Hw in Hv0.
      apply (elem_zip_seqZ l (dp_param0 p)), Hw in Hv1.
      rewrite <-Hbuf in *. apply DAdd_dense; lia.
  - pose proof (zlen_nonneg es). unfold sizeof_SparseElement.
    destruct (Z.eqb_spec (zlen es * 8) 0) as [Hz0|Hz0].
    + assert (zlen es = 0) as Hz by lia. eexists. split; [done|]. destruct es; [apply gained_nil|].
      unfold zlen in Hz. simpl in Hz. lia.
    + cbn [negb]. unfold BaseDoAccumulateSparse, sizeof_SparseElement. rewrite Z.div_mul by lia.
      rewrite <-Hbuf in *. apply DAdd_sparse; [done|lia|lia].
Qed.

(** The node of an accumulation of [k] users of [sz] words into array [arr], after
    the messages [pre] of it, when [d] nodes have reported that they are done. *)
Definition owner_node (k sz arr d : Z) (pre : list (Z * RcDataPack T)) (node : DataSyncNode T) : Prop :=
  done_node_cnt node = d /\ dn_val node = terminals pre /\ count node = k /\
  base node = part_start sz num_nodes self /\
  size node = Z.max 0 (part_end sz num_nodes self - part_start sz num_nodes self) /\
  outarray node = arr /\ zlen (buf node) = size node /\
  forall j, 0 <= j < size node -> (buf node).[j] = Some (total (snd <$> pre) (base node + j)).

Lemma init_owner aid k sz arr : part_ok sz num_nodes self -> 0 <= k < 2 ^ 31 ->
  cache_get aid 4 = Ret k -> cache_get aid 2 = Ret sz -> cache_get aid 0 = Ret arr ->
  exists node : DataSyncNode T, init_data_node cache_get num_nodes self aid = Ret node /\
    owner_node k sz arr 0 [] node /\ waitlist node = [].
Proof.
  intros Hp Hk Hc4 Hc2 Hc0. unfold init_data_node. rewrite Hc4, Hc2, Hc0, !bind_ret.
  pose proof Hp as (Hsz & _). rewrite (proj2 (Z.leb_le _ _)) by lia. eexists. split; [done|].
  split; [|done]. unfold owner_node. cbn [done_node_cnt dn_val count base size outarray buf].
  rewrite node_base_eq, node_size_eq, s32_small by (done || lia).
  do 3 (split; [done|]). split; [done|]. split; [done|]. split; [done|].
  split; [apply zlen_replicate; lia|]. intros j Hj. by rewrite zlook_replicate by lia.
Qed.

Lemma terminals_snoc pre x :
  terminals (pre ++ [x]) = terminals pre + if thread_of (snd x) =? 0 then 0 else 1.
Proof.
  unfold terminals. rewrite filter_app, zlen_app. f_equal. unfold filter. cbn [list_filter].
  destruct (Z.eqb_spec (thread_of (snd x)) 0); case_decide; done || lia.
Qed.

(** A message added to the buffer, before its end-of-user mark is looked at. *)
Lemma owner_gains k sz arr d pre node x b : owner_node k sz arr d pre node ->
  gained (buf node) b (positions (snd x)) (base node) ->
  zlen b = size node /\
  forall j, 0 <= j < size node -> b.[j] = Some (total (snd <$> pre ++ [x]) (base node + j)).
Proof.
  intros (_ & _ & _ & _ & _ & _ & Hl & Hj) [Hb Hg]. split; [lia|]. intros j Hr.
  rewrite (Hg j _ (Hj j Hr)), fmap_app, total_app. cbn [fmap list_fmap]. by rewrite total_singleton.
Qed.

Lemma terminals_range ms : 0 <= terminals ms <= zlen ms.
Proof.
  unfold terminals, zlen. pose proof (length_filter (fun x => thread_of (snd x) <> 0) ms). lia.
Qed.
End owner.

Section owner_runs.
Context {T : Type} `{ElementLaws T}.
Context (cache_get : Z -> Z -> outcome Z) (accu : Z -> accumulator T).
Context (num_nodes self : Z) (aid k sz arr : Z).
Context (Haccu : accu aid = DAddAccumulator) (Hpart : part_ok sz num_nodes self).
Context (Hk : 1 <= k < 2 ^ 31).

Let lo : Z := part_start sz num_nodes self.
Let len : Z := Z.max 0 (part_end sz num_nodes self - part_start sz num_nodes self).

Lemma part_lo_len : 0 <= lo /\ 0 <= len /\ lo + len < 2 ^ 31.
Proof.
  destruct (part_bounds _ _ _ Hpart) as (? & ? & ? & ?). unfold lo, len.
  rewrite part_end_eq, part_start_eq by done. lia.
Qed.

Lemma owner_body d pre (node : DataSyncNode T) x :
  owner_node num_nodes self k sz arr d pre node -> size_ok (snd x) -> within lo (lo + len) (snd x) ->
  exists b, accumulate_body accu aid node (dp_param0 (snd x)) (dp_size (snd x)) (dp_body (snd x))
      = Ret b /\ zlen b = size node /\
    forall j, 0 <= j < size node -> b.[j] = Some (total (snd <$> pre ++ [x]) (base node + j)).
Proof.
  intros Hn Hs Hw. pose proof Hn as (_ & _ & _ & Hb & Hsz & _ & Hl & _).
  destruct part_lo_len as (? & ? & ?).
  destruct (accumulate_body_spec accu aid node (snd x)) as (b & Hbody & Hg);
    [done|done|rewrite Hb; fold lo; lia|rewrite Hb, Hsz; fold lo len; lia|done
    |rewrite Hb, Hsz; fold lo len; done|].
  exists b. split; [done|]. by eapply owner_gains.
Qed.

Definition waiter (x : Z * RcDataPack T) : list SyncThreadNode :=
  if (self =? 0) && negb (thread_of (snd x) =? 0) then [Thread (fst x) (thread_of (snd x))] else [].

(** A message before the last one: nothing leaves the node. *)
Lemma owner_step m d pre node x :
  FindOrCreateDataSyncNode cache_get num_nodes self m aid = Ret node ->
  owner_node num_nodes self k sz arr d pre node -> size_ok (snd x) -> within lo (lo + len) (snd x) ->
  terminals (pre ++ [x]) < k ->
  exists m' node', accumulate_msg cache_get accu num_nodes self aid m x = Ret (m', []) /\
    FindOrCreateDataSyncNode cache_get num_nodes self m' aid = Ret node' /\
    owner_node num_nodes self k sz arr d (pre ++ [x]) node' /\
    waitlist node' = waitlist node ++ waiter x.
Proof.
  intros Hf Hn Hs Hw Ht. destruct (owner_body d pre node x Hn Hs Hw) as (b & Hbody & Hbl & Hbj).
  pose proof Hn as (Hd & Hv & Hc & Hb & Hsz & Ho & Hl & _).
  pose proof (terminals_range pre). rewrite terminals_snoc in Ht.
  unfold accumulate_msg, AcAccumulateMsg. rewrite Hf, bind_ret, Hbody, bind_ret.
  unfold waiter. destruct (Z.eqb_spec (thread_of (snd x)) 0) as [Hz|Hz]; cbn [negb].
  - rewrite andb_false_r, app_nil_r. eexists _, _. split; [done|].
    unfold FindOrCreateDataSyncNode. rewrite lookup_insert_eq. split; [done|]. split; [|done].
    repeat split; cbn; try done. rewrite terminals_snoc, Hz. cbn. lia.
  - unfold c_int. cbn [set_buf dn_val]. rewrite Hv.
    assert ((- 2 ^ 31 <=? terminals pre + 1) && (terminals pre + 1 <? 2 ^ 31) = true) as -> by lia.
    rewrite bind_ret. cbn [set_wait set_buf count]. rewrite Hc.
    rewrite (proj2 (Z.leb_gt _ _)) by lia. eexists _, _. split; [done|].
    unfold FindOrCreateDataSyncNode. rewrite lookup_insert_eq. split; [done|]. split.
    + repeat split; cbn; try done. rewrite terminals_snoc.
      destruct (Z.eqb_spec (thread_of (snd x)) 0); [done|lia].
    + cbn. rewrite andb_true_r. destruct (self =? 0); [done|by rewrite app_nil_r].
Qed.

(** A node reports that it is done when [d] reports were counted before: what it does,
    the count and the waiting threads then. *)
Definition finish (d : Z) (wakes : list SyncThreadNode) : list (ac_effect T) :=
  if self =? 0 then (if num_nodes <=? d + 1 then EWake <$> wakes else [])
  else [ESend 0 {| dp_cmd := AcDataAccumulatePartialDone; dp_size := 0; dp_id := aid;
                   dp_param0 := 0; dp_param12 := 0; dp_body := Dense [] |}].
Definition finish_cnt (d : Z) : Z := if self =? 0 then (if num_nodes <=? d + 1 then 0 else d + 1) else d.
Definition finish_wait (d : Z) (w : list SyncThreadNode) : list SyncThreadNode :=
  if (self =? 0) && (num_nodes <=? d + 1) then [] else w.

(** Counting a report. *)
Lemma PartialDoneMsg_spec m d pre node : FindOrCreateDataSyncNode cache_get num_nodes self m aid = Ret node ->
  0 <= d < 2 ^ 31 - 1 -> owner_node num_nodes self k sz arr d pre node ->
  exists node', AcAccumulatePartialDoneMsg cache_get num_nodes self m aid =
      Ret (<[aid := node']> m, if num_nodes <=? d + 1 then EWake <$> waitlist node else []) /\
    owner_node num_nodes self k sz arr (if num_nodes <=? d + 1 then 0 else d + 1) pre node' /\
    waitlist node' = if num_nodes <=? d + 1 then [] else waitlist node.
Proof.
  intros Hf Hd Hn. pose proof Hn as (Hd1 & Hrest). unfold AcAccumulatePartialDoneMsg. rewrite Hf, bind_ret, Hd1.
  unfold c_int. rewrite (proj2 (andb_true_iff (- 2 ^ 31 <=? d + 1) _)) by lia. rewrite bind_ret.
  destruct (Z.leb_spec num_nodes (d + 1)); eexists; (split; [done|]); (split; [|done]); (split; [done|]); exact Hrest.
Qed.

Lemma partial_done_spec m d pre node : m !! aid = Some node -> 0 <= d < 2 ^ 31 - 1 ->
  owner_node num_nodes self k sz arr d pre node ->
  exists m' node', partial_done cache_get num_nodes self m aid = Ret (m', finish d (waitlist node)) /\
    m' !! aid = Some node' /\ owner_node num_nodes self k sz arr (finish_cnt d) pre node' /\
    waitlist node' = finish_wait d (waitlist node).
Proof.
  intros Hm Hd Hn. unfold partial_done, finish, finish_cnt, finish_wait.
  destruct (Z.eqb_spec self 0) as [H0'|H0']; cbn [andb]; [|by eauto 10].
  destruct (PartialDoneMsg_spec m d pre node) as (node' & -> & H1 & H2); [|done..|].
  - unfold FindOrCreateDataSyncNode. by rewrite Hm.
  - eexists _, node'. split; [done|]. by rewrite lookup_insert_eq.
Qed.

Lemma owner_finish m d pre node x :
  FindOrCreateDataSyncNode cache_get num_nodes self m aid = Ret node -> 0 <= d < 2 ^ 31 - 1 ->
  owner_node num_nodes self k sz arr d pre node -> size_ok (snd x) -> within lo (lo + len) (snd x) ->
  thread_of (snd x) <> 0 -> terminals (pre ++ [x]) = k ->
  exists m' node' out, accumulate_msg cache_get accu num_nodes self aid m x
      = Ret (m', (if len =? 0 then [] else [EPutChunk arr lo len out])
                 ++ finish d (waitlist node ++ waiter x)) /\
    zlen out = len /\
    (forall j, 0 <= j < len -> out.[j] = Some (total (snd <$> pre ++ [x]) (lo + j))) /\
    m' !! aid = Some node' /\ owner_node num_nodes self k sz arr (finish_cnt d) [] node' /\
    waitlist node' = finish_wait d (waitlist node ++ waiter x).
Proof.
  intros Hf Hdr Hn Hs Hw Hz Ht. destruct (owner_body d pre node x Hn Hs Hw) as (b & Hbody & Hbl & Hbj).
  pose proof Hn as (Hd & Hv & Hc & Hb & Hsz & Ho & Hl & _). fold lo in Hb. fold len in Hsz.
  rewrite Hb, Hsz in *. pose proof (terminals_range pre). rewrite terminals_snoc in Ht.
  unfold accumulate_msg, AcAccumulateMsg. rewrite Hf, bind_ret, Hbody, bind_ret.
  destruct (Z.eqb_spec (thread_of (snd x)) 0) as [?|_]; [done|]. cbn [negb].
  unfold c_int. cbn [set_buf dn_val]. rewrite Hv.
  assert ((- 2 ^ 31 <=? terminals pre + 1) && (terminals pre + 1 <? 2 ^ 31) = true) as -> by lia.
  rewrite bind_ret. set (w := if self =? 0 then _ else _). set (node1 := set_wait _ _ w).
  assert (w = waitlist node ++ waiter x) as Hwt.
  { unfold w, waiter. rewrite (proj2 (Z.eqb_neq _ _) Hz). destruct (self =? 0); [done|]. by rewrite app_nil_r. }
  assert (size node1 = len /\ base node1 = lo /\ outarray node1 = arr /\ buf node1 = b /\ waitlist node1 = w)
    as (-> & -> & -> & -> & Hw1) by (repeat split; [exact Hsz|exact Hb|exact Ho]).
  assert (count node1 = k) as Hc1 by exact Hc. rewrite Hc1.
  rewrite (proj2 (Z.leb_le _ _)) by lia.
  assert (forall b', zlen b' = len -> (forall j, 0 <= j < len -> b'.[j] = Some zero) ->
    owner_node num_nodes self k sz arr d [] (set_buf node1 0 b')) as Hreset.
  { intros b' Hb1 Hb2. split; [exact Hd|]. split; [done|]. split; [exact Hc|]. split; [exact Hb|].
    split; [exact Hsz|]. split; [exact Ho|]. cbn. rewrite Hsz. split; [exact Hb1|]. intros j Hj. by apply Hb2. }
  assert (forall b', owner_node num_nodes self k sz arr d [] (set_buf node1 0 b') -> exists m' node',
    partial_done cache_get num_nodes self (<[aid := set_buf node1 0 b']> m) aid = Ret (m', finish d (waitlist node ++ waiter x)) /\
    m' !! aid = Some node' /\ owner_node num_nodes self k sz arr (finish_cnt d) [] node' /\
    waitlist node' = finish_wait d (waitlist node ++ waiter x)) as Hpd.
  { intros b' Hb'. rewrite <-Hwt, <-Hw1. apply (partial_done_spec _ d [] (set_buf node1 0 b')); [|done|done].
    apply lookup_insert_eq. }
  destruct (Z.eqb_spec len 0) as [Hl0|Hl0]; cbn [negb].
  - destruct (Hpd b) as (m' & node' & -> & Hrest); [apply Hreset; [done|lia]|]. rewrite bind_ret.
    exists m', node', b. split; [done|]. done.
  - destruct (Hpd (replicate (Z.to_nat len) zero)) as (m' & node' & -> & Hrest).
    { apply Hreset; [apply zlen_replicate; lia|]. intros j Hj. by apply zlook_replicate. }
    rewrite bind_ret. exists m', node', b. split; [done|]. done.
Qed.
End owner_runs.

(** * Sums over the nodes *)

Definition zsum (f : Z -> Z) (l : list Z) : Z := foldr (fun i acc => f i + acc) 0 l.

Lemma zsum_ext f g l : (forall i, i ∈ l -> f i = g i) -> zsum f l = zsum g l.
Proof.
  induction l as [|i l IH]; intros Hfg; [done|]. cbn [zsum foldr]. rewrite (Hfg i) by left.
  f_equal. apply IH. intros j Hj. apply Hfg. by right.
Qed.

Lemma zsum_update f g l i : NoDup l -> i ∈ l -> (forall j, j ∈ l -> j <> i -> f j = g j) ->
  zsum g l = zsum f l + (g i - f i).
Proof.
  induction l as [|j l IH]; intros Hnd Hi Hfg; [by apply not_elem_of_nil in Hi|].
  apply NoDup_cons in Hnd as [Hj Hnd]. cbn [zsum foldr].
  destruct (decide (j = i)) as [->|Hne].
  - fold (zsum g l). fold (zsum f l). rewrite (zsum_ext g f l); [lia|].
    intros j Hj'. symmetry. apply Hfg; [by right|]. by intros ->.
  - apply elem_of_cons in Hi as [?|Hi]; [done|]. fold (zsum g l) (zsum f l).
    rewrite (IH Hnd Hi) by (intros k Hk Hki; apply Hfg; [by right|done]).
    rewrite (Hfg j); [lia|by left|done].
Qed.

Lemma zsum_full f l : (forall i, i ∈ l -> f i <= 1) -> zlen l <= zsum f l ->
  forall i, i ∈ l -> f i = 1.
Proof.
  induction l as [|j l IH]; intros Hf Hs i Hi; [by apply not_elem_of_nil in Hi|].
  change (zlen (j :: l)) with (zlen ([j] ++ l)) in Hs. rewrite zlen_app in Hs.
  change (zlen [j]) with 1 in Hs. cbn [zsum foldr] in Hs. fold (zsum f l) in Hs.
  assert (zsum f l <= zlen l) as Hub.
  { clear IH Hs Hi. assert (forall i, i ∈ l -> f i <= 1) as Hf' by (intros; apply Hf; by right).
    clear Hf. induction l as [|k l IHl]; [done|]. cbn [zsum foldr]. fold (zsum f l).
    change (zlen (k :: l)) with (zlen ([k] ++ l)). rewrite zlen_app. change (zlen [k]) with 1.
    pose proof (Hf' k ltac:(left)). assert (zsum f l <= zlen l); [|lia].
    apply IHl. intros; apply Hf'. by right. }
  pose proof (Hf j ltac:(left)). apply elem_of_cons in Hi as [->|Hi]; [lia|].
  apply IH; [intros; apply Hf; by right|lia|done].
Qed.

Lemma zsum_cons f x l : zsum f (x :: l) = f x + zsum f l.
Proof. done. Qed.

Lemma zsum_ones l : zsum (fun _ => 1) l = zlen l.
Proof.
  induction l as [|x l IH]; [done|]. cbn [zsum foldr]. fold (zsum (fun _ => 1) l).
  change (zlen (x :: l)) with (zlen ([x] ++ l)). by rewrite zlen_app, IH.
Qed.

Lemma zsum_snoc f l x : zsum f (l ++ [x]) = zsum f l + f x.
Proof.
  induction l as [|y l IH]; cbn [zsum foldr app]; [lia|]. fold (zsum f (l ++ [x])) (zsum f l).
  rewrite IH. lia.
Qed.

(** * A user *)

Section sender.
Context {T : Type} `{ElementLaws T}.
Context (num_nodes self sz okey tid : Z) (in_buf : list T).
Context (func : Z -> Z -> outcome (Z * Z * payload T)).
Context (Hpart : part_ok sz num_nodes self) (Hbuf : sz <= zlen in_buf).
(** What [func] promises: the next message of a part (see [prepare_spec]). *)
Context (Hfunc : forall i s, 0 <= s < i -> i <= sz ->
  exists n bytes body, func s i = Ret (n, bytes, body) /\ 1 <= n <= i - s /\ bytes <= BD_DATA_PROCESS_SIZE /\
    forall t, carries in_buf s (s + n) [data_pack okey bytes s t body]).

(** A message that another node's listener takes for the accumulator [okey]. *)
Definition for_listener (p : RcDataPack T) : Prop :=
  dp_cmd p = AcDataAccumulate /\ dp_id p = okey /\ dp_size p <= BD_DATA_PROCESS_SIZE.

Definition msgs_to (i : Z) (l : list (Z * RcDataPack T)) : list (RcDataPack T) :=
  omap (fun x => if fst x =? i then Some (snd x) else None) l.

Lemma msgs_to_snoc i l d p :
  msgs_to i (l ++ [(d, p)]) = msgs_to i l ++ (if d =? i then [p] else []).
Proof. unfold msgs_to. rewrite omap_app. cbn. by destruct (d =? i). Qed.

Let start i := part_start sz num_nodes i.
Let stop i := part_end sz num_nodes i.

(** The messages for node [i] when its part has been sent up to [si]: they carry what
    was sent, and only the one that ends the part names the thread. *)
Definition sent_upto (i si : Z) (ms : list (RcDataPack T)) : Prop :=
  carries in_buf (start i) si ms /\
  exists k, dp_param12 <$> ms
            = replicate k 0 ++ (if stop i <=? si then [tid] else []).

Definition finished (st : send_state (T := T)) (i : Z) : Z :=
  match (send_idx st).[i], (send_size st).[i] with
  | Some si, Some ss => if ss <=? si then 1 else 0
  | _, _ => 0
  end.

Record sending (st : send_state (T := T)) : Prop := {
  s_len : zlen (send_idx st) = num_nodes;
  s_size : forall i, 0 <= i < num_nodes -> (send_size st).[i] = Some (stop i);
  s_other : forall i, 0 <= i < num_nodes -> i <> self -> exists si,
    (send_idx st).[i] = Some si /\ start i <= si <= Z.max (start i) (stop i) /\
    sent_upto i si (msgs_to i (sent st));
  s_self : exists si, (send_idx st).[self] = Some si /\ stop self <= si;
  s_done : done st = zsum (finished st) (seqZ 0 num_nodes)
                     + if stop self <=? start self then 1 else 0;
  s_none : forall d p, (d, p) ∈ sent st -> d <> self /\ 0 <= d < num_nodes /\ for_listener p;
}.

Lemma part_range i : 0 <= i < num_nodes -> 0 <= start i /\ start i < 2 ^ 30 /\ stop i <= sz.
Proof.
  intros Hi. destruct Hpart as (Hs & Hn & _). assert (part_ok sz num_nodes i) as Hp by done.
  destruct (part_bounds _ _ _ Hp) as (? & ? & ? & ?). unfold start, stop.
  rewrite part_start_eq, part_end_eq by done. lia.
Qed.

Lemma sending_idx st i : sending st -> 0 <= i < num_nodes ->
  exists si, (send_idx st).[i] = Some si.
Proof. intros Hs Hi. apply zlook_is_Some. rewrite (s_len _ Hs). lia. Qed.

Lemma send_turn_sends i st si n bytes body idx :
  sending st -> 0 <= i < num_nodes -> i <> self -> (send_idx st).[i] = Some si -> si < stop i ->
  1 <= n <= stop i - si -> bytes <= BD_DATA_PROCESS_SIZE ->
  (forall t, carries in_buf si (si + n) [data_pack okey bytes si t body]) ->
  zlen idx = zlen (send_idx st) ->
  (forall j, idx.[j] = if j =? i then Some (si + n) else (send_idx st).[j]) ->
  sending {| send_idx := idx; send_size := send_size st;
             done := if si + n =? stop i then done st + 1 else done st;
             sent := sent st ++ [(i, data_pack okey bytes si
                                       (if si + n =? stop i then tid else 0) body)] |}.
Proof.
  intros Hs Hi Hne Hsi Hlt Hn Hby Hc Hl Hidx.
  destruct (s_other _ Hs i Hi Hne) as (si' & Hsi' & Hr & Hcar & k & Hk).
  assert (si' = si) as -> by congruence.
  constructor; cbn [send_idx send_size done sent].
  - rewrite Hl. apply (s_len _ Hs).
  - apply (s_size _ Hs).
  - intros j Hj Hjne. rewrite Hidx, msgs_to_snoc. destruct (Z.eqb_spec j i) as [->|Hji].
    + rewrite Z.eqb_refl. exists (si + n). split; [done|]. split; [lia|]. split.
      * apply (carries_snoc in_buf _ si); [lia|done|apply Hc].
      * rewrite (proj2 (Z.leb_gt _ _)) in Hk by lia. rewrite app_nil_r in Hk.
        rewrite fmap_app, Hk. cbn [fmap list_fmap dp_param12 data_pack].
        destruct (Z.eqb_spec (si + n) (stop i)), (Z.leb_spec (stop i) (si + n)); try lia.
        -- by exists k.
        -- exists (S k). rewrite app_nil_r. by rewrite <-replicate_cons_app.
    + destruct (Z.eqb_spec i j); [lia|]. rewrite app_nil_r. by apply (s_other _ Hs).
  - destruct (s_self _ Hs) as (ss & Hss & Hge). exists ss. rewrite Hidx.
    destruct (Z.eqb_spec self i); [done|]. done.
  - rewrite (zsum_update (finished st) _ (seqZ 0 num_nodes) i).
    + unfold finished at 2 3. cbn [send_idx send_size].
      rewrite Hidx, Z.eqb_refl, (s_size _ Hs i Hi), Hsi.
      rewrite (proj2 (Z.leb_gt (stop i) si)) by lia. pose proof (s_done _ Hs).
      destruct (Z.eqb_spec (si + n) (stop i)), (Z.leb_spec (stop i) (si + n)); lia.
    + apply NoDup_seqZ.
    + apply elem_of_seqZ. lia.
    + intros j _ Hji. unfold finished. cbn [send_idx send_size]. rewrite Hidx.
      by rewrite (proj2 (Z.eqb_neq j i)).
  - intros d p. rewrite elem_of_app. intros [Hd|Hd]; [by apply (s_none _ Hs d p)|].
    apply list_elem_of_singleton in Hd. by injection Hd as -> ->.
Qed.

Lemma send_turn_spec ready i st : sending st -> 0 <= i < num_nodes ->
  exists st', send_turn self func okey tid ready i st = Ret st' /\ sending st' /\
    (forall j, j <> i -> (send_idx st').[j] = (send_idx st).[j]) /\
    (forall si, i <> self -> (send_idx st).[i] = Some si -> si < stop i -> ready i = true ->
       exists si', (send_idx st').[i] = Some si' /\ si < si') /\
    (forall si, (send_idx st).[i] = Some si -> exists si', (send_idx st').[i] = Some si' /\ si <= si').
Proof.
  intros Hs Hi. destruct (sending_idx st i Hs Hi) as [si Hsi]. unfold send_turn.
  rewrite (rd_ok _ _ _ Hsi), bind_ret, (rd_ok _ _ _ (s_size _ Hs i Hi)), bind_ret.
  destruct ((si <? stop i) && negb (i =? self) && ready i) eqn:Hc.
  - apply andb_true_iff in Hc as [[Hlt Hne]%andb_true_iff Hr].
    assert (i <> self) as Hne' by (destruct (Z.eqb_spec i self); done).
    destruct (part_range i Hi) as (? & ? & ?).
    destruct (s_other _ Hs i Hi Hne') as (si' & Hsi' & Hsr & _).
    assert (si' = si) as -> by congruence.
    destruct (Hfunc (stop i) si) as (n & bytes & body & -> & Hn & Hby & Hcar); [lia|done|].
    rewrite bind_ret. pose proof Hpart as (? & _ & _).
    rewrite u32_small by ranges.
    destruct (wr_ok (send_idx st) i (si + n)) as (idx & -> & Hl & Hidx);
      [by eapply zlook_Some_range|]. rewrite bind_ret.
    eexists. split; [done|]. split; [by eapply send_turn_sends; try done; lia|].
    cbn [send_idx]. split; [|split].
    + intros j Hj. rewrite Hidx. by rewrite (proj2 (Z.eqb_neq j i)).
    + intros s _ Hs' _ _. rewrite Hidx, Z.eqb_refl. exists (si + n). split; [done|].
      assert (s = si) as -> by congruence. lia.
    + intros s Hs'. rewrite Hidx, Z.eqb_refl. exists (si + n). split; [done|].
      assert (s = si) as -> by congruence. lia.
  - exists st. split; [done|]. split; [done|]. split; [done|]. split; [|intros s Hs'; exists s; split; [done|lia]].
    intros s Hne Hs' Hlt Hr. exfalso. assert (s = si) as -> by congruence.
    rewrite Hr, (proj2 (Z.ltb_lt _ _) Hlt), (proj2 (Z.eqb_neq _ _) Hne) in Hc. done.
Qed.

Lemma send_pass_spec ready st : sending st ->
  exists st', send_pass num_nodes self func okey tid ready st = Ret st' /\ sending st' /\
    forall i si, 0 <= i < num_nodes -> i <> self -> (send_idx st).[i] = Some si ->
      exists si', (send_idx st').[i] = Some si' /\ si <= si' /\
        (si < stop i -> ready i = true -> si < si').
Proof.
  intros Hs. pose proof Hpart as (_ & Hn & _).
  destruct (for_range_rule (fun k s => sending s /\
      (forall i, k <= i -> (send_idx s).[i] = (send_idx st).[i]) /\
      forall i si, 0 <= i < k -> i <> self -> (send_idx st).[i] = Some si ->
        exists si', (send_idx s).[i] = Some si' /\ si <= si' /\
          (si < stop i -> ready i = true -> si < si')) 0 num_nodes
      (send_turn self func okey tid ready) st)
    as (st' & Hr & Hs' & _ & Hp); [lia| | |].
  - intros k s Hk (H1 & H2 & H3).
    destruct (send_turn_spec ready k s H1 Hk) as (s' & -> & H1' & Hsame & Hprog & Hmono).
    exists s'. split; [done|]. split; [done|]. split.
    + intros i Hi. rewrite Hsame by lia. apply H2. lia.
    + intros i si Hi Hne Hsi. destruct (decide (i = k)) as [->|Hik].
      * rewrite <-H2 in Hsi by lia. destruct (Hmono si Hsi) as (si' & Hsi' & Hle).
        exists si'. split; [done|]. split; [done|]. intros Hlt Hrd.
        destruct (Hprog si Hne Hsi Hlt Hrd) as (si2 & Hsi2 & Hlt2). congruence.
      * rewrite Hsame by done. apply H3; [lia|done|done].
  - split; [done|]. split; [done|]. intros i si Hi. lia.
  - exists st'. split; [exact Hr|]. done.
Qed.

Lemma finished_le st i : finished st i <= 1.
Proof. unfold finished. repeat case_match; lia. Qed.

Lemma all_finished st : sending st -> num_nodes + (if stop self <=? start self then 1 else 0) <= done st ->
  forall i si, 0 <= i < num_nodes -> (send_idx st).[i] = Some si -> stop i <= si.
Proof.
  intros Hs Hd i si Hi Hsi. rewrite (s_done _ Hs) in Hd.
  assert (finished st i = 1) as Hf.
  { apply (zsum_full (finished st) (seqZ 0 num_nodes)).
    - intros j _. apply finished_le.
    - unfold zlen. rewrite length_seqZ. lia.
    - apply elem_of_seqZ. lia. }
  unfold finished in Hf. rewrite Hsi, (s_size _ Hs i Hi) in Hf.
  destruct (Z.leb_spec (stop i) si); [done|lia].
Qed.

Lemma finished_all st : sending st ->
  (forall i si, 0 <= i < num_nodes -> i <> self -> (send_idx st).[i] = Some si -> stop i <= si) ->
  num_nodes <= done st.
Proof.
  intros Hs Hf. rewrite (s_done _ Hs). pose proof Hpart as (_ & Hn & _).
  rewrite (zsum_ext _ (fun _ => 1)).
  - rewrite zsum_ones. unfold zlen. rewrite length_seqZ. case_test; lia.
  - intros i Hi%elem_of_seqZ. assert (0 <= i < num_nodes) as Hr by lia.
    destruct (sending_idx st i Hs Hr) as [si Hsi]. unfold finished.
    rewrite Hsi, (s_size _ Hs i Hr).
    assert (stop i <= si) as Hle; [|by rewrite (proj2 (Z.leb_le _ _) Hle)].
    destruct (decide (i = self)) as [->|Hne]; [|by apply Hf].
    destruct (s_self _ Hs) as (s0 & Hs0 & Hge). congruence.
Qed.

(** The loop never fails; when it ends, the count has reached the number of nodes;
    and it ends within as many passes as the longest part has words, when [select]
    reports every connection writable. *)
Lemma send_loop_spec readies st : sending st ->
  send_loop num_nodes self func okey tid readies st = NoFuel \/
  exists st', send_loop num_nodes self func okey tid readies st = Ret st' /\ sending st' /\
    num_nodes <= done st'.
Proof.
  revert st. induction readies as [|r readies IH]; intros st Hs; cbn [send_loop];
    destruct (Z.ltb_spec (done st) num_nodes); try (right; exists st; done); [by left|].
  destruct (send_pass_spec r st Hs) as (st' & -> & Hs' & _). rewrite bind_ret. by apply IH.
Qed.

Lemma send_loop_done readies st : num_nodes <= done st ->
  send_loop num_nodes self func okey tid readies st = Ret st.
Proof. intros Hd. destruct readies; cbn [send_loop]; by rewrite (proj2 (Z.ltb_ge _ _) Hd). Qed.

Lemma send_loop_ends R readies st : sending st ->
  (forall r i, r ∈ readies -> r i = true) -> R <= zlen readies ->
  (forall i si, 0 <= i < num_nodes -> i <> self -> (send_idx st).[i] = Some si -> stop i - si <= R) ->
  send_loop num_nodes self func okey tid readies st <> NoFuel.
Proof.
  revert R st. induction readies as [|r readies IH]; intros R st Hs Hr HR Hrem; cbn [send_loop].
  - destruct (Z.ltb_spec (done st) num_nodes); [|done]. exfalso.
    assert (num_nodes <= done st); [|lia]. apply (finished_all st Hs).
    intros i si Hi Hne Hsi. pose proof (Hrem i si Hi Hne Hsi). unfold zlen in HR. simpl in HR. lia.
  - destruct (Z.ltb_spec (done st) num_nodes) as [Hd|Hd]; [|done].
    destruct (send_pass_spec r st Hs) as (st' & -> & Hs' & Hp). rewrite bind_ret.
    apply (IH (Z.max 0 (R - 1))); [done|intros; apply Hr; by right| |].
    + change (zlen (r :: readies)) with (zlen ([r] ++ readies)) in HR. rewrite zlen_app in HR.
      change (zlen [r]) with 1 in HR. pose proof (zlen_nonneg readies). lia.
    + intros i si' Hi Hne Hsi'. destruct (sending_idx st i Hs Hi) as [si Hsi].
      destruct (Hp i si Hi Hne Hsi) as (s2 & Hs2 & Hle & Hlt). assert (s2 = si') as -> by congruence.
      pose proof (Hrem i si Hi Hne Hsi). destruct (Z.lt_ge_cases si (stop i)) as [Hlt'|]; [|lia].
      specialize (Hlt Hlt' (Hr r i ltac:(left))). lia.
Qed.

(** * The first loop *)

Let empty i := stop i <=? start i.

Lemma send_plan_spec : exists st, send_plan num_nodes self sz okey tid = Ret st /\
  send_idx st = start <$> seqZ 0 num_nodes /\ send_size st = stop <$> seqZ 0 num_nodes /\
  done st = 1 + zsum (fun i => if empty i then 1 else 0) (seqZ 0 num_nodes) /\
  (forall j, msgs_to j (sent st)
     = if (0 <=? j) && (j <? num_nodes) && negb (j =? self) && empty j
       then [data_pack okey 0 0 tid (Dense [])] else []) /\
  (forall d p, (d, p) ∈ sent st -> d <> self /\ 0 <= d < num_nodes /\ for_listener p).
Proof.
  pose proof Hpart as (_ & Hn & _). unfold send_plan.
  destruct (for_range_rule (fun k st => send_idx st = start <$> seqZ 0 k /\
      send_size st = stop <$> seqZ 0 k /\
      done st = 1 + zsum (fun i => if empty i then 1 else 0) (seqZ 0 k) /\
      (forall j, msgs_to j (sent st)
         = if (0 <=? j) && (j <? k) && negb (j =? self) && empty j
           then [data_pack okey 0 0 tid (Dense [])] else []) /\
      (forall d p, (d, p) ∈ sent st -> d <> self /\ 0 <= d < k /\ for_listener p)) 0 num_nodes
    (send_plan_turn num_nodes self sz okey tid)
    {| send_idx := []; send_size := []; done := 1; sent := [] |}) as (st & -> & Hst); [lia| | |eauto].
  - intros k st Hk (H1 & H2 & H3 & H4 & H5). unfold send_plan_turn.
    eexists. split; [done|]. cbn [send_idx send_size done sent].
    fold (start k) (stop k) (empty k).
    assert (seqZ 0 (k + 1) = seqZ 0 k ++ [k]) as -> by (rewrite seqZ_app by lia; done).
    rewrite !fmap_app, zsum_snoc, H1, H2, H3. split; [done|]. split; [done|].
    split; [destruct (empty k); lia|]. split.
    + intros j. transitivity (msgs_to j (sent st) ++ if (k =? j) && empty k && negb (k =? self)
        then [data_pack okey 0 0 tid (Dense [])] else []).
      { destruct (empty k && negb (k =? self)) eqn:Hc.
        - rewrite msgs_to_snoc. by rewrite <-andb_assoc, Hc, andb_true_r.
        - by rewrite <-andb_assoc, Hc, andb_false_r, app_nil_r. }
      rewrite H4. destruct (Z.eqb_spec k j) as [<-|Hkj].
      * assert ((0 <=? k) && (k <? k) = false) as -> by lia.
        assert ((0 <=? k) && (k <? k + 1) = true) as -> by lia.
        by destruct (k =? self), (empty k).
      * assert ((j <? k + 1) = (j <? k)) as -> by lia. by rewrite app_nil_r.
    + intros d p Hd. assert ((d, p) ∈ sent st \/ d = k /\ for_listener p /\ k <> self) as [Hd'|(-> & He & Hks)].
      { destruct (empty k) eqn:He; [|by left]. destruct (Z.eqb_spec k self) as [|Hks]; [by left|].
        apply elem_of_app in Hd as [Hd|Hd]; [by left|]. apply list_elem_of_singleton in Hd.
        right. by injection Hd as -> ->. }
      * destruct (H5 d p Hd') as (? & ? & ?). split; [done|]. split; [lia|done].
      * split; [done|]. split; [lia|done].
  - split; [done|]. split; [done|]. split; [done|]. split.
    + intros j. case_test; [lia|done].
    + by intros d p ?%not_elem_of_nil.
Qed.
End sender.

(** * Properties *)

(** Every word is in exactly one part. *)
Lemma part_exists sz n x : 0 <= sz <= 2 ^ 27 -> 0 < n <= 2 ^ 20 -> 0 <= x < sz ->
  exists j, 0 <= j < n /\ part_start sz n j <= x < part_end sz n j.
Proof.
  intros Hs Hn Hx. destruct (node_blocks_bounds sz n) as [HB Hlim]; [lia..|]. set (B := node_blocks sz n) in *.
  assert (0 < B) as HB0 by nia. pose proof (Z.div_mod x (32 * B)). pose proof (Z.mod_pos_bound x (32 * B)).
  set (j := x / (32 * B)) in *. assert (0 <= j < n) as Hj.
  { split; [apply Z.div_pos; lia|]. apply Z.div_lt_upper_bound; [lia|]. lia. }
  exists j. split; [done|]. rewrite part_end_eq, part_start_eq by done. fold B. nia.
Qed.

Lemma part_unique sz n x i j : 0 <= sz <= 2 ^ 27 -> 0 < n <= 2 ^ 20 -> 0 <= i < n -> 0 <= j < n ->
  part_start sz n i <= x < part_end sz n i -> part_start sz n j <= x < part_end sz n j -> i = j.
Proof.
  intros Hs Hn Hi Hj. rewrite !part_end_eq, !part_start_eq by done. destruct (node_blocks_bounds sz n) as [HB _]; [lia..|]. nia.
Qed.

(** The users and the owners cut the vector alike, without overlap or gap: node
    [i]'s base is the start and its size the length of what every user sends it, and
    for vectors of up to 2^27 words every word is in exactly one part. *)
Theorem partition_agree sz n i x : part_ok sz n i ->
  node_base sz n i = part_start sz n i /\
  node_size sz n i = Z.max 0 (part_end sz n i - part_start sz n i) /\
  (0 <= x < sz -> exists j, 0 <= j < n /\ part_start sz n j <= x < part_end sz n j /\
     forall j', 0 <= j' < n -> part_start sz n j' <= x < part_end sz n j' -> j' = j).
Proof.
  intros H. split; [by apply node_base_eq|]. split; [by apply node_size_eq|]. intros Hx.
  destruct (part_exists sz n x (proj1 H) (proj1 (proj2 H)) Hx) as (j & Hj & Hr). exists j. split; [done|]. split; [done|].
  intros j' Hj' Hr'. by apply (part_unique sz n x j' j (proj1 H) (proj1 (proj2 H))).
Qed.

(** The sum of the vectors at a position. *)
Definition vsum {T} `{Element T} (vs : list (list T)) (x : Z) : T :=
  foldr (fun v acc => add (default zero (v.[x])) acc) zero vs.

Lemma total_streams {T} `{ElementLaws T} lo hi (streams : list (list T * list (Z * RcDataPack T))) x :
  Forall (fun s => carries (fst s) lo hi (snd <$> snd s)) streams -> lo <= x < hi ->
  total (snd <$> concat (snd <$> streams)) x = vsum (fst <$> streams) x.
Proof.
  intros Hs Hx. induction Hs as [|[v ms] streams (_ & _ & Ht) _ IH]; [done|].
  cbn [fmap list_fmap concat fst snd vsum foldr] in *. rewrite fmap_app, total_app, IH, Ht.
  by rewrite (proj2 (andb_true_iff _ _)) by lia.
Qed.

Lemma terminals_perm {T} (l1 l2 : list (Z * RcDataPack T)) : l1 ≡ₚ l2 -> terminals l1 = terminals l2.
Proof. intros Hp. unfold terminals. by rewrite Hp. Qed.

Lemma terminals_concat {T} (streams : list (list T * list (Z * RcDataPack T))) :
  Forall (fun s => terminals (snd s) = 1) streams ->
  terminals (concat (snd <$> streams)) = zlen streams.
Proof.
  induction 1 as [|s streams Hs _ IH]; [done|]. cbn [fmap list_fmap concat].
  unfold terminals in *. rewrite filter_app, zlen_app, Hs, IH.
  change (s :: streams) with ([s] ++ streams). by rewrite zlen_app.
Qed.

(** What the users' streams say of any of their messages, and the count of last ones. *)
Lemma streams_messages {T} `{ElementLaws T} lo hi (streams : list (list T * list (Z * RcDataPack T))) msgs :
  Forall (fun s => carries (fst s) lo hi (snd <$> snd s) /\ terminals (snd s) = 1) streams -> msgs ≡ₚ concat (snd <$> streams) ->
  terminals msgs = zlen streams /\ forall x, x ∈ msgs -> size_ok (snd x) /\ within lo hi (snd x).
Proof.
  intros Hst Hperm. split.
  - rewrite (terminals_perm _ _ Hperm), terminals_concat; [done|]. eapply Forall_impl; [exact Hst|by intros s [_ ?]].
  - intros x Hx. rewrite Hperm in Hx. apply list_elem_of_In, in_concat in Hx as (ms & Hms & Hx).
    apply list_elem_of_In, list_elem_of_fmap in Hms as (s & -> & Hs). apply list_elem_of_In in Hx.
    rewrite Forall_forall in Hst. destruct (Hst s Hs) as [(H1 & H2 & _) _].
    rewrite Forall_forall in H1, H2. split; [apply H1|apply H2]; by apply list_elem_of_fmap_2.
Qed.

(** All messages but the last one of the last user are added to the buffer. *)
Lemma owner_front {T} `{ElementLaws T} cache_get accu num_nodes self aid k sz arr (m : ac_manager T) front :
  let lo := part_start sz num_nodes self in
  let len := Z.max 0 (part_end sz num_nodes self - part_start sz num_nodes self) in
  accu aid = DAddAccumulator -> part_ok sz num_nodes self -> 1 <= k < 2 ^ 31 ->
  cache_get aid 4 = Ret k -> cache_get aid 2 = Ret sz -> cache_get aid 0 = Ret arr -> m !! aid = None ->
  terminals front = k - 1 -> (forall x, x ∈ front -> size_ok (snd x) /\ within lo (lo + len) (snd x)) ->
  exists m1 node, run_msgs (accumulate_msg cache_get accu num_nodes self aid) m front = Ret (m1, []) /\
    FindOrCreateDataSyncNode cache_get num_nodes self m1 aid = Ret node /\
    owner_node num_nodes self k sz arr 0 front node /\ waitlist node = flat_map (waiter self) front.
Proof.
  intros lo len Ha Hp Hk Hc4 Hc2 Hc0 Hm Hterm Hok.
  destruct (run_msgs_rule (accumulate_msg cache_get accu num_nodes self aid)
    (fun pre effs m => effs = [] /\ exists node,
       FindOrCreateDataSyncNode cache_get num_nodes self m aid = Ret node /\
       owner_node num_nodes self k sz arr 0 pre node /\
       waitlist node = flat_map (waiter self) pre) front m)
    as (m1 & effs & Hrun & -> & node & Hf & Hn & Hw); [| |by exists m1, node].
  - intros pre a post ws m1 Heq (-> & node & Hf & Hn & Hw).
    destruct (Hok a) as [Hs1 Hs2]; [rewrite Heq; apply elem_of_app; right; left|].
    destruct (owner_step cache_get accu num_nodes self aid k sz arr Ha Hp Hk m1 0 pre node a)
      as (m2 & node2 & Hm2 & Hf2 & Hn2 & Hw2); [done..| |].
    + assert (front = (pre ++ [a]) ++ post) as Heq' by (by rewrite <-app_assoc).
      rewrite Heq' in Hterm. unfold terminals in *. rewrite filter_app, zlen_app in Hterm.
      pose proof (zlen_nonneg (filter (fun x => thread_of (snd x) <> 0) post)). lia.
    + exists m2, []. split; [done|]. split; [done|]. exists node2. split; [done|]. split; [done|].
      rewrite Hw2, Hw, flat_map_app. cbn [flat_map]. by rewrite ?app_nil_r.
  - split; [done|]. unfold FindOrCreateDataSyncNode. rewrite Hm.
    destruct (init_owner cache_get num_nodes self aid k sz arr) as (node & Hi & Ho & Hw);
      [done|lia|done..|]. eauto.
Qed.

(** C6. An owner computes the sum of the users' vectors: when the messages of [k]
    users, each carrying this node's part of its vector and naming its thread once,
    arrive interleaved in any order that ends with such a last message, the node
    writes to the shared array, once, the words whose value at every position of the
    part is the sum over the users, then reports that it is done (a slave to the
    master), and its buffer and count are as at the start. *)
Theorem owner_sums {T} `{ElementLaws T} cache_get accu num_nodes self aid k sz arr
    (m : ac_manager T) streams front last :
  let lo := part_start sz num_nodes self in
  let len := Z.max 0 (part_end sz num_nodes self - part_start sz num_nodes self) in
  accu aid = DAddAccumulator -> part_ok sz num_nodes self -> 1 <= k < 2 ^ 31 ->
  cache_get aid 4 = Ret k -> cache_get aid 2 = Ret sz -> cache_get aid 0 = Ret arr ->
  m !! aid = None -> zlen streams = k ->
  Forall (fun s => carries (fst s) lo (lo + len) (snd <$> snd s) /\ terminals (snd s) = 1) streams ->
  front ++ [last] ≡ₚ concat (snd <$> streams) -> thread_of (snd last) <> 0 ->
  exists m' node' out, run_msgs (accumulate_msg cache_get accu num_nodes self aid) m (front ++ [last])
      = Ret (m', (if len =? 0 then [] else [EPutChunk arr lo len out])
                 ++ finish num_nodes self aid 0 (flat_map (waiter self) (front ++ [last]))) /\
    zlen out = len /\
    (forall j, 0 <= j < len -> out.[j] = Some (vsum (fst <$> streams) (lo + j))) /\
    m' !! aid = Some node' /\ dn_val node' = 0 /\
    (forall j, 0 <= j < len -> (buf node').[j] = Some zero).
Proof.
  intros lo len Ha Hp Hk Hc4 Hc2 Hc0 Hm Hz Hst Hperm Hlast.
  assert (Forall (fun s => carries (fst s) lo (lo + len) (snd <$> snd s)) streams) as Hcar
    by (eapply Forall_impl; [exact Hst|by intros s [? _]]).
  destruct (streams_messages lo (lo + len) streams (front ++ [last]) Hst Hperm) as [Hterm Hok].
  rewrite Hz in Hterm. pose proof Hterm as Ht'. rewrite terminals_snoc in Ht'.
  destruct (Z.eqb_spec (thread_of (snd last)) 0); [done|].
  destruct (owner_front cache_get accu num_nodes self aid k sz arr m front) as (m1 & node & Hrun & Hf & Hn & Hw); try done; [lia| |].
  { intros x Hx. apply Hok. apply elem_of_app. by left. }
  destruct (Hok last) as [Hs1 Hs2]; [apply elem_of_app; right; left|].
  destruct (owner_finish cache_get accu num_nodes self aid k sz arr Ha Hp Hk m1 0 front node last)
    as (m2 & node2 & out & Hm2 & Hol & Hout & Hm2' & (_ & Hv & _ & _ & Hs2' & _ & _ & Hb) & _); [(done || lia)..|].
  exists m2, node2, out. split.
  - rewrite (run_msgs_app _ front [last] m m1 m2 []
      ((if len =? 0 then [] else [EPutChunk arr lo len out])
       ++ finish num_nodes self aid 0 (flat_map (waiter self) (front ++ [last]))));
      [done|done|].
    cbn [run_msgs]. rewrite Hm2, bind_ret. cbn beta iota. rewrite bind_ret, app_nil_r.
    fold lo len. by rewrite Hw, flat_map_app; cbn [flat_map]; rewrite ?app_nil_r.
  - split; [done|]. split; [|split; [done|split; [done|by rewrite Hs2' in Hb]]].
    intros j Hj. rewrite Hout by done. f_equal. rewrite <-(total_streams lo (lo + len)) by (done || lia).
    by rewrite Hperm.
Qed.

Section user.
Context {T : Type} `{ElementLaws T}.
Context (cache_get : Z -> Z -> outcome Z) (accu : Z -> accumulator T).
Context (num_nodes self : Z) (m m' : ac_manager T) (mode : AccumulatorMode) (in_buf : list T).
Context (sz okey tid : Z) (effs : list (ac_effect T)) (readies : list (Z -> bool)).

(** The function that packs the next message. *)
Let func s e := AcAccumulatePrepareBuffer mode zero in_buf s e.

Lemma prepare_func : 0 <= sz <= 2 ^ 27 -> sz <= zlen in_buf -> forall i s, 0 <= s < i -> i <= sz ->
  exists n bytes body, func s i = Ret (n, bytes, body) /\ 1 <= n <= i - s /\ bytes <= BD_DATA_PROCESS_SIZE /\
    forall t, carries in_buf s (s + n) [data_pack okey bytes s t body].
Proof.
  intros Hs Hb i s Hsi Hi. destruct (prepare_spec mode in_buf s i) as (n & bytes & body & Hf & Hn & [_ Hby] & Hc);
    [done|lia|lia|]. eauto 10.
Qed.

(** Where the loop starts, after the node's own part. *)
Lemma plan_sending : part_ok sz num_nodes self -> sz <= zlen in_buf ->
  exists st idx, send_plan num_nodes self sz okey tid = Ret st /\
    (send_idx st).[self] = Some (part_start sz num_nodes self) /\
    (send_size st).[self] = Some (part_end sz num_nodes self) /\
    wr (send_idx st) self (part_end sz num_nodes self) = Ret idx /\
    sending num_nodes self sz okey tid in_buf
      {| send_idx := idx; send_size := send_size st; done := done st; sent := sent st |} /\
    (forall i si, 0 <= i < num_nodes -> i <> self -> idx.[i] = Some si -> 0 <= si).
Proof.
  intros Hp Hb. pose proof Hp as (Hsz & Hn & Hself).
  destruct (send_plan_spec (T := T) num_nodes self sz okey tid Hp) as (st & Hplan & H1 & H2 & H3 & H4 & H5).
  set (start i := part_start sz num_nodes i) in *. set (stop i := part_end sz num_nodes i) in *.
  assert (forall i, 0 <= i < num_nodes -> (send_idx st).[i] = Some (start i)) as Hidx.
  { intros i Hi. rewrite H1, zlook_fmap, zlook_lookup by lia. rewrite lookup_seqZ_lt by lia.
    cbn. do 2 f_equal. lia. }
  assert (forall i, 0 <= i < num_nodes -> (send_size st).[i] = Some (stop i)) as Hsize.
  { intros i Hi. rewrite H2, zlook_fmap, zlook_lookup by lia. rewrite lookup_seqZ_lt by lia.
    cbn. do 2 f_equal. lia. }
  assert (zlen (send_idx st) = num_nodes) as Hlen.
  { rewrite H1, zlen_fmap. unfold zlen. rewrite length_seqZ. lia. }
  destruct (wr_ok (send_idx st) self (stop self)) as (idx & Hwr & Hl & Hj); [lia|].
  exists st, idx. split; [done|]. split; [by apply Hidx|]. split; [by apply Hsize|]. split; [done|].
  split.
  - constructor; cbn [send_idx send_size done sent].
    + lia.
    + done.
    + intros i Hi Hne. exists (start i). rewrite Hj, (proj2 (Z.eqb_neq i self)) by done.
      rewrite Hidx by done. split; [done|]. split; [fold (start i); lia|]. rewrite H4.
      rewrite (proj2 (Z.leb_le 0 i)), (proj2 (Z.ltb_lt i _)), (proj2 (Z.eqb_neq i self)) by (done || lia).
      cbn [andb negb]. unfold sent_upto. fold (start i) (stop i).
      destruct (Z.leb_spec (stop i) (start i)).
      * split; [|by exists O]. split; [by apply Forall_singleton|].
        split; [apply Forall_singleton; by intros k v ?%not_elem_of_nil|].
        intros x. by rewrite (proj2 (andb_false_iff _ _)) by lia.
      * split; [apply carries_nil|by exists O].
    + exists (stop self). rewrite Hj, Z.eqb_refl. split; [done|]. fold (stop self). lia.
    + set (F i := if stop i <=? start i then 1 else 0).
      assert (done st = 1 + zsum F (seqZ 0 num_nodes)) as -> by done.
      rewrite (zsum_update F (finished _) (seqZ 0 num_nodes) self).
      * unfold finished at 1. cbn [send_idx send_size].
        rewrite Hj, Z.eqb_refl, Hsize by done. rewrite Z.leb_refl.
        unfold F at 3. fold (stop self) (start self). lia.
      * apply NoDup_seqZ.
      * apply elem_of_seqZ. lia.
      * intros i Hi%elem_of_seqZ Hne. unfold finished. cbn [send_idx send_size].
        by rewrite Hj, (proj2 (Z.eqb_neq i self)), Hidx, Hsize by (done || lia).
    + exact H5.
  - intros i si Hi Hne Hsi. rewrite Hj, (proj2 (Z.eqb_neq i self)), Hidx in Hsi by done.
    injection Hsi as <-. destruct (part_range num_nodes self sz Hp i Hi) as (? & _). done.
Qed.
(** C7. A user sends each node its part: unless the node's own part is empty, the
    function never fails, and when it gets to its wait, every other node [i] has been
    sent messages that together carry the words of part [i], each once, and of which
    exactly the last names the thread; with every connection writable it gets there
    within as many passes as the vector has words. *)
Theorem user_sends_parts local :
  part_ok sz num_nodes self -> sz <= zlen in_buf ->
  part_start sz num_nodes self < part_end sz num_nodes self ->
  rd_range in_buf (part_start sz num_nodes self)
    (part_end sz num_nodes self - part_start sz num_nodes self) = Ret local ->
  AcAccumulateMsg cache_get accu num_nodes self m self okey tid (part_start sz num_nodes self)
    ((part_end sz num_nodes self - part_start sz num_nodes self) * sizeof_word) (Dense local)
    = Ret (m', effs) ->
  let run := DoAccumulateAndWait cache_get accu num_nodes self m mode zero in_buf sz okey tid readies in
  (run = NoFuel \/ exists sent, run = Ret (m', effs, sent) /\
     forall i, 0 <= i < num_nodes -> i <> self ->
       carries in_buf (part_start sz num_nodes i)
         (Z.max (part_start sz num_nodes i) (part_end sz num_nodes i)) (msgs_to i sent) /\
       exists k, dp_param12 <$> msgs_to i sent = replicate k 0 ++ [tid]) /\
  (Forall (fun r => forall i, r i = true) readies -> sz <= zlen readies -> run <> NoFuel).
Proof.
  intros Hp Hb Hne Hlocal Hacc run. pose proof Hp as (Hsz & Hn & Hself).
  destruct (plan_sending Hp Hb) as (st & idx & Hplan & Hsi & Hss & Hwr & Hsend & Hpos).
  set (st0 := {| send_idx := idx; send_size := send_size st; done := done st; sent := sent st |}) in *.
  assert (run = (st1 ← send_loop num_nodes self func okey tid readies st0; Ret (m', effs, sent st1)))
    as Hrun.
  { subst run. unfold DoAccumulateAndWait. rewrite Hplan, bind_ret, (rd_ok _ _ _ Hsi), bind_ret.
    rewrite (rd_ok _ _ _ Hss), bind_ret, (proj2 (Z.ltb_lt _ _) Hne).
    rewrite (proj2 (Z.ltb_lt 0 _)) by lia. by rewrite Hlocal, bind_ret, Hacc, bind_ret, Hwr, bind_ret. }
  pose proof (prepare_func (proj1 Hp) Hb) as Hfunc. split.
  - destruct (send_loop_spec num_nodes self sz okey tid in_buf func Hp Hfunc readies st0 Hsend)
      as [Hl|(st1 & Hl & Hs1 & Hd)]; rewrite Hrun, Hl; [by left|right].
    exists (sent st1). split; [done|]. intros i Hi Hio.
    destruct (s_other _ _ _ _ _ _ _ Hs1 i Hi Hio) as (si & Hsi1 & Hr & Hc & k & Hk).
    assert (part_end sz num_nodes i <= si) as Hge.
    { eapply all_finished; [exact Hs1| |done..].
      rewrite (proj2 (Z.leb_gt _ _) Hne). lia. }
    rewrite (proj2 (Z.leb_le _ _) Hge) in Hk.
    assert (si = Z.max (part_start sz num_nodes i) (part_end sz num_nodes i)) as <- by lia. eauto.
  - intros Hr Hz. rewrite Hrun.
    pose proof (send_loop_ends num_nodes self sz okey tid in_buf func Hp Hfunc sz readies st0 Hsend)
      as Hend. destruct (send_loop _ _ _ _ _ _ _) eqn:Hl; try done. intros _. apply Hend; [|done| |done].
    + intros r i Hin. rewrite Forall_forall in Hr. by apply Hr.
    + intros i si Hi Hio Hsi0. cbn [st0 send_idx] in Hsi0. specialize (Hpos i si Hi Hio Hsi0).
      destruct (part_range num_nodes self sz Hp i Hi) as (_ & _ & ?). lia.
Qed.
End user.

(** A short vector does not reach its owner: a user on a slave starts with the
    count at 1 for its own part and counts its own empty part once more, so with at
    most 32 words, all of which belong to node 0, the loop that should send them is
    not entered and node 0 is sent nothing, whatever the vector holds. *)
Theorem small_vector_not_sent {T} `{ElementLaws T} cache_get accu num_nodes self m m' mode
    in_buf sz okey tid (effs : list (ac_effect T)) readies sent :
  2 <= num_nodes <= 2 ^ 20 -> 1 <= self < num_nodes -> 0 < sz <= 32 -> sz <= zlen in_buf ->
  DoAccumulateAndWait cache_get accu num_nodes self m mode zero in_buf sz okey tid readies
    = Ret (m', effs, sent) ->
  part_start sz num_nodes 0 = 0 /\ part_end sz num_nodes 0 = sz /\ msgs_to 0 sent = [].
Proof.
  intros Hn Hself Hsz Hb Hrun. assert (part_ok sz num_nodes self) as Hp by (unfold part_ok; lia).
  assert (node_blocks sz num_nodes = 1) as HB.
  { destruct (node_blocks_bounds sz num_nodes) as [HB0 HB1]; [lia..|].
    unfold node_blocks. rewrite block_size_32.
    assert ((if sz mod 32 =? 0 then sz / 32 else sz / 32 + 1) = 1) as ->.
    { destruct (decide (sz = 32)) as [->|]; [done|]. rewrite Z.mod_small, Z.div_small by lia.
      by rewrite (proj2 (Z.eqb_neq _ _)) by lia. }
    by rewrite Z.mod_small, Z.div_small by lia. }
  assert (forall i, 0 <= i < num_nodes -> part_start sz num_nodes i = 32 * i /\
            part_end sz num_nodes i = sz) as Hpart.
  { intros i Hi. assert (part_ok sz num_nodes i) as Hpi by (unfold part_ok; lia).
    rewrite part_end_eq, part_start_eq, HB by done. lia. }
  destruct (send_plan_spec (T := T) num_nodes self sz okey tid Hp)
    as (st & Hplan & P1 & P2 & P3 & P4 & P5).
  split; [apply (Hpart 0); lia|]. split; [apply (Hpart 0); lia|].
  assert (num_nodes <= done st) as Hd.
  { rewrite P3, (zsum_ext _ (fun i => if 32 * i <? sz then 0 else 1)).
    - rewrite seqZ_cons, zsum_cons by lia. rewrite (zsum_ext _ (fun _ => 1)).
      + rewrite zsum_ones. unfold zlen. rewrite length_seqZ. rewrite (proj2 (Z.ltb_lt _ _)); lia.
      + intros i Hi%elem_of_seqZ. by rewrite (proj2 (Z.ltb_ge _ _)) by lia.
    - intros i Hi%elem_of_seqZ. destruct (Hpart i) as [-> ->]; [lia|]. case_test; case_test; lia. }
  unfold DoAccumulateAndWait in Hrun. rewrite Hplan, bind_ret in Hrun.
  do 3 apply bind_Ret_inv in Hrun as (? & _ & Hrun).
  apply bind_Ret_inv in Hrun as ([m1 e1] & _ & Hrun).
  apply bind_Ret_inv in Hrun as (idx & _ & Hrun).
  rewrite send_loop_done, bind_ret in Hrun by done. injection Hrun as _ _ <-. cbn [Accumulator.sent].
  rewrite P4. destruct (Hpart 0) as [-> ->]; [lia|]. rewrite (proj2 (Z.leb_gt sz (32 * 0))) by lia.
  by rewrite andb_false_r.
Qed.

(** * Instances and concrete runs *)

(** [int], for vectors whose sums stay in range. *)
#[export] Instance int_element : Element Z := {|
  zero := 0; add := Z.add; opp := Z.opp; ltb := Z.ltb; leb := Z.leb; eqb := Z.eqb |}.

#[export] Instance int_laws : ElementLaws Z.
Proof. split; cbn; intros; lia. Qed.

(** [uint32_t], whose sums wrap. *)
Record uint32 := U32 { u32_val : Z; u32_ok : Is_true ((0 <=? u32_val) && (u32_val <? 2 ^ 32)) }.

Lemma uint32_eq x y : u32_val x = u32_val y -> x = y.
Proof. destruct x as [x Hx], y as [y Hy]. cbn. intros <-. f_equal. apply proof_irrel. Qed.

Lemma uint32_ok z : Is_true ((0 <=? u32 z) && (u32 z <? 2 ^ 32)).
Proof. apply Is_true_true, andb_true_iff. pose proof (u32_range z). ranges. Qed.

Definition to_uint32 (z : Z) : uint32 := U32 (u32 z) (uint32_ok z).

#[export] Instance uint32_element : Element uint32 := {|
  zero := to_uint32 0;
  add x y := to_uint32 (u32_val x + u32_val y);
  opp x := to_uint32 (- u32_val x);
  ltb x y := u32_val x <? u32_val y;
  leb x y := u32_val x <=? u32_val y;
  eqb x y := u32_val x =? u32_val y |}.

Lemma u32_val_range x : 0 <= u32_val x < 2 ^ 32.
Proof. destruct x as [x Hx]. cbn. apply Is_true_true, andb_true_iff in Hx. lia. Qed.

#[export] Instance uint32_laws : ElementLaws uint32.
Proof.
  assert (u32_val zero = 0) as H0 by done.
  split; intros *; try (rewrite ?H0; cbn; pose proof (u32_val_range x); try lia).
  - apply uint32_eq. cbn. by rewrite Z.add_comm.
  - apply uint32_eq. cbn. unfold u32. rewrite Zplus_mod_idemp_r, Zplus_mod_idemp_l. f_equal. lia.
  - apply uint32_eq. cbn. rewrite Z.add_0_l. by apply u32_small.
  - rewrite Z.eqb_eq. split; [intros; by apply uint32_eq|by intros ->].
  - by apply uint32_eq.
Qed.

Lemma partition_agree_witness : node_base 100 3 1 = 64 /\
  exists j, 0 <= j < 3 /\ part_start 100 3 j <= 70 < part_end 100 3 j.
Proof.
  assert (part_ok 100 3 1) as Hp by (unfold part_ok; lia).
  destruct (partition_agree 100 3 1 70 Hp) as (Hb & _ & Hj). split; [by rewrite Hb|].
  destruct Hj as (j & ? & ? & _); [lia|eauto].
Defined.

(** Node 1 of 2, which owns word 32 of 33: a dense message of node 0 and a sparse one
    of its own. *)
Lemma owner_sums_witness : exists m' node' out,
  let p0 := data_pack 7 4 32 5 (Dense [10]) in
  let p1 := data_pack 7 8 32 6 (SparseList [Sparse 32 3]) in
  run_msgs (accumulate_msg (fun _ f => Ret (if f =? 4 then 2 else if f =? 2 then 33 else 99))
      (fun _ => DAddAccumulator) 2 1 7) ∅ [(0, p0); (1, p1)]
    = Ret (m', [EPutChunk 99 32 1 out] ++ finish 2 1 7 0 []) /\ out.[0] = Some 13 /\
  m' !! 7 = Some node' /\ dn_val node' = 0.
Proof.
  set (v0 := replicate 32 1 ++ [10]). set (v1 := replicate 32 0 ++ [3]).
  set (p0 := data_pack 7 4 32 5 (Dense [10])).
  set (p1 := data_pack 7 8 32 6 (SparseList [Sparse 32 3])).
  destruct (owner_sums (fun _ f => Ret (if f =? 4 then 2 else if f =? 2 then 33 else 99))
    (fun _ => DAddAccumulator) 2 1 7 2 33 99 ∅ [(v0, [(0, p0)]); (v1, [(1, p1)])] [(0, p0)] (1, p1))
    as (m' & node' & out & Hrun & _ & Hout & Hm & Hv & _); try done.
  - apply Forall_cons. split; [|apply Forall_singleton]; (split; [|done]).
    + apply (dense_carries v0 [10] 32 1); try done. intros j Hj. by assert (j = 0) as -> by lia.
    + apply (sparse_carries v1 [Sparse 32 3] 32 1); [|done|done]. split.
      * intros k v Hk%list_elem_of_singleton. injection Hk as -> ->. lia.
      * intros x. destruct (decide (32 = x)) as [<-|Hx]; [done|].
        assert ((32 <=? x) && (x <? 32 + 1) = false) as -> by lia. cbn [at_pos fmap list_fmap index sdata].
        by rewrite (proj2 (Z.eqb_neq _ _)).
  - exists m', node', out. split; [exact Hrun|]. split; [by rewrite (Hout 0)|done].
Defined.

Lemma user_sends_parts_witness : exists m' effs sent,
  DoAccumulateAndWait (fun _ f => Ret (if f =? 4 then 1 else if f =? 2 then 40 else 99))
    (fun _ => DAddAccumulator) 2 0 ∅ AutoMode zero (seqZ 1 40) 40 7 5
    (replicate 40 (fun _ => true)) = Ret (m', effs, sent) /\
  carries (seqZ 1 40) 32 40 (msgs_to 1 sent).
Proof.
  set (get := fun _ f => Ret (if f =? 4 then 1 else if f =? 2 then 40 else 99) : outcome Z).
  set (accu := fun _ : Z => DAddAccumulator (T := Z)).
  destruct (AcAccumulateMsg get accu 2 0 ∅ 0 7 5 (part_start 40 2 0)
    ((part_end 40 2 0 - part_start 40 2 0) * sizeof_word) (Dense (seqZ 1 32)))
    as [[m' effs]| |] eqn:Hacc; [|vm_compute in Hacc; discriminate Hacc..].
  assert (part_ok 40 2 0) as Hp by (unfold part_ok; lia).
  assert (part_start 40 2 0 < part_end 40 2 0) as Hlt by by vm_compute.
  assert (40 <= zlen (seqZ 1 40)) as Hl by (vm_compute; congruence).
  assert (rd_range (seqZ 1 40) (part_start 40 2 0) (part_end 40 2 0 - part_start 40 2 0)
    = Ret (seqZ 1 32)) as Hloc by by vm_compute.
  pose proof (user_sends_parts get accu 2 0 ∅ m' AutoMode (seqZ 1 40) 40 7 5 effs
    (replicate 40 (fun _ => true)) (seqZ 1 32) Hp Hl Hlt Hloc Hacc) as H. cbv zeta in H.
  destruct H as [[Hrun|(sent & Hrun & Hs)] Hend].
  - exfalso. apply Hend; [by apply Forall_replicate|vm_compute; congruence|exact Hrun].
  - exists m', effs, sent. split; [exact Hrun|]. apply (Hs 1); lia.
Defined.

Lemma small_vector_not_sent_witness : exists m' effs sent,
  DoAccumulateAndWait (fun _ f => Ret (if f =? 4 then 1 else if f =? 2 then 3 else 99))
    (fun _ => DAddAccumulator) 2 1 ∅ DenseMode zero [4; 5; 6] 3 7 5 [] = Ret (m', effs, sent) /\
  msgs_to 0 sent = [].
Proof.
  set (get := fun _ f => Ret (if f =? 4 then 1 else if f =? 2 then 3 else 99) : outcome Z).
  set (accu := fun _ : Z => DAddAccumulator (T := Z)).
  destruct (DoAccumulateAndWait get accu 2 1 ∅ DenseMode zero [4; 5; 6] 3 7 5 [])
    as [[[m' effs] sent]| |] eqn:Hrun; [|vm_compute in Hrun; discriminate Hrun..].
  exists m', effs, sent. split; [done|].
  apply (small_vector_not_sent get accu 2 1 ∅ m' DenseMode [4; 5; 6] 3 7 5 effs [] sent); [lia..|vm_compute; congruence|exact Hrun].
Defined.
