(* ===== verification/MapReduce.v ===== *)
(** Map-reduce, [include/DogeeMR.h], [include/DogeeSerializerImpl.h] and [_Map] of
    [Dogee/DogeeAccumulator.cpp]: a user serializes the pairs of its input map into
    messages, deals them out to the nodes, and a node maps the pairs of every message
    into its local map; [BaseDoReduce] goes over that map. *)
From S2P Require Import Prelude Handshake Accumulator.

(** * Serializers *)

Definition cell_divide (a : Z) : Z := if a mod 4 =? 0 then a / 4 else a / 4 + 1.

Definition wr_word (buf : list Z) (i w : Z) : outcome (list Z) := wr_range buf (4 * i) (bytes_of_word w).

(** [InputSerializer<T>]: a buffer is its bytes, a position counts words.
    [Deserialize] fills a variable that its callers have just declared; it may write to
    the buffer. *)
Class InputSerializer (T : Type) := {
  GetSize : T -> Z;
  Serialize : T -> list Z -> Z -> outcome (list Z * Z);
  Deserialize : list Z -> Z -> outcome (list Z * T * Z);
}.

(** The primary template at [int], the only type its [Deserialize] takes. *)
#[export] Instance int_serializer : InputSerializer Z := {|
  GetSize _ := cell_divide 4;
  Serialize v buf i := buf ← wr_word buf i (u32 v); Ret (buf, cell_divide 4);
  Deserialize buf i := w ← word_at buf i; Ret (buf, s32 w, cell_divide 4);
|}.

(** [std::vector<T>]. *)
Definition vector_size {T} `{InputSerializer T} (l : list T) : Z :=
  u32 (foldl (fun size i => s32 (size + GetSize i)) 0 l + 1).
#[export] Instance vector_serializer {T} `{InputSerializer T} : InputSerializer (list T) := {|
  GetSize := vector_size;
  Serialize l buf i :=
    buf ← wr_word buf i (u32 (zlen l));
    '(buf, _) ← for_each l (fun x '(buf, cur) =>
      '(buf, n) ← Serialize x buf cur;
      Ret (buf, cur + n)) (buf, i + 1);
    Ret (buf, vector_size l);
  Deserialize buf i :=
    sz ← word_at buf i;
    for_range 0 sz (fun _ '(buf, out, cnt) =>
      '(buf, tmp, n) ← Deserialize buf (i + cnt);
      Ret (buf, out ++ [tmp], u32 (cnt + n))) (buf, [], 1);
|}.

(** [std::string], as its bytes. *)
Record cstring := Str { chars : list Z }.
Definition cstring_size (n : Z) : Z := u32 (cell_divide (u32 (n + 1)) + 1).
#[export] Instance string_serializer : InputSerializer cstring := {|
  GetSize s := cstring_size (zlen (chars s));
  Serialize s buf i :=
    buf ← wr_word buf i (u32 (zlen (chars s)));
    buf ← wr_range buf (4 * (i + 1)) (chars s);
    Ret (buf, cstring_size (zlen (chars s)));
  Deserialize buf i :=
    sz ← word_at buf i;
    buf ← wr buf (4 * (i + 1) + sz) 0;
    s ← c_string (drop (Z.to_nat (4 * (i + 1))) buf);
    _ ← c_assert (sz =? zlen s);
    Ret (buf, Str s, cstring_size sz);
|}.

(** * The map-reduce object *)

Module DMapReduce.
Section ops.
Context {K V OK OV : Type} `{InputSerializer K} `{InputSerializer V} `{Countable OK}.
(** [MAP], and the application's [DoMap]. *)
Abbreviation MAP := (gmap OK (list OV)).
Context (DoMap : K -> V -> MAP -> outcome MAP).

(** The pair at word [i] of the buffer and the words it takes, at most [len]. *)
Definition DecodeKeyValue (buf : list Z) (i len : Z) : outcome (list Z * K * V * Z) :=
  '(buf, key, mylen) ← Deserialize buf i;
  _ ← c_assert (mylen <? len);
  '(buf, value, n) ← Deserialize buf (i + mylen);
  let mylen := u32 (mylen + n) in
  _ ← c_assert (mylen <=? len);
  Ret (buf, key, value, mylen).

Definition BaseDoAccumulateDense (in_data : list Z) (in_bytes : Z) (outmap : MAP) : outcome MAP :=
  let word_len := in_bytes / sizeof_word in
  '(_, _, outmap) ← while (S (Z.to_nat word_len)) (fun '(_, i, _) => i <? word_len)
    (fun '(word_data, i, outmap) =>
       '(word_data, key, value, readlen) ← DecodeKeyValue word_data i (u32 (word_len - i));
       outmap ← DoMap key value outmap;
       Ret (word_data, u32 (i + readlen), outmap)) (in_data, 0, outmap);
  Ret outmap.

Definition BaseDoAccumulateSparse (in_data : list Z) (in_bytes : Z) (outmap : MAP) : outcome MAP := Abort.

(** [AllocLocalBuffer]: the buffer of a node is the map, and so is the object's [mymap]. *)
Definition AllocLocalBuffer (len : Z) : MAP := ∅.

(** What [AcAccumulateMsg] does to the buffer of a map-reduce object with a message, a thread
    id and its bytes; [map_messages] is a node to which messages come one after the other. *)
Definition map_message (msg : Z * list Z) (outmap : MAP) : outcome MAP :=
  if zlen (snd msg) =? 0 then Ret outmap else BaseDoAccumulateDense (snd msg) (zlen (snd msg)) outmap.
Definition map_messages (msgs : list (Z * list Z)) (outmap : MAP) : outcome MAP := for_each msgs map_message outmap.

(** [DoReduce] and [DoGlobalReduce] are the application's, on a state [X]. The result is
    the cleared map, the state, and what the detached threads that were started run. *)
Definition BaseDoReduce {X} (DoReduce : OK -> list OV -> X -> outcome X) (hasGlobalReduce : bool)
    (DoGlobalReduce : X -> outcome X) (outmap : MAP) (x : X) : outcome (MAP * X * list (X -> outcome X)) :=
  x ← for_each (map_to_list outmap) (fun itr x => DoReduce (fst itr) (snd itr) x) x;
  Ret (∅, x, if hasGlobalReduce then [DoGlobalReduce] else []).

(** * The user's side *)

Definition buflen : Z := BD_DATA_PROCESS_SIZE / sizeof_word.

(** The loop of [PrepareBuf] from the pairs that [itr] has left, [limit] of them at
    most: the pairs left then, the buffer and the words used. *)
Fixpoint prepare_loop (limit : Z) (itr : list (K * V)) (elements idx : Z) (mybuf : list Z) :
    outcome (list (K * V) * list Z * Z) :=
  match itr with
  | [] => Ret ([], mybuf, idx)
  | (key, value) :: rest =>
      if idx <? buflen then
        let size_to_add := u32 (GetSize key + GetSize value) in
        if u32 (idx + size_to_add) <=? buflen then
          '(mybuf, ret) ← Serialize key mybuf idx;
          let idx := u32 (idx + ret) in
          '(mybuf, ret) ← Serialize value mybuf idx;
          let idx := u32 (idx + ret) in
          let elements := u32 (elements + 1) in
          if limit <=? elements then Ret (rest, mybuf, idx) else prepare_loop limit rest elements idx mybuf
        else Ret (itr, mybuf, idx)
      else Ret (itr, mybuf, idx)
  end.
Definition PrepareBuf (cnt num_nodes : Z) (itr : list (K * V)) (mybuf : list Z) :
    outcome (list (K * V) * list Z * Z) :=
  prepare_loop (cnt / num_nodes + 1) itr 0 0 mybuf.

(** The locals of [_Map]: [turns], what [itr] has left, the buffer, the messages
    given out (the node, the thread id, the bytes; those for the node itself go to its own
    [AcAccumulateMsg]), and how often [select] was called. *)
Record map_state := MapState {
  turns : Z;
  itr : list (K * V);
  mybuf : list Z;
  dealt : list (Z * Z * list Z);
  selects : nat;
}.

Definition deal (cnt num_nodes dest : Z) (st : map_state) : outcome map_state :=
  '(rest, buf, sz) ← PrepareBuf cnt num_nodes (itr st) (mybuf st);
  data ← rd_range buf 0 (sz * sizeof_word);
  Ret (MapState (s32 (turns st + 1)) rest buf (dealt st ++ [(dest, 0, data)]) (selects st)).

(** The loop, for what the calls of [select] report; [select] does not fail. *)
Fixpoint deal_loop (fuel : nat) (cnt num_nodes self_node_id : Z) (ready : nat -> Z -> bool)
    (st : map_state) : outcome map_state :=
  match itr st with
  | [] => Ret st
  | _ =>
      match fuel with
      | O => NoFuel
      | S fuel =>
          if Z.rem (turns st) num_nodes =? self_node_id then
            st ← deal cnt num_nodes self_node_id st;
            deal_loop fuel cnt num_nodes self_node_id ready st
          else
            let fds := ready (selects st) in
            let st := MapState (turns st) (itr st) (mybuf st) (dealt st) (S (selects st)) in
            st ← for_range 0 num_nodes (fun i st =>
              if i =? self_node_id then Ret st
              else if fds i then deal cnt num_nodes i st else Ret st) st;
            deal_loop fuel cnt num_nodes self_node_id ready st
      end
  end.

(** [Map] and [_Map] up to the wait: all messages. *)
Definition Map (fuel : nat) (num_nodes self_node_id tid : Z) (ready : nat -> Z -> bool)
    (in_map : list (K * V)) (buf : list Z) : outcome (list (Z * Z * list Z)) :=
  st ← deal_loop fuel (zlen in_map) num_nodes self_node_id ready (MapState 0 in_map buf [] 0);
  for_range 0 num_nodes (fun i msgs => Ret (msgs ++ [(i, tid, [])])) (dealt st).
End ops.
End DMapReduce.

(** * [DFunctionMapReduce] *)

Module DFunctionMapReduce.
Section class.
Context {K V OK OV X : Type} `{Countable OK}.
Context (MapFunc : K -> V -> gmap OK (list OV) -> outcome (gmap OK (list OV))).
Context (ReduceFunc : OK -> list OV -> X -> outcome X).
(** [nullptr] is [None]. *)
Context (LocalReduceDoneFunc : option (X -> outcome X)).

Definition hasGlobalReduce : bool := if LocalReduceDoneFunc then true else false.
Definition DoMap (key : K) (value : V) (localmap : gmap OK (list OV)) := MapFunc key value localmap.
Definition DoReduce (key : OK) (values : list OV) (x : X) : outcome X := ReduceFunc key values x.

(** [LocalReduceDone], which overrides nothing; [DoGlobalReduce] is [DMapReduce]'s. *)
Definition LocalReduceDone (x : X) : outcome X :=
  match LocalReduceDoneFunc with Some f => f x | None => Abort end.
Definition DoGlobalReduce (x : X) : outcome X := Ret x.
End class.
End DFunctionMapReduce.
