(* ===== verification/MapReduceFacts.v ===== *)
(** What the serializers write they read back, and [Map] hands every pair of its input
    to [DoMap] on one node, once. *)
From S2P Require Import Prelude Handshake Accumulator MapReduce.

#[local] Arguments bytes_of_word : simpl never.
#[local] Arguments zlen : simpl never.

(** * Buffers in parts *)

Lemma zlen_bytes_of_word w : zlen (bytes_of_word w) = 4.
Proof. done. Qed.

Lemma word_at_split pre post w i : zlen pre = 4 * i -> is_u32 w ->
  word_at (pre ++ bytes_of_word w ++ post) i = Ret w.
Proof.
  intros Hp Hw. unfold word_at. rewrite (rd_range_split pre) by done. cbn [mbind outcome_bind].
  unfold bytes_of_word. f_equal. by apply word_of_bytes.
Qed.

Lemma drop_split {A} (pre post : list A) i : zlen pre = i -> drop (Z.to_nat i) (pre ++ post) = post.
Proof. intros <-. unfold zlen. by rewrite Nat2Z.id, drop_app_length. Qed.

(** * Laws *)

(** [enc] is what a serializer reads as [x], wherever it stands. *)
Definition encodes {T} `{InputSerializer T} (x : T) (enc : list Z) : Prop :=
  zlen enc = 4 * GetSize x /\
  forall pre post i, 0 <= i -> zlen pre = 4 * i -> exists enc', zlen enc' = zlen enc /\
    Deserialize (pre ++ enc ++ post) i = Ret (pre ++ enc' ++ post, x, GetSize x).

Class SerializerLaws (T : Type) `{InputSerializer T} := {
  ser_ok : T -> Prop;
  ser_size : forall x, ser_ok x -> 1 <= GetSize x < 2 ^ 31;
  ser_law : forall x, ser_ok x -> forall pre hole post i, 0 <= i -> zlen pre = 4 * i ->
    zlen hole = 4 * GetSize x -> exists enc,
    Serialize x (pre ++ hole ++ post) i = Ret (pre ++ enc ++ post, GetSize x) /\ encodes x enc;
}.

Lemma cell_divide_bounds a : 0 <= a -> a <= 4 * cell_divide a < a + 4.
Proof.
  intros Ha. unfold cell_divide. pose proof (Z.div_mod a 4 ltac:(lia)). pose proof (Z.mod_pos_bound a 4 ltac:(lia)).
  destruct (Z.eqb_spec (a mod 4) 0); lia.
Qed.

#[export] Program Instance int_laws : SerializerLaws Z := {| ser_ok x := - 2 ^ 31 <= x < 2 ^ 31 |}.
Next Obligation. done. Qed.
Next Obligation.
  intros x Hx pre hole post i Hi Hp Hh. cbn beta in Hx. exists (bytes_of_word (u32 x)). split.
  - cbn. unfold wr_word. rewrite wr_range_split by done. done.
  - split; [done|]. intros pre' post' i' Hi' Hp'. exists (bytes_of_word (u32 x)). split; [done|].
    cbn [Deserialize int_serializer]. rewrite word_at_split by (done || apply u32_range).
    cbn [mbind outcome_bind]. replace (s32 (u32 x)) with x; [done|].
    unfold s32, u32. rewrite Zplus_mod_idemp_l. rewrite Z.mod_small; lia.
Qed.

#[export] Program Instance string_laws : SerializerLaws cstring :=
  {| ser_ok s := 0 ∉ chars s /\ zlen (chars s) < 2 ^ 31 |}.
Next Obligation.
  intros [s] [Hs Hl]. cbn in *. unfold cstring_size. pose proof (zlen_nonneg s).
  rewrite (u32_small (zlen s + 1)) by ranges. pose proof (cell_divide_bounds (zlen s + 1) ltac:(lia)).
  rewrite u32_small by ranges. lia.
Qed.
Next Obligation.
  intros [s] [Hs Hl] pre hole post i Hi Hp. cbn in *. unfold cstring_size. pose proof (zlen_nonneg s).
  rewrite !(u32_small (zlen s)), !(u32_small (zlen s + 1)) by ranges.
  pose proof (cell_divide_bounds (zlen s + 1) ltac:(lia)) as Hc. set (n := cell_divide (zlen s + 1)) in *.
  rewrite u32_small by ranges. intros Hh.
  destruct (zlen_split hole 4) as (h0 & h1 & -> & Hh0); [lia|].
  destruct (zlen_split h1 (zlen s)) as (h2 & h3 & -> & Hh2); [rewrite zlen_app in Hh; lia|].
  rewrite !zlen_app in Hh. destruct h3 as [|b h3]; [unfold zlen in Hh at 3; cbn in Hh; lia|].
  exists (bytes_of_word (zlen s) ++ s ++ b :: h3). split.
  - unfold wr_word. rewrite <- !app_assoc. rewrite wr_range_split by done. cbn [mbind outcome_bind].
    rewrite app_assoc. rewrite wr_range_split; [|rewrite zlen_app, zlen_bytes_of_word; lia|done]. cbn [mbind outcome_bind].
    by rewrite <- !app_assoc.
  - split.
    { cbn. unfold cstring_size. rewrite (u32_small (zlen s + 1)) by ranges. fold n. rewrite (u32_small (n + 1)) by ranges.
      rewrite !zlen_app, zlen_bytes_of_word. lia. }
    intros pre' post' i' Hi' Hp'. exists (bytes_of_word (zlen s) ++ s ++ 0 :: h3). split.
    { rewrite !zlen_app. done. }
    cbn [Deserialize string_serializer GetSize chars]. unfold cstring_size.
    rewrite (u32_small (zlen s + 1)) by ranges. fold n. rewrite (u32_small (n + 1)) by ranges.
    rewrite <- !app_assoc. rewrite word_at_split by (done || ranges). cbn [mbind outcome_bind].
    assert (forall c, pre' ++ bytes_of_word (zlen s) ++ s ++ c :: h3 ++ post' = ((pre' ++ bytes_of_word (zlen s)) ++ s) ++ c :: h3 ++ post') as Eq
      by (intros; by rewrite <- !app_assoc).
    cbn [app]. rewrite Eq, wr_split by (rewrite !zlen_app, zlen_bytes_of_word; lia). cbn [mbind outcome_bind].
    rewrite <- Eq. rewrite app_assoc, drop_split by (rewrite zlen_app, zlen_bytes_of_word; lia).
    rewrite c_string_app by done. cbn [mbind outcome_bind]. rewrite Z.eqb_refl. cbn [c_assert mbind outcome_bind].
    rewrite (u32_small (zlen s + 1)) by ranges. fold n. rewrite (u32_small (n + 1)) by ranges. by rewrite <- !app_assoc.
Qed.

Section vector.
Context {T : Type} `{SerializerLaws T}.

Definition sizes (l : list T) : Z := foldr (fun x n => GetSize x + n) 0 l.

Lemma sizes_len l : Forall ser_ok l -> zlen l <= sizes l.
Proof.
  induction 1 as [|x l Hx _ IH]; [done|]. cbn [sizes foldr]. fold (sizes l). pose proof (ser_size x Hx).
  unfold zlen in *. rewrite length_cons. lia.
Qed.

Lemma vector_size_val l : Forall ser_ok l -> 1 + sizes l < 2 ^ 31 -> vector_size l = 1 + sizes l.
Proof.
  intros Hl Hs. unfold vector_size.
  assert (forall l x, Forall ser_ok l -> 0 <= x -> x + sizes l < 2 ^ 31 ->
    foldl (fun size i => s32 (size + GetSize i)) x l = x + sizes l) as Hgen.
  { clear l Hl Hs. intros l x Hl. revert x. induction Hl as [|y l Hy Hl IH]; intros x Hx Hs; cbn [foldl sizes foldr] in *; [lia|].
    pose proof (ser_size y Hy). pose proof (sizes_len l Hl). pose proof (zlen_nonneg l). fold (sizes l) in *.
    rewrite s32_small by lia. rewrite IH by lia. lia. }
  pose proof (sizes_len l Hl). pose proof (zlen_nonneg l).
  rewrite Hgen by (done || lia). rewrite u32_small by ranges. lia.
Qed.

Lemma vector_writes l pre hole post cur : Forall ser_ok l -> 0 <= cur -> zlen pre = 4 * cur ->
  zlen hole = 4 * sizes l -> exists encs, Forall2 encodes l encs /\
  for_each l (fun x '(buf, cur) => '(buf, n) ← Serialize x buf cur; Ret (buf, cur + n)) (pre ++ hole ++ post, cur) =
    Ret (pre ++ concat encs ++ post, cur + sizes l).
Proof.
  intros Hl. revert pre hole cur. induction Hl as [|x l Hx Hl IH]; intros pre hole cur Hc Hp Hh; cbn [sizes foldr] in Hh.
  - exists []. split; [constructor|]. cbn. rewrite Z.add_0_r. by destruct hole.
  - fold (sizes l) in Hh. pose proof (ser_size x Hx). pose proof (sizes_len l Hl). pose proof (zlen_nonneg l).
    destruct (zlen_split hole (4 * GetSize x)) as (h0 & h1 & -> & Hh0); [lia|]. rewrite zlen_app in Hh.
    destruct (ser_law x Hx pre h0 (h1 ++ post) cur) as (enc & E & Henc); [done..|].
    destruct (IH (pre ++ enc) h1 (cur + GetSize x)) as (encs & Hencs & E2);
      [lia|rewrite zlen_app, (proj1 Henc); lia|lia|].
    exists (enc :: encs). split; [by constructor|]. cbn [for_each concat sizes foldr]. fold (sizes l).
    rewrite <- app_assoc, E. cbn [mbind outcome_bind]. rewrite app_assoc, E2. rewrite <- !app_assoc. by rewrite Z.add_assoc.
Qed.

Lemma vector_reads l encs pre post i cnt out lo : Forall ser_ok l -> Forall2 encodes l encs ->
  0 <= i -> 0 <= cnt -> cnt + sizes l < 2 ^ 32 -> zlen pre = 4 * (i + cnt) -> exists enc', zlen enc' = 4 * sizes l /\
  count_loop (length l) lo (fun _ '(buf, out, cnt) => '(buf, tmp, n) ← Deserialize buf (i + cnt);
      Ret (buf, out ++ [tmp], u32 (cnt + n))) (pre ++ concat encs ++ post, out, cnt) =
    Ret (pre ++ enc' ++ post, out ++ l, cnt + sizes l).
Proof.
  intros Hl He Hi. revert pre cnt out lo Hl. induction He as [|x enc l encs [Hlen Hdec] He IH]; intros pre cnt out lo Hl Hc Hs Hp.
  - exists []. cbn. rewrite Z.add_0_r, app_nil_r. done.
  - inversion Hl as [|? ? Hx Hl']; subst. cbn [sizes foldr] in *. fold (sizes l) in *.
    pose proof (ser_size x Hx). pose proof (sizes_len l Hl'). pose proof (zlen_nonneg l).
    destruct (Hdec pre (concat encs ++ post) (i + cnt)) as (e1 & He1 & E); [lia|done|].
    destruct (IH (pre ++ e1) (cnt + GetSize x) (out ++ [x]) (lo + 1)) as (e2 & He2 & E2); [done|lia|lia|rewrite zlen_app; lia|].
    exists (e1 ++ e2). split; [rewrite zlen_app; lia|]. cbn [length count_loop concat].
    rewrite <- app_assoc, E. cbn [mbind outcome_bind]. rewrite u32_small by ranges.
    rewrite app_assoc, E2. rewrite <- !app_assoc. by rewrite Z.add_assoc.
Qed.

#[export] Program Instance vector_laws : SerializerLaws (list T) :=
  {| ser_ok l := Forall ser_ok l /\ 1 + sizes l < 2 ^ 31 |}.
Next Obligation.
  intros l [Hl Hs]. cbn. rewrite vector_size_val by done. pose proof (sizes_len l Hl). pose proof (zlen_nonneg l). lia.
Qed.
Next Obligation.
  intros l [Hl Hs] pre hole post i Hi Hp. cbn. rewrite vector_size_val by done. intros Hh.
  pose proof (sizes_len l Hl). pose proof (zlen_nonneg l). rewrite (u32_small (zlen l)) by ranges.
  destruct (zlen_split hole 4) as (h0 & h1 & -> & Hh0); [lia|]. rewrite zlen_app in Hh.
  destruct (vector_writes l (pre ++ bytes_of_word (zlen l)) h1 post (i + 1)) as (encs & Hencs & E);
    [done|lia|rewrite zlen_app, zlen_bytes_of_word; lia|lia|].
  assert (zlen (concat encs) = 4 * sizes l) as Hce.
  { clear -Hencs. induction Hencs as [|x enc l encs [Hx _] _ IH]; [done|]. cbn [concat sizes foldr]. fold (sizes l).
    rewrite zlen_app. lia. }
  exists (bytes_of_word (zlen l) ++ concat encs). split.
  - unfold wr_word. rewrite <- app_assoc. rewrite wr_range_split by done. cbn [mbind outcome_bind].
    rewrite app_assoc, E. cbn [mbind outcome_bind]. by rewrite <- !app_assoc.
  - split; [cbn; rewrite vector_size_val by done; rewrite zlen_app, zlen_bytes_of_word; lia|].
    intros pre' post' i' Hi' Hp'.
    destruct (vector_reads l encs (pre' ++ bytes_of_word (zlen l)) post' i' 1 [] 0) as (enc' & Hl' & E');
      [done|done|lia|lia|lia|rewrite zlen_app, zlen_bytes_of_word; lia|].
    exists (bytes_of_word (zlen l) ++ enc'). split; [rewrite !zlen_app; lia|].
    cbn [Deserialize vector_serializer GetSize]. rewrite vector_size_val by done.
    rewrite <- app_assoc, word_at_split by (done || ranges). cbn [mbind outcome_bind].
    unfold for_range. rewrite Z.sub_0_r. replace (Z.to_nat (zlen l)) with (length l) by (unfold zlen; lia).
    rewrite app_assoc, E'. by rewrite <- !app_assoc.
Qed.
End vector.

(** * Messages *)

Section map.
Context {K V OK OV : Type} `{SerializerLaws K} `{SerializerLaws V} `{Countable OK}.
Context (DoMap : K -> V -> gmap OK (list OV) -> outcome (gmap OK (list OV))).
Implicit Types (ps itr : list (K * V)).

Lemma buflen_val : DMapReduce.buflen = 4096.
Proof. reflexivity. Qed.

Definition pair_size (p : K * V) : Z := GetSize (fst p) + GetSize (snd p).
Definition pair_ok (p : K * V) : Prop := ser_ok (fst p) /\ ser_ok (snd p) /\ pair_size p <= DMapReduce.buflen.

Inductive pairs_enc : list (K * V) -> list Z -> Prop :=
| enc_nil : pairs_enc [] []
| enc_cons k v ps ek ev rest : pair_ok (k, v) -> encodes k ek -> encodes v ev -> pairs_enc ps rest ->
    pairs_enc ((k, v) :: ps) (ek ++ ev ++ rest).

Lemma pair_size_pos p : pair_ok p -> 2 <= pair_size p <= DMapReduce.buflen.
Proof. intros (Hk & Hv & Hs). pose proof (ser_size _ Hk). pose proof (ser_size _ Hv). unfold pair_size in *. lia. Qed.

(** The words of an encoding. *)
Lemma pairs_enc_len ps data : pairs_enc ps data -> exists n, zlen data = 4 * n /\ zlen ps <= n /\ 0 <= n.
Proof.
  induction 1 as [|k v ps ek ev rest Hp Hk Hv _ (n & Hn & Hps & Hn0)]; [by exists 0|].
  pose proof (pair_size_pos _ Hp) as Hsz. unfold pair_size in Hsz. cbn in Hsz. exists (GetSize k + GetSize v + n).
  rewrite !zlen_app, (proj1 Hk), (proj1 Hv). unfold zlen in *. rewrite length_cons. split; [lia|]. split; lia.
Qed.

Definition map_pairs (ps : list (K * V)) (m : gmap OK (list OV)) : outcome (gmap OK (list OV)) :=
  for_each ps (fun p m => DoMap (fst p) (snd p) m) m.

Lemma decode_spec pre ek ev rest k v i len : pair_ok (k, v) -> encodes k ek -> encodes v ev ->
  0 <= i -> zlen pre = 4 * i -> pair_size (k, v) <= len -> exists ek' ev', zlen ek' = zlen ek /\ zlen ev' = zlen ev /\
  DMapReduce.DecodeKeyValue (pre ++ ek ++ ev ++ rest) i len = Ret (pre ++ ek' ++ ev' ++ rest, k, v, pair_size (k, v)).
Proof.
  intros (Hok1 & Hok2 & Hsz) Hk Hv Hi Hpre Hlen. unfold pair_size in *. cbn [fst snd] in *.
  pose proof Hk as [Hkl Hkd]. pose proof Hv as [Hvl Hvd]. rewrite buflen_val in Hsz.
  pose proof (ser_size k Hok1). pose proof (ser_size v Hok2). unfold DMapReduce.DecodeKeyValue.
  destruct (Hkd pre (ev ++ rest) i) as (ek' & Hek & Ek); [done..|]. rewrite Ek. cbn [mbind outcome_bind].
  rewrite c_assert_true by lia. cbn [mbind outcome_bind].
  destruct (Hvd (pre ++ ek') rest (i + GetSize k)) as (ev' & Hev & Ev); [lia|rewrite zlen_app; lia|].
  rewrite app_assoc, Ev. cbn [mbind outcome_bind]. rewrite u32_small by ranges. rewrite c_assert_true by lia.
  exists ek', ev'. by rewrite <- !app_assoc.
Qed.

Lemma receive_loop ps data word_len : pairs_enc ps data -> word_len <= 4096 -> forall pre i fuel m, 0 <= i ->
  zlen pre = 4 * i -> 4 * word_len = zlen (pre ++ data) -> (length ps < fuel)%nat ->
  ('(_, _, outmap) ← while fuel (fun '(_, i, _) => i <? word_len)
    (fun '(word_data, i, outmap) =>
       '(word_data, key, value, readlen) ← DMapReduce.DecodeKeyValue word_data i (u32 (word_len - i));
       outmap ← DoMap key value outmap;
       Ret (word_data, u32 (i + readlen), outmap)) (pre ++ data, i, m);
  Ret outmap) = map_pairs ps m.
Proof.
  intros Henc Hw. induction Henc as [|k v ps ek ev rest Hp Hk Hv Hrest IH]; intros pre i fuel m Hi Hpre Hlen Hf.
  - destruct fuel as [|fuel]; [lia|]. cbn [while]. rewrite zlen_app in Hlen. change (zlen []) with 0 in Hlen.
    rewrite (proj2 (Z.ltb_ge i word_len)) by lia. done.
  - destruct fuel as [|fuel]; [cbn in Hf; lia|]. cbn [while]. rewrite !zlen_app in Hlen.
    destruct (pairs_enc_len _ _ Hrest) as (n & Hn & _ & Hn0). pose proof (pair_size_pos _ Hp) as Hsz.
    unfold pair_size in Hsz. cbn [fst snd] in Hsz. pose proof Hk as [Hkl Hkd]. pose proof Hv as [Hvl Hvd].
    rewrite (proj2 (Z.ltb_lt i word_len)) by lia. rewrite buflen_val in Hsz. rewrite u32_small by ranges.
    destruct (decode_spec pre ek ev rest k v i (word_len - i)) as (ek' & ev' & Hek & Hev & E);
      [done|done|done|done|done|unfold pair_size; cbn [fst snd]; lia|].
    rewrite E. unfold pair_size. cbn [fst snd].
    cbn [mbind outcome_bind map_pairs for_each fst snd]. destruct (DoMap k v m) as [m'| |]; [|done..].
    cbn [mbind outcome_bind]. rewrite u32_small by ranges.
    refine (eq_trans _ (IH (pre ++ ek' ++ ev') (i + (GetSize k + GetSize v)) fuel m' _ _ _ _));
      [by rewrite <- !app_assoc|lia|rewrite !zlen_app; lia|rewrite !zlen_app; lia|cbn in Hf; lia].
Qed.

(** What a node does with a message. *)
Lemma receive ps data m : pairs_enc ps data -> zlen data <= BD_DATA_PROCESS_SIZE ->
  DMapReduce.BaseDoAccumulateDense DoMap data (zlen data) m = map_pairs ps m.
Proof.
  intros Henc Hmax. change BD_DATA_PROCESS_SIZE with 16384 in Hmax. destruct (pairs_enc_len _ _ Henc) as (n & Hn & Hps & Hn0).
  unfold DMapReduce.BaseDoAccumulateDense, sizeof_word. rewrite Hn, (Z.mul_comm 4 n), Z.div_mul by done.
  apply (receive_loop ps data n Henc ltac:(lia) [] 0); [done|done|rewrite app_nil_l; lia|]. unfold zlen in *. lia.
Qed.

Lemma prepare_loop_spec limit itr : Forall pair_ok itr -> forall elements idx pre hole, 0 <= elements ->
  elements < limit -> elements + zlen itr < 2 ^ 32 -> 0 <= idx <= 4096 -> zlen pre = 4 * idx ->
  zlen hole = 16384 - 4 * idx -> exists ps rest enc hole', itr = ps ++ rest /\ pairs_enc ps enc /\
  DMapReduce.prepare_loop limit itr elements idx (pre ++ hole) = Ret (rest, pre ++ enc ++ hole', (4 * idx + zlen enc) / 4) /\
  zlen enc + zlen hole' = zlen hole /\ elements + zlen ps <= limit /\ (idx = 0 -> itr <> [] -> ps <> []).
Proof.
  induction 1 as [|[k v] itr Hp Hitr IH]; intros elements idx pre hole He Hlim Hmax Hidx Hpre Hhole; cbn [DMapReduce.prepare_loop].
  - exists [], [], [], hole. split; [done|]. split; [constructor|]. rewrite Z.mul_comm, Z.add_0_r, Z.div_mul by done.
    split; [done|]. split; [done|]. split; [change (zlen (@nil (K * V))) with 0; lia|done].
  - pose proof (pair_size_pos _ Hp) as Hsz. unfold pair_size in Hsz. rewrite buflen_val in *. cbn [fst snd] in Hsz.
    pose proof Hp as (Hok1 & Hok2 & _). cbn [fst snd] in Hok1, Hok2. pose proof (ser_size k Hok1). pose proof (ser_size v Hok2).
    assert (zlen ((k, v) :: itr) = 1 + zlen itr) as Hl1 by (unfold zlen; rewrite length_cons; lia). pose proof (zlen_nonneg itr).
    assert (0 < idx -> exists ps rest enc hole', (k, v) :: itr = ps ++ rest /\ pairs_enc ps enc /\
      Ret ((k, v) :: itr, pre ++ hole, idx) = Ret (rest, pre ++ enc ++ hole', (4 * idx + zlen enc) / 4) /\
      zlen enc + zlen hole' = zlen hole /\ elements + zlen ps <= limit /\ (idx = 0 -> (k, v) :: itr <> [] -> ps <> [])) as Hstop.
    { intros Hpos. exists [], ((k, v) :: itr), [], hole. split; [done|]. split; [constructor|].
      change (zlen (@nil Z)) with 0. change (zlen (@nil (K * V))) with 0.
      rewrite (Z.mul_comm 4), Z.add_0_r, Z.div_mul by done. split; [done|]. split; [done|]. split; [lia|]. intros ->. lia. }
    rewrite (u32_small (GetSize k + GetSize v)) by ranges. rewrite (u32_small (idx + _)) by ranges.
    destruct (Z.ltb_spec idx 4096); [|apply Hstop; lia].
    destruct (Z.leb_spec (idx + (GetSize k + GetSize v)) 4096); [|apply Hstop; lia].
    destruct (zlen_split hole (4 * GetSize k)) as (h0 & h1 & -> & Hh0); [lia|]. rewrite zlen_app in *.
    destruct (zlen_split h1 (4 * GetSize v)) as (h2 & h3 & -> & Hh2); [lia|]. rewrite !zlen_app in *.
    destruct (ser_law k Hok1 pre h0 (h2 ++ h3) idx) as (ek & Ek & Hek); [lia|done|done|].
    rewrite Ek. cbn [mbind outcome_bind].
    rewrite (u32_small (elements + 1)), (u32_small (idx + GetSize k)) by ranges.
    destruct (ser_law v Hok2 (pre ++ ek) h2 h3 (idx + GetSize k)) as (ev & Ev & Hev);
      [lia|rewrite zlen_app, (proj1 Hek); lia|done|].
    rewrite app_assoc, Ev. cbn [mbind outcome_bind]. rewrite u32_small by ranges.
    destruct (Z.leb_spec limit (elements + 1)).
    + exists [(k, v)], itr, (ek ++ ev), h3. split; [done|]. split.
      { rewrite <- (app_nil_r ev). apply enc_cons; [done|done|done|constructor]. }
      rewrite zlen_app, (proj1 Hek), (proj1 Hev).
      replace (4 * idx + (4 * GetSize k + 4 * GetSize v)) with ((idx + GetSize k + GetSize v) * 4) by lia.
      rewrite Z.div_mul by done. rewrite <- !app_assoc. split; [done|]. split; [lia|].
      split; [change (zlen [(k, v)]) with 1; lia|done].
    + destruct (IH (elements + 1) (idx + GetSize k + GetSize v) (pre ++ ek ++ ev) h3) as (ps & rest & enc & h4 & -> & Henc & E & Hz & Hl & _);
        [lia|lia|lia|lia|rewrite !zlen_app, (proj1 Hek), (proj1 Hev); lia|lia|].
      exists ((k, v) :: ps), rest, (ek ++ ev ++ enc), h4. split; [done|]. split; [by apply enc_cons|].
      rewrite !zlen_app, (proj1 Hek), (proj1 Hev). split.
      { rewrite <- !app_assoc in *. rewrite E. do 2 f_equal. f_equal. lia. }
      split; [lia|]. split; [|done]. unfold zlen in *. rewrite length_cons. lia.
Qed.

(** * Dealing *)

(** A message to node [dest] without thread id, that carries [ps]. *)
Definition carries (num_nodes limit : Z) (msg : Z * Z * list Z) ps : Prop :=
  0 <= fst (fst msg) < num_nodes /\ snd (fst msg) = 0 /\ zlen (snd msg) <= BD_DATA_PROCESS_SIZE /\
  pairs_enc ps (snd msg) /\ zlen ps <= limit.

Definition deal_inv (num_nodes limit : Z) (in_map : list (K * V)) (st : DMapReduce.map_state) : Prop :=
  zlen (DMapReduce.mybuf st) = BD_DATA_PROCESS_SIZE /\ exists parts,
    Forall2 (carries num_nodes limit) (DMapReduce.dealt st) parts /\ concat parts ++ DMapReduce.itr st = in_map.

Section loop.
Context (num_nodes self_node_id : Z) (ready : nat -> Z -> bool) (in_map : list (K * V)).
Context (Hnodes : 1 <= num_nodes) (Hself : 0 <= self_node_id < num_nodes) (Hok : Forall pair_ok in_map)
  (Hmax : zlen in_map + 1 < 2 ^ 32)
  (Hready : forall n, 1 < num_nodes -> exists i, 0 <= i < num_nodes /\ i <> self_node_id /\ ready n i = true).
Let limit := zlen in_map / num_nodes + 1.
Let inv := deal_inv num_nodes limit in_map.
Let left (st : DMapReduce.map_state) := length (DMapReduce.itr (K := K) (V := V) st).

Lemma deal_spec dest st : 0 <= dest < num_nodes -> inv st -> exists st',
  DMapReduce.deal (zlen in_map) num_nodes dest st = Ret st' /\ inv st' /\ (left st' <= left st)%nat /\
  (DMapReduce.itr st <> [] -> (left st' < left st)%nat).
Proof.
  intros Hd (Hbuf & parts & Hparts & Hcat). unfold DMapReduce.deal, DMapReduce.PrepareBuf. change BD_DATA_PROCESS_SIZE with 16384 in Hbuf.
  assert (0 < limit) by (unfold limit; pose proof (Z.div_pos (zlen in_map) num_nodes (zlen_nonneg _) ltac:(lia)); lia).
  destruct (prepare_loop_spec limit (DMapReduce.itr st)) with (elements := 0) (idx := 0) (pre := @nil Z) (hole := DMapReduce.mybuf st)
    as (ps & rest & enc & hole' & Eitr & Henc & E & Hlen & Hlim & Hne); [|lia|lia| |lia|done|lia|].
  { rewrite <- Hcat in Hok. by apply Forall_app in Hok as [_ ?]. }
  { rewrite <- Hcat, zlen_app in Hmax. pose proof (zlen_nonneg (concat parts)). lia. }
  cbn [app] in E. fold limit. rewrite E. cbn [mbind outcome_bind].
  destruct (pairs_enc_len _ _ Henc) as (n & Hn & _ & Hn0). pose proof (zlen_nonneg hole').
  replace ((4 * 0 + zlen enc) / 4 * sizeof_word) with (zlen enc).
  2: { rewrite Hn. change sizeof_word with 4. replace (4 * 0 + 4 * n) with (n * 4) by lia. rewrite Z.div_mul; lia. }
  rewrite (rd_range_split [] enc hole') by done. cbn [mbind outcome_bind]. eexists. split; [done|].
  unfold left. cbn. rewrite Eitr, length_app. split; [|split; [lia|]].
  - split; [cbn [DMapReduce.mybuf]; rewrite zlen_app; change BD_DATA_PROCESS_SIZE with 16384; lia|]. exists (parts ++ [ps]). split.
    + apply Forall2_app; [done|]. repeat constructor; cbn; try done; try lia. change BD_DATA_PROCESS_SIZE with 16384. lia.
    + rewrite concat_app. cbn. rewrite app_nil_r, <- app_assoc, <- Eitr. done.
  - intros Hi. destruct ps as [|p ps]; [|cbn; lia]. exfalso. apply Hne; [done|by rewrite Eitr|done].
Qed.

Lemma pass_spec fds st : inv st -> DMapReduce.itr st <> [] ->
  (exists i, 0 <= i < num_nodes /\ i <> self_node_id /\ fds i = true) -> exists st',
  for_range 0 num_nodes (fun i st => if i =? self_node_id then Ret st
    else if fds i : bool then DMapReduce.deal (zlen in_map) num_nodes i st else Ret st) st = Ret st' /\
  inv st' /\ (left st' < left st)%nat.
Proof.
  intros Hst Hne (k & Hk & Hks & Hkf).
  destruct (for_range_rule (fun i st' => inv st' /\ (left st' <= left st)%nat /\ (k < i -> (left st' < left st)%nat)) 0 num_nodes
    (fun i st => if i =? self_node_id then Ret st
      else if fds i then DMapReduce.deal (zlen in_map) num_nodes i st else Ret st) st) as (st' & -> & Hst' & _ & Hlt); [lia| | |].
  - intros i s Hi (Hs & Hle & Hlt). destruct (Z.eqb_spec i self_node_id) as [->|].
    { exists s. split; [done|]. split; [done|]. split; [done|]. intros. apply Hlt. lia. }
    destruct (fds i) eqn:Ef.
    + destruct (deal_spec i s Hi Hs) as (s' & -> & Hs' & Hle' & Hlt'). exists s'. split; [done|]. split; [done|].
      split; [lia|]. intros Hki. destruct (decide (DMapReduce.itr s = [])) as [E|E].
      * unfold left in *. rewrite E in *. cbn in *. destruct (DMapReduce.itr st); [done|cbn; lia].
      * specialize (Hlt' E). lia.
    + exists s. split; [done|]. split; [done|]. split; [done|]. intros Hki. apply Hlt. assert (k <> i) by congruence. lia.
  - split; [done|]. split; [done|]. lia.
  - exists st'. split; [done|]. split; [done|]. apply Hlt. lia.
Qed.

Lemma deal_loop_spec fuel st : inv st -> (left st <= fuel)%nat -> exists st',
  DMapReduce.deal_loop fuel (zlen in_map) num_nodes self_node_id ready st = Ret st' /\ inv st' /\ DMapReduce.itr st' = [].
Proof.
  revert st. induction fuel as [|fuel IH]; intros st Hst Hf; cbn [DMapReduce.deal_loop];
    destruct (DMapReduce.itr st) as [|p l] eqn:El; [by exists st| |by exists st|].
  { unfold left in Hf. rewrite El in Hf. cbn in Hf. lia. }
  assert (DMapReduce.itr st <> []) as Hne by congruence.
  destruct (Z.eqb_spec (Z.rem (DMapReduce.turns st) num_nodes) self_node_id) as [_|Hrem].
  - destruct (deal_spec self_node_id st Hself Hst) as (st' & -> & Hst' & _ & Hlt). specialize (Hlt Hne).
    cbn [mbind outcome_bind]. apply IH; [done|lia].
  - assert (1 < num_nodes) as H1n.
    { destruct (Z.eq_dec num_nodes 1) as [E1|]; [|lia]. rewrite E1, Z.rem_1_r in Hrem. lia. }
    match goal with |- context [for_range _ _ _ ?s0] => destruct (pass_spec (ready (DMapReduce.selects st)) s0) as (st' & -> & Hst' & Hlt) end.
    + rewrite <- El. exact Hst.
    + done.
    + by apply Hready.
    + cbn [mbind outcome_bind]. apply IH; [done|]. unfold left in *. rewrite El in Hf. cbn in Hlt, Hf. lia.
Qed.
End loop.

(** [Map] deals every pair of its input out in exactly one message, in order, to a
    node of the cluster, a fair share at most in each, and then tells every node once that
    this thread is done; a node that gets a message applies [DoMap] to the pairs it carries,
    in order, whatever its map holds. This for any serializable keys and values whose pairs
    fit a message, whatever [select] reports as long as some connection is ready. *)
Theorem map_delivers num_nodes self_node_id tid ready in_map buf :
  1 <= num_nodes -> 0 <= self_node_id < num_nodes -> Forall pair_ok in_map -> zlen in_map + 1 < 2 ^ 32 ->
  (forall n, 1 < num_nodes -> exists i, 0 <= i < num_nodes /\ i <> self_node_id /\ ready n i = true) ->
  zlen buf = BD_DATA_PROCESS_SIZE -> exists msgs parts,
  DMapReduce.Map (length in_map) num_nodes self_node_id tid ready in_map buf =
    Ret (msgs ++ ((fun i => (i, tid, [])) <$> seqZ 0 num_nodes)) /\
  concat parts = in_map /\
  Forall2 (fun '(dest, th, data) ps => 0 <= dest < num_nodes /\ th = 0 /\ zlen ps <= zlen in_map / num_nodes + 1 /\
    forall m, DMapReduce.BaseDoAccumulateDense DoMap data (zlen data) m = map_pairs ps m) msgs parts.
Proof.
  intros Hn Hs Hok Hmax Hready Hbuf. unfold DMapReduce.Map.
  destruct (deal_loop_spec num_nodes self_node_id ready in_map Hn Hs Hok Hmax Hready (length in_map)
    (DMapReduce.MapState 0 in_map buf [] 0)) as (st & -> & (_ & parts & Hparts & Hcat) & Hitr); [|done|].
  { split; [done|]. exists []. split; [constructor|done]. }
  cbn [mbind outcome_bind]. exists (DMapReduce.dealt st), parts. split; [|split].
  - destruct (for_range_rule (fun i msgs => msgs = DMapReduce.dealt st ++ ((fun i => (i, tid, [])) <$> seqZ 0 i)) 0 num_nodes
      (fun i msgs => Ret (msgs ++ [(i, tid, [])])) (DMapReduce.dealt st)) as (msgs & -> & ->); [lia| | |done].
    + intros i msgs Hi ->. eexists. split; [done|]. rewrite (seqZ_app 0 i 1) by lia. rewrite fmap_app. cbn. by rewrite app_assoc.
    + cbn. by rewrite app_nil_r.
  - rewrite <- Hcat, Hitr. by rewrite app_nil_r.
  - eapply Forall2_impl; [exact Hparts|]. intros [[dest th] data] ps (Hd & Ht & Hl & Henc & Hlim).
    split; [done|]. split; [done|]. split; [done|]. intros m. by apply receive.
Qed.
End map.

(** The function that [DFunctionMapReduce] is given for the end of a reduction is never
    called: the thread that is started for it does nothing. *)
Lemma done_func_not_called {OK OV X} `{Countable OK} (ReduceFunc : OK -> list OV -> X -> outcome X) (f : X -> outcome X) m x x' m' ts :
  DMapReduce.BaseDoReduce (DFunctionMapReduce.DoReduce ReduceFunc) (DFunctionMapReduce.hasGlobalReduce (Some f))
    DFunctionMapReduce.DoGlobalReduce m x = Ret (m', x', ts) ->
  exists t, ts = [t] /\ forall y, t y = Ret y.
Proof.
  unfold DMapReduce.BaseDoReduce. intros (y & _ & [= <- <- <-])%bind_Ret_inv. cbn.
  eexists. split; [done|]. done.
Qed.

(** * Witness *)

(** Counts the values by the length of the key. *)
Definition sample_DoMap (k : cstring) (v : list Z) (m : gmap Z (list Z)) : outcome (gmap Z (list Z)) :=
  Ret (<[zlen (chars k) := zlen v :: default [] (m !! zlen (chars k))]> m).
Definition sample_pairs : list (cstring * list Z) := [(Str [68; 111], [1; -2; 3]); (Str [], []); (Str [103; 101; 101], [7])].

Lemma sample_pairs_ok : Forall pair_ok sample_pairs.
Proof.
  assert (forall s : cstring * list Z, pair_size s <= 20 -> pair_size s <= DMapReduce.buflen) as Hb by (intros s Hs; rewrite buflen_val; lia).
  (apply Forall_cons_2; [|apply Forall_cons_2; [|apply Forall_cons_2; [|apply Forall_nil_2]]]);
    (split; [cbn; split; [set_solver|done]|split; [cbn; split; [repeat constructor; lia|done]|apply Hb; vm_compute; congruence]]).
Qed.

Lemma map_delivers_witness : exists msgs parts,
  DMapReduce.Map 3 2 0 9 (fun _ _ => true) sample_pairs (replicate 16384 0) = Ret (msgs ++ [(0, 9, []); (1, 9, [])]) /\
  concat parts = sample_pairs /\ length msgs = length parts.
Proof.
  destruct (map_delivers sample_DoMap 2 0 9 (fun _ _ => true) sample_pairs (replicate 16384 0))
    as (msgs & parts & E & Hc & Hm); [lia|lia| |done| |unfold zlen; by rewrite length_replicate|].
  - exact sample_pairs_ok.
  - intros n _. exists 1. repeat split; lia.
  - exists msgs, parts. split; [exact E|]. split; [exact Hc|exact (Forall2_length _ _ _ Hm)].
Defined.
