(* ===== verification/MapReduceRuns.v ===== *)
(** A whole map-reduce over the cluster: what any number of users map reaches the maps of
    the nodes once, in whatever order the messages come, and a reduction hands every value
    out under its key. *)
From S2P Require Import Prelude Handshake Accumulator MapReduce MapReduceFacts.

(** * Maps that are only added to *)

Section push.
Context {OK OV : Type} `{Countable OK}.
Implicit Types (m : gmap OK (list OV)) (es : list (OK * OV)) (ok : OK).

(** [localmap[key].push_back(value)]. *)
Definition push_back (e : OK * OV) m : gmap OK (list OV) := <[fst e := default [] (m !! fst e) ++ [snd e]]> m.
Definition pushes es m : gmap OK (list OV) := foldl (fun m e => push_back e m) m es.

Definition at_key {A} (k : OK) (l : list (OK * A)) : list A :=
  omap (fun e => if decide (fst e = k) then Some (snd e) else None) l.

Lemma at_key_cons {A} k k' (x : A) l : at_key k ((k', x) :: l) = (if decide (k' = k) then [x] else []) ++ at_key k l.
Proof. unfold at_key. cbn. by destruct (decide (k' = k)). Qed.
Lemma at_key_app {A} k (l1 l2 : list (OK * A)) : at_key k (l1 ++ l2) = at_key k l1 ++ at_key k l2.
Proof. apply omap_app. Qed.
#[export] Instance at_key_proper {A} k : Proper ((≡ₚ) ==> (≡ₚ)) (@at_key A k).
Proof. intros l1 l2 Hl. unfold at_key. by rewrite Hl. Qed.

Lemma pushes_app es1 es2 m : pushes (es1 ++ es2) m = pushes es2 (pushes es1 m).
Proof. apply foldl_app. Qed.

Lemma pushes_at es m ok : default [] (pushes es m !! ok) = default [] (m !! ok) ++ at_key ok es.
Proof.
  revert m. induction es as [|[k v] es IH]; intros m; [cbn; by rewrite app_nil_r|].
  change (pushes ((k, v) :: es) m) with (pushes es (push_back (k, v) m)).
  rewrite IH. unfold push_back. cbn. destruct (decide (k = ok)) as [->|Hne].
  - rewrite lookup_insert_eq. cbn. by rewrite <- app_assoc.
  - by rewrite lookup_insert_ne.
Qed.

(** The values that a map hands out under a key. *)
Lemma at_key_none m ok : m !! ok = None -> at_key ok (map_to_list m) = [].
Proof.
  intros Hno. apply elem_of_nil_inv. intros x ([k y] & Hy & Hx)%list_elem_of_omap. cbn in Hx.
  destruct (decide (k = ok)) as [->|]; [|done]. apply elem_of_map_to_list in Hy. by rewrite Hno in Hy.
Qed.

Lemma map_values m ok : concat (at_key ok (map_to_list m)) = default [] (m !! ok).
Proof.
  destruct (m !! ok) as [vs|] eqn:E; [|by rewrite at_key_none].
  assert ([vs] ≡ₚ at_key ok (map_to_list m)) as Hp.
  { rewrite <- (insert_delete_id m ok vs E). rewrite map_to_list_insert by apply lookup_delete_eq.
    rewrite at_key_cons, decide_True by done. by rewrite at_key_none by apply lookup_delete_eq. }
  rewrite (Permutation_length_1_inv Hp). cbn. by rewrite app_nil_r.
Qed.
End push.

(** * Messages to the nodes *)

Section buckets.
Context {A : Type}.
Lemma concat_fmap_perm {B} (f g : B -> list A) l : (forall x, x ∈ l -> f x ≡ₚ g x) -> concat (f <$> l) ≡ₚ concat (g <$> l).
Proof.
  induction l as [|x l IH]; intros Hfg; [done|]. cbn. apply Permutation_app; [apply Hfg; constructor|].
  apply IH. intros y Hy. apply Hfg. by constructor.
Qed.

Implicit Types (f : Z -> list A).

(** One more element in the bucket [d]. *)
Lemma bucket_add f d x lo n : lo <= d < lo + Z.of_nat n ->
  concat ((fun j => if j =? d then x :: f j else f j) <$> seqZ lo (Z.of_nat n)) ≡ₚ x :: concat (f <$> seqZ lo (Z.of_nat n)).
Proof.
  revert lo. induction n as [|n IH]; intros lo Hd; [lia|].
  rewrite seqZ_cons by lia. replace (Z.pred (Z.of_nat (S n))) with (Z.of_nat n) by lia. cbn.
  destruct (Z.eqb_spec lo d) as [->|Hne].
  - cbn. apply Permutation_skip. apply Permutation_app_head. apply reflexive_eq. f_equal.
    apply list_fmap_ext. intros i j Hj. apply lookup_seqZ in Hj. by rewrite (proj2 (Z.eqb_neq j d)) by lia.
  - rewrite IH by lia. by rewrite Permutation_middle.
Qed.
End buckets.

Section cluster.
Context {K V OK OV : Type} `{SerializerLaws K} `{SerializerLaws V} `{Countable OK}.
Context (DoMap : K -> V -> gmap OK (list OV) -> outcome (gmap OK (list OV))) (emit : K -> V -> list (OK * OV)).
(** The application adds to the map what it makes of a pair. *)
Context (Hmap : forall k v m, DoMap k v m = Ret (pushes (emit k v) m)).
#[local] Abbreviation message := (Z * Z * list Z)%type.

Definition emits (ps : list (K * V)) : list (OK * OV) := flat_map (fun p => emit (fst p) (snd p)) ps.

Lemma emits_app ps1 ps2 : emits (ps1 ++ ps2) = emits ps1 ++ emits ps2.
Proof. apply flat_map_app. Qed.

Lemma map_pairs_pushes ps m : map_pairs DoMap ps m = Ret (pushes (emits ps) m).
Proof.
  revert m. induction ps as [|[k v] ps IH]; intros m; [done|]. unfold map_pairs. cbn [for_each fst snd].
  rewrite Hmap. cbn [mbind outcome_bind]. etrans; [apply IH|].
  change (emits ((k, v) :: ps)) with (emit k v ++ emits ps). by rewrite pushes_app.
Qed.

(** The message, wherever it arrives, adds what is made of [ps]. *)
Definition adds (msg : Z * list Z) (ps : list (K * V)) : Prop :=
  forall m, DMapReduce.map_message DoMap msg m = Ret (pushes (emits ps) m).

Lemma map_messages_adds msgs parts m : Forall2 adds msgs parts ->
  DMapReduce.map_messages DoMap msgs m = Ret (pushes (emits (concat parts)) m).
Proof.
  intros Hms. revert m. induction Hms as [|msg ps msgs parts Hmsg _ IH]; intros m; [done|].
  unfold DMapReduce.map_messages. cbn [for_each]. rewrite Hmsg. cbn [mbind outcome_bind].
  etrans; [apply IH|]. cbn [concat]. by rewrite emits_app, pushes_app.
Qed.

(** The messages among [l] for node [j]. *)
Definition to_node (j : Z) (l : list message) : list (Z * list Z) :=
  omap (fun x => if j =? fst (fst x) then Some (snd (fst x), snd x) else None) l.

Lemma split_nodes n l parts : 0 <= n ->
  Forall2 (fun x ps => 0 <= fst (fst x) < n /\ adds (snd (fst x), snd x) ps) l parts ->
  exists f, (forall j, Forall2 adds (to_node j l) (f j)) /\ concat (f <$> seqZ 0 n) ≡ₚ parts.
Proof.
  intros Hn. induction 1 as [|[[d th] data] ps l parts [Hd Hadds] _ (f & Hf & Hp)].
  - exists (fun _ => []). split; [by constructor|]. generalize (seqZ 0 n). induction l; cbn; [done|]. by rewrite IHl.
  - exists (fun j => if j =? d then ps :: f j else f j). split.
    + intros j. unfold to_node. cbn. destruct (j =? d); [constructor; [done|]|]; apply Hf.
    + rewrite <- (Z2Nat.id n) by done. cbn in Hd. rewrite bucket_add by lia. rewrite Z2Nat.id by done. by rewrite Hp.
Qed.

(** ** A user *)

(** A thread that calls [Map]: its node and id, what [select] tells it, its pairs, and
    what its message buffer holds before. *)
Record mr_user := MRUser {
  mu_node : Z;
  mu_tid : Z;
  mu_ready : nat -> Z -> bool;
  mu_map : list (K * V);
  mu_buf : list Z;
}.
Definition mr_user_ok (n : Z) (u : mr_user) : Prop :=
  0 <= mu_node u < n /\ 0 < mu_tid u /\ Forall pair_ok (mu_map u) /\ zlen (mu_map u) + 1 < 2 ^ 32 /\
  (forall k, 1 < n -> exists i, 0 <= i < n /\ i <> mu_node u /\ mu_ready u k i = true) /\ zlen (mu_buf u) = BD_DATA_PROCESS_SIZE.
Definition user_maps (n : Z) (u : mr_user) : outcome (list message) :=
  DMapReduce.Map (length (mu_map u)) n (mu_node u) (mu_tid u) (mu_ready u) (mu_map u) (mu_buf u).

(** What one message does, and the threads that messages name. *)
Definition delivers (n : Z) (x : message) (ps : list (K * V)) : Prop :=
  0 <= fst (fst x) < n /\ adds (snd (fst x), snd x) ps.
Definition named (l : list (Z * list Z)) : list Z := filter (fun t => t <> 0) l.*1.

Lemma to_node_both j l1 l2 : to_node j (l1 ++ l2) = to_node j l1 ++ to_node j l2.
Proof. apply omap_app. Qed.
Lemma named_app l1 l2 : named (l1 ++ l2) = named l1 ++ named l2.
Proof. unfold named. by rewrite fmap_app, filter_app. Qed.

(** The last messages, one to every node. *)
Lemma named_last j tid n : 0 <= j < n -> 0 < tid ->
  named (to_node j ((fun i => (i, tid, [])) <$> seqZ 0 n)) = [tid].
Proof.
  intros Hj Ht. replace n with (j + (1 + (n - j - 1))) by lia.
  rewrite (seqZ_app 0 j), (seqZ_app (0 + j) 1) by lia.
  rewrite !fmap_app, !to_node_both, !named_app.
  assert (forall lo m, (forall i, lo <= i < lo + m -> i <> j) ->
    to_node j ((fun i => (i, tid, [])) <$> seqZ lo m) = []) as Hnone.
  { intros lo m Hm. apply elem_of_nil_inv. intros x (y & Hy & Hx)%list_elem_of_omap.
    apply list_elem_of_fmap in Hy as (i & -> & Hi%elem_of_seqZ). cbn in Hx.
    specialize (Hm i Hi). by rewrite (proj2 (Z.eqb_neq j i)) in Hx by lia. }
  rewrite (Hnone 0 j), (Hnone _ (n - j - 1)) by lia.
  change (seqZ (0 + j) 1) with [0 + (0 + j)]. unfold to_node. cbn [fmap list_fmap omap list_omap fst snd].
  rewrite (proj2 (Z.eqb_eq j _)) by lia. unfold named. cbn. by rewrite decide_True by lia.
Qed.

Lemma user_delivers n u : 1 <= n -> mr_user_ok n u -> exists msgs parts, user_maps n u = Ret msgs /\
  Forall2 (delivers n) msgs parts /\ concat parts = mu_map u /\
  forall j, 0 <= j < n -> named (to_node j msgs) = [mu_tid u].
Proof.
  intros Hn (Hnode & Htid & Hok & Hmax & Hready & Hbuf).
  destruct (map_delivers DoMap n (mu_node u) (mu_tid u) (mu_ready u) (mu_map u) (mu_buf u)) as (msgs & parts & E & Hc & Hm); [done..|].
  exists (msgs ++ ((fun i => (i, mu_tid u, [])) <$> seqZ 0 n)), (parts ++ ((fun _ => []) <$> seqZ 0 n)).
  split; [exact E|]. split; [|split].
  - apply Forall2_app.
    + eapply Forall2_impl; [exact Hm|]. intros [[d th] data] ps (Hd & _ & _ & Hb). split; [done|]. intros m. cbn.
      unfold DMapReduce.map_message. cbn. rewrite <- map_pairs_pushes, <- Hb.
      destruct (Z.eqb_spec (zlen data) 0) as [Hz|]; [|done]. destruct data; [done|unfold zlen in Hz; cbn in Hz; lia].
    + apply Forall2_fmap. apply Forall_Forall2_diag. apply Forall_forall. intros i Hi%elem_of_seqZ.
      split; [cbn; lia|]. by intros m.
  - rewrite concat_app, Hc. enough (concat ((fun _ : Z => [] : list (K * V)) <$> seqZ 0 n) = []) as -> by apply app_nil_r.
    generalize (seqZ 0 n). by induction l.
  - intros j Hj. rewrite to_node_both, named_app, named_last by done.
    enough (named (to_node j msgs) = []) as -> by done. apply elem_of_nil_inv. intros t Ht. apply list_elem_of_filter in Ht as [Hne Ht].
    apply list_elem_of_fmap in Ht as ([t' data] & -> & (y & Hy & Hx)%list_elem_of_omap). cbn in Hne.
    apply list_elem_of_lookup in Hy as [i Hy]. destruct (Forall2_lookup_l _ _ _ _ _ Hm Hy) as (ps & _ & Hps).
    destruct y as [[d th] dt]. destruct Hps as (_ & -> & _). cbn in Hx. destruct (j =? d); congruence.
Qed.

(** ** The round *)

Lemma users_deliver n us : 1 <= n -> Forall (mr_user_ok n) us -> exists mss parts,
  Forall2 (fun u ms => user_maps n u = Ret ms) us mss /\ Forall2 (delivers n) (concat mss) parts /\
  concat parts = concat (mu_map <$> us) /\
  forall j, 0 <= j < n -> named (to_node j (concat mss)) = mu_tid <$> us.
Proof.
  intros Hn. induction 1 as [|u us Hu _ (mss & parts & Hmss & Hd & Hc & Ht)].
  - exists [], []. split; [constructor|]. split; [constructor|]. done.
  - destruct (user_delivers n u Hn Hu) as (ms & ps & E & Hd1 & Hc1 & Ht1). exists (ms :: mss), (ps ++ parts).
    split; [by constructor|]. split; [by apply Forall2_app|]. split.
    + cbn. by rewrite concat_app, Hc1, Hc.
    + intros j Hj. cbn [concat fmap list_fmap]. by rewrite to_node_both, named_app, Ht1, Ht.
Qed.

Lemma found_concat ok (f : Z -> list (list (K * V))) l :
  concat ((fun j => at_key ok (emits (concat (f j)))) <$> l) = at_key ok (emits (concat (concat (f <$> l)))).
Proof.
  induction l as [|j l IH]; [done|]. cbn [fmap list_fmap concat]. rewrite concat_app, emits_app, at_key_app.
  by rewrite <- IH.
Qed.

Lemma found_perm ok (parts parts' : list (list (K * V))) : parts ≡ₚ parts' ->
  at_key ok (emits (concat parts)) ≡ₚ at_key ok (emits (concat parts')).
Proof. intros Hp. unfold emits. apply at_key_proper. apply Permutation_flat_map. by rewrite Hp. Qed.

(** A [DoReduce] that records its calls. *)
Definition record (k : OK) (vs : list OV) (log : list (OK * list OV)) : outcome (list (OK * list OV)) := Ret (log ++ [(k, vs)]).

Lemma record_all (l log : list (OK * list OV)) :
  for_each l (fun itr x => record (fst itr) (snd itr) x) log = Ret (log ++ l).
Proof.
  revert log. induction l as [|[k vs] l IH]; intros log; [cbn; by rewrite app_nil_r|]. cbn.
  rewrite IH. by rewrite <- app_assoc.
Qed.

(** The map and the calls of node [j], when it got the messages in [received]. *)
Definition node_round (hasG : bool) (G : list (OK * list OV) -> outcome (list (OK * list OV))) (received : list (Z * list Z)) :
    outcome (gmap OK (list OV) * list (OK * list OV) * list (list (OK * list OV) -> outcome (list (OK * list OV)))) :=
  m ← DMapReduce.map_messages DoMap received (DMapReduce.AllocLocalBuffer 0);
  DMapReduce.BaseDoReduce record hasG G m [].

Lemma node_round_spec hasG G received parts : Forall2 adds received parts -> exists log,
  node_round hasG G received = Ret (∅, log, if hasG then [G] else []) /\ NoDup log.*1 /\
  forall ok, concat (at_key ok log) = at_key ok (emits (concat parts)).
Proof.
  intros Hr. unfold node_round. rewrite (map_messages_adds _ _ _ Hr). cbn [mbind outcome_bind].
  unfold DMapReduce.BaseDoReduce. rewrite record_all. cbn [mbind outcome_bind app]. eexists. split; [done|].
  split; [apply NoDup_fst_map_to_list|]. intros ok. rewrite map_values, pushes_at. unfold DMapReduce.AllocLocalBuffer.
  by rewrite lookup_empty.
Qed.

(** C10. A map-reduce over [n] nodes: any users on any nodes call [Map], every call gives all
    its messages out, and every node takes the messages for it in any order; then the
    reduction. On every node [DoReduce] is called once for each key of its map; over all
    nodes it gets under every key exactly the values that the users' pairs were mapped to,
    each once; every node has been told by every user once that it is done; and every
    map is empty again for the next round. *)
Theorem map_reduce_all n us hasG G : 1 <= n -> Forall (mr_user_ok n) us -> exists mss,
  Forall2 (fun u ms => user_maps n u = Ret ms) us mss /\
  forall received : Z -> list (Z * list Z), (forall j, 0 <= j < n -> received j ≡ₚ to_node j (concat mss)) ->
  exists handed : Z -> list (OK * list OV),
    (forall j, 0 <= j < n -> node_round hasG G (received j) = Ret (∅, handed j, if hasG then [G] else []) /\
       NoDup (handed j).*1 /\ named (received j) ≡ₚ mu_tid <$> us) /\
    forall ok, concat ((fun j => concat (at_key ok (handed j))) <$> seqZ 0 n) ≡ₚ at_key ok (emits (concat (mu_map <$> us))).
Proof.
  intros Hn Hus. destruct (users_deliver n us Hn Hus) as (mss & parts & Hmss & Hd & Hc & Ht).
  exists mss. split; [done|]. intros received Hrec. destruct (split_nodes n _ _ ltac:(lia) Hd) as (f & Hf & Hp).
  set (handed j := match node_round hasG G (received j) with Ret (_, log, _) => log | _ => [] end). exists handed.
  assert (forall j, 0 <= j < n -> node_round hasG G (received j) = Ret (∅, handed j, if hasG then [G] else []) /\
    NoDup (handed j).*1 /\ forall ok, concat (at_key ok (handed j)) ≡ₚ at_key ok (emits (concat (f j)))) as Hh.
  { intros j Hj. destruct (Permutation_Forall2 (Permutation_sym (Hrec j Hj)) (Hf j)) as (fj & Hfj & Hr).
    destruct (node_round_spec hasG G _ _ Hr) as (log & E & Hnd & Hv). unfold handed. rewrite E. split; [done|]. split; [done|].
    intros ok. rewrite Hv. by apply found_perm. }
  split.
  - intros j Hj. destruct (Hh j Hj) as (E & Hnd & _). split; [exact E|]. split; [exact Hnd|].
    rewrite <- (Ht j Hj). unfold named. by rewrite (Hrec j Hj).
  - intros ok. rewrite <- Hc, <- (found_perm ok _ _ Hp), <- found_concat. apply concat_fmap_perm.
    intros j Hj%elem_of_seqZ. by apply Hh.
Qed.
End cluster.

(** * Witness *)

(** The lengths of the values, by the length of the key; the same pairs on two nodes. *)
Definition lengths (k : cstring) (v : list Z) : list (Z * Z) := [(zlen (chars k), zlen v)].
Definition lengths_map (k : cstring) (v : list Z) (m : gmap Z (list Z)) : outcome (gmap Z (list Z)) :=
  Ret (pushes (lengths k v) m).
Definition two_users : list mr_user :=
  [MRUser 0 5 (fun _ _ => true) sample_pairs (replicate 16384 0); MRUser 1 6 (fun _ _ => true) sample_pairs (replicate 16384 0)].

Lemma map_reduce_all_witness : exists mss handed,
  Forall2 (fun u ms => user_maps 2 u = Ret ms) two_users mss /\
  (forall j, 0 <= j < 2 -> node_round lengths_map false Ret (to_node j (concat mss)) = Ret (∅, handed j, [])) /\
  concat ((fun j => concat (at_key 2 (handed j))) <$> [0; 1]) ≡ₚ [3; 3].
Proof.
  destruct (map_reduce_all lengths_map lengths (fun k v m => eq_refl) 2 two_users false Ret) as (mss & E & Hr); [lia| |].
  - assert (forall node tid, 0 <= node < 2 -> 0 < tid ->
      mr_user_ok 2 (MRUser node tid (fun _ _ => true) sample_pairs (replicate 16384 0))) as Hok.
    { intros node tid Hnode Htid. split; [done|]. split; [done|]. split; [exact sample_pairs_ok|]. split; [done|].
      split; [|change (zlen (replicate 16384 0) = BD_DATA_PROCESS_SIZE); unfold zlen; by rewrite length_replicate]. intros k _. exists (1 - node). cbn. repeat split; lia. }
    constructor; [apply Hok; lia|]. constructor; [apply Hok; lia|constructor].
  - destruct (Hr (fun j => to_node j (concat mss)) (fun j _ => Permutation_refl _)) as (handed & Hn & Hv).
    exists mss, handed. split; [exact E|]. split; [intros j Hj; by apply Hn|]. exact (Hv 2).
Defined.
