(* ===== verification/Counting.v ===== *)
(** Counting the elements of a list with a property, sums over the nodes of a cluster, and
    [wr] in terms of lookups: what the two connection meshes share. *)
From S2P Require Import Prelude.

(** * Counting *)

Definition count (f : Z -> bool) (l : list Z) : Z := zlen (List.filter f l).

Lemma count_le f l : count f l <= zlen l.
Proof. unfold count, zlen. pose proof (List.filter_length_le f l). lia. Qed.

Lemma count_cons f x l : count f (x :: l) = (if f x then 1 else 0) + count f l.
Proof. unfold count. cbn. destruct (f x); [rewrite zlen_cons; lia|lia]. Qed.

Lemma count_all f l : count f l = zlen l -> Forall (λ x, f x = true) l.
Proof.
  induction l as [|x l IH]; [by constructor|]. rewrite count_cons, zlen_cons. pose proof (count_le f l). intros H1.
  destruct (f x) eqn:E; [|lia]. constructor; [done|]. apply IH. lia.
Qed.

Lemma count_full f l : Forall (λ x, f x = true) l -> count f l = zlen l.
Proof. induction 1 as [|x l Hx Hl IH]; [done|]. rewrite count_cons, zlen_cons, Hx, IH. lia. Qed.

Lemma count_missing f l x : x ∈ l -> f x = false -> count f l < zlen l.
Proof.
  intros Hx Hf. pose proof (count_le f l). destruct (decide (count f l = zlen l)) as [Heq|]; [|lia].
  apply count_all in Heq. rewrite Forall_forall in Heq. rewrite Heq in Hf by done. done.
Qed.

Lemma count_change f g l x : NoDup l -> x ∈ l -> f x = false -> g x = true -> (forall y, y ∈ l -> y <> x -> f y = g y) ->
  count g l = count f l + 1.
Proof.
  intros Hnd Hx Hf Hg Hsame. induction Hnd as [|y l Hy Hnd IH]; [by apply not_elem_of_nil in Hx|]. rewrite !count_cons.
  apply elem_of_cons in Hx as [->|Hx].
  - rewrite Hf, Hg. assert (count g l = count f l) as ->; [|lia]. clear IH Hnd. induction l as [|z l IH]; [done|].
    apply not_elem_of_cons in Hy as [Hz Hy]. rewrite !count_cons, (Hsame z) by set_solver. rewrite IH; [done|done|set_solver].
  - rewrite IH by set_solver. rewrite (Hsame y); [lia|by left|intros ->; done].
Qed.

Lemma count_same f g l : (forall y, y ∈ l -> f y = g y) -> count f l = count g l.
Proof.
  induction l as [|x l IH]; intros H; [done|]. rewrite !count_cons, H, IH by set_solver. done.
Qed.

(** A sum over the nodes with their ids. *)
Fixpoint node_sum {A} (f : Z -> A -> Z) (i : Z) (l : list A) : Z :=
  match l with [] => 0 | x :: l => f i x + node_sum f (i + 1) l end.

Lemma node_sum_insert {A} (f : Z -> A -> Z) l : forall i k x y, l !! k = Some x ->
  node_sum f i (<[k := y]> l) = node_sum f i l - f (i + Z.of_nat k) x + f (i + Z.of_nat k) y.
Proof.
  induction l as [|z l IH]; intros i [|k] x y Hk; cbn in *; try done.
  - injection Hk as ->. rewrite Z.add_0_r. lia.
  - rewrite (IH _ _ x) by done. replace (i + 1 + Z.of_nat k) with (i + Z.of_nat (S k)) by lia. cbn. lia.
Qed.

Lemma node_sum_wr {A} (f : Z -> A -> Z) (l l' : list A) i x y : l.[i] = Some x -> wr l i y = Ret l' ->
  node_sum f 0 l' = node_sum f 0 l - f i x + f i y.
Proof.
  intros Hx Hw. pose proof (zlook_Some_range _ _ _ Hx). unfold wr in Hw. case_test in Hw; [|done]. injection Hw as <-.
  rewrite (node_sum_insert f l 0 _ x) by (by rewrite <- zlook_lookup by lia). by rewrite Z.add_0_l, Z2Nat.id by lia.
Qed.

(** [wr] in terms of lookups. *)
Lemma wr_look {A} (l l' : list A) i x : wr l i x = Ret l' ->
  zlen l' = zlen l /\ 0 <= i < zlen l /\ forall j, l'.[j] = if j =? i then Some x else l.[j].
Proof.
  intros Hw. assert (0 <= i < zlen l) as Hi by (unfold wr in Hw; case_test in Hw; [lia|done]).
  destruct (wr_ok l i x Hi) as (l2 & E & Hl & Hlook). rewrite E in Hw. injection Hw as <-. done.
Qed.

Lemma node_sum_two {A} (f : Z -> A -> Z) nodes nodes' i j ni nj ni' nj' : i <> j -> nodes.[i] = Some ni -> nodes.[j] = Some nj ->
  zlen nodes' = zlen nodes -> (forall m, nodes'.[m] = if m =? i then Some ni' else if m =? j then Some nj' else nodes.[m]) ->
  node_sum f 0 nodes' = node_sum f 0 nodes - f i ni + f i ni' - f j nj + f j nj'.
Proof.
  intros Hij Hi Hj Hlen K. pose proof (zlook_Some_range _ _ _ Hi). pose proof (zlook_Some_range _ _ _ Hj).
  destruct (wr_ok nodes j nj') as (n1 & W1 & L1 & K1); [done|]. destruct (wr_ok n1 i ni') as (n2 & W2 & L2 & K2); [lia|].
  assert (nodes' = n2) as ->. { apply zlook_ext; [lia|]. intros m _. rewrite K, K2, K1. by destruct (m =? i). }
  rewrite (node_sum_wr f n1 n2 i ni ni'), (node_sum_wr f nodes n1 j nj nj'); [lia|done..| |done].
  by rewrite K1, (proj2 (Z.eqb_neq i j)).
Qed.

(** A search among the nodes. *)
Lemma some_node {A} (p : Z -> A -> bool) nodes :
  (exists k n, nodes.[k] = Some n /\ p k n = true) \/ (forall k n, nodes.[k] = Some n -> p k n = false).
Proof.
  destruct (existsb (λ k, match nodes.[k] with Some n => p k n | None => false end) (seqZ 0 (zlen nodes))) eqn:E.
  - apply existsb_exists in E as (k & _ & Hk). destruct (nodes.[k]) as [n|] eqn:En; [|done]. left. by exists k, n.
  - right. intros k n Hk. destruct (p k n) eqn:Ep; [|done]. pose proof (zlook_Some_range _ _ _ Hk).
    rewrite (proj2 (existsb_exists _ _)) in E; [done|]. exists k. rewrite Hk. split; [|done]. apply list_elem_of_In, elem_of_seqZ. lia.
Qed.

Lemma node_sum_nonneg {A} (f : Z -> A -> Z) l : (forall i x, l.[i] = Some x -> 0 <= f i x) -> 0 <= node_sum f 0 l.
Proof.
  assert (forall k, 0 <= k -> (forall i x, l.[i] = Some x -> 0 <= f (k + i) x) -> 0 <= node_sum f k l) as H; [|by apply (H 0)].
  induction l as [|x l IH]; intros k Hk Hl; [done|]. cbn. pose proof (Hl 0 x eq_refl) as H0. rewrite Z.add_0_r in H0.
  assert (0 <= node_sum f (k + 1) l); [|lia]. apply IH; [lia|]. intros i y Hi.
  pose proof (zlook_Some_range _ _ _ Hi). replace (k + 1 + i) with (k + (i + 1)) by lia. apply Hl.
  rewrite zlook_lookup in Hi |- * by lia. by replace (Z.to_nat (i + 1)) with (S (Z.to_nat i)) by lia.
Qed.
