(* ===== verification/DataConnections.v ===== *)
(** The data connections between the nodes, [AcConnectionManager],
    [AcSlaveInitDataConnections] and the first part of [AcListenData] in
    [Dogee/DogeeAccumulator.cpp]: every slave connects to all nodes before it and
    accepts those behind it. *)
From S2P Require Import Prelude Storage Sync Accumulator.

(** * Connections *)

(** A [SOCKET] is one end of a connection: the node that connected, the node that
    listened, and whether this is the end of the former. *)
Record SOCKET := Sock { client : Z; server : Z; client_end : bool }.

#[export] Instance SOCKET_eq_dec : EqDecision SOCKET.
Proof. solve_decision. Defined.

(** A node: [dataconnections] (0 is [None]), what the listening socket has not accepted
    yet, each with the [param] of the [AcDataHello] that follows it, how many were
    accepted, the next node to connect to, [connection_ok]. *)
Record data_node := DataNode {
  dataconnections : list (option SOCKET);
  backlog : list (SOCKET * Z);
  accepted : Z;
  next_node : Z;
  connection_ok : bool;
}.

Section mesh.
Context (num_nodes : Z).

(** [AcConnectionManager()]. *)
Definition new_data_node : data_node :=
  DataNode (replicate (Z.to_nat (num_nodes - 1)) None) [] 0 0 false.

(** [SetConnection] and [GetConnection] of node [self]. *)
Definition SetConnection (self : Z) (n : data_node) (node_id : Z) (s : option SOCKET) : outcome data_node :=
  i ← nodeid2idx num_nodes self node_id;
  t ← wr (dataconnections n) i s;
  Ret (DataNode t (backlog n) (accepted n) (next_node n) (connection_ok n)).
Definition GetConnection (self : Z) (n : data_node) (node_id : Z) : outcome (option SOCKET) :=
  i ← nodeid2idx num_nodes self node_id; rd (dataconnections n) i.

(** [RcTryConnect]: up to three tries, then the hello. *)
Definition RcTryConnect (tries : list bool) (client server : Z) (target : data_node) : option SOCKET * data_node :=
  if existsb id (take 3 tries) then
    (Some (Sock client server true),
     DataNode (dataconnections target) (backlog target ++ [(Sock client server false, client)]) (accepted target)
       (next_node target) (connection_ok target))
  else (None, target).

(** One turn of [AcSlaveInitDataConnections] on node [i]; [false] when it gives up. *)
Definition connect_turn (tries : list bool) (i : Z) (nodes : list data_node) : outcome (list data_node * bool) :=
  n ← rd nodes i;
  let j := next_node n in
  target ← rd nodes j;
  let '(s, target) := RcTryConnect tries i j target in
  nodes ← wr nodes j target;
  n ← SetConnection i n j s;
  nodes ← wr nodes i (DataNode (dataconnections n) (backlog n) (accepted n) (j + 1) (connection_ok n));
  Ret (nodes, bool_decide (s <> None)).

(** One turn of the loop of [AcListenData] that accepts. *)
Definition accept_turn (i : Z) (n : data_node) : outcome data_node :=
  match backlog n with
  | [] => NoFuel
  | (s, hello) :: b =>
      n ← SetConnection i n hello (Some s);
      Ret (DataNode (dataconnections n) b (accepted n + 1) (next_node n) (connection_ok n))
  end.

(** The loop that waits for the slave's own connections: [connect_done] of one pass. *)
Fixpoint connect_done (self : Z) (n : data_node) (js : list Z) : outcome bool :=
  match js with
  | [] => Ret true
  | j :: js =>
      s ← GetConnection self n j;
      match s with None => Ret false | Some _ => connect_done self n js end
  end.

(** * Runs

    Every node has its listening thread; a slave also runs the loop that connects. *)
Inductive mesh_step : list data_node -> list data_node -> Prop :=
| step_connect tries i n nodes nodes' :
    nodes.[i] = Some n -> next_node n < i ->
    connect_turn tries i nodes = Ret (nodes', true) -> mesh_step nodes nodes'
| step_accept i n n' nodes nodes' :
    nodes.[i] = Some n -> accepted n < num_nodes - 1 - i ->
    accept_turn i n = Ret n' -> wr nodes i n' = Ret nodes' -> mesh_step nodes nodes'
| step_ready i n nodes nodes' :
    nodes.[i] = Some n -> accepted n = num_nodes - 1 - i -> connection_ok n = false ->
    connect_done i n (seqZ 0 i) = Ret true ->
    wr nodes i (DataNode (dataconnections n) (backlog n) (accepted n) (next_node n) true) = Ret nodes' ->
    mesh_step nodes nodes'.

Definition new_mesh : list data_node := replicate (Z.to_nat num_nodes) new_data_node.
End mesh.
