(* ===== verification/DataConnectionsFacts.v ===== *)
(** The data connections come up, and every pair of nodes ends up with the two ends of one
    connection. *)
From S2P Require Import Prelude Storage Sync Accumulator DataConnections Counting.

(** * One node's table *)

Section mesh.
Context (num_nodes : Z).

Definition slot (self k : Z) : Z := if k =? 0 then self - 1 else k - 1.
Definition conn (self : Z) (n : data_node) (k : Z) : option SOCKET := default None ((dataconnections n).[slot self k]).
Definition peer_of (self k : Z) : Prop := 0 <= self < num_nodes /\ 0 <= k < num_nodes /\ k <> self.

Lemma slot_ok self k : peer_of self k -> 0 <= slot self k < num_nodes - 1 /\ nodeid2idx num_nodes self k = Ret (slot self k).
Proof.
  intros (H1 & H2 & H3). unfold nodeid2idx. fold (slot self k).
  assert (0 <= slot self k < num_nodes - 1) as H by (unfold slot; destruct (Z.eqb_spec k 0); lia).
  split; [done|]. by rewrite (proj2 (andb_true_iff _ _)) by lia.
Qed.

Lemma slot_inj self k k' : peer_of self k -> peer_of self k' -> slot self k = slot self k' -> k = k'.
Proof. intros (H1 & H2 & H3) (_ & H4 & H5). unfold slot. destruct (Z.eqb_spec k 0), (Z.eqb_spec k' 0); lia. Qed.

Lemma GetConnection_conn self n k : peer_of self k -> zlen (dataconnections n) = num_nodes - 1 ->
  GetConnection num_nodes self n k = Ret (conn self n k).
Proof.
  intros [Hs E]%slot_ok Hl. unfold GetConnection, conn. rewrite E, bind_ret.
  destruct (zlook_is_Some (dataconnections n) (slot self k)) as [s Es]; [lia|]. by rewrite (rd_ok _ _ _ Es), Es.
Qed.

Lemma SetConnection_conn self n k s : peer_of self k -> zlen (dataconnections n) = num_nodes - 1 -> exists t,
  SetConnection num_nodes self n k s = Ret (DataNode t (backlog n) (accepted n) (next_node n) (connection_ok n)) /\
  zlen t = num_nodes - 1 /\
  forall k' b a j o, peer_of self k' -> conn self (DataNode t b a j o) k' = if k' =? k then s else conn self n k'.
Proof.
  intros Hp Hl. destruct (slot_ok _ _ Hp) as [Hs E]. unfold SetConnection. rewrite E, bind_ret.
  destruct (wr_ok (dataconnections n) (slot self k) s) as (t & -> & Ht & Hlook); [lia|]. rewrite bind_ret.
  exists t. split; [done|]. split; [lia|]. intros k' b a j o Hp'. unfold conn. cbn. rewrite Hlook.
  destruct (Z.eqb_spec k' k) as [->|Hne]; [by rewrite Z.eqb_refl|].
  rewrite (proj2 (Z.eqb_neq _ _)); [done|]. intros Heq. by apply Hne, (slot_inj self).
Qed.

Lemma connect_done_all self n js : (forall j, j ∈ js -> peer_of self j) -> zlen (dataconnections n) = num_nodes - 1 ->
  connect_done num_nodes self n js = Ret (bool_decide (Forall (λ j, conn self n j <> None) js)).
Proof.
  intros Hp Hl. induction js as [|j js IH]; [done|]. cbn. rewrite GetConnection_conn, bind_ret by (done || (apply Hp; set_solver)).
  destruct (conn self n j) eqn:E.
  - rewrite IH by (intros; apply Hp; set_solver). f_equal. apply bool_decide_ext. rewrite Forall_cons. split; [|tauto].
    intros H. split; [congruence|done].
  - rewrite bool_decide_eq_false_2; [done|]. intros [H _]%Forall_cons. done.
Qed.
End mesh.

(** * The invariant *)

Section invariant.
Context (num_nodes : Z).

(** What holds between node [i], which connects, and node [k] before it. *)
Definition pair_inv (i k : Z) (ni nk : data_node) : Prop :=
  let here := (Sock i k false, i) ∈ backlog nk in
  if next_node ni <=? k then conn i ni k = None /\ conn k nk i = None /\ ~ here
  else conn i ni k = Some (Sock i k true) /\
       (here /\ conn k nk i = None \/ ~ here /\ conn k nk i = Some (Sock i k false)).

Definition connected (k : Z) (n : data_node) (i : Z) : bool := bool_decide (conn k n i <> None).
Definition behind (k : Z) : list Z := seqZ (k + 1) (num_nodes - 1 - k).

Record node_inv (k : Z) (n : data_node) : Prop := {
  ni_table : zlen (dataconnections n) = num_nodes - 1;
  ni_next : 0 <= next_node n <= k;
  ni_backlog : forall s h, (s, h) ∈ backlog n -> k < h < num_nodes /\ s = Sock h k false;
  ni_nodup : NoDup (backlog n);
  ni_accepted : accepted n = count (connected k n) (behind k);
  ni_ok : connection_ok n = true -> accepted n = num_nodes - 1 - k /\ next_node n = k;
}.

Record mesh_inv (nodes : list data_node) : Prop := {
  mi_len : zlen nodes = num_nodes;
  mi_node : forall k n, nodes.[k] = Some n -> node_inv k n;
  mi_pair : forall i k ni nk, nodes.[i] = Some ni -> nodes.[k] = Some nk -> k < i -> pair_inv i k ni nk;
}.

Lemma behind_elem k i : i ∈ behind k <-> k < i < num_nodes.
Proof. unfold behind. rewrite elem_of_seqZ. lia. Qed.

Lemma zlen_behind k : 0 <= k < num_nodes -> zlen (behind k) = num_nodes - 1 - k.
Proof. intros H. unfold behind, zlen. rewrite length_seqZ. lia. Qed.

Lemma new_mesh_inv : 0 <= num_nodes -> mesh_inv (new_mesh num_nodes).
Proof.
  intros H0. assert (forall i n, (new_mesh num_nodes).[i] = Some n -> n = new_data_node num_nodes /\ 0 <= i < num_nodes) as Hn.
  { intros i n Hi. pose proof (zlook_Some_range _ _ _ Hi) as Hr. unfold new_mesh in *. unfold zlen in Hr. rewrite length_replicate in Hr.
    rewrite zlook_replicate in Hi by lia. split; [by injection Hi as <-|lia]. }
  assert (forall k i, conn k (new_data_node num_nodes) i = None) as Hc.
  { intros k i. unfold conn, new_data_node. cbn. destruct (_.[_]) as [s|] eqn:E; [|done].
    apply zlook_Forall with (P := λ s, s = None) in E; [by subst|]. apply Forall_replicate. done. }
  split.
  - unfold new_mesh, zlen. rewrite length_replicate. lia.
  - intros k n [-> Hk]%Hn. split; cbn.
    + unfold zlen. rewrite length_replicate. lia.
    + lia.
    + intros s h Hin. by apply elem_of_nil in Hin.
    + constructor.
    + assert (Forall (λ i, connected k (new_data_node num_nodes) i = false) (behind k)) as Hall.
      { apply Forall_forall. intros i _. unfold connected. by rewrite Hc. }
      induction Hall as [|x l Hx Hl IH]; [done|]. rewrite count_cons, Hx, <- IH. done.
    + done.
  - intros i k ni nk [-> Hi]%Hn [-> Hk]%Hn Hlt. unfold pair_inv. cbn. rewrite (proj2 (Z.leb_le 0 k)) by lia.
    rewrite !Hc. repeat split. apply not_elem_of_nil.
Qed.

Lemma pair_inv_ext i k ni nk ni' nk' : (next_node ni' <=? k) = (next_node ni <=? k) -> conn i ni' k = conn i ni k ->
  conn k nk' i = conn k nk i -> ((Sock i k false, i) ∈ backlog nk' <-> (Sock i k false, i) ∈ backlog nk) ->
  pair_inv i k ni nk -> pair_inv i k ni' nk'.
Proof. unfold pair_inv. intros -> -> -> H. destruct (_ <=? _); rewrite !H; done. Qed.

(** A node whose count does not change. *)
Lemma node_inv_keep k n n' : node_inv k n -> zlen (dataconnections n') = num_nodes - 1 -> 0 <= next_node n' <= k ->
  (forall i, k < i < num_nodes -> conn k n' i = conn k n i) -> accepted n' = accepted n ->
  (forall s h, (s, h) ∈ backlog n' -> (s, h) ∈ backlog n \/ k < h < num_nodes /\ s = Sock h k false) -> NoDup (backlog n') ->
  (connection_ok n' = true -> accepted n = num_nodes - 1 - k /\ next_node n' = k) -> node_inv k n'.
Proof.
  intros [H1 H2 H3 H4 H5 H6] Ht Hn Hc Ha Hb Hnd Hok. split; try done.
  - intros s h Hin. destruct (Hb s h Hin) as [Hin'|]; [by apply H3|done].
  - rewrite Ha, H5. apply count_same. intros i Hi%behind_elem. unfold connected. by rewrite Hc.
  - intros Hk. rewrite Ha. by apply Hok.
Qed.

Lemma connect_turn_inv nodes i n tries nodes' : mesh_inv nodes -> nodes.[i] = Some n -> next_node n < i ->
  connect_turn num_nodes tries i nodes = Ret (nodes', true) -> mesh_inv nodes' /\
  exists target n' target', nodes.[next_node n] = Some target /\
    accepted target' = accepted target /\ next_node target' = next_node target /\ connection_ok target' = connection_ok target /\
    accepted n' = accepted n /\ next_node n' = next_node n + 1 /\ connection_ok n' = connection_ok n /\
    zlen nodes' = zlen nodes /\
    forall m, nodes'.[m] = if m =? i then Some n' else if m =? next_node n then Some target' else nodes.[m].
Proof.
  intros [Hlen Hnode Hpair] Hi Hlt Ht. pose proof (zlook_Some_range _ _ _ Hi) as Hir.
  destruct (Hnode i n Hi) as [N1 N2 N3 N4 N5 N6]. set (j := next_node n) in *. unfold connect_turn in Ht.
  rewrite (rd_ok _ _ _ Hi), bind_ret in Ht. fold j in Ht. destruct (zlook_is_Some nodes j) as [target Hj]; [lia|].
  rewrite (rd_ok _ _ _ Hj), bind_ret in Ht. unfold RcTryConnect in Ht.
  assert (peer_of num_nodes i j) as Hp by (unfold peer_of; lia).
  destruct (existsb id (take 3 tries)); apply bind_Ret_inv in Ht as (nodes1 & W1 & Ht); [|
    apply bind_Ret_inv in Ht as (? & _ & Ht); apply bind_Ret_inv in Ht as (? & _ & [=])].
  destruct (SetConnection_conn num_nodes i n j (Some (Sock i j true)) Hp N1) as (t & E & Htl & Hconn).
  rewrite E, bind_ret in Ht. apply bind_Ret_inv in Ht as (nodes2 & W2 & [= <-]). cbn in W2.
  apply wr_look in W1 as (L1 & _ & K1). apply wr_look in W2 as (L2 & _ & K2).
  set (target' := DataNode (dataconnections target) (backlog target ++ [(Sock i j false, i)]) (accepted target)
    (next_node target) (connection_ok target)) in *.
  set (n' := DataNode t (backlog n) (accepted n) (j + 1) (connection_ok n)) in *.
  assert (forall m, nodes2.[m] = if m =? i then Some n' else if m =? j then Some target' else nodes.[m]) as K.
  { intros m. rewrite K2, K1. by destruct (m =? i). }
  assert (forall k, peer_of num_nodes i k -> conn i n' k = if k =? j then Some (Sock i j true) else conn i n k) as Hc'.
  { intros k Hk. by apply Hconn. }
  assert (pair_inv i j n target) as Hij by (apply Hpair; [done|done|lia]).
  unfold pair_inv in Hij. fold j in Hij. rewrite Z.leb_refl in Hij. destruct Hij as (Hij1 & Hij2 & Hij3).
  split; [|exists target, n', target'; repeat split; try done; lia].
  split; [lia| |].
  - intros k m. rewrite K. destruct (Z.eqb_spec k i) as [->|Hki]; [|destruct (Z.eqb_spec k j) as [->|Hkj]; [|apply Hnode]].
    + intros [= <-]. apply (node_inv_keep i n); try done; [cbn; lia| |intros; by left|].
      * intros x Hx. rewrite Hc' by (unfold peer_of; lia). by rewrite (proj2 (Z.eqb_neq x j)) by lia.
      * intros Hok. destruct (N6 Hok). lia.
    + intros [= <-]. destruct (Hnode j target Hj) as [T1 T2 T3 T4 T5 T6]. apply (node_inv_keep j target); try done.
      * intros s h [Hin|Hin%list_elem_of_singleton]%elem_of_app; [by left|right]. injection Hin as -> ->. split; [lia|done].
      * apply NoDup_app. split; [done|]. split; [|apply NoDup_singleton]. intros x Hx ->%list_elem_of_singleton. done.
  - intros a b na nb. rewrite !K. intros Ha Hb Hab.
    destruct (Z.eqb_spec a i) as [->|Hai].
    + injection Ha as <-. rewrite (proj2 (Z.eqb_neq b i)) in Hb by lia. destruct (Z.eqb_spec b j) as [->|Hbj].
      * injection Hb as <-. unfold pair_inv. cbn [next_node backlog n' target']. rewrite (proj2 (Z.leb_gt (j + 1) j)) by lia.
        rewrite Hc', Z.eqb_refl by done. split; [done|]. left. split; [set_solver|exact Hij2].
      * apply (pair_inv_ext i b n nb); [|rewrite Hc' by (unfold peer_of; pose proof (zlook_Some_range _ _ _ Hb); lia);
          by rewrite (proj2 (Z.eqb_neq b j))|done|done|by apply Hpair]. cbn [next_node n']. fold j.
        destruct (Z.leb_spec (j + 1) b), (Z.leb_spec j b); lia.
    + assert (exists na0, nodes.[a] = Some na0 /\ next_node na = next_node na0 /\ dataconnections na = dataconnections na0)
        as (na0 & Ha0 & Hna & Hta).
      { destruct (Z.eqb_spec a j) as [->|]; [|by exists na]. injection Ha as <-. by exists target. }
      assert (conn a na b = conn a na0 b) as Hca by (unfold conn; by rewrite Hta).
      destruct (Z.eqb_spec b i) as [->|Hbi]; [|destruct (Z.eqb_spec b j) as [->|Hbj]].
      * injection Hb as <-. apply (pair_inv_ext a i na0 n); [by rewrite Hna|done| |done|by apply Hpair].
        rewrite Hc' by (unfold peer_of; pose proof (zlook_Some_range _ _ _ Ha0); lia). by rewrite (proj2 (Z.eqb_neq a j)) by lia.
      * injection Hb as <-. apply (pair_inv_ext a j na0 target); [by rewrite Hna|done|done| |by apply Hpair].
        cbn [backlog target']. rewrite elem_of_app, list_elem_of_singleton. split; [intros [|[= ? ?]]; [done|congruence]|by left].
      * apply (pair_inv_ext a b na0 nb); [by rewrite Hna|done|done|done|by apply Hpair].
Qed.

Lemma accept_turn_inv nodes k n n' nodes' : mesh_inv nodes -> nodes.[k] = Some n -> accepted n < num_nodes - 1 - k ->
  accept_turn num_nodes k n = Ret n' -> wr nodes k n' = Ret nodes' ->
  mesh_inv nodes' /\ accepted n' = accepted n + 1 /\ next_node n' = next_node n /\ connection_ok n' = connection_ok n.
Proof.
  intros [Hlen Hnode Hpair] Hk Hacc Ht Hw. destruct (Hnode k n Hk) as [N1 N2 N3 N4 N5 N6]. unfold accept_turn in Ht.
  pose proof (zlook_Some_range _ _ _ Hk) as Hkr.
  destruct (backlog n) as [|[s h] b] eqn:Eb; [done|]. destruct (N3 s h) as [Hh ->]; [left|].
  assert (peer_of num_nodes k h) as Hp by (unfold peer_of; lia).
  destruct (SetConnection_conn num_nodes k n h (Some (Sock h k false)) Hp N1) as (t & E & Htl & Hconn).
  rewrite E, bind_ret in Ht. injection Ht as <-. cbn [dataconnections accepted next_node connection_ok] in *.
  set (n' := DataNode t b _ _ _) in *.
  assert (forall a, peer_of num_nodes k a -> conn k n' a = if a =? h then Some (Sock h k false) else conn k n a) as Hc'.
  { intros a Ha. by apply Hconn. }
  apply wr_look in Hw as (L & _ & K). apply NoDup_cons in N4 as [Hni Hnd].
  destruct (zlook_is_Some nodes h) as [nh Hnh]; [lia|].
  assert (pair_inv h k nh n) as Hhk by (apply Hpair; [done|done|lia]). unfold pair_inv in Hhk. rewrite Eb in Hhk.
  destruct (next_node nh <=? k) eqn:Enext; [destruct Hhk as (_ & _ & []); left|].
  destruct Hhk as (Hhk1 & [[_ Hnone]|[[] _]]); [|left].
  split; [|done]. split; [lia| |].
  - intros m x. rewrite K. destruct (Z.eqb_spec m k) as [->|]; [|apply Hnode]. intros [= <-]. split; try done.
    + intros s2 h2 Hin. apply N3. by right.
    + cbn. rewrite N5. symmetry. apply (count_change _ _ _ h).
      * unfold behind. apply NoDup_seqZ.
      * apply behind_elem. lia.
      * unfold connected. rewrite bool_decide_eq_false_2; [done|]. by intros [].
      * unfold connected. rewrite bool_decide_eq_true_2; [done|]. rewrite Hc', Z.eqb_refl by done. done.
      * intros y Hy%behind_elem Hyh. unfold connected. rewrite Hc' by (unfold peer_of; lia). by rewrite (proj2 (Z.eqb_neq y h)).
    + cbn. intros Hok. destruct (N6 Hok). lia.
  - intros a c na nc. rewrite !K. intros Ha Hc Hca. destruct (Z.eqb_spec c k) as [->|Hck].
    + injection Hc as <-. rewrite (proj2 (Z.eqb_neq a k)) in Ha by lia. destruct (decide (a = h)) as [->|Hah].
      * rewrite Hnh in Ha. injection Ha as <-. unfold pair_inv. rewrite Enext. split; [done|]. right. split; [done|].
        rewrite Hc', Z.eqb_refl by done. done.
      * apply (pair_inv_ext a k na n); [done|done| | |by apply Hpair].
        { rewrite Hc' by (unfold peer_of; pose proof (zlook_Some_range _ _ _ Ha); lia). by rewrite (proj2 (Z.eqb_neq a h)). }
        { rewrite Eb, elem_of_cons. split; [by right|]. intros [[= -> _]|]; done. }
    + destruct (Z.eqb_spec a k) as [->|Hak]; [|by apply Hpair]. injection Ha as <-.
      apply (pair_inv_ext k c n nc); [done| |done|done|by apply Hpair].
      rewrite Hc' by (unfold peer_of; pose proof (zlook_Some_range _ _ _ Hc); lia). by rewrite (proj2 (Z.eqb_neq c h)) by lia.
Qed.

Lemma ready_inv nodes i n nodes' : mesh_inv nodes -> nodes.[i] = Some n -> accepted n = num_nodes - 1 - i ->
  connect_done num_nodes i n (seqZ 0 i) = Ret true ->
  wr nodes i (DataNode (dataconnections n) (backlog n) (accepted n) (next_node n) true) = Ret nodes' -> mesh_inv nodes'.
Proof.
  intros [Hlen Hnode Hpair] Hi Hacc Hd Hw. pose proof (zlook_Some_range _ _ _ Hi) as Hir.
  destruct (Hnode i n Hi) as [N1 N2 N3 N4 N5 N6]. apply wr_look in Hw as (L & _ & K).
  rewrite connect_done_all in Hd; [|intros j Hj%elem_of_seqZ; unfold peer_of; lia|done].
  injection Hd as Hd%bool_decide_eq_true_1. assert (next_node n = i) as Hnext.
  { destruct (decide (next_node n < i)) as [Hlt|]; [|lia]. rewrite Forall_forall in Hd.
    destruct (zlook_is_Some nodes (next_node n)) as [nk Hk]; [lia|].
    pose proof (Hpair i (next_node n) n nk Hi Hk Hlt) as Hp. unfold pair_inv in Hp. rewrite Z.leb_refl in Hp.
    exfalso. apply (Hd (next_node n)); [apply elem_of_seqZ; lia|apply Hp]. }
  split; [lia| |].
  - intros m x. rewrite K. destruct (Z.eqb_spec m i) as [->|]; [|apply Hnode]. intros [= <-].
    apply (node_inv_keep i n); try done. intros s h Hin. by left.
  - intros a b na nb. rewrite !K. intros Ha Hb Hab.
    destruct (Z.eqb_spec a i) as [->|]; destruct (Z.eqb_spec b i) as [->|]; [lia|..|by apply Hpair].
    + injection Ha as <-. by apply (pair_inv_ext i b n nb); [..|apply Hpair].
    + injection Hb as <-. by apply (pair_inv_ext a i na n); [..|apply Hpair].
Qed.

(** * Progress *)

(** The steps that a node has left. *)
Definition node_left (i : Z) (n : data_node) : Z :=
  (i - next_node n) + (num_nodes - 1 - i - accepted n) + (if connection_ok n then 0 else 1).

(** A step keeps the invariant and takes one from what is left. *)
Lemma mesh_step_inv nodes nodes' : mesh_inv nodes -> mesh_step num_nodes nodes nodes' ->
  mesh_inv nodes' /\ node_sum node_left 0 nodes' = node_sum node_left 0 nodes - 1.
Proof.
  intros HI Hstep. revert HI. destruct Hstep as [tries i n s s' Hi Hlt Ht|i n n' s s' Hi Hlt Ht Hw|i n s s' Hi Ha Hok Hd Hw]; intros HI.
  - destruct (connect_turn_inv s i n tries s' HI Hi Hlt Ht) as (HI' & target & n' & target' & Hj & E1 & E2 & E3 & E4 & E5 & E6 & Hlen & K).
    split; [done|]. rewrite (node_sum_two node_left s s' i (next_node n) n target n' target'); [|lia|done..].
    unfold node_left. rewrite E1, E2, E3, E4, E5, E6. lia.
  - destruct (accept_turn_inv s i n n' s' HI Hi Hlt Ht Hw) as (HI' & E1 & E2 & E3). split; [done|].
    rewrite (node_sum_wr node_left s s' i n n' Hi Hw). unfold node_left. rewrite E1, E2, E3. lia.
  - split; [by apply (ready_inv s i n s')|]. rewrite (node_sum_wr node_left s s' i n _ Hi Hw). unfold node_left. cbn.
    rewrite Hok. lia.
Qed.

Lemma node_left_nonneg nodes : mesh_inv nodes -> 0 <= node_sum node_left 0 nodes.
Proof.
  intros [Hlen Hnode _]. apply node_sum_nonneg. intros i n Hi. pose proof (zlook_Some_range _ _ _ Hi).
  destruct (Hnode i n Hi) as [N1 N2 N3 N4 N5 N6].
  pose proof (count_le (connected i n) (behind i)) as Hc. rewrite zlen_behind in Hc by lia. unfold node_left. destruct (connection_ok n); lia.
Qed.

Lemma connect_possible nodes i n : mesh_inv nodes -> nodes.[i] = Some n -> next_node n < i ->
  exists nodes', connect_turn num_nodes [true] i nodes = Ret (nodes', true).
Proof.
  intros [Hlen Hnode Hpair] Hi Hlt. pose proof (zlook_Some_range _ _ _ Hi). destruct (Hnode i n Hi) as [N1 N2 N3 N4 N5 N6].
  unfold connect_turn. rewrite (rd_ok _ _ _ Hi), bind_ret. destruct (zlook_is_Some nodes (next_node n)) as [target Hj]; [lia|].
  rewrite (rd_ok _ _ _ Hj), bind_ret. unfold RcTryConnect. cbn [take existsb id orb].
  match goal with |- context [wr nodes (next_node n) ?x] => destruct (wr_ok nodes (next_node n) x) as (n1 & -> & L1 & _) end; [lia|].
  rewrite bind_ret. destruct (SetConnection_conn num_nodes i n (next_node n) (Some (Sock i (next_node n) true))) as (t & -> & _);
    [unfold peer_of; lia|done|]. rewrite bind_ret.
  match goal with |- context [wr n1 i ?x] => destruct (wr_ok n1 i x) as (n2 & -> & _) end; [lia|]. rewrite bind_ret. eauto.
Qed.

Lemma accept_possible nodes k n x : mesh_inv nodes -> nodes.[k] = Some n -> x ∈ backlog n ->
  accepted n < num_nodes - 1 - k /\ exists n', accept_turn num_nodes k n = Ret n'.
Proof.
  intros [Hlen Hnode Hpair] Hk Hx. pose proof (zlook_Some_range _ _ _ Hk). destruct (Hnode k n Hk) as [N1 N2 N3 N4 N5 N6].
  split.
  - destruct x as [s h]. destruct (N3 s h Hx) as [Hh ->]. destruct (zlook_is_Some nodes h) as [nh Hnh]; [lia|].
    pose proof (Hpair h k nh n Hnh Hk ltac:(lia)) as Hp. unfold pair_inv in Hp.
    destruct (next_node nh <=? k); [destruct Hp as (_ & _ & []); done|]. destruct Hp as (_ & [[_ Hnone]|[[] _]]); [|done].
    rewrite N5, <- zlen_behind by lia. apply (count_missing _ _ h); [apply behind_elem; lia|].
    unfold connected. rewrite bool_decide_eq_false_2; [done|]. by intros [].
  - unfold accept_turn. destruct (backlog n) as [|[s h] b]; [by apply elem_of_nil in Hx|]. destruct (N3 s h) as [Hh _]; [left|].
    destruct (SetConnection_conn num_nodes k n h (Some s)) as (t & -> & _); [unfold peer_of; lia|done|]. rewrite bind_ret. eauto.
Qed.

(** While a node is not ready somebody can go on. *)
Lemma mesh_progress nodes i n : mesh_inv nodes -> nodes.[i] = Some n -> connection_ok n = false ->
  exists nodes', mesh_step num_nodes nodes nodes'.
Proof.
  intros HI Hi Hok. pose proof HI as [Hlen Hnode Hpair].
  destruct (some_node (λ k m, next_node m <? k) nodes) as [(k & m & Hk & Hm%Z.ltb_lt)|Hnext].
  { destruct (connect_possible nodes k m HI Hk Hm) as [nodes' E]. exists nodes'. by apply (step_connect _ [true] k m). }
  destruct (some_node (λ k m, negb (bool_decide (backlog m = []))) nodes) as [(k & m & Hk & Hm)|Hempty].
  { destruct (backlog m) as [|x b] eqn:Eb; [done|]. destruct (accept_possible nodes k m x HI Hk) as (Hacc & m' & E); [rewrite Eb; left|].
    destruct (wr_ok nodes k m') as (nodes' & W & _); [by apply zlook_Some_range in Hk|]. exists nodes'. by apply (step_accept _ k m m'). }
  pose proof (zlook_Some_range _ _ _ Hi) as Hir. destruct (Hnode i n Hi) as [N1 N2 N3 N4 N5 N6].
  assert (forall k m, nodes.[k] = Some m -> next_node m = k /\ backlog m = []) as Hall.
  { intros k m Hk. pose proof (ni_next _ _ (Hnode k m Hk)). specialize (Hnext k m Hk). specialize (Hempty k m Hk).
    apply Z.ltb_ge in Hnext. apply negb_false_iff, bool_decide_eq_true_1 in Hempty. split; [lia|done]. }
  assert (forall j, 0 <= j < num_nodes -> j <> i -> conn i n j <> None) as Hconn.
  { intros j Hj Hne. destruct (zlook_is_Some nodes j) as [m Hm]; [lia|]. destruct (Hall i n Hi) as [E1 E2], (Hall j m Hm) as [E3 E4].
    destruct (Z.lt_ge_cases j i).
    - pose proof (Hpair i j n m Hi Hm ltac:(lia)) as Hp. unfold pair_inv in Hp. rewrite (proj2 (Z.leb_gt _ _)) in Hp by lia.
      destruct Hp as [-> _]. done.
    - pose proof (Hpair j i m n Hm Hi ltac:(lia)) as Hp. unfold pair_inv in Hp. rewrite (proj2 (Z.leb_gt _ _)) in Hp by lia.
      rewrite E2 in Hp. destruct Hp as [_ [[[]%elem_of_nil _]|[_ ->]]]. done. }
  match goal with |- _ => destruct (wr_ok nodes i (DataNode (dataconnections n) (backlog n) (accepted n) (next_node n) true)) as (nodes' & W & _); [lia|] end.
  exists nodes'. apply (step_ready _ i n); try done.
  - rewrite N5, <- zlen_behind by lia. apply count_full. apply Forall_forall. intros j Hj%behind_elem.
    unfold connected. rewrite bool_decide_eq_true_2; [done|]. apply Hconn; lia.
  - rewrite connect_done_all; [|intros j Hj%elem_of_seqZ; unfold peer_of; lia|done].
    rewrite bool_decide_eq_true_2; [done|]. apply Forall_forall. intros j Hj%elem_of_seqZ. apply Hconn; lia.
Qed.

Lemma steps_inv m nodes nodes' : mesh_inv nodes -> nsteps (mesh_step num_nodes) m nodes nodes' ->
  mesh_inv nodes' /\ node_sum node_left 0 nodes' = node_sum node_left 0 nodes - Z.of_nat m.
Proof.
  intros HI Hs. revert HI. induction Hs as [s|m s1 s2 s3 Hs Hrest IH]; intros HI; [split; [done|lia]|].
  destruct (mesh_step_inv _ _ HI Hs) as [HI2 E]. destruct (IH HI2) as [HI3 E3]. split; [done|lia].
Qed.
End invariant.

Lemma new_mesh_left num_nodes : 0 <= num_nodes -> node_sum (node_left num_nodes) 0 (new_mesh num_nodes) = num_nodes * num_nodes.
Proof.
  intros H0. unfold new_mesh. assert (forall k i, node_sum (node_left num_nodes) i (replicate k (new_data_node num_nodes)) = Z.of_nat k * num_nodes) as H.
  { induction k as [|k IH]; intros i; [done|]. cbn [replicate node_sum]. rewrite IH. unfold node_left. cbn. lia. }
  rewrite H. lia.
Qed.

(** C31. The data connections of a cluster come up. Every run of the nodes' set-up, in any
    order, has at most [num_nodes * num_nodes] steps; when no step is left every node is
    ready; and two nodes that are ready hold the two ends of one connection, the one that
    the node with the higher id made, each under the other's id. *)
Theorem mesh_connects num_nodes m nodes : 0 <= num_nodes -> nsteps (mesh_step num_nodes) m (new_mesh num_nodes) nodes ->
  Z.of_nat m <= num_nodes * num_nodes /\
  ((forall nodes', ~ mesh_step num_nodes nodes nodes') -> forall i n, nodes.[i] = Some n -> connection_ok n = true) /\
  forall i k ni nk, nodes.[i] = Some ni -> nodes.[k] = Some nk -> k < i -> connection_ok ni = true -> connection_ok nk = true ->
    GetConnection num_nodes i ni k = Ret (Some (Sock i k true)) /\ GetConnection num_nodes k nk i = Ret (Some (Sock i k false)).
Proof.
  intros H0 Hrun. destruct (steps_inv num_nodes m _ _ (new_mesh_inv num_nodes H0) Hrun) as [HI E].
  rewrite new_mesh_left in E by done. pose proof (node_left_nonneg _ _ HI). split; [lia|]. split.
  - intros Hstuck i n Hi. destruct (connection_ok n) eqn:Hok; [done|]. destruct (mesh_progress _ _ i n HI Hi Hok) as [nodes' Hs].
    by destruct (Hstuck nodes').
  - intros i k ni nk Hi Hk Hlt Oi Ok. destruct HI as [Hlen Hnode Hpair]. pose proof (zlook_Some_range _ _ _ Hi). pose proof (zlook_Some_range _ _ _ Hk).
    destruct (Hnode i ni Hi) as [I1 I2 I3 I4 I5 I6], (Hnode k nk Hk) as [K1 K2 K3 K4 K5 K6].
    rewrite !GetConnection_conn by (done || (unfold peer_of; lia)). pose proof (Hpair i k ni nk Hi Hk Hlt) as Hp. unfold pair_inv in Hp.
    destruct (I6 Oi) as [_ Hni], (K6 Ok) as [Hak _]. rewrite (proj2 (Z.leb_gt _ _)) in Hp by lia. destruct Hp as [-> Hp]. split; [done|].
    destruct Hp as [[_ Hnone]|[_ ->]]; [|done]. rewrite Hak in K5. rewrite <- (zlen_behind num_nodes k) in K5 by lia. symmetry in K5. apply count_all in K5.
    rewrite Forall_forall in K5. specialize (K5 i). rewrite behind_elem in K5. unfold connected in K5. rewrite Hnone in K5.
    rewrite bool_decide_eq_false_2 in K5 by (by intros []). discriminate K5. lia.
Qed.

(** Two nodes: node 1 connects, node 0 accepts, both are ready. *)
Definition two_nodes : list data_node :=
  [DataNode [Some (Sock 1 0 false)] [] 1 0 true; DataNode [Some (Sock 1 0 true)] [] 0 1 true].

Lemma mesh_connects_witness : nsteps (mesh_step 2) 4 (new_mesh 2) two_nodes /\
  GetConnection 2 1 (DataNode [Some (Sock 1 0 true)] [] 0 1 true) 0 = Ret (Some (Sock 1 0 true)) /\
  GetConnection 2 0 (DataNode [Some (Sock 1 0 false)] [] 1 0 true) 1 = Ret (Some (Sock 1 0 false)).
Proof.
  assert (nsteps (mesh_step 2) 4 (new_mesh 2) two_nodes) as Hrun.
  { eapply nsteps_l; [eapply (step_connect 2 [true] 1); [reflexivity|cbn; lia|reflexivity]|].
    eapply nsteps_l; [eapply (step_accept 2 0); [reflexivity|cbn; lia|reflexivity|reflexivity]|].
    eapply nsteps_l; [eapply (step_ready 2 0); [reflexivity|reflexivity|reflexivity|reflexivity|reflexivity]|].
    eapply nsteps_l; [eapply (step_ready 2 1); [reflexivity|reflexivity|reflexivity|reflexivity|reflexivity]|].
    apply nsteps_O. }
  split; [exact Hrun|]. apply (mesh_connects 2 4 two_nodes ltac:(lia) Hrun); [reflexivity|reflexivity|lia|reflexivity|reflexivity].
Defined.
