(* ===== verification/AccumulatorRounds.v ===== *)
(** Rounds of an accumulator over the whole cluster, [Dogee/DogeeAccumulator.cpp]: the
    nodes' tables, the data connections between them, the users inside
    [_DoAccumulateAndWait] and the master inside [_Reduce], as a step relation. *)
From S2P Require Import Prelude Storage Sync Accumulator.

Section rounds.
Context {T : Type} `{Element T}.
(** [DogeeEnv::cache->get], the virtual functions of the accumulator objects, [BaseDoReduce]
    of a map-reduce object on each node's buffer, and the number of nodes. *)
Context (cache_get : Z -> Z -> outcome Z) (accu : Z -> accumulator T) (BaseDoReduce : list T -> outcome (list T)).
Context (num_nodes : Z).

(** * The calls that start a round *)

(** The messages of [_DoAccumulateAndWait] on node [self], in the order in which it gives
    them out; the one for the node itself is its own call of [AcAccumulateMsg]. *)
Definition user_messages (self : Z) (mode : AccumulatorMode) (threshold : T) (in_buf : list T) (len okey tid : Z)
    (readies : list (Z -> bool)) : outcome (list (Z * RcDataPack T)) :=
  st ← send_plan num_nodes self len okey tid;
  si ← rd (send_idx st) self;
  ss ← rd (send_size st) self;
  let localsend := if si <? ss then ss - si else 0 in
  local ← rd_range in_buf (if 0 <? localsend then si else 0) localsend;
  idx ← wr (send_idx st) self ss;
  st ← send_loop num_nodes self (fun s e => AcAccumulatePrepareBuffer mode threshold in_buf s e) okey tid readies
         {| send_idx := idx; send_size := send_size st; done := done st;
            sent := sent st ++ [(self, data_pack okey (localsend * sizeof_word) si tid (Dense local))] |};
  Ret (sent st).

(** [_Reduce] up to its wait; [None] when it refuses, on a slave. The lock is held from
    [push_back] to the end. *)
Definition reduce_pack (key tid : Z) : RcDataPack T :=
  {| dp_cmd := AcDataLocalReduce; dp_size := 0; dp_id := key; dp_param0 := 0; dp_param12 := tid; dp_body := Dense [] |}.
Definition Reduce (self : Z) (m : ac_manager T) (key tid : Z) : outcome (option (ac_manager T * list (ac_effect T))) :=
  if negb (self =? 0) then Ret None
  else
    node ← FindOrCreateDataSyncNode cache_get num_nodes self m key;
    let m := <[key := set_wait node (done_node_cnt node) (waitlist node ++ [Thread 0 tid])]> m in
    sends ← for_range 1 num_nodes (fun i sends => Ret (sends ++ [ESend i (reduce_pack key tid)])) [];
    '(m, effs) ← AcLocalReduceMsg cache_get num_nodes self BaseDoReduce m key;
    Ret (Some (m, sends ++ effs)).

(** * The cluster *)

(** A user: its node, and the messages it has still to give out. *)
Record ac_user := AcUser { u_node : Z; u_todo : list (Z * RcDataPack T) }.

(** The tables of the nodes; what was sent and not received, each message with its sender
    and receiver, in the order of sending; the users; the shared arrays, by id and index;
    the threads that were woken. *)
Record ac_world := AcWorld {
  managers : list (ac_manager T);
  transit : list (Z * Z * RcDataPack T);
  users : list ac_user;
  arrays : Z -> Z -> T;
  woken : list SyncThreadNode;
}.

(** [DogeeEnv::cache->putchunk] of [size] elements. *)
Definition put_chunk (a : Z -> Z -> T) (arr base size : Z) (b : list T) : Z -> Z -> T := fun o x =>
  if (o =? arr) && (base <=? x) && (x <? base + size) then default (a o x) (b.[x - base]) else a o x.

(** What node [j] does outside its table. *)
Definition apply_effect (j : Z) (w : ac_world) (e : ac_effect T) : ac_world :=
  match e with
  | EPutChunk arr base size b =>
      AcWorld (managers w) (transit w) (users w) (put_chunk (arrays w) arr base size b) (woken w)
  | EWake th => AcWorld (managers w) (transit w) (users w) (arrays w) (woken w ++ [th])
  | ESend d p => AcWorld (managers w) (transit w ++ [(j, d, p)]) (users w) (arrays w) (woken w)
  end.
Definition apply_effects (j : Z) (w : ac_world) (effs : list (ac_effect T)) : ac_world := foldl (apply_effect j) w effs.

(** * Steps

    A user sends a message or adds its own part; a node takes the oldest message of one
    of its connections. *)
Inductive ac_step : ac_world -> ac_world -> Prop :=
| ac_send w us1 u us2 d p rest :
    users w = us1 ++ u :: us2 -> u_todo u = (d, p) :: rest -> d <> u_node u ->
    ac_step w (AcWorld (managers w) (transit w ++ [(u_node u, d, p)]) (us1 ++ AcUser (u_node u) rest :: us2) (arrays w) (woken w))
| ac_local w us1 u us2 p rest m m' effs ms :
    users w = us1 ++ u :: us2 -> u_todo u = (u_node u, p) :: rest ->
    (managers w).[u_node u] = Some m ->
    AcAccumulateMsg cache_get accu num_nodes (u_node u) m (u_node u) (dp_id p) (dp_param12 p) (dp_param0 p) (dp_size p)
      (dp_body p) = Ret (m', effs) ->
    wr (managers w) (u_node u) m' = Ret ms ->
    ac_step w (apply_effects (u_node u)
      (AcWorld ms (transit w) (us1 ++ AcUser (u_node u) rest :: us2) (arrays w) (woken w)) effs)
| ac_deliver w pre i j p post idx m m' effs ms :
    transit w = pre ++ (i, j, p) :: post -> Forall (fun x => fst x <> (i, j)) pre ->
    (managers w).[j] = Some m -> nodeid2idx num_nodes j i = Ret idx ->
    AcListenData_cmd cache_get accu num_nodes j BaseDoReduce m idx p = Ret (Some (m', effs)) ->
    wr (managers w) j m' = Ret ms ->
    ac_step w (apply_effects j (AcWorld ms (pre ++ post) (users w) (arrays w) (woken w)) effs).
End rounds.
Arguments ac_user T : clear implicits.
Arguments AcUser {T} _ _.
Arguments u_node {T} _.
Arguments u_todo {T} _.
Arguments ac_world T : clear implicits.
Arguments AcWorld {T} _ _ _ _ _.
Arguments managers {T} _.
Arguments transit {T} _.
Arguments users {T} _.
Arguments arrays {T} _.
Arguments woken {T} _.
