(* ===== verification/AccumulatorRoundsFacts.v ===== *)
(** An accumulation over the whole cluster: the users of a round are woken only after the
    sum of their vectors is in the shared array, every round ends, and it leaves the
    cluster as it found it. *)
From S2P Require Import Prelude Storage Sync Accumulator AccumulatorFacts DataConnections Counting DataConnectionsFacts AccumulatorRounds.

(** * The messages of a user *)

Section user_messages.
Context {T : Type} `{ElementLaws T}.
Context (num_nodes self : Z).

(** [_DoAccumulateAndWait] only adds to what it has sent. *)
Definition sent_before (a : list (Z * RcDataPack T)) (st : send_state) : send_state :=
  {| send_idx := send_idx st; send_size := send_size st; done := done st; sent := a ++ sent st |}.
Definition commutes (a : list (Z * RcDataPack T)) (f : send_state -> outcome send_state) : Prop :=
  forall st, f (sent_before a st) = (st ← f st; Ret (sent_before a st)).

Lemma bind_commutes a (f g : send_state -> outcome send_state) : commutes a f -> commutes a g -> commutes a (fun st => f st ≫= g).
Proof. intros Hf Hg st. rewrite Hf. destruct (f st) as [st'| |]; [|done..]. rewrite !bind_ret. apply Hg. Qed.

Lemma for_range_commutes a lo hi (body : Z -> send_state -> outcome send_state) :
  (forall i, commutes a (body i)) -> commutes a (for_range lo hi body).
Proof.
  intros Hb. unfold for_range. generalize (Z.to_nat (hi - lo)). intros n. revert lo.
  induction n as [|n IH]; intros i st; [done|]. cbn [count_loop]. rewrite (Hb i). destruct (body i st); [|done..].
  rewrite !bind_ret. apply IH.
Qed.

Lemma send_turn_commutes func okey tid ready i a : commutes a (send_turn self func okey tid ready i).
Proof.
  intros st. unfold send_turn. cbn [sent_before send_idx send_size done sent].
  destruct (rd (send_idx st) i); [|done..]. rewrite !bind_ret. destruct (rd (send_size st) i); [|done..]. rewrite !bind_ret.
  case_test; [|done]. destruct (func _ _) as [[[n bytes] body]| |]; [|done..]. rewrite !bind_ret.
  destruct (wr (send_idx st) i _); [|done..]. rewrite !bind_ret. unfold sent_before. cbn. by rewrite app_assoc.
Qed.

Lemma send_loop_commutes func okey tid readies a : commutes a (send_loop num_nodes self func okey tid readies).
Proof.
  induction readies as [|r readies IH]; intros st; cbn [send_loop sent_before done]; case_test; try done.
  apply (bind_commutes a (send_pass num_nodes self func okey tid r) (send_loop num_nodes self func okey tid readies)); [|done].
  apply for_range_commutes. intros i. apply send_turn_commutes.
Qed.

(** The messages are those of [_DoAccumulateAndWait], with the node's own call of
    [AcAccumulateMsg] in its place. *)
Lemma user_messages_DoAccumulate cache_get accu m mode threshold (in_buf : list T) len okey tid readies msgs :
  user_messages num_nodes self mode threshold in_buf len okey tid readies = Ret msgs ->
  exists pre p post, msgs = pre ++ (self, p) :: post /\ dp_param12 p = tid /\ dp_id p = okey /\
    DoAccumulateAndWait cache_get accu num_nodes self m mode threshold in_buf len okey tid readies =
      ('(m', effs) ← AcAccumulateMsg cache_get accu num_nodes self m self okey tid (dp_param0 p) (dp_size p) (dp_body p);
       Ret (m', effs, pre ++ post)).
Proof.
  unfold user_messages, DoAccumulateAndWait. intros (st & -> & HM)%bind_Ret_inv. rewrite bind_ret.
  apply bind_Ret_inv in HM as (si & -> & HM). rewrite bind_ret. apply bind_Ret_inv in HM as (ss & -> & HM). rewrite bind_ret.
  apply bind_Ret_inv in HM as (local & -> & HM). rewrite bind_ret. apply bind_Ret_inv in HM as (idx & -> & HM).
  set (l := if si <? ss then ss - si else 0) in *. set (p := data_pack okey (l * sizeof_word) si tid (Dense local)) in *.
  set (loop := send_loop num_nodes self _ okey tid readies) in *.
  set (base := {| send_idx := idx; send_size := send_size st; done := done st; sent := [] |} : send_state (T := T)).
  assert (forall a, loop {| send_idx := idx; send_size := send_size st; done := done st; sent := a |} =
    (st' ← loop base; Ret (sent_before a st'))) as Hloop.
  { intros a. unfold loop. rewrite <- (send_loop_commutes _ okey tid readies a base). unfold sent_before. cbn. by rewrite app_nil_r. }
  rewrite Hloop in HM. apply bind_Ret_inv in HM as (st1 & (st2 & Hst2 & [= <-])%bind_Ret_inv & [= <-]).
  exists (sent st), p, (sent st2). split; [cbn; by rewrite <- app_assoc|]. split; [done|]. split; [done|].
  cbn [data_pack dp_param0 dp_size dp_body p]. destruct (AcAccumulateMsg _ _ _ _ _ _ _ _ _ _ _) as [[m' effs]| |]; [|done..].
  rewrite !bind_ret, Hloop, Hst2. done.
Qed.

Lemma msgs_to_app i (l1 l2 : list (Z * RcDataPack T)) : msgs_to i (l1 ++ l2) = msgs_to i l1 ++ msgs_to i l2.
Proof. apply omap_app. Qed.
Lemma msgs_to_none i (l : list (Z * RcDataPack T)) : (forall d p, (d, p) ∈ l -> d <> i) -> msgs_to i l = [].
Proof.
  induction l as [|[d p] l IH]; intros Hl; [done|]. cbn. rewrite (proj2 (Z.eqb_neq d i)) by (apply (Hl d p); left).
  apply IH. intros d' p' Hd. apply (Hl d' p'). by right.
Qed.

(** What a user gives out: to every node messages that carry its part, the last of them
    and no other with the thread's id. *)
Definition user_parts (sz okey tid : Z) (in_buf : list T) (msgs : list (Z * RcDataPack T)) : Prop :=
  (forall d p, (d, p) ∈ msgs -> 0 <= d < num_nodes /\ dp_id p = okey /\ (d <> self -> for_listener okey p)) /\
  forall j, 0 <= j < num_nodes ->
    carries in_buf (part_start sz num_nodes j) (Z.max (part_start sz num_nodes j) (part_end sz num_nodes j)) (msgs_to j msgs) /\
    exists k, dp_param12 <$> msgs_to j msgs = replicate k 0 ++ [tid].

Lemma local_part_carries (in_buf local : list T) sz okey tid : part_ok sz num_nodes self -> sz <= zlen in_buf ->
  part_start sz num_nodes self < part_end sz num_nodes self ->
  rd_range in_buf (part_start sz num_nodes self) (part_end sz num_nodes self - part_start sz num_nodes self) = Ret local ->
  carries in_buf (part_start sz num_nodes self) (part_end sz num_nodes self)
    [data_pack okey ((part_end sz num_nodes self - part_start sz num_nodes self) * sizeof_word)
       (part_start sz num_nodes self) tid (Dense local)].
Proof.
  intros Hp Hb Hne Hr. pose proof Hp as (Hsz & Hn & Hself).
  destruct (part_range num_nodes self sz Hp self Hself) as (H1 & H2 & H3).
  destruct (rd_range_ok in_buf (part_start sz num_nodes self) (part_end sz num_nodes self - part_start sz num_nodes self))
    as (l & E & Hl & Hj); [lia..|]. rewrite E in Hr. injection Hr as <-.
  set (len := part_end sz num_nodes self - part_start sz num_nodes self) in *.
  replace (part_end sz num_nodes self) with (part_start sz num_nodes self + len) by lia.
  apply (dense_carries in_buf l _ len); [lia|done..].
Qed.

Lemma user_messages_spec mode (in_buf : list T) sz okey tid readies msgs :
  part_ok sz num_nodes self -> sz <= zlen in_buf -> part_start sz num_nodes self < part_end sz num_nodes self ->
  user_messages num_nodes self mode zero in_buf sz okey tid readies = Ret msgs -> user_parts sz okey tid in_buf msgs.
Proof.
  intros Hp Hb Hne. pose proof Hp as (Hsz & Hn & Hself).
  destruct (plan_sending num_nodes self in_buf sz okey tid Hp Hb) as (st & idx & Hplan & Hsi & Hss & Hwr & Hsend & _).
  unfold user_messages. rewrite Hplan, bind_ret, (rd_ok _ _ _ Hsi), bind_ret, (rd_ok _ _ _ Hss), bind_ret.
  rewrite (proj2 (Z.ltb_lt _ _) Hne), (proj2 (Z.ltb_lt 0 _)) by lia. intros (local & Hlocal & HM)%bind_Ret_inv.
  rewrite Hwr, bind_ret in HM. pose proof (local_part_carries in_buf local sz okey tid Hp Hb Hne Hlocal) as Hown.
  set (p := data_pack okey _ _ tid (Dense local)) in *.
  set (base := {| send_idx := idx; send_size := send_size st; done := done st; sent := [] |} : send_state (T := T)).
  set (func := fun s e => AcAccumulatePrepareBuffer mode zero in_buf s e) in *.
  pose proof (send_loop_commutes func okey tid readies (sent st ++ [(self, p)]) base) as H1.
  pose proof (send_loop_commutes func okey tid readies (sent st) base) as H2.
  unfold sent_before in H1 at 1, H2 at 1. cbn [send_idx send_size done sent base] in H1, H2. rewrite app_nil_r in H1, H2.
  rewrite H1 in HM. apply bind_Ret_inv in HM as (st1 & (st2 & Hst2 & [= <-])%bind_Ret_inv & [= <-]).
  rewrite Hst2, bind_ret in H2. pose proof (prepare_func mode in_buf sz okey Hsz Hb) as Hfunc.
  destruct (send_loop_spec num_nodes self sz okey tid in_buf func Hp Hfunc readies _ Hsend) as [Hl|(st' & Hl & Hs & Hd)];
    rewrite H2 in Hl; [done|]. injection Hl as <-. cbn [sent_before sent] in *. rewrite <- app_assoc. split.
  - intros d q [Hq|[Hq|Hq]%elem_of_cons]%elem_of_app; [|injection Hq as -> ->; split; [done|]; split; [done|intros []; done]|];
      (destruct (s_none _ _ _ _ _ _ _ Hs d q) as (_ & Hr & Hf); [cbn; apply elem_of_app; tauto|]);
      (split; [done|]; split; [apply Hf|done]).
  - intros j Hj. change (sent st ++ [(self, p)] ++ sent st2) with (sent st ++ (self, p) :: sent st2).
    rewrite (msgs_to_app j (sent st)). unfold msgs_to at 2 4. cbn [omap list_omap fst snd].
    fold (msgs_to j (sent st2)). destruct (Z.eqb_spec self j) as [<-|Hne'].
    + rewrite !msgs_to_none by (intros d q Hq; destruct (s_none _ _ _ _ _ _ _ Hs d q) as [? _]; [cbn; apply elem_of_app; tauto|done]).
      cbn [app]. rewrite Z.max_r by lia. split; [done|]. by exists O.
    + rewrite <- msgs_to_app. destruct (s_other _ _ _ _ _ _ _ Hs j Hj) as (si & Hsi1 & Hr & Hc & k & Hk); [done|].
      assert (part_end sz num_nodes j <= si) as Hge.
      { eapply all_finished; [exact Hs| |done..]. rewrite (proj2 (Z.leb_gt _ _) Hne). lia. }
      rewrite (proj2 (Z.leb_le _ _) Hge) in Hk.
      assert (si = Z.max (part_start sz num_nodes j) (part_end sz num_nodes j)) as <- by lia. eauto.
Qed.
End user_messages.

(** * Messages on the way *)

Section transit.
Context {T : Type} `{ElementLaws T}.
#[local] Abbreviation msg := (Z * RcDataPack T)%type.

Definition is_data (p : RcDataPack T) : bool := match dp_cmd p with AcDataAccumulate => true | _ => false end.
Definition is_partial_done (p : RcDataPack T) : bool := match dp_cmd p with AcDataAccumulatePartialDone => true | _ => false end.

(** The data messages for node [j] on its connections, those that users have still to
    give out, and the reports of node [i] to the master. *)
Definition to_node (j : Z) (l : list (Z * Z * RcDataPack T)) : list msg :=
  omap (fun '(i, d, p) => if (d =? j) && is_data p then Some (i, p) else None) l.
Definition todo_to (j : Z) (us : list (ac_user T)) : list msg := us ≫= (fun u => pair (u_node u) <$> msgs_to j (u_todo u)).
Definition pending (j : Z) (w : ac_world T) : list msg := to_node j (transit w) ++ todo_to j (users w).
Definition dones (i : Z) (l : list (Z * Z * RcDataPack T)) : Z :=
  zlen (filter (fun x => fst (fst x) = i /\ is_partial_done (snd x) = true) l).

Lemma to_node_app j l1 l2 : to_node j (l1 ++ l2) = to_node j l1 ++ to_node j l2.
Proof. apply omap_app. Qed.
Lemma to_node_one j i d p : to_node j [(i, d, p)] = if (d =? j) && is_data p then [(i, p)] else [].
Proof. unfold to_node. cbn. by destruct ((d =? j) && is_data p). Qed.
Lemma elem_of_to_node j i p l : (i, p) ∈ to_node j l <-> (i, j, p) ∈ l /\ is_data p = true.
Proof.
  unfold to_node. rewrite list_elem_of_omap. split.
  - intros ([[i' d] p'] & Hin & Hc). destruct ((d =? j) && is_data p') eqn:E; [|done]. injection Hc as -> ->.
    apply andb_true_iff in E as [->%Z.eqb_eq ->]. done.
  - intros [Hin Hd]. exists (i, j, p). split; [done|]. by rewrite Z.eqb_refl, Hd.
Qed.

Lemma dones_app i l1 l2 : dones i (l1 ++ l2) = dones i l1 + dones i l2.
Proof. unfold dones. by rewrite filter_app, zlen_app. Qed.
Lemma dones_one i i' d p : dones i [(i', d, p)] = if (i' =? i) && is_partial_done p then 1 else 0.
Proof.
  unfold dones. destruct (Z.eqb_spec i' i) as [->|Hne], (is_partial_done p) eqn:E; cbn [andb];
    (rewrite filter_cons_True by done; by rewrite filter_nil) || (rewrite filter_cons_False; [by rewrite filter_nil|]); intros [? ?]; cbn in *; congruence.
Qed.
Lemma dones_nonneg i l : 0 <= dones i l.
Proof. apply zlen_nonneg. Qed.
Lemma dones_pos i d p l : (i, d, p) ∈ l -> is_partial_done p = true -> 1 <= dones i l.
Proof.
  intros (l1 & l2 & ->)%list_elem_of_split Hp. change ((i, d, p) :: l2) with ([(i, d, p)] ++ l2).
  rewrite !dones_app, dones_one, Z.eqb_refl, Hp. pose proof (dones_nonneg i l1). pose proof (dones_nonneg i l2). cbn. lia.
Qed.

Lemma todo_to_app j us1 us2 : todo_to j (us1 ++ us2) = todo_to j us1 ++ todo_to j us2.
Proof. apply bind_app. Qed.
Lemma todo_to_cons j u us : todo_to j (u :: us) = (pair (u_node u) <$> msgs_to j (u_todo u)) ++ todo_to j us.
Proof. done. Qed.
Lemma msgs_to_cons j d p (l : list msg) : msgs_to j ((d, p) :: l) = (if d =? j then [p] else []) ++ msgs_to j l.
Proof. unfold msgs_to. cbn. by destruct (d =? j). Qed.
Lemma elem_of_todo_to j i p us : (i, p) ∈ todo_to j us <-> exists u, u ∈ us /\ u_node u = i /\ (j, p) ∈ u_todo u.
Proof.
  unfold todo_to. rewrite list_elem_of_bind. setoid_rewrite list_elem_of_fmap. unfold msgs_to.
  setoid_rewrite list_elem_of_omap. split.
  - intros (u & (q & [= -> ->] & ([d q'] & Hin & Hc)) & Hu). cbn in Hc. destruct (Z.eqb_spec d j) as [->|]; [|done]. injection Hc as ->.
    exists u. done.
  - intros (u & Hu & <- & Hin). exists u. split; [|done]. exists p. split; [done|]. exists (j, p). split; [done|].
    cbn. by rewrite Z.eqb_refl.
Qed.

(** The lists that end with a message that names a thread, or are empty. *)
Definition ends (l : list (RcDataPack T)) : Prop := l = [] \/ exists l' p, l = l' ++ [p] /\ thread_of p <> 0.

Lemma ends_tail p l : ends (p :: l) -> ends l.
Proof.
  intros [?|(l' & q & Heq & Hq)]; [done|]. destruct l' as [|p' l']; cbn in Heq; injection Heq as -> ->; [by left|].
  right. eauto.
Qed.
Lemma ends_terminal l : ends l -> l <> [] -> exists p, p ∈ l /\ thread_of p <> 0.
Proof. intros [?|(l' & p & -> & Hp)] Hl; [done|]. exists p. split; [|done]. apply elem_of_app. right. by left. Qed.
Lemma ends_single p l : ends (p :: l) -> l = [] -> thread_of p <> 0.
Proof.
  intros [?|(l' & q & Heq & Hq)] ->; [done|]. destruct l' as [|p' l']; cbn in Heq; [by injection Heq as ->|].
  injection Heq as _ Heq. by destruct l'.
Qed.

(** A message on a connection that does not name a thread has one behind it that does, or
    a user of the sender has still messages for the receiver. *)
Definition more_todo (i j : Z) (us : list (ac_user T)) : Prop := exists u, u ∈ us /\ u_node u = i /\ msgs_to j (u_todo u) <> [].
Definition follow (l : list (Z * Z * RcDataPack T)) (us : list (ac_user T)) : Prop :=
  forall l1 i j p l2, l = l1 ++ (i, j, p) :: l2 -> is_data p = true -> thread_of p = 0 ->
    (exists q, (i, j, q) ∈ l2 /\ is_data q = true /\ thread_of q <> 0) \/ more_todo i j us.

Lemma terminals_app (l1 l2 : list msg) : terminals (l1 ++ l2) = terminals l1 + terminals l2.
Proof. unfold terminals. by rewrite filter_app, zlen_app. Qed.
Lemma terminals_one (x : msg) : terminals [x] = if thread_of (snd x) =? 0 then 0 else 1.
Proof. change [x] with ([] ++ [x]). by rewrite terminals_snoc. Qed.
Lemma terminals_pos (x : msg) l : x ∈ l -> thread_of (snd x) <> 0 -> 1 <= terminals l.
Proof.
  intros (l1 & l2 & ->)%list_elem_of_split Hx. change (x :: l2) with ([x] ++ l2). rewrite !terminals_app, terminals_one.
  rewrite (proj2 (Z.eqb_neq _ _) Hx). pose proof (terminals_range l1). pose proof (terminals_range l2). lia.
Qed.

Lemma pending_terminal w j : follow (transit w) (users w) -> (forall u, u ∈ users w -> ends (msgs_to j (u_todo u))) ->
  pending j w <> [] -> 1 <= terminals (pending j w).
Proof.
  intros Hf He Hne. unfold pending.
  assert (forall i, more_todo i j (users w) -> 1 <= terminals (todo_to j (users w))) as Htodo.
  { intros i (u & Hu & Hi & Hm). destruct (ends_terminal _ (He u Hu) Hm) as (p & Hp & Ht).
    apply (terminals_pos (u_node u, p)); [|done]. apply elem_of_todo_to. exists u. split; [done|]. split; [done|].
    apply list_elem_of_omap in Hp as ([d q] & Hin & Hc). cbn in Hc. destruct (Z.eqb_spec d j) as [->|]; [|done]. by injection Hc as ->. }
  rewrite terminals_app. pose proof (terminals_range (todo_to j (users w))).
  destruct (to_node j (transit w)) as [|[i p] l] eqn:El.
  - cbn [app] in *. pose proof (terminals_range ([] : list msg)). assert (1 <= terminals (todo_to j (users w))); [|lia].
    unfold pending in Hne. rewrite El in Hne. destruct (todo_to j (users w)) as [|[i p] l'] eqn:E; [done|].
    assert ((i, p) ∈ todo_to j (users w)) as (u & Hu & <- & Hin)%elem_of_todo_to by (rewrite E; left).
    apply (Htodo (u_node u)). exists u. split; [done|]. split; [done|]. intros Hm.
    assert (p ∈ msgs_to j (u_todo u)) as Hp; [|rewrite Hm in Hp; by apply elem_of_nil in Hp].
    apply list_elem_of_omap. exists (j, p). split; [done|]. cbn. by rewrite Z.eqb_refl.
  - assert ((i, p) ∈ to_node j (transit w)) as [Hin Hd]%elem_of_to_node by (rewrite El; left). rewrite <- El in *.
    pose proof (terminals_range (to_node j (transit w))).
    assert (forall q, (i, j, q) ∈ transit w -> is_data q = true -> thread_of q <> 0 -> 1 <= terminals (to_node j (transit w))) as Hq.
    { intros q Hq1 Hq2 Hq3. apply (terminals_pos (i, q)); [|done]. by apply elem_of_to_node. }
    destruct (decide (thread_of p = 0)) as [Hp|Hp]; [|specialize (Hq p Hin Hd Hp); lia].
    apply list_elem_of_split in Hin as (l1 & l2 & Heq). destruct (Hf _ _ _ _ _ Heq Hd Hp) as [(q & Hq1 & Hq2 & Hq3)|Hm].
    + assert (1 <= terminals (to_node j (transit w))); [|lia]. apply (Hq q); [|done..]. rewrite Heq. apply elem_of_app. right. by right.
    + specialize (Htodo i Hm). lia.
Qed.

Lemma split_app {A} (l1 l2 : list A) a x b : l1 ++ l2 = a ++ x :: b ->
  (exists b', l1 = a ++ x :: b' /\ b = b' ++ l2) \/ (exists a', l2 = a' ++ x :: b /\ a = l1 ++ a').
Proof.
  intros [(k & -> & Hk)|(k & -> & Hk)]%app_eq_inv.
  - destruct k as [|y k]; cbn in Hk.
    + right. exists []. by rewrite !app_nil_r.
    + injection Hk as <- ->. left. by exists k.
  - right. by exists k.
Qed.

Lemma follow_snoc l us i j p : follow l us -> (is_data p = true -> thread_of p = 0 -> more_todo i j us) ->
  follow (l ++ [(i, j, p)]) us.
Proof.
  intros Hf Hp l1 i' j' p' l2 [(b & -> & ->)|(a & Ha & _)]%split_app Hd Ht.
  - destruct (Hf l1 i' j' p' b eq_refl Hd Ht) as [(q & Hq & Hrest)|]; [left|by right]. exists q. split; [|done].
    apply elem_of_app. by left.
  - right. destruct a as [|y [|z a]]; try done. injection Ha as -> -> ->. by apply Hp.
Qed.

Lemma follow_remove pre i j p post us : follow (pre ++ (i, j, p) :: post) us -> Forall (fun x => fst x <> (i, j)) pre ->
  follow (pre ++ post) us.
Proof.
  intros Hf Hpre l1 i' j' p' l2 [(b & -> & ->)|(a & -> & ->)]%split_app Hd Ht.
  - destruct (Hf l1 i' j' p' (b ++ (i, j, p) :: post)) as [(q & Hq & Hrest)|]; [by rewrite <- app_assoc|done..| |by right].
    left. exists q. split; [|done]. rewrite elem_of_app, elem_of_cons in Hq. rewrite elem_of_app. destruct Hq as [|[[= -> -> ->]|]]; [by left| |by right].
    rewrite Forall_app, Forall_cons in Hpre. destruct Hpre as (_ & Hne & _). by cbn in Hne.
  - apply (Hf (pre ++ (i, j, p) :: a) i' j' p' l2); [by rewrite <- app_assoc|done..].
Qed.

Lemma more_todo_user i j us1 u rest us2 : more_todo i j (us1 ++ u :: us2) ->
  more_todo i j (us1 ++ AcUser (u_node u) rest :: us2) \/ i = u_node u /\ msgs_to j rest = [].
Proof.
  intros (v & Hv & Hi & Hm). apply elem_of_app in Hv as [Hv|[->|Hv]%elem_of_cons].
  - left. exists v. split; [apply elem_of_app; by left|done].
  - destruct (decide (length (msgs_to j rest) = O)) as [E%nil_length_inv|E]; [by right|]. left. exists (AcUser (u_node u) rest).
    split; [apply elem_of_app; right; by left|]. split; [done|]. intros Hr. apply E.
    change (msgs_to j rest = []) in Hr. by rewrite Hr.
  - left. exists v. split; [apply elem_of_app; right; by right|done].
Qed.

(** A user sends: what waited for the user to go on still does, or is followed by the
    user's last message. *)
Lemma follow_send l us1 u d p rest us2 : follow l (us1 ++ u :: us2) -> u_todo u = (d, p) :: rest -> d <> u_node u ->
  is_data p = true -> ends (msgs_to d (u_todo u)) ->
  follow (l ++ [(u_node u, d, p)]) (us1 ++ AcUser (u_node u) rest :: us2).
Proof.
  intros Hf Hu Hne Hd He. rewrite Hu, msgs_to_cons, Z.eqb_refl in He. cbn [app] in He.
  assert (msgs_to d rest = [] -> thread_of p <> 0) as Hlast by (by apply ends_single).
  assert (forall j, j <> d -> msgs_to j (u_todo u) = msgs_to j rest) as Hother.
  { intros j Hj. rewrite Hu, msgs_to_cons. by rewrite (proj2 (Z.eqb_neq d j)). }
  intros l1 i' j' p' l2 [(b & -> & ->)|(a & Ha & _)]%split_app Hd' Ht'.
  - destruct (Hf l1 i' j' p' b eq_refl Hd' Ht') as [(q & Hq & Hrest)|Hm].
    { left. exists q. split; [apply elem_of_app; by left|done]. }
    destruct (more_todo_user i' j' us1 u rest us2 Hm) as [|[-> Hr]]; [by right|].
    destruct (decide (j' = d)) as [->|Hj].
    + left. exists p. split; [apply elem_of_app; right; by left|]. split; [done|by apply Hlast].
    + right. destruct Hm as (v & Hv & Hi & Hm). apply elem_of_app in Hv as [Hv|[->|Hv]%elem_of_cons].
      * exists v. split; [apply elem_of_app; by left|done].
      * by rewrite Hother in Hm.
      * exists v. split; [apply elem_of_app; right; by right|done].
  - right. destruct a as [|y [|z a]]; try done. injection Ha as Hi -> ->.
    exists (AcUser (u_node u) rest). split; [apply elem_of_app; right; by left|]. split; [done|].
    intros Hr. by apply (Hlast Hr).
Qed.

Lemma follow_local l us1 u p rest us2 : follow l (us1 ++ u :: us2) -> u_todo u = (u_node u, p) :: rest ->
  (forall i j q, (i, j, q) ∈ l -> i <> j) -> follow l (us1 ++ AcUser (u_node u) rest :: us2).
Proof.
  intros Hf Hu Hl l1 i j q l2 Heq Hd Ht. destruct (Hf l1 i j q l2 Heq Hd Ht) as [|Hm]; [by left|right].
  assert (i <> j) as Hij by (apply (Hl i j q); rewrite Heq; apply elem_of_app; right; by left).
  destruct (more_todo_user i j us1 u rest us2 Hm) as [|[-> Hr]]; [done|].
  destruct Hm as (v & Hv & Hi & Hm). apply elem_of_app in Hv as [Hv|[->|Hv]%elem_of_cons].
  - exists v. split; [apply elem_of_app; by left|done].
  - rewrite Hu, msgs_to_cons, (proj2 (Z.eqb_neq (u_node u) j)) in Hm by done. by rewrite Hr in Hm.
  - exists v. split; [apply elem_of_app; right; by right|done].
Qed.
End transit.

(** * A round *)

Section round.
Context {T : Type} `{ElementLaws T}.
Context (cache_get : Z -> Z -> outcome Z) (accu : Z -> accumulator T) (BaseDoReduce : list T -> outcome (list T)).
Context (num_nodes aid k sz arr : Z).
#[local] Abbreviation msg := (Z * RcDataPack T)%type.
Context (Haccu : accu aid = DAddAccumulator) (Hsz : 0 <= sz <= 2 ^ 27) (Hn : 0 < num_nodes <= 2 ^ 20) (Hk : 1 <= k < 2 ^ 31).
(** The messages of the round to each node. *)
Context (all : Z -> list msg).

Let start i := part_start sz num_nodes i.
Let stop i := Z.max (start i) (part_end sz num_nodes i).

Context (Hterminals : forall j, 0 <= j < num_nodes -> terminals (all j) = k).
Context (Hfits : forall j x, 0 <= j < num_nodes -> x ∈ all j -> size_ok (snd x) /\ within (start j) (stop j) (snd x)).

Definition done_pack : RcDataPack T :=
  {| dp_cmd := AcDataAccumulatePartialDone; dp_size := 0; dp_id := aid; dp_param0 := 0; dp_param12 := 0; dp_body := Dense [] |}.

(** [got j] is what node [j] has taken; a node has finished when it took the last message
    of every user; the master has counted it when its report has arrived. *)
Definition fin (got : Z -> list msg) (j : Z) : bool := terminals (got j) =? k.
Definition counted (got : Z -> list msg) (l : list (Z * Z * RcDataPack T)) (j : Z) : Z := (if fin got j then 1 else 0) - dones j l.
Definition total_done (got : Z -> list msg) (l : list (Z * Z * RcDataPack T)) : Z := zsum (counted got l) (seqZ 0 num_nodes).

(** The count, the waiting threads and the messages since the last reset of node [j]'s
    table, when [c] nodes were counted. *)
Definition cnt (c j : Z) : Z := if (j =? 0) && (c <? num_nodes) then c else 0.
Definition wait (c : Z) (got : Z -> list msg) (j : Z) : list SyncThreadNode :=
  if (j =? 0) && (c <? num_nodes) then flat_map (waiter 0) (got 0) else [].
Definition cur (got : Z -> list msg) (j : Z) : list msg := if fin got j then [] else got j.

Definition table_ok (c : Z) (got : Z -> list msg) (j : Z) (m : ac_manager T) : Prop := exists node,
  FindOrCreateDataSyncNode cache_get num_nodes j m aid = Ret node /\
  owner_node num_nodes j k sz arr (cnt c j) (cur got j) node /\ waitlist node = wait c got j.
Definition tables_ok (c : Z) (got : Z -> list msg) (ms : list (ac_manager T)) : Prop :=
  zlen ms = num_nodes /\ forall j, 0 <= j < num_nodes -> exists m, ms.[j] = Some m /\ table_ok c got j m.

Definition user_ok (u : ac_user T) : Prop :=
  0 <= u_node u < num_nodes /\ (forall j, ends (msgs_to j (u_todo u))) /\
  forall d p, (d, p) ∈ u_todo u -> 0 <= d < num_nodes /\ dp_id p = aid /\ thread_of p = dp_param12 p /\
    (d <> u_node u -> for_listener aid p).

(** [held j]: messages for node [j] that were taken off and not yet added. *)
Record round_inv (held got : Z -> list msg) (w : ac_world T) : Prop := {
  ri_tables : tables_ok (total_done got (transit w)) got (managers w);
  ri_messages : forall j, 0 <= j < num_nodes -> got j ++ held j ++ pending j w ≡ₚ all j;
  ri_transit : forall i j p, (i, j, p) ∈ transit w ->
    0 <= i < num_nodes /\ 0 <= j < num_nodes /\ i <> j /\ (for_listener aid p \/ j = 0 /\ p = done_pack);
  ri_follow : follow (transit w) (users w);
  ri_users : forall u, u ∈ users w -> user_ok u;
  ri_dones : forall j, 0 <= j < num_nodes -> dones j (transit w) <= if fin got j && negb (j =? 0) then 1 else 0;
  ri_arrays : forall j, 0 <= j < num_nodes -> fin got j = true ->
    forall x, start j <= x < stop j -> arrays w arr x = total (snd <$> got j) x;
  ri_woken : woken w = if total_done got (transit w) <? num_nodes then [] else flat_map (waiter 0) (got 0);
}.

Definition none : Z -> list msg := fun _ => [].
Definition hold (j : Z) (x : msg) : Z -> list msg := fun i => if i =? j then [x] else [].
Definition taken (got : Z -> list msg) (j : Z) (x : msg) : Z -> list msg := fun i => if i =? j then got j ++ [x] else got i.

(** ** Counting *)

Lemma counted_range got w j : round_inv none got w \/ (forall i, 0 <= i < num_nodes ->
    dones i (transit w) <= if fin got i && negb (i =? 0) then 1 else 0) -> 0 <= j < num_nodes ->
  0 <= counted got (transit w) j <= 1.
Proof.
  intros Hd Hj. assert (dones j (transit w) <= if fin got j && negb (j =? 0) then 1 else 0) as Hd'
    by (destruct Hd as [Hd|Hd]; [by apply (ri_dones _ _ _ Hd)|by apply Hd]).
  pose proof (dones_nonneg j (transit w)). unfold counted. destruct (fin got j), (j =? 0); cbn in *; lia.
Qed.

Lemma total_done_range got l : (forall j, 0 <= j < num_nodes -> 0 <= counted got l j <= 1) -> 0 <= total_done got l <= num_nodes.
Proof.
  intros Hc. unfold total_done. assert (forall js, (forall j, j ∈ js -> 0 <= j < num_nodes) -> 0 <= zsum (counted got l) js <= zlen js) as Hs.
  { induction js as [|j js IH]; intros Hj; [done|]. rewrite zsum_cons, zlen_cons. pose proof (Hc j (Hj j ltac:(left))).
    assert (0 <= zsum (counted got l) js <= zlen js); [|lia]. apply IH. intros i Hi. apply Hj. by right. }
  specialize (Hs (seqZ 0 num_nodes)). assert (zlen (seqZ 0 num_nodes) = num_nodes) as Hz by (unfold zlen; rewrite length_seqZ; lia).
  rewrite Hz in Hs. apply Hs. intros j Hj%elem_of_seqZ. lia.
Qed.

Lemma total_done_all got l : (forall j, 0 <= j < num_nodes -> 0 <= counted got l j <= 1) -> num_nodes <= total_done got l ->
  forall j, 0 <= j < num_nodes -> counted got l j = 1.
Proof.
  intros Hc Ht j Hj. apply (zsum_full (counted got l) (seqZ 0 num_nodes)).
  - intros i Hi%elem_of_seqZ. apply Hc. lia.
  - unfold zlen. rewrite length_seqZ. unfold total_done in Ht. lia.
  - apply elem_of_seqZ. lia.
Qed.

Lemma total_done_missing got l j : (forall j, 0 <= j < num_nodes -> 0 <= counted got l j <= 1) -> 0 <= j < num_nodes ->
  counted got l j = 0 -> total_done got l < num_nodes.
Proof.
  intros Hc Hj H0'. destruct (Z.lt_ge_cases (total_done got l) num_nodes) as [|Hge]; [done|].
  rewrite (total_done_all got l Hc Hge j Hj) in H0'. done.
Qed.

Lemma total_done_change got l got' l' j : 0 <= j < num_nodes ->
  (forall i, 0 <= i < num_nodes -> i <> j -> counted got' l' i = counted got l i) ->
  total_done got' l' = total_done got l + (counted got' l' j - counted got l j).
Proof.
  intros Hj Hc. apply zsum_update.
  - apply NoDup_seqZ.
  - apply elem_of_seqZ. lia.
  - intros i Hi%elem_of_seqZ Hne. symmetry. apply Hc; [lia|done].
Qed.

Lemma total_done_same got l got' l' : (forall i, 0 <= i < num_nodes -> counted got' l' i = counted got l i) ->
  total_done got' l' = total_done got l.
Proof. intros Hc. apply zsum_ext. intros i Hi%elem_of_seqZ. apply Hc. lia. Qed.

(** ** A node takes a message *)

Lemma part_ok_node j : 0 <= j < num_nodes -> part_ok sz num_nodes j.
Proof. done. Qed.

Lemma tables_update c c' got got' ms j m' : tables_ok c got ms -> 0 <= j < num_nodes -> table_ok c' got' j m' ->
  (forall i, 0 <= i < num_nodes -> i <> j -> cnt c' i = cnt c i /\ cur got' i = cur got i /\ wait c' got' i = wait c got i) ->
  exists ms', wr ms j m' = Ret ms' /\ tables_ok c' got' ms'.
Proof.
  intros [Hl Ht] Hj Hm Ho. destruct (wr_ok ms j m') as (ms' & Hw & Hl' & Hlook); [lia|]. exists ms'. split; [done|].
  split; [lia|]. intros i Hi. rewrite Hlook. destruct (Z.eqb_spec i j) as [->|Hne]; [by exists m'|].
  destruct (Ht i Hi) as (mi & Hmi & node & H1 & H2 & H3). destruct (Ho i Hi Hne) as (E1 & E2 & E3).
  exists mi. split; [done|]. exists node. by rewrite E1, E2, E3.
Qed.

Lemma taken_same got j x : taken got j x j = got j ++ [x].
Proof. unfold taken. by rewrite Z.eqb_refl. Qed.
Lemma taken_other got j x i : i <> j -> taken got j x i = got i.
Proof. intros Hi. unfold taken. by rewrite (proj2 (Z.eqb_neq i j)). Qed.
Lemma fin_taken_other got j x i : i <> j -> fin (taken got j x) i = fin got i.
Proof. intros Hi. unfold fin. by rewrite taken_other. Qed.

Lemma messages_taken got j x w w' : transit w' = transit w -> users w' = users w ->
  (forall i, 0 <= i < num_nodes -> got i ++ hold j x i ++ pending i w ≡ₚ all i) ->
  forall i, 0 <= i < num_nodes -> taken got j x i ++ none i ++ pending i w' ≡ₚ all i.
Proof.
  intros E1 E2 Hm i Hi. rewrite <- (Hm i Hi). unfold pending. rewrite E1, E2. unfold taken, hold, none.
  destruct (Z.eqb_spec i j) as [->|]; [by rewrite <- app_assoc|done].
Qed.

(** The message held for node [j] fits, and is not the first after the last one. *)
Lemma held_fits got j x w : round_inv (hold j x) got w -> 0 <= j < num_nodes ->
  size_ok (snd x) /\ within (start j) (start j + Z.max 0 (part_end sz num_nodes j - start j)) (snd x) /\
  terminals (got j ++ [x]) <= k.
Proof.
  intros HI Hj. pose proof (ri_messages _ _ _ HI j Hj) as Hm. unfold hold in Hm. rewrite Z.eqb_refl in Hm.
  replace (start j + Z.max 0 (part_end sz num_nodes j - start j)) with (stop j) by (unfold stop; lia).
  destruct (Hfits j x Hj) as [H1 H2]; [rewrite <- Hm; set_solver|]. split; [done|]. split; [done|].
  rewrite <- (Hterminals j Hj), <- (terminals_perm _ _ Hm), !terminals_app. pose proof (terminals_range (pending j w)). lia.
Qed.

Lemma unfinished_total held got w j : round_inv held got w -> 0 <= j < num_nodes -> fin got j = false ->
  0 <= total_done got (transit w) < num_nodes /\ dones j (transit w) = 0.
Proof.
  intros HI Hj Hf. assert (forall i, 0 <= i < num_nodes -> 0 <= counted got (transit w) i <= 1) as Hc.
  { intros i Hi. apply counted_range; [|done]. right. apply (ri_dones _ _ _ HI). }
  assert (dones j (transit w) = 0) as Hd.
  { pose proof (ri_dones _ _ _ HI j Hj) as Hd. rewrite Hf in Hd. pose proof (dones_nonneg j (transit w)). cbn in Hd. lia. }
  split; [|done]. split; [by apply total_done_range|]. apply (total_done_missing _ _ j Hc Hj). unfold counted. rewrite Hf, Hd. done.
Qed.

Lemma process_more got w j x m : round_inv (hold j x) got w -> 0 <= j < num_nodes -> terminals (got j ++ [x]) < k ->
  (managers w).[j] = Some m ->
  exists m' ms, accumulate_msg cache_get accu num_nodes j aid m x = Ret (m', []) /\ wr (managers w) j m' = Ret ms /\
    round_inv none (taken got j x) (AcWorld ms (transit w) (users w) (arrays w) (woken w)).
Proof.
  intros HI Hj Ht Hm. destruct (held_fits got j x w HI Hj) as (Hs & Hw & _).
  assert (fin got j = false) as Hf.
  { unfold fin. rewrite terminals_app in Ht. pose proof (terminals_range [x]). apply Z.eqb_neq. lia. }
  destruct (unfinished_total _ got w j HI Hj Hf) as [Hc Hd].
  assert (fin (taken got j x) j = false) as Hf' by (unfold fin; rewrite taken_same; apply Z.eqb_neq; lia).
  destruct (ri_tables _ _ _ HI) as [Hl Htab]. destruct (Htab j Hj) as (m0 & Hm0 & node & Hfind & Hown & Hwl).
  assert (m0 = m) as -> by congruence. unfold cur in Hown. rewrite Hf in Hown.
  destruct (owner_step cache_get accu num_nodes j aid k sz arr Haccu (part_ok_node j Hj) Hk m _ (got j) node x Hfind Hown Hs Hw Ht)
    as (m' & node' & Hacc & Hfind' & Hown' & Hwl').
  set (c := total_done got (transit w)) in *.
  assert (total_done (taken got j x) (transit w) = c) as Htot.
  { apply total_done_same. intros i Hi. unfold counted. destruct (decide (i = j)) as [->|Hne]; [by rewrite Hf, Hf'|by rewrite fin_taken_other]. }
  destruct (tables_update c c got (taken got j x) (managers w) j m' (ri_tables _ _ _ HI) Hj) as (ms & Hwr & Htabs).
  { exists node'. split; [done|]. unfold cur. rewrite Hf', taken_same. split; [done|]. rewrite Hwl', Hwl. unfold wait.
    rewrite (proj2 (Z.ltb_lt c num_nodes)) by lia. destruct (Z.eqb_spec j 0) as [->|Hj0]; cbn [andb].
    - by rewrite taken_same, flat_map_app; cbn [flat_map]; rewrite app_nil_r.
    - unfold waiter. by rewrite (proj2 (Z.eqb_neq j 0)). }
  { intros i Hi Hne. split; [done|]. unfold cur, wait. rewrite fin_taken_other, taken_other by done. split; [done|].
    destruct (Z.eqb_spec i 0) as [->|]; [|done]. by rewrite taken_other. }
  exists m', ms. split; [done|]. split; [done|]. split; cbn [managers transit users arrays woken]; try apply HI.
  - by rewrite Htot.
  - apply (messages_taken got j x w); [done|done|apply HI].
  - intros i Hi. destruct (decide (i = j)) as [->|Hne]; [rewrite Hf'; cbn; lia|]. rewrite fin_taken_other by done. by apply HI.
  - intros i Hi Hfi y Hy. assert (i <> j) as Hne by congruence. rewrite fin_taken_other in Hfi by done. rewrite taken_other by done.
    by apply HI.
  - rewrite Htot, (ri_woken _ _ _ HI). fold c. by rewrite (proj2 (Z.ltb_lt c num_nodes)) by lia.
Qed.

(** A bound on the steps left: messages to give out, on the way, and reports. *)
Definition weight (l : list (Z * Z * RcDataPack T)) : Z := foldr (fun x n => (if is_data (snd x) then 2 else 1) + n) 0 l.
Definition todo_count (us : list (ac_user T)) : Z := foldr (fun u n => zlen (u_todo u) + n) 0 us.
Definition steps_left (w : ac_world T) : Z := 3 * todo_count (users w) + weight (transit w).

Lemma weight_app l1 l2 : weight (l1 ++ l2) = weight l1 + weight l2.
Proof. induction l1 as [|x l1 IH]; [done|]. cbn. unfold weight in *. rewrite IH. lia. Qed.
Lemma todo_count_app us1 us2 : todo_count (us1 ++ us2) = todo_count us1 + todo_count us2.
Proof. induction us1 as [|u us1 IH]; [done|]. cbn. unfold todo_count in *. rewrite IH. lia. Qed.
Lemma steps_left_nonneg w : 0 <= steps_left w.
Proof.
  unfold steps_left. assert (0 <= weight (transit w)) as H1.
  { induction (transit w) as [|x l IH]; [done|]. cbn. unfold weight in IH. destruct (is_data (snd x)); lia. }
  assert (0 <= todo_count (users w)) as H2; [|lia].
  induction (users w) as [|u us IH]; [done|]. cbn. unfold todo_count in IH. pose proof (zlen_nonneg (u_todo u)). lia.
Qed.

(** A message that is taken sends at most a report. *)
Definition grows (w w' : ac_world T) : Prop := users w' = users w /\ weight (transit w') <= weight (transit w) + 1.

Lemma part_disjoint i j x : 0 <= i < num_nodes -> 0 <= j < num_nodes -> start i <= x < stop i -> start j <= x < stop j -> i = j.
Proof.
  intros Hi Hj. unfold stop, start. intros H1 H2. apply (part_unique sz num_nodes x); (done || lia).
Qed.

(** What the last message of a round makes of the world. *)
Definition put_part (a : Z -> Z -> T) (j : Z) (out : list T) : Z -> Z -> T :=
  let len := Z.max 0 (part_end sz num_nodes j - start j) in
  if len =? 0 then a else put_chunk a arr (start j) len out.

Lemma put_part_look a j out o x : 
  zlen out = Z.max 0 (part_end sz num_nodes j - start j) ->
  put_part a j out o x = if (o =? arr) && (start j <=? x) && (x <? stop j) then default (a o x) (out.[x - start j]) else a o x.
Proof.
  intros Hl. unfold put_part. set (len := Z.max 0 (part_end sz num_nodes j - start j)) in *.
  replace (stop j) with (start j + len) by (unfold stop; lia). destruct (Z.eqb_spec len 0) as [E|E].
  - rewrite E, Z.add_0_r. destruct ((o =? arr) && (start j <=? x) && (x <? start j)) eqn:Hc; [|done]. lia.
  - done.
Qed.

Lemma apply_wakes j (w : ac_world T) ths : apply_effects j w (EWake <$> ths) =
  AcWorld (managers w) (transit w) (users w) (arrays w) (woken w ++ ths).
Proof.
  revert w. induction ths as [|th ths IH]; intros w; cbn [fmap list_fmap apply_effects foldl].
  - rewrite app_nil_r. by destruct w.
  - unfold apply_effects in IH. rewrite IH. cbn. by rewrite <- app_assoc.
Qed.

Lemma apply_finish j (w : ac_world T) d out wakes :
  apply_effects j w ((if Z.max 0 (part_end sz num_nodes j - start j) =? 0 then []
      else [EPutChunk arr (start j) (Z.max 0 (part_end sz num_nodes j - start j)) out]) ++ finish num_nodes j aid d wakes) =
  AcWorld (managers w) (transit w ++ if j =? 0 then [] else [(j, 0, done_pack)]) (users w) (put_part (arrays w) j out)
    (woken w ++ if (j =? 0) && (num_nodes <=? d + 1) then wakes else []).
Proof.
  unfold apply_effects. rewrite foldl_app. fold (apply_effects (T := T) j). unfold put_part, finish.
  set (w1 := foldl _ w _).
  assert (w1 = AcWorld (managers w) (transit w) (users w) (put_part (arrays w) j out) (woken w)) as ->.
  { unfold w1, put_part. case_test; [by destruct w|done]. }
  destruct (Z.eqb_spec j 0); cbn [andb].
  - rewrite app_nil_r. destruct (num_nodes <=? d + 1); [apply apply_wakes|]. cbn. by rewrite app_nil_r.
  - cbn. by rewrite app_nil_r.
Qed.

(** The node that finishes: counted at once when it is the master, else by its report. *)
Lemma total_done_finish held got w j x : round_inv held got w -> 0 <= j < num_nodes -> fin got j = false ->
  fin (taken got j x) j = true ->
  total_done (taken got j x) (transit w ++ if j =? 0 then [] else [(j, 0, done_pack)]) =
    if j =? 0 then total_done got (transit w) + 1 else total_done got (transit w).
Proof.
  intros HI Hj Hf Hf'. destruct (unfinished_total _ got w j HI Hj Hf) as [_ Hd].
  rewrite (total_done_change got (transit w) (taken got j x) _ j Hj).
  - unfold counted. rewrite Hf, Hf', dones_app, Hd. destruct (Z.eqb_spec j 0); [by rewrite Z.add_0_r|].
    rewrite dones_one, Z.eqb_refl. cbn. lia.
  - intros i Hi Hne. unfold counted. rewrite fin_taken_other, dones_app by done. destruct (j =? 0); [by rewrite Z.add_0_r|].
    rewrite dones_one, (proj2 (Z.eqb_neq j i)) by done. cbn. lia.
Qed.

Lemma finish_table got c j x : 0 <= c < num_nodes -> fin (taken got j x) j = true ->
  let c' := if j =? 0 then c + 1 else c in
  finish_cnt num_nodes j (cnt c j) = cnt c' j /\
  finish_wait num_nodes j (cnt c j) (wait c got j ++ waiter j x) = wait c' (taken got j x) j /\
  ((j =? 0) && (num_nodes <=? cnt c j + 1) = negb (c' <? num_nodes)).
Proof.
  intros Hc Hf c'. unfold finish_cnt, finish_wait, cnt, wait, c'. rewrite (proj2 (Z.ltb_lt c num_nodes)) by lia.
  destruct (Z.eqb_spec j 0) as [->|Hj0]; cbn [andb].
  - rewrite taken_same, flat_map_app. cbn [flat_map]. rewrite app_nil_r.
    destruct (Z.leb_spec num_nodes (c + 1)), (Z.ltb_spec (c + 1) num_nodes); try lia; done.
  - unfold waiter. rewrite (proj2 (Z.eqb_neq j 0)) by done. rewrite (proj2 (Z.ltb_lt c num_nodes)) by lia. done.
Qed.

(** The array after the finish. *)
Lemma finish_arrays held got w j x out : round_inv held got w -> 0 <= j < num_nodes -> fin got j = false ->
  zlen out = Z.max 0 (part_end sz num_nodes j - start j) ->
  (forall y, 0 <= y < zlen out -> out.[y] = Some (total (snd <$> got j ++ [x]) (start j + y))) ->
  forall i, 0 <= i < num_nodes -> fin (taken got j x) i = true -> forall y, start i <= y < stop i ->
    put_part (arrays w) j out arr y = total (snd <$> taken got j x i) y.
Proof.
  intros HI Hj Hf Hl Hout i Hi Hfi y Hy. rewrite put_part_look, Z.eqb_refl by done. cbn [andb].
  destruct (decide (i = j)) as [->|Hne].
  - rewrite (proj2 (andb_true_iff _ _)) by lia. rewrite Hout by (unfold stop in Hy; lia). rewrite taken_same. cbn.
    f_equal. lia.
  - rewrite fin_taken_other in Hfi by done. rewrite taken_other by done.
    destruct ((start j <=? y) && (y <? stop j)) eqn:E; [|by apply (ri_arrays _ _ _ HI)].
    destruct Hne. apply (part_disjoint i j y); [done|done|done|lia].
Qed.

Lemma process_last got w j x m : round_inv (hold j x) got w -> 0 <= j < num_nodes -> terminals (got j) < k ->
  terminals (got j ++ [x]) = k -> (managers w).[j] = Some m ->
  exists m' effs ms, accumulate_msg cache_get accu num_nodes j aid m x = Ret (m', effs) /\ wr (managers w) j m' = Ret ms /\
    round_inv none (taken got j x) (apply_effects j (AcWorld ms (transit w) (users w) (arrays w) (woken w)) effs) /\
    grows w (apply_effects j (AcWorld ms (transit w) (users w) (arrays w) (woken w)) effs).
Proof.
  intros HI Hj Hlt Ht Hm. destruct (held_fits got j x w HI Hj) as (Hs & Hw & _).
  assert (fin got j = false) as Hf by (unfold fin; apply Z.eqb_neq; lia).
  assert (fin (taken got j x) j = true) as Hf' by (unfold fin; rewrite taken_same; by apply Z.eqb_eq).
  destruct (unfinished_total _ got w j HI Hj Hf) as [Hc Hd]. set (c := total_done got (transit w)) in *.
  destruct (ri_tables _ _ _ HI) as [Hl Htab]. destruct (Htab j Hj) as (m0 & Hm0 & node & Hfind & Hown & Hwl).
  assert (m0 = m) as -> by congruence. unfold cur in Hown. rewrite Hf in Hown.
  assert (thread_of (snd x) <> 0) as Hx.
  { rewrite terminals_app, terminals_one in Ht. destruct (Z.eqb_spec (thread_of (snd x)) 0); lia. }
  destruct (owner_finish cache_get accu num_nodes j aid k sz arr Haccu (part_ok_node j Hj) Hk m (cnt c j) (got j) node x)
    as (m' & node' & out & Hacc & Hlo & Hout & Hm' & Hown' & Hwl'); [done|unfold cnt; case_test; lia|done..|].
  destruct (finish_table got c j x Hc Hf') as (E1 & E2 & E3). fold c in Hwl. rewrite Hwl in Hacc, Hwl'.
  pose proof (total_done_finish _ got w j x HI Hj Hf Hf') as Htot. fold c in Htot. set (c' := if j =? 0 then c + 1 else c) in *.
  destruct (tables_update c c' got (taken got j x) (managers w) j m' (ri_tables _ _ _ HI) Hj) as (ms & Hwr & Htabs).
  { exists node'. unfold FindOrCreateDataSyncNode. rewrite Hm'. split; [done|]. rewrite <- E1, <- E2.
    unfold cur. by rewrite Hf'. }
  { intros i Hi Hne. unfold cur. rewrite fin_taken_other, taken_other by done. unfold cnt, wait, c'.
    destruct (Z.eqb_spec i 0) as [->|]; [|done]. rewrite (proj2 (Z.eqb_neq j 0)) by done. by rewrite taken_other. }
  eexists m', _, ms. split; [exact Hacc|]. split; [done|]. rewrite apply_finish. cbn [managers transit users arrays woken].
  split; [|split; [done|]; cbn [transit]; rewrite weight_app; destruct (j =? 0); cbn; lia].
  split; cbn [managers transit users arrays woken].
  - by rewrite Htot.
  - intros i Hi. rewrite <- (messages_taken got j x w w eq_refl eq_refl (ri_messages _ _ _ HI) i Hi). unfold pending. cbn [transit users].
    rewrite to_node_app. destruct (j =? 0); [by rewrite app_nil_r|]. rewrite to_node_one. cbn. by rewrite andb_false_r, app_nil_r.
  - intros i d p [Hin|Hin]%elem_of_app; [by apply (ri_transit _ _ _ HI)|]. destruct (Z.eqb_spec j 0) as [|Hj0]; [by apply elem_of_nil in Hin|].
    apply list_elem_of_singleton in Hin. injection Hin as -> -> ->. split; [done|]. split; [lia|]. split; [done|]. by right.
  - destruct (j =? 0); [rewrite app_nil_r; apply HI|]. apply follow_snoc; [apply HI|done].
  - apply HI.
  - intros i Hi. rewrite dones_app. destruct (decide (i = j)) as [->|Hne].
    + rewrite Hf', Hd. destruct (Z.eqb_spec j 0); [done|]. rewrite dones_one, Z.eqb_refl. done.
    + rewrite fin_taken_other by done. pose proof (ri_dones _ _ _ HI i Hi). destruct (j =? 0); [change (dones i []) with 0; lia|].
      rewrite dones_one, (proj2 (Z.eqb_neq j i)) by done. cbn. lia.
  - by eapply finish_arrays; [exact HI|..|intros y Hy; apply Hout; rewrite Hlo in Hy].
  - rewrite Htot, (ri_woken _ _ _ HI), E3. fold c. rewrite (proj2 (Z.ltb_lt c num_nodes)) by lia. cbn [app].
    unfold c'. destruct (Z.eqb_spec j 0) as [->|]; [|by rewrite (proj2 (Z.ltb_lt c num_nodes)) by lia].
    destruct (Z.ltb_spec (c + 1) num_nodes); cbn [negb]; [done|]. unfold wait. rewrite (proj2 (Z.ltb_lt c num_nodes)) by lia.
    rewrite taken_same, flat_map_app. cbn. by rewrite app_nil_r.
Qed.

Lemma process got w j x m : round_inv (hold j x) got w -> 0 <= j < num_nodes -> terminals (got j) < k ->
  (managers w).[j] = Some m ->
  exists m' effs ms, accumulate_msg cache_get accu num_nodes j aid m x = Ret (m', effs) /\ wr (managers w) j m' = Ret ms /\
    round_inv none (taken got j x) (apply_effects j (AcWorld ms (transit w) (users w) (arrays w) (woken w)) effs) /\
    grows w (apply_effects j (AcWorld ms (transit w) (users w) (arrays w) (woken w)) effs).
Proof.
  intros HI Hj Hlt Hm. destruct (held_fits got j x w HI Hj) as (_ & _ & Hle).
  destruct (Z.lt_ge_cases (terminals (got j ++ [x])) k) as [Ht|Ht].
  - destruct (process_more got w j x m HI Hj Ht Hm) as (m' & ms & H1 & H2 & H3). exists m', [], ms.
    split; [done|]. split; [done|]. split; [done|]. split; [done|]. cbn [apply_effects foldl transit]. lia.
  - apply process_last; [done..|lia|done].
Qed.

(** ** The master counts a report *)

Lemma total_done_report got w pre i post : round_inv none got w -> transit w = pre ++ (i, 0, done_pack) :: post ->
  0 <= i < num_nodes -> total_done got (pre ++ post) = total_done got (transit w) + 1 /\ fin got i = true /\ i <> 0 /\
    total_done got (transit w) < num_nodes.
Proof.
  intros HI Heq Hi. change ((i, 0, done_pack) :: post) with ([(i, 0, done_pack)] ++ post) in Heq.
  assert (forall j, dones j (transit w) = dones j (pre ++ post) + if i =? j then 1 else 0) as Hd.
  { intros j. rewrite Heq, !dones_app, dones_one. cbn. rewrite andb_true_r. lia. }
  pose proof (ri_dones _ _ _ HI i Hi) as Hdi. pose proof (dones_nonneg i (pre ++ post)) as Hnn.
  rewrite Hd, Z.eqb_refl in Hdi. destruct (fin got i) eqn:Hf, (Z.eqb_spec i 0) as [|Hi0]; cbn in Hdi; try lia.
  assert (forall j, 0 <= j < num_nodes -> 0 <= counted got (transit w) j <= 1) as Hc.
  { intros j Hj. apply counted_range; [|done]. by left. }
  assert (dones i (pre ++ post) = 0) as Hd0 by lia.
  split; [|split; [done|split; [done|]]].
  - rewrite (total_done_change got (transit w) got (pre ++ post) i Hi).
    + unfold counted. rewrite Hf, (Hd i), Z.eqb_refl. lia.
    + intros j Hj Hne. unfold counted. rewrite (Hd j), (proj2 (Z.eqb_neq i j)) by done. lia.
  - apply (total_done_missing got _ i Hc Hi). unfold counted. rewrite Hf, (Hd i), Z.eqb_refl, Hd0. done.
Qed.

Lemma report_inv got w pre i post m : round_inv none got w -> transit w = pre ++ (i, 0, done_pack) :: post ->
  Forall (fun x => fst x <> (i, 0)) pre -> (managers w).[0] = Some m ->
  exists m' effs ms, AcAccumulatePartialDoneMsg cache_get num_nodes 0 m aid = Ret (m', effs) /\ wr (managers w) 0 m' = Ret ms /\
    round_inv none got (apply_effects 0 (AcWorld ms (pre ++ post) (users w) (arrays w) (woken w)) effs) /\
    users (apply_effects 0 (AcWorld ms (pre ++ post) (users w) (arrays w) (woken w)) effs) = users w /\
    transit (apply_effects 0 (AcWorld ms (pre ++ post) (users w) (arrays w) (woken w)) effs) = pre ++ post.
Proof.
  intros HI Heq Hpre Hm. destruct (ri_transit _ _ _ HI i 0 done_pack) as (Hi & _); [rewrite Heq; set_solver|].
  destruct (total_done_report got w pre i post HI Heq Hi) as (Htot & Hf & Hi0 & Hc). set (c := total_done got (transit w)) in *.
  assert (0 <= c) as Hc0.
  { apply total_done_range. intros j Hj. apply counted_range; [|done]. by left. }
  destruct (ri_tables _ _ _ HI) as [Hl Htab]. destruct (Htab 0) as (m0 & Hm0 & node & Hfind & Hown & Hwl); [lia|].
  assert (m0 = m) as -> by congruence. fold c in Hown, Hwl.
  assert (cnt c 0 = c /\ wait c got 0 = flat_map (waiter 0) (got 0)) as [E1 E2].
  { unfold cnt, wait. by rewrite (proj2 (Z.ltb_lt c num_nodes)) by lia. }
  rewrite E1 in Hown. rewrite E2 in Hwl.
  destruct (PartialDoneMsg_spec cache_get num_nodes 0 aid k sz arr m c (cur got 0) node Hfind) as (node' & Hmsg & Hown' & Hwl');
    [lia|done|].
  destruct (tables_update c (c + 1) got got (managers w) 0 (<[aid := node']> m) (ri_tables _ _ _ HI)) as (ms & Hwr & Htabs); [lia| | |].
  { exists node'. unfold FindOrCreateDataSyncNode. rewrite lookup_insert_eq. split; [done|]. rewrite Hwl', Hwl. unfold cnt, wait. cbn [Z.eqb andb].
    destruct (Z.leb_spec num_nodes (c + 1)), (Z.ltb_spec (c + 1) num_nodes); try lia; done. }
  { intros j Hj Hne. unfold cnt, wait. by rewrite (proj2 (Z.eqb_neq j 0)). }
  eexists _, _, ms. split; [exact Hmsg|]. split; [done|].
  assert (apply_effects 0 (AcWorld ms (pre ++ post) (users w) (arrays w) (woken w)) (if num_nodes <=? c + 1 then EWake <$> waitlist node else [])
    = AcWorld ms (pre ++ post) (users w) (arrays w) (if num_nodes <=? c + 1 then flat_map (waiter 0) (got 0) else [])) as ->.
  { rewrite (ri_woken _ _ _ HI). fold c. rewrite (proj2 (Z.ltb_lt c num_nodes)) by done. rewrite Hwl.
    destruct (num_nodes <=? c + 1); [apply apply_wakes|done]. }
  split; [|done]. split; cbn [managers transit users arrays woken]; try apply HI.
  - by rewrite Htot.
  - intros j Hj. rewrite <- (ri_messages _ _ _ HI j Hj). unfold pending. cbn [transit users]. rewrite Heq.
    change ((i, 0, done_pack) :: post) with ([(i, 0, done_pack)] ++ post). rewrite !to_node_app, to_node_one. cbn. by rewrite andb_false_r.
  - intros i' j' p Hin. apply (ri_transit _ _ _ HI). rewrite Heq. set_solver.
  - eapply follow_remove; [rewrite <- Heq; apply HI|done].
  - intros j Hj. pose proof (ri_dones _ _ _ HI j Hj) as Hd. rewrite Heq in Hd.
    change ((i, 0, done_pack) :: post) with ([(i, 0, done_pack)] ++ post) in Hd. rewrite !dones_app in *.
    pose proof (dones_nonneg j [(i, 0, done_pack)]). lia.
  - rewrite Htot. destruct (Z.leb_spec num_nodes (c + 1)), (Z.ltb_spec (c + 1) num_nodes); try lia; done.
Qed.

(** ** Taking a message off *)

Lemma unfinished_pending got w j x : round_inv none got w -> 0 <= j < num_nodes -> x ∈ pending j w -> terminals (got j) < k.
Proof.
  intros HI Hj Hx. assert (1 <= terminals (pending j w)) as Hp.
  { apply pending_terminal; [apply HI| |by intros E; rewrite E in Hx; apply elem_of_nil in Hx].
    intros u Hu. by apply (ri_users _ _ _ HI u Hu). }
  pose proof (ri_messages _ _ _ HI j Hj) as Hm. rewrite <- (Hterminals j Hj), <- (terminals_perm _ _ Hm), !terminals_app.
  pose proof (terminals_range (none j)). lia.
Qed.

Lemma listener_data (p : RcDataPack T) : for_listener aid p -> is_data p = true /\ is_partial_done p = false.
Proof. intros (Hc & _). unfold is_data, is_partial_done. by rewrite Hc. Qed.

Lemma dones_data i d (p : RcDataPack T) l1 l2 j : is_partial_done p = false -> dones j (l1 ++ (i, d, p) :: l2) = dones j (l1 ++ l2).
Proof.
  intros Hp. change ((i, d, p) :: l2) with ([(i, d, p)] ++ l2). rewrite !dones_app, dones_one, Hp, andb_false_r. lia.
Qed.

Lemma user_ok_rest u d p rest : user_ok u -> u_todo u = (d, p) :: rest -> user_ok (AcUser (u_node u) rest).
Proof.
  intros (H1 & H2 & H3) Hu. rewrite Hu in *. split; [done|]. cbn [u_node u_todo]. split.
  - intros j. specialize (H2 j). rewrite msgs_to_cons in H2. destruct (d =? j); [by eapply ends_tail|done].
  - intros d' p' Hin. apply H3. by right.
Qed.

Lemma users_ok_rest us1 (u : ac_user T) us2 d p rest : (forall v, v ∈ us1 ++ u :: us2 -> user_ok v) -> u_todo u = (d, p) :: rest ->
  forall v, v ∈ us1 ++ AcUser (u_node u) rest :: us2 -> user_ok v.
Proof.
  intros Hu Ht v [Hv|[->|Hv]%elem_of_cons]%elem_of_app.
  - apply Hu, elem_of_app. by left.
  - eapply user_ok_rest; [|exact Ht]. apply Hu, elem_of_app. right. by left.
  - apply Hu, elem_of_app. right. by right.
Qed.

Lemma todo_to_user j us1 (u : ac_user T) us2 d p rest : u_todo u = (d, p) :: rest ->
  todo_to j (us1 ++ u :: us2) ≡ₚ (if d =? j then [(u_node u, p)] else []) ++ todo_to j (us1 ++ AcUser (u_node u) rest :: us2).
Proof.
  intros Hu. rewrite !todo_to_app, !todo_to_cons. cbn [u_node u_todo]. rewrite Hu, msgs_to_cons, fmap_app.
  destruct (d =? j); cbn [fmap list_fmap app]; [|done]. by rewrite <- Permutation_middle.
Qed.

Lemma deliver_hold got w pre i j p post : round_inv none got w -> transit w = pre ++ (i, j, p) :: post ->
  Forall (fun x => fst x <> (i, j)) pre -> is_data p = true -> for_listener aid p -> 0 <= j < num_nodes ->
  round_inv (hold j (i, p)) got (AcWorld (managers w) (pre ++ post) (users w) (arrays w) (woken w)) /\ terminals (got j) < k.
Proof.
  intros HI Heq Hpre Hp Hl Hj. destruct (listener_data p Hl) as [_ Hd]. split.
  - assert (total_done got (transit w) = total_done got (pre ++ post)) as Htot.
    { rewrite Heq. apply total_done_same. intros a Ha. unfold counted. by rewrite dones_data. }
    split; cbn [managers transit users arrays woken]; try apply HI.
    + rewrite <- Htot. apply HI.
    + intros a Ha. rewrite <- (ri_messages _ _ _ HI a Ha). unfold pending, hold, none. cbn [transit users]. rewrite Heq.
      change ((i, j, p) :: post) with ([(i, j, p)] ++ post). rewrite !to_node_app, to_node_one, Hp, andb_true_r.
      rewrite (Z.eqb_sym j a). destruct (Z.eqb_spec a j) as [->|]; [|done]. f_equiv. solve_Permutation.
    + intros a b q Hin. apply (ri_transit _ _ _ HI). rewrite Heq. set_solver.
    + eapply follow_remove; [rewrite <- Heq; apply HI|done].
    + intros a Ha. pose proof (ri_dones _ _ _ HI a Ha) as Hda. by rewrite Heq, dones_data in Hda.
    + rewrite <- Htot. apply HI.
  - apply (unfinished_pending got w j (i, p) HI Hj). unfold pending. apply elem_of_app. left. apply elem_of_to_node.
    split; [|done]. rewrite Heq. set_solver.
Qed.

Lemma local_hold got w us1 u us2 p rest : round_inv none got w -> users w = us1 ++ u :: us2 -> u_todo u = (u_node u, p) :: rest ->
  round_inv (hold (u_node u) (u_node u, p)) got
    (AcWorld (managers w) (transit w) (us1 ++ AcUser (u_node u) rest :: us2) (arrays w) (woken w)) /\
  terminals (got (u_node u)) < k /\ 0 <= u_node u < num_nodes /\ dp_id p = aid /\ thread_of p = dp_param12 p.
Proof.
  intros HI Heq Ht. destruct (ri_users _ _ _ HI u) as (Hu & He & Hp); [rewrite Heq; set_solver|].
  destruct (Hp (u_node u) p) as (_ & Hid & Hth & _); [rewrite Ht; left|].
  split; [|split; [|done]].
  - split; cbn [managers transit users arrays woken]; try apply HI.
    + intros a Ha. rewrite <- (ri_messages _ _ _ HI a Ha). unfold pending, hold, none. cbn [transit users].
      rewrite Heq, (todo_to_user a us1 u us2 _ p rest Ht). rewrite (Z.eqb_sym (u_node u) a).
      destruct (Z.eqb_spec a (u_node u)) as [->|]; [|done]. f_equiv. solve_Permutation.
    + eapply follow_local; [rewrite <- Heq; apply HI|exact Ht|]. intros i j q Hin. by apply (ri_transit _ _ _ HI i j q).
    + eapply users_ok_rest; [|exact Ht]. rewrite <- Heq. apply HI.
  - apply (unfinished_pending got w (u_node u) (u_node u, p) HI Hu). unfold pending. apply elem_of_app. right.
    apply elem_of_todo_to. exists u. split; [rewrite Heq; set_solver|]. split; [done|]. rewrite Ht. left.
Qed.

Lemma send_inv got w us1 u us2 d p rest : round_inv none got w -> users w = us1 ++ u :: us2 -> u_todo u = (d, p) :: rest ->
  d <> u_node u ->
  round_inv none got (AcWorld (managers w) (transit w ++ [(u_node u, d, p)]) (us1 ++ AcUser (u_node u) rest :: us2) (arrays w) (woken w)).
Proof.
  intros HI Heq Ht Hne. destruct (ri_users _ _ _ HI u) as (Hu & He & Hp); [rewrite Heq; set_solver|].
  destruct (Hp d p) as (Hd & _ & _ & Hl); [rewrite Ht; left|]. specialize (Hl Hne). destruct (listener_data p Hl) as [Hda Hpd].
  assert (forall a, dones a (transit w ++ [(u_node u, d, p)]) = dones a (transit w)) as Hdones.
  { intros a. by rewrite dones_data, app_nil_r. }
  assert (total_done got (transit w ++ [(u_node u, d, p)]) = total_done got (transit w)) as Htot.
  { apply total_done_same. intros a Ha. unfold counted. by rewrite Hdones. }
  split; cbn [managers transit users arrays woken]; try apply HI.
  - rewrite Htot. apply HI.
  - intros a Ha. rewrite <- (ri_messages _ _ _ HI a Ha). unfold pending. cbn [transit users].
    rewrite to_node_app, to_node_one, Hda, andb_true_r, Heq, (todo_to_user a us1 u us2 d p rest Ht). by rewrite <- app_assoc.
  - intros a b q [Hin|Hin]%elem_of_app; [by apply (ri_transit _ _ _ HI)|]. apply list_elem_of_singleton in Hin.
    injection Hin as -> -> ->. split; [done|]. split; [done|]. split; [done|]. by left.
  - eapply follow_send; [rewrite <- Heq; apply HI|done..|apply He].
  - eapply users_ok_rest; [|exact Ht]. rewrite <- Heq. apply HI.
  - intros a Ha. rewrite Hdones. by apply HI.
  - rewrite Htot. apply HI.
Qed.

(** ** Steps *)

Lemma idx2nodeid_slot j i : peer_of num_nodes j i -> idx2nodeid num_nodes j (slot j i) = Ret i.
Proof.
  intros (H1 & H2 & H3). unfold idx2nodeid. assert ((if slot j i =? j - 1 then 0 else slot j i + 1) = i) as ->.
  { unfold slot. destruct (Z.eqb_spec i 0) as [->|]; [by rewrite Z.eqb_refl|]. rewrite (proj2 (Z.eqb_neq _ _)); lia. }
  by rewrite (proj2 (andb_true_iff _ _)) by lia.
Qed.

Lemma listen_data i j p m : peer_of num_nodes j i -> for_listener aid p ->
  AcListenData_cmd cache_get accu num_nodes j BaseDoReduce m (slot j i) p =
  (r ← accumulate_msg cache_get accu num_nodes j aid m (i, p); Ret (Some r)).
Proof.
  intros Hp (Hc & Hid & Hb). unfold AcListenData_cmd. rewrite (proj2 (Z.ltb_ge _ _) Hb), Hc, (idx2nodeid_slot j i Hp), bind_ret, Hid. done.
Qed.

Lemma listen_done i m : AcListenData_cmd cache_get accu num_nodes 0 BaseDoReduce m (slot 0 i) done_pack =
  (r ← AcAccumulatePartialDoneMsg cache_get num_nodes 0 m aid; Ret (Some r)).
Proof. done. Qed.

(** A node takes a message that reached it. *)
Lemma deliver_step got w pre i j p post m : round_inv none got w -> transit w = pre ++ (i, j, p) :: post ->
  Forall (fun x => fst x <> (i, j)) pre -> (managers w).[j] = Some m ->
  exists got' m' effs ms, nodeid2idx num_nodes j i = Ret (slot j i) /\
    AcListenData_cmd cache_get accu num_nodes j BaseDoReduce m (slot j i) p = Ret (Some (m', effs)) /\
    wr (managers w) j m' = Ret ms /\
    let w' := apply_effects j (AcWorld ms (pre ++ post) (users w) (arrays w) (woken w)) effs in
    round_inv none got' w' /\ steps_left w' < steps_left w.
Proof.
  intros HI Heq Hpre Hm. destruct (ri_transit _ _ _ HI i j p) as (Hi & Hj & Hij & Hp); [rewrite Heq; set_solver|].
  assert (peer_of num_nodes j i) as Hpeer by done. destruct (slot_ok num_nodes j i Hpeer) as [_ Hslot].
  change ((i, j, p) :: post) with ([(i, j, p)] ++ post) in Heq.
  assert (weight (transit w) = weight (pre ++ post) + if is_data p then 2 else 1) as Hw.
  { rewrite Heq, !weight_app. cbn. lia. }
  destruct Hp as [Hp|[-> ->]].
  - destruct (listener_data p Hp) as [Hd _]. destruct (deliver_hold got w pre i j p post HI Heq Hpre Hd Hp Hj) as [HH Hlt].
    destruct (process got _ j (i, p) m HH Hj Hlt Hm) as (m' & effs & ms & Hacc & Hwr & HI' & Hu & Hg).
    exists (taken got j (i, p)), m', effs, ms. split; [done|]. split; [by rewrite listen_data, Hacc|]. split; [done|].
    split; [done|]. unfold steps_left. rewrite Hd in Hw. cbn [managers transit users arrays woken] in *. rewrite Hu. lia.
  - destruct (report_inv got w pre i post m HI Heq Hpre Hm) as (m' & effs & ms & Hacc & Hwr & HI' & Hu & Ht).
    exists got, m', effs, ms. split; [done|]. split; [by rewrite listen_done, Hacc|]. split; [done|].
    split; [done|]. unfold steps_left. rewrite Hu, Ht. cbn in Hw. lia.
Qed.

Lemma local_step got w us1 u us2 p rest m : round_inv none got w -> users w = us1 ++ u :: us2 ->
  u_todo u = (u_node u, p) :: rest -> (managers w).[u_node u] = Some m ->
  exists got' m' effs ms, AcAccumulateMsg cache_get accu num_nodes (u_node u) m (u_node u) (dp_id p) (dp_param12 p) (dp_param0 p)
      (dp_size p) (dp_body p) = Ret (m', effs) /\ wr (managers w) (u_node u) m' = Ret ms /\
    let w' := apply_effects (u_node u) (AcWorld ms (transit w) (us1 ++ AcUser (u_node u) rest :: us2) (arrays w) (woken w)) effs in
    round_inv none got' w' /\ steps_left w' < steps_left w.
Proof.
  intros HI Heq Ht Hm. destruct (local_hold got w us1 u us2 p rest HI Heq Ht) as (HH & Hlt & Hu & Hid & Hth).
  destruct (process got _ (u_node u) (u_node u, p) m HH Hu Hlt Hm) as (m' & effs & ms & Hacc & Hwr & HI' & Hus & Hg).
  exists (taken got (u_node u) (u_node u, p)), m', effs, ms. rewrite Hid, <- Hth. split; [exact Hacc|]. split; [done|]. split; [done|].
  cbv zeta. unfold steps_left. cbn [managers transit users arrays woken] in *. rewrite Hus, Heq.
  change (AcUser (u_node u) rest :: us2) with ([AcUser (u_node u) rest] ++ us2). change (u :: us2) with ([u] ++ us2).
  rewrite !todo_count_app. cbn. rewrite Ht, zlen_cons. lia.
Qed.

Lemma step_inv got w w' : round_inv none got w -> ac_step cache_get accu BaseDoReduce num_nodes w w' ->
  exists got', round_inv none got' w' /\ steps_left w' < steps_left w.
Proof.
  intros HI Hs. destruct Hs as [w us1 u us2 d p rest Heq Ht Hne|w us1 u us2 p rest m m' effs ms Heq Ht Hm Hacc Hwr
    |w pre i j p post idx m m' effs ms Heq Hpre Hm Hidx Hcmd Hwr].
  - exists got. split; [by apply send_inv|]. unfold steps_left. cbn [transit users]. rewrite Heq, weight_app.
    change (AcUser (u_node u) rest :: us2) with ([AcUser (u_node u) rest] ++ us2). change (u :: us2) with ([u] ++ us2).
    rewrite !todo_count_app. cbn. rewrite Ht, zlen_cons. destruct (is_data p); lia.
  - destruct (local_step got w us1 u us2 p rest m HI Heq Ht Hm) as (got' & m2 & effs2 & ms2 & H1 & H2 & H3 & H4).
    rewrite Hacc in H1. injection H1 as <- <-. rewrite Hwr in H2. injection H2 as <-. by exists got'.
  - destruct (deliver_step got w pre i j p post m HI Heq Hpre Hm) as (got' & m2 & effs2 & ms2 & H1 & H2 & H3 & H4 & H5).
    rewrite Hidx in H1. injection H1 as ->. rewrite Hcmd in H2. injection H2 as <- <-. rewrite Hwr in H3. injection H3 as <-. by exists got'.
Qed.

Lemma table_at held got w j : round_inv held got w -> 0 <= j < num_nodes -> exists m, (managers w).[j] = Some m.
Proof. intros HI Hj. destruct (ri_tables _ _ _ HI) as [_ Ht]. destruct (Ht j Hj) as (m & Hm & _). eauto. Qed.

Lemma nothing_left got w : round_inv none got w -> transit w = [] -> (forall u, u ∈ users w -> u_todo u = []) ->
  num_nodes <= total_done got (transit w).
Proof.
  intros HI Ht Hu. destruct (Z.lt_ge_cases (total_done got (transit w)) num_nodes) as [Hlt|]; [|done]. exfalso.
  assert (forall j, 0 <= j < num_nodes -> counted got (transit w) j = 1) as Hc.
  { intros j Hj. unfold counted. rewrite Ht. change (dones j []) with 0.
    assert (pending j w = []) as Hp.
    { unfold pending. rewrite Ht. cbn. destruct (todo_to j (users w)) as [|[i p] l] eqn:E; [done|].
      assert ((i, p) ∈ todo_to j (users w)) as (u & Hin & _ & Hx)%elem_of_todo_to by (rewrite E; left).
      rewrite (Hu u Hin) in Hx. by apply elem_of_nil in Hx. }
    pose proof (ri_messages _ _ _ HI j Hj) as Hm. rewrite Hp, !app_nil_r in Hm. unfold fin.
    rewrite (terminals_perm _ _ Hm), Hterminals by done. by rewrite Z.eqb_refl. }
  unfold total_done in Hlt. rewrite (zsum_ext _ (fun _ => 1)), zsum_ones in Hlt.
  - unfold zlen in Hlt. rewrite length_seqZ in Hlt. lia.
  - intros j Hj%elem_of_seqZ. apply Hc. lia.
Qed.

Lemma progress got w : round_inv none got w -> total_done got (transit w) < num_nodes ->
  exists w', ac_step cache_get accu BaseDoReduce num_nodes w w'.
Proof.
  intros HI Hlt. destruct (transit w) as [|[[i j] p] post] eqn:Ht.
  - destruct (decide (Forall (fun u => u_todo u = []) (users w))) as [Hall|Hex].
    + rewrite <- Ht in Hlt. rewrite Forall_forall in Hall. pose proof (nothing_left got w HI Ht Hall). lia.
    + apply not_Forall_Exists, Exists_exists in Hex as (u & Hu & Hne); [|intros u; apply _].
      destruct (u_todo u) as [|[d p] rest] eqn:Etodo; [done|]. apply list_elem_of_split in Hu as (us1 & us2 & Hus).
      destruct (decide (d = u_node u)) as [->|Hd]; [|eexists; by eapply ac_send].
      destruct (ri_users _ _ _ HI u) as (Hr & _); [rewrite Hus; set_solver|]. destruct (table_at _ _ _ _ HI Hr) as [m Hm].
      destruct (local_step got w us1 u us2 p rest m HI Hus Etodo Hm) as (got' & m' & effs & ms & H1 & H2 & _).
      eexists. by eapply ac_local.
  - destruct (ri_transit _ _ _ HI i j p) as (_ & Hj & _); [rewrite Ht; left|]. destruct (table_at _ _ _ _ HI Hj) as [m Hm].
    destruct (deliver_step got w [] i j p post m HI Ht (Forall_nil_2 _) Hm) as (got' & m' & effs & ms & H1 & H2 & H3 & _).
    eexists. eapply (ac_deliver _ _ _ _ w [] i j p post); done.
Qed.

(** ** Whole rounds *)

Lemma runs_inv m got w w' : round_inv none got w -> nsteps (ac_step cache_get accu BaseDoReduce num_nodes) m w w' ->
  exists got', round_inv none got' w' /\ Z.of_nat m + steps_left w' <= steps_left w.
Proof.
  revert got w. induction m as [|m IH]; intros got w HI Hrun; inversion Hrun as [|? ? w1 ? Hs Hr]; subst.
  - exists got. split; [done|lia].
  - destruct (step_inv got w w1 HI Hs) as (got1 & HI1 & Hlt). destruct (IH got1 w1 HI1 Hr) as (got' & HI' & Hle).
    exists got'. split; [done|lia].
Qed.

(** A cluster that is not in a round of the accumulator. *)
Definition idle (w : ac_world T) : Prop := transit w = [] /\ zlen (managers w) = num_nodes /\
  forall j, 0 <= j < num_nodes -> exists m node, (managers w).[j] = Some m /\
    FindOrCreateDataSyncNode cache_get num_nodes j m aid = Ret node /\
    owner_node num_nodes j k sz arr 0 [] node /\ waitlist node = [].

Lemma start_inv w : idle w -> woken w = [] -> (forall j, todo_to j (users w) = all j) -> (forall u, u ∈ users w -> user_ok u) ->
  round_inv none (fun _ => []) w.
Proof.
  intros (Ht & Hl & Htab) Hw Hall Hu.
  assert (forall j, fin (fun _ => []) j = false) as Hf by (intros j; unfold fin; apply Z.eqb_neq; change (terminals ([] : list msg)) with 0; lia).
  assert (total_done (fun _ => []) (transit w) = 0) as Htot.
  { rewrite Ht. unfold total_done. assert (forall js, zsum (counted (fun _ => []) []) js = 0) as Hz; [|apply Hz].
    intros js. induction js as [|j js IH]; [done|]. rewrite zsum_cons, IH. unfold counted. by rewrite Hf. }
  split; try done.
  - rewrite Htot. split; [done|]. intros j Hj. destruct (Htab j Hj) as (m & node & H1 & H2 & H3 & H4). exists m. split; [done|].
    exists node. split; [done|]. unfold cur, cnt, wait. rewrite Hf. by destruct ((j =? 0) && (0 <? num_nodes)).
  - intros j Hj. unfold pending. rewrite Ht. cbn. by rewrite Hall.
  - rewrite Ht. intros i j p Hin. by apply elem_of_nil in Hin.
  - rewrite Ht. intros l1 i j p l2 Heq. by destruct l1.
  - intros j Hj. rewrite Ht, Hf. done.
  - intros j Hj Hfj. by rewrite Hf in Hfj.
  - rewrite Htot, Hw. by destruct (0 <? num_nodes).
Qed.

Lemma finished_round got w : round_inv none got w -> num_nodes <= total_done got (transit w) ->
  transit w = [] /\ (forall u, u ∈ users w -> u_todo u = []) /\
  forall j, 0 <= j < num_nodes -> fin got j = true /\ got j ≡ₚ all j.
Proof.
  intros HI Htot. assert (forall j, 0 <= j < num_nodes -> 0 <= counted got (transit w) j <= 1) as Hc.
  { intros j Hj. apply counted_range; [|done]. by left. }
  assert (forall j, 0 <= j < num_nodes -> fin got j = true /\ dones j (transit w) = 0) as Hf.
  { intros j Hj. pose proof (total_done_all got _ Hc Htot j Hj) as H1. unfold counted in H1. pose proof (dones_nonneg j (transit w)).
    destruct (fin got j); [split; [done|lia]|lia]. }
  assert (forall j, 0 <= j < num_nodes -> pending j w = []) as Hp.
  { intros j Hj. destruct (pending j w) as [|x l] eqn:E; [done|]. destruct (Hf j Hj) as [Hfj _]. unfold fin in Hfj. apply Z.eqb_eq in Hfj.
    pose proof (unfinished_pending got w j x HI Hj). rewrite E in *. specialize (H1 ltac:(left)). lia. }
  split; [|split].
  - destruct (transit w) as [|[[i j] p] l] eqn:Et; [done|]. destruct (ri_transit _ _ _ HI i j p) as (Hi & Hj & _ & [Hl|[-> ->]]); [rewrite Et; left|..].
    + destruct (listener_data p Hl) as [Hd _]. assert ((i, p) ∈ pending j w) as Hin; [|rewrite Hp in Hin by done; by apply elem_of_nil in Hin].
      unfold pending. rewrite Et. apply elem_of_app. left. apply elem_of_to_node. split; [left|done].
    + destruct (Hf i Hi) as [_ Hd]. pose proof (dones_pos i 0 done_pack ((i, 0, done_pack) :: l) ltac:(left) eq_refl). lia.
  - intros u Hu. destruct (u_todo u) as [|[d p] rest] eqn:Et; [done|]. destruct (ri_users _ _ _ HI u Hu) as (_ & _ & Hd).
    destruct (Hd d p) as (Hr & _); [rewrite Et; left|]. assert ((u_node u, p) ∈ pending d w) as Hin; [|rewrite Hp in Hin by done; by apply elem_of_nil in Hin].
    unfold pending. apply elem_of_app. right. apply elem_of_todo_to. exists u. split; [done|]. split; [done|]. rewrite Et. left.
  - intros j Hj. split; [by apply Hf|]. pose proof (ri_messages _ _ _ HI j Hj) as Hm. rewrite (Hp j Hj) in Hm. by rewrite !app_nil_r in Hm.
Qed.

Lemma finished_idle got w : round_inv none got w -> num_nodes <= total_done got (transit w) -> idle w.
Proof.
  intros HI Htot. destruct (finished_round got w HI Htot) as (Ht & _ & Hf). split; [done|].
  destruct (ri_tables _ _ _ HI) as [Hl Htab]. split; [done|]. intros j Hj. destruct (Htab j Hj) as (m & Hm & node & H1 & H2 & H3).
  destruct (Hf j Hj) as [Hfj _]. unfold cur in H2. rewrite Hfj in H2. unfold cnt, wait in *.
  rewrite (proj2 (Z.ltb_ge _ _) Htot), andb_false_r in *. by exists m, node.
Qed.
End round.

(** * Properties *)

(** A user of a round: its node, its thread, its mode, its vector, and what [select] reports. *)
Record round_user (T : Type) := RoundUser {
  ru_node : Z;
  ru_tid : Z;
  ru_mode : AccumulatorMode;
  ru_vec : list T;
  ru_readies : list (Z -> bool);
}.
Arguments RoundUser {T} _ _ _ _ _.
Arguments ru_node {T} _.
Arguments ru_tid {T} _.
Arguments ru_mode {T} _.
Arguments ru_vec {T} _.
Arguments ru_readies {T} _.

(** What a user of a round must be: its vector is long enough, its thread has an id, and
    the part of the array that its own node owns is not empty, without which the round
    hangs ([AccumulatorFacts.small_vector_not_sent]). *)
Definition round_user_ok {T} (num_nodes sz : Z) (r : round_user T) : Prop :=
  0 <= ru_node r < num_nodes /\ 0 < ru_tid r < 2 ^ 31 /\ sz <= zlen (ru_vec r) /\
  part_start sz num_nodes (ru_node r) < part_end sz num_nodes (ru_node r).

(** The user is about to give out the messages of its call. *)
Definition about_to_send {T} `{Element T} (num_nodes aid sz : Z) (r : round_user T) (u : ac_user T) : Prop :=
  u_node u = ru_node r /\
  user_messages num_nodes (ru_node r) (ru_mode r) zero (ru_vec r) sz aid (ru_tid r) (ru_readies r) = Ret (u_todo u).

Section accumulate.
Context {T : Type} `{ElementLaws T}.
Context (num_nodes aid sz : Z).
Context (Hsz : 0 <= sz <= 2 ^ 27) (Hn : 0 < num_nodes <= 2 ^ 20).

Lemma about_to_send_parts r u : round_user_ok num_nodes sz r -> about_to_send num_nodes aid sz r u ->
  user_parts num_nodes (ru_node r) sz aid (ru_tid r) (ru_vec r) (u_todo u).
Proof. intros (H1 & H2 & H3 & H4) [_ Hu]. by eapply user_messages_spec. Qed.

(** The messages to node [j]: the last names the thread, and no other does. *)
Lemma user_ends (msgs : list (RcDataPack T)) tid i : 0 < tid < 2 ^ 31 -> (exists k, dp_param12 <$> msgs = replicate k 0 ++ [tid]) ->
  ends msgs /\ (forall p, p ∈ msgs -> thread_of p = dp_param12 p) /\ terminals (pair i <$> msgs) = 1 /\
  flat_map (waiter 0) (pair i <$> msgs) = [Thread i tid].
Proof.
  intros Htid [k Hk]. revert msgs Hk. assert (forall p : RcDataPack T, dp_param12 p = tid -> thread_of p = tid) as Ht.
  { intros p Hp. unfold thread_of. rewrite Hp, u32_small, s32_small by ranges. done. }
  assert (forall p : RcDataPack T, dp_param12 p = 0 -> thread_of p = 0) as H0'.
  { intros p Hp. unfold thread_of. by rewrite Hp. }
  induction k as [|k IH]; intros msgs Hk; (destruct msgs as [|p msgs]; [done|]); injection Hk as Hp Hk.
  - apply fmap_nil_inv in Hk as ->. cbn [fmap list_fmap]. rewrite terminals_one. cbn [snd flat_map waiter fst].
    unfold waiter. cbn [snd fst]. rewrite (Ht p Hp), (proj2 (Z.eqb_neq tid 0)) by lia. split; [|split; [|done]].
    + right. exists [], p. split; [done|]. rewrite (Ht p Hp). lia.
    + intros q Hq%list_elem_of_singleton. subst q. by rewrite (Ht p Hp).
  - destruct (IH msgs Hk) as (H1' & H2 & H3 & H4). split; [|split; [|split]].
    + right. destruct H1' as [->|(l & q & -> & Hq)]; [done|]. by exists (p :: l), q.
    + intros q [->|Hq]%elem_of_cons; [by rewrite (H0' p Hp)|by apply H2].
    + cbn [fmap list_fmap]. change ((i, p) :: (pair i <$> msgs)) with ([(i, p)] ++ (pair i <$> msgs)).
      rewrite terminals_app, terminals_one, H3. cbn [snd]. by rewrite (H0' p Hp).
    + cbn [fmap list_fmap flat_map]. rewrite H4. unfold waiter. cbn [snd fst]. by rewrite (H0' p Hp).
Qed.

(** The messages to node [j], user by user. *)
Definition streams (rs : list (round_user T)) (us : list (ac_user T)) (j : Z) : list (list T * list (Z * RcDataPack T)) :=
  zip_with (fun r u => (ru_vec r, pair (u_node u) <$> msgs_to j (u_todo u))) rs us.

Lemma streams_facts rs us j : 0 <= j < num_nodes -> Forall (round_user_ok num_nodes sz) rs ->
  Forall2 (about_to_send num_nodes aid sz) rs us ->
  todo_to j us = concat (snd <$> streams rs us j) /\ fst <$> streams rs us j = ru_vec <$> rs /\ zlen (streams rs us j) = zlen rs /\
  Forall (fun s => carries (fst s) (part_start sz num_nodes j) (Z.max (part_start sz num_nodes j) (part_end sz num_nodes j)) (snd <$> snd s) /\
    terminals (snd s) = 1) (streams rs us j) /\
  flat_map (waiter 0) (todo_to j us) = (fun r => Thread (ru_node r) (ru_tid r)) <$> rs.
Proof.
  intros Hj Hrs Hus. induction Hus as [|r u rs us Hru _ IH]; [done|]. apply Forall_cons in Hrs as [Hr Hrs].
  destruct (IH Hrs) as (I1 & I2 & I3 & I4 & I5). pose proof (about_to_send_parts r u Hr Hru) as [_ Hparts].
  destruct (Hparts j Hj) as [Hc Hk]. destruct (user_ends (msgs_to j (u_todo u)) (ru_tid r) (u_node u)) as (_ & _ & Ht & Hw);
    [apply Hr|done|]. unfold streams in *. cbn [zip_with fmap list_fmap concat fst snd].
  rewrite todo_to_cons, I1, I2, !zlen_cons, I3, flat_map_app, Hw, <- I1, I5. split; [done|]. split; [done|]. split; [done|].
  split; [|by rewrite (proj1 Hru)]. apply Forall_cons. split; [|done]. cbn [fst snd]. split; [|done].
  rewrite <- list_fmap_compose. cbn. by rewrite list_fmap_id.
Qed.

Lemma streams_fit lo hi (ss : list (list T * list (Z * RcDataPack T))) x :
  Forall (fun s => carries (fst s) lo hi (snd <$> snd s) /\ terminals (snd s) = 1) ss -> x ∈ concat (snd <$> ss) ->
  size_ok (snd x) /\ within lo hi (snd x).
Proof.
  intros Hs Hx. induction Hs as [|s ss [(H1 & H2 & _) _] _ IH]; [by apply elem_of_nil in Hx|].
  cbn [fmap list_fmap concat] in Hx. apply elem_of_app in Hx as [Hx|Hx]; [|by apply IH].
  rewrite Forall_forall in H1, H2. split; [apply H1|apply H2]; by apply list_elem_of_fmap_2.
Qed.

Lemma about_to_send_ok rs us : Forall (round_user_ok num_nodes sz) rs -> Forall2 (about_to_send num_nodes aid sz) rs us ->
  forall u, u ∈ us -> user_ok num_nodes aid u.
Proof.
  intros Hrs Hus. induction Hus as [|r u rs us Hru _ IH]; [intros u Hu; by apply elem_of_nil in Hu|].
  apply Forall_cons in Hrs as [Hr Hrs]. intros v [->|Hv]%elem_of_cons; [|by apply IH].
  destruct (about_to_send_parts r u Hr Hru) as [Hmsgs Hparts]. destruct Hru as [Hnode _]. rewrite <- Hnode in *.
  assert (forall j, 0 <= j < num_nodes -> ends (msgs_to j (u_todo u)) /\ forall p, p ∈ msgs_to j (u_todo u) -> thread_of p = dp_param12 p) as He.
  { intros j Hj. destruct (Hparts j Hj) as [_ Hk]. destruct (user_ends (msgs_to j (u_todo u)) (ru_tid r) 0) as (H1 & H2 & _);
      [apply Hr|done|done]. }
  split; [rewrite Hnode; apply Hr|]. split.
  - intros j. destruct (decide (0 <= j < num_nodes)) as [Hj|Hj]; [by apply He|]. left. apply msgs_to_none.
    intros d p Hd ->. by destruct (Hmsgs j p Hd).
  - intros d p Hd. destruct (Hmsgs d p Hd) as (Hr' & Hid & Hl). split; [done|]. split; [done|]. split; [|done].
    apply (proj2 (He d Hr')). apply list_elem_of_omap. exists (d, p). split; [done|]. cbn. by rewrite Z.eqb_refl.
Qed.
End accumulate.

(** What the round has done when every node was counted. *)
Lemma round_sum {T} `{ElementLaws T} cache_get num_nodes aid sz arr (rs : list (round_user T)) us got w :
  0 <= sz <= 2 ^ 27 -> 0 < num_nodes <= 2 ^ 20 -> Forall (round_user_ok num_nodes sz) rs ->
  Forall2 (about_to_send num_nodes aid sz) rs us ->
  (forall j, 0 <= j < num_nodes -> terminals (todo_to j us) = zlen rs) ->
  round_inv cache_get num_nodes aid (zlen rs) sz arr (fun j => todo_to j us) none got w ->
  num_nodes <= total_done num_nodes (zlen rs) got (transit w) ->
  woken w ≡ₚ ((fun r => Thread (ru_node r) (ru_tid r)) <$> rs) /\
  (forall x, 0 <= x < sz -> arrays w arr x = vsum (ru_vec <$> rs) x) /\
  (forall u, u ∈ users w -> u_todo u = []) /\ idle cache_get num_nodes aid (zlen rs) sz arr w.
Proof.
  intros Hsz Hn Hrs Hus Hterm HI Htot.
  destruct (finished_round cache_get num_nodes aid (zlen rs) sz arr Hn (fun j => todo_to j us) Hterm got w HI Htot) as (_ & Hu & Hf).
  split; [|split; [|split; [done|exact (finished_idle cache_get num_nodes aid (zlen rs) sz arr Hn (fun j => todo_to j us) Hterm got w HI Htot)]]].
  - rewrite (ri_woken _ _ _ _ _ _ _ _ _ _ HI), (proj2 (Z.ltb_ge _ _) Htot). destruct (Hf 0) as [_ Hp]; [lia|].
    destruct (streams_facts num_nodes aid sz Hsz Hn rs us 0 ltac:(lia) Hrs Hus) as (_ & _ & _ & _ & E).
    rewrite <- E. by apply Permutation_flat_map.
  - intros x Hx. destruct (part_exists sz num_nodes x Hsz Hn Hx) as (j & Hj & Hr). destruct (Hf j Hj) as [Hfin Hp].
    rewrite (ri_arrays _ _ _ _ _ _ _ _ _ _ HI j Hj Hfin) by lia.
    destruct (streams_facts num_nodes aid sz Hsz Hn rs us j Hj Hrs Hus) as (E1 & E2 & _ & E4 & _).
    rewrite Hp. cbn beta. rewrite E1, <- E2.
    apply (total_streams (part_start sz num_nodes j) (Z.max (part_start sz num_nodes j) (part_end sz num_nodes j))); [|lia].
    eapply Forall_impl; [exact E4|]. by intros s [? _].
Qed.

(** The cluster at the start of a round: idle, every user at the start of its call. *)
Definition round_start {T} `{Element T} cache_get num_nodes aid sz arr (rs : list (round_user T)) (w : ac_world T) : Prop :=
  idle cache_get num_nodes aid (zlen rs) sz arr w /\ woken w = [] /\ Forall2 (about_to_send num_nodes aid sz) rs (users w).

(** How a round from [w0] goes: somebody can go on until it is over with the sums, and no
    run is infinite. *)
Definition round_goes {T} `{Element T} cache_get accu BaseDoReduce num_nodes aid sz arr (rs : list (round_user T)) w0 : Prop :=
  (forall w, rtc (ac_step cache_get accu BaseDoReduce num_nodes) w0 w ->
    woken w = [] /\ (exists w', ac_step cache_get accu BaseDoReduce num_nodes w w') \/
    woken w ≡ₚ ((fun r => Thread (ru_node r) (ru_tid r)) <$> rs) /\
    (forall x, 0 <= x < sz -> arrays w arr x = vsum (ru_vec <$> rs) x) /\
    (forall u, u ∈ users w -> u_todo u = []) /\ idle cache_get num_nodes aid (zlen rs) sz arr w) /\
  exists bound, forall m w, nsteps (ac_step cache_get accu BaseDoReduce num_nodes) m w0 w -> Z.of_nat m <= bound.

Lemma round_from_start {T} `{ElementLaws T} cache_get accu BaseDoReduce num_nodes aid sz arr (rs : list (round_user T)) w0 :
  accu aid = DAddAccumulator -> 0 <= sz <= 2 ^ 27 -> 0 < num_nodes <= 2 ^ 20 -> 1 <= zlen rs < 2 ^ 31 ->
  Forall (round_user_ok num_nodes sz) rs -> round_start cache_get num_nodes aid sz arr rs w0 ->
  round_goes cache_get accu BaseDoReduce num_nodes aid sz arr rs w0.
Proof.
  intros Ha Hsz Hn Hk Hrs (Hidle & Hw0 & Hus). set (all j := todo_to j (users w0)).
  assert (forall j, 0 <= j < num_nodes -> terminals (all j) = zlen rs) as Hterm.
  { intros j Hj. destruct (streams_facts num_nodes aid sz Hsz Hn rs _ j Hj Hrs Hus) as (E1 & _ & E3 & E4 & _).
    unfold all. rewrite E1, <- E3. apply terminals_concat. eapply Forall_impl; [exact E4|]. by intros s [_ ?]. }
  assert (forall j x, 0 <= j < num_nodes -> x ∈ all j -> size_ok (snd x) /\
    within (part_start sz num_nodes j) (Z.max (part_start sz num_nodes j) (part_end sz num_nodes j)) (snd x)) as Hfits.
  { intros j x Hj Hx. destruct (streams_facts num_nodes aid sz Hsz Hn rs _ j Hj Hrs Hus) as (E1 & _ & _ & E4 & _).
    unfold all in Hx. rewrite E1 in Hx. by eapply streams_fit. }
  pose proof (start_inv cache_get num_nodes aid (zlen rs) sz arr Hk all w0 Hidle Hw0 (fun j => eq_refl)
    (about_to_send_ok num_nodes aid sz Hsz Hn rs _ Hrs Hus)) as HI0. split.
  - intros w Hrun. apply rtc_nsteps in Hrun as [m Hrun].
    destruct (runs_inv cache_get accu BaseDoReduce num_nodes aid (zlen rs) sz arr Ha Hsz Hn Hk all Hterm Hfits m _ w0 w HI0 Hrun) as (got & HI & _).
    destruct (Z.lt_ge_cases (total_done num_nodes (zlen rs) got (transit w)) num_nodes) as [Hlt|Hge].
    + left. rewrite (ri_woken _ _ _ _ _ _ _ _ _ _ HI). rewrite (proj2 (Z.ltb_lt _ _) Hlt). split; [done|].
      by eapply progress.
    + right. by eapply round_sum.
  - exists (steps_left w0). intros m w Hrun.
    destruct (runs_inv cache_get accu BaseDoReduce num_nodes aid (zlen rs) sz arr Ha Hsz Hn Hk all Hterm Hfits m _ w0 w HI0 Hrun) as (got & _ & Hle).
    pose proof (steps_left_nonneg w). lia.
Qed.


