(* ===== verification/ReduceFacts.v ===== *)
(** [_Reduce] over the whole cluster: the master's thread is woken only after every node
    has reduced its buffer, once, and every call ends. *)
From S2P Require Import Prelude Storage Sync Accumulator AccumulatorFacts DataConnections Counting DataConnectionsFacts AccumulatorRounds AccumulatorRoundsFacts.

Section reduce.
Context {T : Type} `{Element T}.
Context (cache_get : Z -> Z -> outcome Z) (accu : Z -> accumulator T) (BaseDoReduce : list T -> outcome (list T)).
Context (num_nodes aid tid : Z) (Hn : 0 < num_nodes <= 2 ^ 20).
(** The nodes' buffers before and after. *)
Context (before after : Z -> list T).
Context (Hreduce : forall j, 0 <= j < num_nodes -> BaseDoReduce (before j) = Ret (after j)).

#[local] Abbreviation reduce_pack := (AccumulatorRounds.reduce_pack (T := T) aid tid).
#[local] Abbreviation done_pack := (AccumulatorRoundsFacts.done_pack (T := T) aid).

Definition is_reduce (p : RcDataPack T) : bool := match dp_cmd p with AcDataLocalReduce => true | _ => false end.
(** The requests on the way to node [j]. *)
Definition requests (j : Z) (l : list (Z * Z * RcDataPack T)) : Z :=
  zlen (filter (fun x => snd (fst x) = j /\ is_reduce (snd x) = true) l).

Lemma requests_app j l1 l2 : requests j (l1 ++ l2) = requests j l1 + requests j l2.
Proof. unfold requests. by rewrite filter_app, zlen_app. Qed.
Lemma requests_one j i d p : requests j [(i, d, p)] = if (d =? j) && is_reduce p then 1 else 0.
Proof.
  unfold requests. destruct (Z.eqb_spec d j) as [->|Hne], (is_reduce p) eqn:E; cbn [andb];
    (rewrite filter_cons_True by done; by rewrite filter_nil) || (rewrite filter_cons_False; [by rewrite filter_nil|]); intros [? ?]; cbn in *; congruence.
Qed.
Lemma requests_nonneg j l : 0 <= requests j l.
Proof. apply zlen_nonneg. Qed.

(** The nodes that were counted. *)
Definition reported (l : list (Z * Z * RcDataPack T)) (j : Z) : Z := 1 - requests j l - dones j l.
Definition reports (l : list (Z * Z * RcDataPack T)) : Z := zsum (reported l) (seqZ 0 num_nodes).

Definition waiting_then (c j : Z) : list SyncThreadNode := if (j =? 0) && (c <? num_nodes) then [Thread 0 tid] else [].
Definition reduce_table (c j : Z) (b : list T) (m : ac_manager T) : Prop := exists node,
  FindOrCreateDataSyncNode cache_get num_nodes j m aid = Ret node /\ buf node = b /\
  done_node_cnt node = cnt num_nodes c j /\ waitlist node = waiting_then c j.

Record reduce_inv (w : ac_world T) : Prop := {
  rd_len : zlen (managers w) = num_nodes;
  rd_tables : forall j, 0 <= j < num_nodes -> exists m, (managers w).[j] = Some m /\
    reduce_table (reports (transit w)) j (if 0 <? requests j (transit w) then before j else after j) m;
  rd_transit : forall i j p, (i, j, p) ∈ transit w ->
    0 <= i < num_nodes /\ 0 <= j < num_nodes /\ i <> j /\ (i = 0 /\ p = reduce_pack \/ j = 0 /\ p = done_pack);
  rd_counts : forall j, 0 <= j < num_nodes -> requests j (transit w) + dones j (transit w) <= if j =? 0 then 0 else 1;
  rd_users : users w = [];
  rd_woken : woken w = if reports (transit w) <? num_nodes then [] else [Thread 0 tid];
}.

Lemma reported_range w j : reduce_inv w -> 0 <= j < num_nodes -> 0 <= reported (transit w) j <= 1.
Proof.
  intros HI Hj. pose proof (rd_counts _ HI j Hj). unfold reported. pose proof (requests_nonneg j (transit w)).
  pose proof (dones_nonneg j (transit w)). destruct (j =? 0); lia.
Qed.

(** Sums of numbers in [0, 1] over the nodes. *)
Lemma zsum_unit f l : (forall j, j ∈ l -> 0 <= f j <= 1) -> 0 <= zsum f l <= zlen l.
Proof.
  induction l as [|j l IH]; intros Hf; [done|]. rewrite zsum_cons, zlen_cons. pose proof (Hf j ltac:(left)).
  assert (0 <= zsum f l <= zlen l); [|lia]. apply IH. intros i Hi. apply Hf. by right.
Qed.
Lemma zlen_seqZ n : 0 <= n -> zlen (seqZ 0 n) = n.
Proof. intros H0. unfold zlen. rewrite length_seqZ. lia. Qed.

Lemma reports_range w : reduce_inv w -> 0 <= reports (transit w) <= num_nodes.
Proof.
  intros HI. pose proof (zsum_unit (reported (transit w)) (seqZ 0 num_nodes)) as Hs. rewrite zlen_seqZ in Hs by lia.
  apply Hs. intros j Hj%elem_of_seqZ. apply reported_range; [done|lia].
Qed.

Lemma reports_all w : reduce_inv w -> num_nodes <= reports (transit w) -> forall j, 0 <= j < num_nodes -> reported (transit w) j = 1.
Proof.
  intros HI Hr j Hj. apply (zsum_full (reported (transit w)) (seqZ 0 num_nodes)).
  - intros i Hi%elem_of_seqZ. apply reported_range; [done|lia].
  - rewrite zlen_seqZ by lia. exact Hr.
  - apply elem_of_seqZ. lia.
Qed.

Lemma reports_change l l' j : 0 <= j < num_nodes -> (forall i, 0 <= i < num_nodes -> i <> j -> reported l' i = reported l i) ->
  reports l' = reports l + (reported l' j - reported l j).
Proof.
  intros Hj Hc. apply zsum_update; [apply NoDup_seqZ|apply elem_of_seqZ; lia|].
  intros i Hi%elem_of_seqZ Hne. symmetry. apply Hc; [lia|done].
Qed.

(** The messages on the way that are not the one taken. *)
Lemma requests_cons j i d p l1 l2 : requests j (l1 ++ (i, d, p) :: l2) = requests j (l1 ++ l2) + if (d =? j) && is_reduce p then 1 else 0.
Proof. change ((i, d, p) :: l2) with ([(i, d, p)] ++ l2). rewrite !requests_app, requests_one. lia. Qed.
Lemma dones_cons j i d (p : RcDataPack T) l1 l2 : dones j (l1 ++ (i, d, p) :: l2) = dones j (l1 ++ l2) + if (i =? j) && is_partial_done p then 1 else 0.
Proof. change ((i, d, p) :: l2) with ([(i, d, p)] ++ l2). rewrite !dones_app, dones_one. lia. Qed.

Lemma PartialDoneMsg_eq m node : FindOrCreateDataSyncNode cache_get num_nodes 0 m aid = Ret node -> 0 <= done_node_cnt node < 2 ^ 31 - 1 ->
  AcAccumulatePartialDoneMsg cache_get num_nodes 0 m aid =
  let d := done_node_cnt node in
  if num_nodes <=? d + 1 then Ret (<[aid := set_wait node 0 []]> m, EWake <$> waitlist node)
  else Ret (<[aid := set_wait node (d + 1) (waitlist node)]> m, []).
Proof.
  intros Hf Hd. unfold AcAccumulatePartialDoneMsg. rewrite Hf, bind_ret. unfold c_int.
  rewrite (proj2 (andb_true_iff (- 2 ^ 31 <=? done_node_cnt node + 1) _)) by lia. by rewrite bind_ret.
Qed.

(** The table of the node that changes, the others as they were. *)
Lemma reduce_tables_update w l' j m' :
  zlen (managers w) = num_nodes -> 0 <= j < num_nodes ->
  (forall i, 0 <= i < num_nodes -> exists m, (managers w).[i] = Some m /\
    reduce_table (reports (transit w)) i (if 0 <? requests i (transit w) then before i else after i) m) ->
  (forall i, 0 <= i < num_nodes -> i <> j -> requests i l' = requests i (transit w)) ->
  (j = 0 \/ reports l' = reports (transit w)) ->
  reduce_table (reports l') j (if 0 <? requests j l' then before j else after j) m' ->
  exists ms, wr (managers w) j m' = Ret ms /\ zlen ms = num_nodes /\ forall i, 0 <= i < num_nodes -> exists m, ms.[i] = Some m /\
    reduce_table (reports l') i (if 0 <? requests i l' then before i else after i) m.
Proof.
  intros Hl Hj Htab Hreq Hrep Hm. destruct (wr_ok (managers w) j m') as (ms & Hw & Hl' & Hlook); [lia|]. exists ms.
  split; [done|]. split; [lia|]. intros i Hi. rewrite Hlook. destruct (Z.eqb_spec i j) as [->|Hne]; [by exists m'|].
  destruct (Htab i Hi) as (mi & Hmi & node & H1 & H2 & H3 & H4). exists mi. split; [done|]. exists node. rewrite Hreq by done.
  split; [done|]. split; [done|]. unfold cnt, waiting_then in *. destruct Hrep as [->| ->]; [|done].
  by rewrite (proj2 (Z.eqb_neq i 0)) in *.
Qed.

(** ** Deliveries *)

Definition left_over (l : list (Z * Z * RcDataPack T)) : Z := foldr (fun x n => (if is_reduce (snd x) then 2 else 1) + n) 0 l.
Lemma left_over_app l1 l2 : left_over (l1 ++ l2) = left_over l1 + left_over l2.
Proof. induction l1 as [|x l1 IH]; [done|]. cbn. unfold left_over in *. rewrite IH. lia. Qed.
Lemma left_over_nonneg l : 0 <= left_over l.
Proof. induction l as [|x l IH]; [done|]. cbn. unfold left_over in IH. destruct (is_reduce (snd x)); lia. Qed.

(** What a request and a report that are taken change. *)
Lemma request_counts w pre j post : reduce_inv w -> transit w = pre ++ (0, j, reduce_pack) :: post -> 0 <= j < num_nodes -> 0 <> j ->
  let l' := (pre ++ post) ++ [(j, 0, done_pack)] in
  0 < requests j (transit w) /\ requests j l' = 0 /\
  (forall i, 0 <= i < num_nodes -> i <> j -> requests i l' = requests i (transit w)) /\
  (forall i, 0 <= i < num_nodes -> requests i l' + dones i l' <= if i =? 0 then 0 else 1) /\ reports l' = reports (transit w).
Proof.
  intros HI Heq Hj Hne l'. pose proof (rd_counts _ HI j Hj) as Hc. rewrite (proj2 (Z.eqb_neq j 0)) in Hc by done.
  rewrite Heq in Hc. rewrite requests_cons, Z.eqb_refl in Hc. rewrite dones_cons, (proj2 (Z.eqb_neq 0 j)) in Hc by done. cbn in Hc.
  pose proof (requests_nonneg j (pre ++ post)). pose proof (dones_nonneg j (pre ++ post)).
  assert (forall i, requests i l' = requests i (pre ++ post)) as Hreq.
  { intros i. unfold l'. rewrite requests_app, requests_one. cbn. rewrite andb_false_r. lia. }
  assert (forall i, dones i l' = dones i (pre ++ post) + if j =? i then 1 else 0) as Hdon.
  { intros i. unfold l'. rewrite dones_app, dones_one. cbn. by rewrite andb_true_r. }
  split; [rewrite Heq, requests_cons, Z.eqb_refl; cbn; lia|]. split; [rewrite Hreq; lia|]. split; [|split].
  - intros i Hi Hij. rewrite Hreq, Heq, requests_cons, (proj2 (Z.eqb_neq j i)) by done. cbn. lia.
  - intros i Hi. rewrite Hreq, Hdon. pose proof (rd_counts _ HI i Hi) as Hci. rewrite Heq, requests_cons, dones_cons in Hci. cbn in Hci.
    rewrite andb_false_r, andb_true_r in Hci. destruct (j =? i); lia.
  - rewrite (reports_change (transit w) l' j Hj).
    + unfold reported. rewrite Hreq, Hdon, Heq, requests_cons, dones_cons, Z.eqb_refl, (proj2 (Z.eqb_neq 0 j)) by done. cbn. lia.
    + intros i Hi Hij. unfold reported. rewrite Hreq, Hdon, Heq, requests_cons, dones_cons, (proj2 (Z.eqb_neq j i)) by done.
      cbn. rewrite andb_false_r. lia.
Qed.

Lemma report_counts w pre i post : reduce_inv w -> transit w = pre ++ (i, 0, done_pack) :: post -> 0 <= i < num_nodes -> i <> 0 ->
  (forall j, requests j (pre ++ post) = requests j (transit w)) /\
  (forall j, 0 <= j < num_nodes -> requests j (pre ++ post) + dones j (pre ++ post) <= if j =? 0 then 0 else 1) /\
  reports (pre ++ post) = reports (transit w) + 1 /\ 0 <= reports (transit w) < num_nodes.
Proof.
  intros HI Heq Hi Hne. assert (forall j, requests j (transit w) = requests j (pre ++ post)) as Hreq.
  { intros j. rewrite Heq, requests_cons. cbn. rewrite andb_false_r. lia. }
  assert (forall j, dones j (transit w) = dones j (pre ++ post) + if i =? j then 1 else 0) as Hdon.
  { intros j. rewrite Heq, dones_cons. cbn. by rewrite andb_true_r. }
  pose proof (rd_counts _ HI i Hi) as Hc. rewrite Hreq, Hdon, Z.eqb_refl, (proj2 (Z.eqb_neq i 0)) in Hc by done.
  pose proof (requests_nonneg i (pre ++ post)). pose proof (dones_nonneg i (pre ++ post)). split; [done|]. split; [|split].
  - intros j Hj. pose proof (rd_counts _ HI j Hj) as Hcj. rewrite Hreq, Hdon in Hcj. destruct (i =? j); lia.
  - rewrite (reports_change (transit w) (pre ++ post) i Hi).
    + unfold reported. rewrite Hreq, Hdon, Z.eqb_refl. lia.
    + intros j Hj Hij. unfold reported. rewrite Hreq, Hdon, (proj2 (Z.eqb_neq i j)) by done. lia.
  - pose proof (reports_range w HI). destruct (Z.lt_ge_cases (reports (transit w)) num_nodes) as [|Hge]; [lia|].
    pose proof (reports_all w HI Hge i Hi) as Hall. unfold reported in Hall. rewrite Hreq, Hdon, Z.eqb_refl in Hall. lia.
Qed.

(** A node gets the request. *)
Lemma request_step w pre j post m : reduce_inv w -> transit w = pre ++ (0, j, reduce_pack) :: post -> (managers w).[j] = Some m ->
  exists m' effs ms, AcListenData_cmd cache_get accu num_nodes j BaseDoReduce m (slot j 0) reduce_pack = Ret (Some (m', effs)) /\
    wr (managers w) j m' = Ret ms /\
    let w' := apply_effects j (AcWorld ms (pre ++ post) (users w) (arrays w) (woken w)) effs in
    reduce_inv w' /\ left_over (transit w') < left_over (transit w).
Proof.
  intros HI Heq Hm. destruct (rd_transit _ HI 0 j reduce_pack) as (_ & Hj & Hne & _); [rewrite Heq; set_solver|].
  destruct (request_counts w pre j post HI Heq Hj Hne) as (Hr1 & Hr2 & Hreq & Hcounts & Hrep).
  set (l' := (pre ++ post) ++ [(j, 0, done_pack)]) in *.
  destruct (rd_tables _ HI j Hj) as (m0 & Hm0 & node & Hf & Hb & Hd & Hw). assert (m0 = m) as -> by congruence.
  rewrite (proj2 (Z.ltb_lt _ _) Hr1) in Hb.
  destruct (reduce_tables_update w l' j (<[aid := set_buf node (dn_val node) (after j)]> m)) as (ms & Hwr & Hl & Htabs).
  { apply (rd_len _ HI). } { done. } { apply (rd_tables _ HI). } { done. } { by right. }
  { exists (set_buf node (dn_val node) (after j)). unfold FindOrCreateDataSyncNode. rewrite lookup_insert_eq. split; [done|].
    by rewrite Hr2, Hrep. }
  eexists _, [ESend 0 done_pack], ms. split; [|split; [done|]].
  { unfold AcListenData_cmd. cbn. unfold AcLocalReduceMsg. rewrite Hf, bind_ret, Hb, Hreduce, bind_ret by done. unfold partial_done.
    by rewrite (proj2 (Z.eqb_neq j 0)). }
  cbn [apply_effects foldl apply_effect transit managers users arrays woken]. fold l'. split.
  - split; cbn [transit managers users arrays woken]; try apply HI; try done.
    + intros a b p [Hin|Hin]%elem_of_app; [apply (rd_transit _ HI); rewrite Heq; set_solver|].
      apply list_elem_of_singleton in Hin. injection Hin as -> -> ->. split; [done|]. split; [lia|]. split; [done|]. by right.
    + rewrite Hrep. apply HI.
  - rewrite Heq. unfold l'. change ((0, j, reduce_pack) :: post) with ([(0, j, reduce_pack)] ++ post). rewrite !left_over_app. cbn. lia.
Qed.

(** The master gets a report. *)
Lemma report_step w pre i post m : reduce_inv w -> transit w = pre ++ (i, 0, done_pack) :: post -> (managers w).[0] = Some m ->
  exists m' effs ms, AcListenData_cmd cache_get accu num_nodes 0 BaseDoReduce m (slot 0 i) done_pack = Ret (Some (m', effs)) /\
    wr (managers w) 0 m' = Ret ms /\
    let w' := apply_effects 0 (AcWorld ms (pre ++ post) (users w) (arrays w) (woken w)) effs in
    reduce_inv w' /\ left_over (transit w') < left_over (transit w).
Proof.
  intros HI Heq Hm. destruct (rd_transit _ HI i 0 done_pack) as (Hi & H0' & Hne & _); [rewrite Heq; set_solver|].
  destruct (report_counts w pre i post HI Heq Hi Hne) as (Hreq & Hcounts & Hrep & Hclt). set (c := reports (transit w)) in *.
  destruct (rd_tables _ HI 0 H0') as (m0 & Hm0 & node & Hf & Hb & Hd & Hw). assert (m0 = m) as -> by congruence.
  fold c in Hd, Hw. assert (cnt num_nodes c 0 = c /\ waiting_then c 0 = [Thread 0 tid]) as [E1 E2].
  { unfold cnt, waiting_then. by rewrite (proj2 (Z.ltb_lt c _)) by lia. }
  rewrite E1 in Hd. rewrite E2 in Hw. pose proof (PartialDoneMsg_eq m node Hf) as Hmsg. rewrite Hd, Hw in Hmsg. specialize (Hmsg ltac:(lia)).
  set (node' := if num_nodes <=? c + 1 then set_wait node 0 [] else set_wait node (c + 1) [Thread 0 tid]).
  set (ws := if num_nodes <=? c + 1 then [Thread 0 tid] else []).
  assert (AcAccumulatePartialDoneMsg cache_get num_nodes 0 m aid = Ret (<[aid := node']> m, EWake <$> ws)) as Hmsg'.
  { rewrite Hmsg. unfold node', ws. by destruct (num_nodes <=? c + 1). }
  destruct (reduce_tables_update w (pre ++ post) 0 (<[aid := node']> m)) as (ms & Hwr & Hl & Htabs).
  { apply (rd_len _ HI). } { done. } { apply (rd_tables _ HI). } { intros j _ _. apply Hreq. } { by left. }
  { exists node'. unfold FindOrCreateDataSyncNode. rewrite lookup_insert_eq. split; [done|]. rewrite Hreq, <- Hb, Hrep.
    unfold node', cnt, waiting_then. cbn [Z.eqb andb].
    destruct (Z.leb_spec num_nodes (c + 1)), (Z.ltb_spec (c + 1) num_nodes); try lia; done. }
  exists (<[aid := node']> m), (EWake <$> ws), ms. split; [|split; [done|]].
  { change (AcListenData_cmd cache_get accu num_nodes 0 BaseDoReduce m (slot 0 i) done_pack) with
      (r ← AcAccumulatePartialDoneMsg cache_get num_nodes 0 m aid; Ret (Some r)). by rewrite Hmsg'. }
  rewrite apply_wakes. cbn [transit managers users arrays woken]. split.
  - split; cbn [transit managers users arrays woken]; try apply HI; try done.
    + intros a b p Hin. apply (rd_transit _ HI). rewrite Heq. set_solver.
    + rewrite (rd_woken _ HI), Hrep. fold c. rewrite (proj2 (Z.ltb_lt c _)) by lia. unfold ws.
      destruct (Z.leb_spec num_nodes (c + 1)), (Z.ltb_spec (c + 1) num_nodes); try lia; done.
  - rewrite Heq. change ((i, 0, done_pack) :: post) with ([(i, 0, done_pack)] ++ post). rewrite !left_over_app. cbn. lia.
Qed.

(** ** Steps *)

Lemma reduce_deliver w pre i j p post m : reduce_inv w -> transit w = pre ++ (i, j, p) :: post -> (managers w).[j] = Some m ->
  exists m' effs ms, nodeid2idx num_nodes j i = Ret (slot j i) /\
    AcListenData_cmd cache_get accu num_nodes j BaseDoReduce m (slot j i) p = Ret (Some (m', effs)) /\ wr (managers w) j m' = Ret ms /\
    let w' := apply_effects j (AcWorld ms (pre ++ post) (users w) (arrays w) (woken w)) effs in
    reduce_inv w' /\ left_over (transit w') < left_over (transit w).
Proof.
  intros HI Heq Hm. destruct (rd_transit _ HI i j p) as (Hi & Hj & Hij & Hp); [rewrite Heq; set_solver|].
  destruct (slot_ok num_nodes j i) as [_ Hslot]; [done|].
  destruct Hp as [[-> ->]|[-> ->]]; [destruct (request_step w pre j post m HI Heq Hm) as (m' & effs & ms & H1 & H2 & H3)
    |destruct (report_step w pre i post m HI Heq Hm) as (m' & effs & ms & H1 & H2 & H3)]; exists m', effs, ms; done.
Qed.

Lemma reduce_step_inv w w' : reduce_inv w -> ac_step cache_get accu BaseDoReduce num_nodes w w' ->
  reduce_inv w' /\ left_over (transit w') < left_over (transit w).
Proof.
  intros HI Hs. destruct Hs as [w us1 u us2 d p rest Heq Ht Hne|w us1 u us2 p rest m m' effs ms Heq Ht Hm Hacc Hwr
    |w pre i j p post idx m m' effs ms Heq Hpre Hm Hidx Hcmd Hwr].
  - rewrite (rd_users _ HI) in Heq. by destruct us1.
  - rewrite (rd_users _ HI) in Heq. by destruct us1.
  - destruct (reduce_deliver w pre i j p post m HI Heq Hm) as (m2 & effs2 & ms2 & H1 & H2 & H3 & H4).
    rewrite Hidx in H1. injection H1 as ->. rewrite Hcmd in H2. injection H2 as <- <-. rewrite Hwr in H3. by injection H3 as <-.
Qed.

Lemma reduce_runs_inv m w w' : reduce_inv w -> nsteps (ac_step cache_get accu BaseDoReduce num_nodes) m w w' ->
  reduce_inv w' /\ Z.of_nat m + left_over (transit w') <= left_over (transit w).
Proof.
  revert w. induction m as [|m IH]; intros w HI Hrun; inversion Hrun as [|? ? w1 ? Hs Hr]; subst; [split; [done|lia]|].
  destruct (reduce_step_inv w w1 HI Hs) as [HI1 Hlt]. destruct (IH w1 HI1 Hr) as [HI' Hle]. split; [done|lia].
Qed.

Lemma reduce_progress w : reduce_inv w -> reports (transit w) < num_nodes -> exists w', ac_step cache_get accu BaseDoReduce num_nodes w w'.
Proof.
  intros HI Hlt. destruct (transit w) as [|[[i j] p] post] eqn:Ht.
  - exfalso. unfold reports in Hlt. rewrite (zsum_ext _ (fun _ => 1)), zsum_ones, zlen_seqZ in Hlt by (done || lia). lia.
  - destruct (rd_transit _ HI i j p) as (_ & Hj & _); [rewrite Ht; left|]. destruct (rd_tables _ HI j Hj) as (m & Hm & _).
    destruct (reduce_deliver w [] i j p post m HI Ht Hm) as (m' & effs & ms & H1 & H2 & H3 & _).
    eexists. eapply (ac_deliver _ _ _ _ w [] i j p post); done.
Qed.

(** ** The call *)

Definition reduce_idle (b : Z -> list T) (w : ac_world T) : Prop := transit w = [] /\ users w = [] /\ zlen (managers w) = num_nodes /\
  forall j, 0 <= j < num_nodes -> exists m node, (managers w).[j] = Some m /\
    FindOrCreateDataSyncNode cache_get num_nodes j m aid = Ret node /\ buf node = b j /\ done_node_cnt node = 0 /\ waitlist node = [].

Lemma requests_list j l : NoDup l -> requests j ((fun i => (0, i, reduce_pack)) <$> l) = if bool_decide (j ∈ l) then 1 else 0.
Proof.
  induction 1 as [|i l Hi Hnd IH]; [done|]. cbn [fmap list_fmap]. change ((0, i, reduce_pack) :: ((fun i => (0, i, reduce_pack)) <$> l))
    with ([(0, i, reduce_pack)] ++ ((fun i => (0, i, reduce_pack)) <$> l)). rewrite requests_app, requests_one, IH. cbn. rewrite andb_true_r.
  destruct (Z.eqb_spec i j) as [->|Hne].
  - rewrite (bool_decide_eq_false_2 (j ∈ l)), bool_decide_eq_true_2 by (done || left). done.
  - rewrite (bool_decide_ext (j ∈ i :: l) (j ∈ l)); [lia|]. rewrite elem_of_cons. naive_solver.
Qed.
Lemma dones_requests j l : dones j ((fun i => (0, i, reduce_pack)) <$> l) = 0.
Proof.
  induction l as [|i l IH]; [done|]. cbn [fmap list_fmap]. change ((0, i, reduce_pack) :: ((fun i => (0, i, reduce_pack)) <$> l))
    with ([(0, i, reduce_pack)] ++ ((fun i => (0, i, reduce_pack)) <$> l)). rewrite dones_app, dones_one, IH. cbn. by rewrite andb_false_r.
Qed.

Lemma apply_effects_app j (w : ac_world T) e1 e2 : apply_effects j w (e1 ++ e2) = apply_effects j (apply_effects j w e1) e2.
Proof. apply foldl_app. Qed.

Lemma apply_sends (w : ac_world T) l : apply_effects 0 w ((fun i => ESend i reduce_pack) <$> l) =
  AcWorld (managers w) (transit w ++ ((fun i => (0, i, reduce_pack)) <$> l)) (users w) (arrays w) (woken w).
Proof.
  revert w. induction l as [|i l IH]; intros w; cbn [fmap list_fmap apply_effects foldl].
  - rewrite app_nil_r. by destruct w.
  - unfold apply_effects in IH. rewrite IH. cbn. by rewrite <- app_assoc.
Qed.

Let peers : list Z := seqZ 1 (num_nodes - 1).
Let asked : list (Z * Z * RcDataPack T) := (fun i => (0, i, reduce_pack)) <$> peers.

Lemma asked_counts j : 0 <= j < num_nodes -> requests j asked = (if j =? 0 then 0 else 1) /\ dones j asked = 0.
Proof.
  intros Hj. split; [|apply dones_requests]. unfold asked. rewrite requests_list by apply NoDup_seqZ. unfold peers.
  destruct (Z.eqb_spec j 0); case_bool_decide as He; rewrite elem_of_seqZ in He; lia.
Qed.

Lemma asked_reports : reports asked = 1.
Proof.
  unfold reports. rewrite seqZ_cons, zsum_cons by lia. unfold reported at 1. destruct (asked_counts 0) as [-> ->]; [lia|]. cbn [Z.eqb].
  rewrite (zsum_ext _ (fun _ => 0)).
  - assert (forall l, zsum (fun _ => 0) l = 0) as ->; [|done]. intros l. induction l as [|j l IH]; [done|]. rewrite zsum_cons, IH. done.
  - intros i Hi%elem_of_seqZ. unfold reported. destruct (asked_counts i) as [-> ->]; [lia|]. by rewrite (proj2 (Z.eqb_neq i 0)) by lia.
Qed.

Lemma call_sends : for_range 1 num_nodes (fun i sends => Ret (sends ++ [ESend i reduce_pack])) [] = Ret ((fun i => ESend i reduce_pack) <$> peers).
Proof.
  destruct (for_range_rule (fun i sends => sends = (fun i => ESend i reduce_pack) <$> seqZ 1 (i - 1)) 1 num_nodes
    (fun i sends => Ret (sends ++ [ESend i reduce_pack])) []) as (s & -> & ->); [lia| |done|done].
  intros i sends Hi ->. eexists. split; [done|]. replace (i + 1 - 1) with ((i - 1) + 1) by lia. rewrite seqZ_app by lia.
  rewrite fmap_app. replace (1 + (i - 1)) with i by lia. done.
Qed.

Lemma Reduce_starts w m : reduce_idle before w -> woken w = [] -> (managers w).[0] = Some m ->
  exists m' effs ms, Reduce cache_get BaseDoReduce num_nodes 0 m aid tid = Ret (Some (m', effs)) /\ wr (managers w) 0 m' = Ret ms /\
    reduce_inv (apply_effects 0 (AcWorld ms (transit w) (users w) (arrays w) (woken w)) effs).
Proof.
  intros (Ht & Hu & Hl & Htab) Hw Hm. destruct (Htab 0) as (m0 & node & Hm0 & Hf & Hb & Hd & Hwl); [lia|]. assert (m0 = m) as -> by congruence.
  set (c := if num_nodes <=? 1 then 0 else 1). set (ws := if num_nodes <=? 1 then [Thread 0 tid] else []).
  set (node' := set_wait (set_buf node (dn_val node) (after 0)) c (if num_nodes <=? 1 then [] else [Thread 0 tid])).
  assert (Reduce cache_get BaseDoReduce num_nodes 0 m aid tid =
    Ret (Some (<[aid := node']> m, ((fun i => ESend i reduce_pack) <$> peers) ++ (EWake <$> ws)))) as Hcall.
  { unfold Reduce. cbn [negb Z.eqb]. rewrite Hf, bind_ret, call_sends, bind_ret. unfold AcLocalReduceMsg, FindOrCreateDataSyncNode at 1.
    rewrite lookup_insert_eq, bind_ret. cbn [set_wait buf]. rewrite Hb, Hreduce, bind_ret by lia. unfold partial_done. cbn [Z.eqb].
    rewrite (PartialDoneMsg_eq _ (set_buf (set_wait node (done_node_cnt node) (waitlist node ++ [Thread 0 tid])) (dn_val node) (after 0))).
    - cbn [set_buf set_wait done_node_cnt waitlist]. rewrite Hd, Hwl. cbv zeta. change (0 + 1) with 1. unfold node', c, ws.
      destruct (num_nodes <=? 1); cbn; rewrite !insert_insert_eq; done.
    - unfold FindOrCreateDataSyncNode. by rewrite lookup_insert_eq.
    - cbn. rewrite Hd. lia. }
  destruct (wr_ok (managers w) 0 (<[aid := node']> m)) as (ms & Hwr & Hl' & Hlook); [lia|]. eexists _, _, ms. split; [exact Hcall|]. split; [done|].
  rewrite apply_effects_app, apply_sends, apply_wakes.
  cbn [managers transit users arrays woken]. rewrite Ht, Hw. cbn [app]. fold asked.
  split; cbn [managers transit users arrays woken]; rewrite ?asked_reports.
  - lia.
  - intros j Hj. destruct (asked_counts j Hj) as [-> _]. rewrite Hlook. destruct (Z.eqb_spec j 0) as [->|Hne].
    + exists (<[aid := node']> m). split; [done|]. exists node'. unfold FindOrCreateDataSyncNode. rewrite lookup_insert_eq. split; [done|].
      split; [done|]. unfold cnt, waiting_then, node', c. cbn. destruct (Z.leb_spec num_nodes 1), (Z.ltb_spec 1 num_nodes); try lia; done.
    + destruct (Htab j Hj) as (mj & nj & H1 & H2 & H3 & H4 & H5). exists mj. split; [done|]. exists nj. split; [done|]. split; [done|].
      unfold cnt, waiting_then. by rewrite (proj2 (Z.eqb_neq j 0)).
  - intros i j p (x & [= -> -> ->] & Hx%elem_of_seqZ)%list_elem_of_fmap. split; [lia|]. split; [lia|]. split; [lia|]. by left.
  - intros j Hj. destruct (asked_counts j Hj) as [-> ->]. destruct (j =? 0); lia.
  - done.
  - unfold ws. destruct (Z.leb_spec num_nodes 1), (Z.ltb_spec 1 num_nodes); try lia; done.
Qed.

Lemma reduce_over w : reduce_inv w -> num_nodes <= reports (transit w) -> woken w = [Thread 0 tid] /\ reduce_idle after w.
Proof.
  intros HI Hr. rewrite (rd_woken _ HI), (proj2 (Z.ltb_ge _ _) Hr). split; [done|].
  assert (forall j, 0 <= j < num_nodes -> requests j (transit w) = 0 /\ dones j (transit w) = 0) as H0'.
  { intros j Hj. pose proof (reports_all w HI Hr j Hj) as Hall. unfold reported in Hall. pose proof (requests_nonneg j (transit w)).
    pose proof (dones_nonneg j (transit w)). lia. }
  split; [|split; [apply HI|split; [apply HI|]]].
  - destruct (transit w) as [|[[i j] p] l] eqn:Ht; [done|]. destruct (rd_transit _ HI i j p) as (Hi & Hj & _ & Hp); [rewrite Ht; left|].
    change ((i, j, p) :: l) with ([] ++ (i, j, p) :: l) in H0'. destruct Hp as [[-> ->]|[-> ->]].
    + destruct (H0' j Hj) as [Hq _]. rewrite requests_cons, Z.eqb_refl in Hq. cbn in Hq. pose proof (requests_nonneg j ([] ++ l)). cbn in *. lia.
    + destruct (H0' i Hi) as [_ Hq]. rewrite dones_cons, Z.eqb_refl in Hq. cbn in Hq. pose proof (dones_nonneg i ([] ++ l)). cbn in *. lia.
  - intros j Hj. destruct (rd_tables _ HI j Hj) as (m & Hm & node & H1 & H2 & H3 & H4). destruct (H0' j Hj) as [Hq _]. rewrite Hq in H2.
    unfold cnt, waiting_then in *. rewrite (proj2 (Z.ltb_ge _ _) Hr), andb_false_r in *. by exists m, node.
Qed.
End reduce.

(** C13. [_Reduce] over the whole cluster: called on the master of an idle cluster it is
    never refused and never fails, and in every state that follows, in whatever order
    the nodes take their messages, either the caller was not woken and some step can be
    taken, or every node has reduced its buffer, exactly once, the caller was woken,
    once, and the cluster is idle again. No run is infinite. On a slave the call is
    refused before it does anything. *)
Theorem reduce_round {T} `{Element T} cache_get accu (BaseDoReduce : list T -> outcome (list T)) num_nodes aid tid before after w m :
  0 < num_nodes <= 2 ^ 20 -> (forall j, 0 <= j < num_nodes -> BaseDoReduce (before j) = Ret (after j)) ->
  reduce_idle cache_get num_nodes aid before w -> woken w = [] -> (managers w).[0] = Some m ->
  (exists m' effs ms, Reduce cache_get BaseDoReduce num_nodes 0 m aid tid = Ret (Some (m', effs)) /\ wr (managers w) 0 m' = Ret ms /\
    let w1 := apply_effects 0 (AcWorld ms (transit w) (users w) (arrays w) (woken w)) effs in
    (forall w2, rtc (ac_step cache_get accu BaseDoReduce num_nodes) w1 w2 ->
      woken w2 = [] /\ (exists w3, ac_step cache_get accu BaseDoReduce num_nodes w2 w3) \/
      woken w2 = [Thread 0 tid] /\ reduce_idle cache_get num_nodes aid after w2) /\
    exists bound, forall s w2, nsteps (ac_step cache_get accu BaseDoReduce num_nodes) s w1 w2 -> Z.of_nat s <= bound) /\
  forall self m1, self <> 0 -> Reduce cache_get BaseDoReduce num_nodes self m1 aid tid = Ret None.
Proof.
  intros Hn Hreduce Hidle Hw Hm. split.
  - destruct (Reduce_starts cache_get accu BaseDoReduce num_nodes aid tid Hn before after Hreduce w m Hidle Hw Hm) as (m' & effs & ms & H1 & H2 & HI).
    exists m', effs, ms. split; [done|]. split; [done|]. split.
    + intros w2 [s Hrun]%rtc_nsteps.
      destruct (reduce_runs_inv cache_get accu BaseDoReduce num_nodes aid tid Hn before after Hreduce s _ w2 HI Hrun) as [HI2 _].
      destruct (Z.lt_ge_cases (reports num_nodes (transit w2)) num_nodes) as [Hlt|Hge].
      * left. split; [by rewrite (rd_woken _ _ _ _ _ _ _ HI2), (proj2 (Z.ltb_lt _ _) Hlt)|]. by eapply reduce_progress.
      * right. by eapply reduce_over.
    + eexists. intros s w2 Hrun.
      destruct (reduce_runs_inv cache_get accu BaseDoReduce num_nodes aid tid Hn before after Hreduce s _ w2 HI Hrun) as [_ Hle].
      pose proof (left_over_nonneg (transit w2)). eapply Z.le_trans; [|exact Hle]. lia.
  - intros self m1 Hs. unfold Reduce. by rewrite (proj2 (Z.eqb_neq self 0)).
Qed.

(** Two nodes with fresh tables; to reduce adds one to every word. *)
Lemma reduce_round_witness : exists m' effs,
  Reduce (fun _ f => Ret (if f =? 4 then 2 else if f =? 2 then 33 else 99)) (fun l => Ret (Z.succ <$> l)) 2 0 ∅ 7 5 = Ret (Some (m', effs)) /\
  exists ms, wr [∅; ∅] 0 m' = Ret ms /\
  exists bound, forall s w2, nsteps (ac_step (fun _ f => Ret (if f =? 4 then 2 else if f =? 2 then 33 else 99)) (fun _ => DAddAccumulator)
    (fun l => Ret (Z.succ <$> l)) 2) s (apply_effects 0 (AcWorld ms [] [] (fun _ _ => 0) []) effs) w2 -> Z.of_nat s <= bound.
Proof.
  set (get := fun _ f => Ret (if f =? 4 then 2 else if f =? 2 then 33 else 99) : outcome Z).
  set (before := fun j => replicate (Z.to_nat (node_size 33 2 j)) 0).
  destruct (reduce_round get (fun _ => DAddAccumulator) (fun l => Ret (Z.succ <$> l)) 2 7 5 before (fun j => Z.succ <$> before j)
    (AcWorld [∅; ∅] [] [] (fun _ _ => 0) []) ∅) as [(m' & effs & ms & H1 & H2 & _ & Hb) _].
  - lia.
  - done.
  - split; [done|]. split; [done|]. split; [done|]. intros j Hj. assert (j = 0 \/ j = 1) as [-> | ->] by lia; exists ∅; by eexists.
  - done.
  - done.
  - exists m', effs. split; [exact H1|]. exists ms. split; [exact H2|exact Hb].
Defined.
