(* ===== verification/DataFrames.v ===== *)
(** The bytes on the data connections, [Dogee/DogeeAccumulator.cpp]: headers and what is
    behind them, the loops of [AcListenData] that receive them in the pieces in which
    they arrive, and the closures that [AcExecuteClosureInThreadPool] sends and
    [ExecuteClosureInLocalThreadPool], [Dogee/DogeeThreadPool.cpp], hands to the pool. *)
From S2P Require Import Prelude Storage Sync Accumulator MapReduce.

(** * Frames *)

(** [RcDataPack] and the bytes behind it. *)
Record data_frame := Frame {
  f_cmd : Z;
  f_size : Z;
  f_id : Z;
  f_datatype : Z;
  f_param0 : Z;
  f_param12 : Z;
  f_buf : list Z;
}.
Definition sizeof_RcDataPack : Z := 28.
Definition frame_bytes (f : data_frame) : list Z :=
  bytes_of_words ([f_cmd f; f_size f; f_id f; f_datatype f; f_param0 f] ++ words_of_u64 (f_param12 f)) ++ f_buf f.

(** * Receiving *)

(** What has arrived on a connection that the peer closes in the end, in pieces that are
    not empty; [RcRecv] takes what it can of the first. *)
Abbreviation stream := (list (list Z)).
Definition RcRecv (s : stream) (len : Z) : list Z * stream :=
  match s with
  | [] => ([], [])
  | c :: s => if zlen c <=? len then (c, s) else (take (Z.to_nat len) c, drop (Z.to_nat len) c :: s)
  end.

(** A loop of [AcListenData] that receives [n] bytes; [None] when the connection ends. *)
Definition recv_all (s : stream) (n : Z) : outcome (option (list Z * stream)) :=
  '(rec, _, s, closed) ← while (S (Z.to_nat n)) (fun '(rec, torec, s, closed) => (0 <? torec) && negb closed)
    (fun '(rec, torec, s, closed) =>
       let '(data, s) := RcRecv s torec in
       if zlen data <=? 0 then Ret (rec, torec, s, true)
       else Ret (rec ++ data, torec - zlen data, s, false)) ([], n, s, false);
  Ret (if closed : bool then None else Some (rec, s)).

Inductive listened := Got (f : data_frame) (s : stream) | TooLarge | Closed.
Definition read_frame (s : stream) : outcome listened :=
  r ← recv_all s sizeof_RcDataPack;
  match r with
  | None => Ret Closed
  | Some (cmd, s) =>
      c ← word_at cmd 0;
      size ← word_at cmd 1;
      id ← word_at cmd 2;
      datatype ← word_at cmd 3;
      param0 ← word_at cmd 4;
      param1 ← word_at cmd 5;
      param2 ← word_at cmd 6;
      if BD_DATA_PROCESS_SIZE <? size then Ret TooLarge
      else
        r ← recv_all s size;
        match r with
        | None => Ret Closed
        | Some (buf, s) => Ret (Got (Frame c size id datatype param0 (param1 + 2 ^ 32 * param2) buf) s)
        end
  end.

(** * Closures *)

(** What is sent, from the bytes that the stack buffer held before. *)
Definition AcExecuteClosureInThreadPool (buf : list Z) (param event id : Z) (obj : list Z) : outcome (list Z) :=
  buf ← wr_word buf 0 5;
  buf ← wr_word buf 2 (u32 id);
  buf ← wr_word buf 4 event;
  buf ← wr_word buf 5 param;
  buf ← wr_range buf sizeof_RcDataPack obj;
  buf ← wr_word buf 1 (u32 (zlen obj));
  rd_range buf 0 (sizeof_RcDataPack + zlen obj).

(** The function that is given to the pool of the node: what it calls, with which object
    and parameter, and the event that it sets at the end if it is not 0. *)
Record job := Job { job_func : Z; job_obj : list Z; job_param : Z; job_event : Z }.
Definition ExecuteClosureInLocalThreadPool (procs : list Z) (obj : list Z) (param id devent : Z) : outcome job :=
  func ← rd procs id;
  Ret (Job func obj param devent).

(** * The listener *)

Fixpoint words_of_bytes (bs : list Z) : list Z :=
  match bs with
  | b0 :: b1 :: b2 :: b3 :: bs => (b0 + 256 * b1 + 65536 * b2 + 16777216 * b3) :: words_of_bytes bs
  | _ => []
  end.

Section listener.
Context {T : Type} `{Element T}.
(** An element as the word that carries it. *)
Context (of_word : Z -> T) (to_word : T -> Z).

Fixpoint sparse_of_words (ws : list Z) : list (SparseElement T) :=
  match ws with
  | i :: w :: ws => Sparse i (of_word w) :: sparse_of_words ws
  | _ => []
  end.
Definition body_of_frame (f : data_frame) : outcome (payload T) :=
  if f_datatype f =? 1 then Ret (Dense (of_word <$> words_of_bytes (f_buf f)))
  else if f_datatype f =? 2 then Ret (SparseList (sparse_of_words (words_of_bytes (f_buf f))))
  else if f_size f =? 0 then Ret (Dense []) else Abort.

(** A message as the sender lays it out; the type of the elements is not set, and not read,
    in a message without elements. *)
Definition cmd_number (c : AcDataCommand) : Z :=
  match c with
  | AcDataHello => 1
  | AcDataAccumulate => 2
  | AcDataAccumulatePartialDone => 3
  | AcDataLocalReduce => 4
  | AcThreadPoolExec => 5
  end.
Definition frame_of_pack (p : RcDataPack T) : data_frame :=
  let '(datatype, ws) := match dp_body p with
    | Dense l => (1, to_word <$> l)
    | SparseList es => (2, flat_map (fun e => [index e; to_word (sdata e)]) es)
    end in
  Frame (cmd_number (dp_cmd p)) (dp_size p) (dp_id p) datatype (dp_param0 p) (dp_param12 p) (bytes_of_words ws).

Context (cache_get : Z -> Z -> outcome Z) (accu : Z -> accumulator T) (BaseDoReduce : list T -> outcome (list T)).
Context (num_nodes self_node_id : Z) (procs : list Z).

(** What [AcListenData] does with a frame of connection [i]: the table, the effects and
    the functions given to the pool. *)
Definition AcListenData_frame (m : ac_manager T) (i : Z) (f : data_frame) : outcome (ac_manager T * list (ac_effect T) * list job) :=
  let message cmd body :=
    r ← AcListenData_cmd cache_get accu num_nodes self_node_id BaseDoReduce m i
          {| dp_cmd := cmd; dp_size := f_size f; dp_id := f_id f; dp_param0 := f_param0 f; dp_param12 := f_param12 f; dp_body := body |};
    match r with
    | Some (m, effs) => Ret (m, effs, [])
    | None => Abort
    end in
  if f_cmd f =? 2 then body ← body_of_frame f; message AcDataAccumulate body
  else if f_cmd f =? 3 then message AcDataAccumulatePartialDone (Dense [])
  else if f_cmd f =? 4 then message AcDataLocalReduce (Dense [])
  else if f_cmd f =? 5 then
    j ← ExecuteClosureInLocalThreadPool procs (f_buf f) (u32 (f_param12 f)) (s32 (f_id f)) (f_param0 f);
    Ret (m, [], [j])
  else Ret (m, [], []).

(** The frames of one connection, up to its end. *)
Fixpoint AcListenData_stream (fuel : nat) (m : ac_manager T) (i : Z) (s : stream) : outcome (ac_manager T * list (ac_effect T) * list job) :=
  match fuel with
  | O => NoFuel
  | S fuel =>
      r ← read_frame s;
      match r with
      | Got f s =>
          '(m, effs, jobs) ← AcListenData_frame m i f;
          '(m, effs', jobs') ← AcListenData_stream fuel m i s;
          Ret (m, effs ++ effs', jobs ++ jobs')
      | _ => Ret (m, [], [])
      end
  end.
End listener.
