(* ===== verification/DataFramesFacts.v ===== *)
(** Every message and closure that is sent on a data connection is handled once and in
    order, however the bytes arrive. *)
From S2P Require Import Prelude Storage Memcached MemcachedFacts Sync Accumulator AccumulatorFacts MapReduce MapReduceFacts DataFrames.

#[local] Arguments bytes_of_word : simpl never.
#[local] Arguments bytes_of_words : simpl never.
#[local] Arguments zlen : simpl never.

(** * Receiving *)

Lemma zlen_zero_nil {A} (l : list A) : zlen l <= 0 -> l = [].
Proof. destruct l as [|a l]; [done|]. rewrite zlen_cons. pose proof (zlen_nonneg l). lia. Qed.

Definition pieces (s : stream) : Prop := Forall (fun c => c <> []) s.

Lemma RcRecv_spec s n data s' : pieces s -> 0 < n -> RcRecv s n = (data, s') ->
  concat s = data ++ concat s' /\ pieces s' /\ zlen data <= n /\ (s <> [] -> 0 < zlen data) /\ (s = [] -> data = []).
Proof.
  intros Hs Hn. destruct s as [|c s]; cbn [RcRecv]; [intros [= <- <-]; split_and!; try done; change (zlen (@nil Z)) with 0; lia|].
  apply Forall_cons in Hs as [Hc Hs]. assert (0 < zlen c) as Hz by (destruct c; [done|rewrite zlen_cons; pose proof (zlen_nonneg c); lia]).
  destruct (Z.leb_spec (zlen c) n); intros [= <- <-].
  - split; [done|]. split; [done|]. split; [done|]. done.
  - cbn [concat]. rewrite app_assoc, take_drop. split; [done|]. split; [|split; [rewrite zlen_take; lia|split; [rewrite zlen_take by lia; lia|done]]].
    apply Forall_cons. split; [|done]. intros E. apply (f_equal length) in E. rewrite length_drop in E. unfold zlen in *. cbn in E. lia.
Qed.

Lemma recv_all_spec s a rest n : pieces s -> concat s = a ++ rest -> zlen a = n ->
  exists s', recv_all s n = Ret (Some (a, s')) /\ concat s' = rest /\ pieces s'.
Proof.
  intros Hs Hc Ha. unfold recv_all. pose proof (zlen_nonneg a).
  destruct (while_rule (fun '(rec, torec, s, closed) => closed = false /\ pieces s /\ exists b, rec ++ b = a /\ torec = zlen b /\ concat s = b ++ rest)
    (fun '(rec, torec, s, closed) => Z.to_nat torec) (fun '(rec, torec, s, closed) => (0 <? torec) && negb closed)
    (fun '(rec, torec, s, closed) => let '(data, s) := RcRecv s torec in
       if zlen data <=? 0 then Ret (rec, torec, s, true) else Ret (rec ++ data, torec - zlen data, s, false))
    (S (Z.to_nat n)) ([], n, s, false)) as ([[[rec torec] s'] closed] & -> & (-> & Hs' & b & Hb & Ht & Hc') & Hend).
  - intros [[[rec torec] s1] closed] (-> & Hs1 & b & Hb & Ht & Hc1) Hcond. cbn [negb] in Hcond. rewrite andb_true_r in Hcond.
    apply Z.ltb_lt in Hcond. destruct (RcRecv s1 torec) as [data s2] eqn:E.
    destruct (RcRecv_spec s1 torec data s2 Hs1 Hcond E) as (E1 & E2 & E3 & E4 & _).
    assert (s1 <> []) as Hne by (intros ->; symmetry in Hc1; apply app_eq_nil in Hc1 as [-> _]; change (zlen (@nil Z)) with 0 in Ht; lia).
    specialize (E4 Hne). rewrite (proj2 (Z.leb_gt _ _)) by lia. eexists (_, _, _, _). split; [done|]. split; [|cbv beta iota; lia].
    split; [done|]. split; [done|]. assert (exists b', b = data ++ b' /\ concat s2 = b' ++ rest) as (b' & -> & Hb').
    { rewrite E1 in Hc1. apply app_eq_inv in Hc1 as [(x & -> & Hx)|(x & -> & Hx)].
      - exists []. rewrite zlen_app in E3. pose proof (zlen_nonneg x). assert (zlen x <= 0) as Hx0 by lia. apply zlen_zero_nil in Hx0 as ->.
        rewrite !app_nil_r. by split.
      - by exists x. }
    exists b'. rewrite <- app_assoc. split; [done|]. split; [rewrite zlen_app in Ht; lia|done].
  - split; [done|]. split; [done|]. exists a. done.
  - lia.
  - cbn [negb] in Hend. rewrite andb_true_r in Hend. apply Z.ltb_ge in Hend. pose proof (zlen_nonneg b).
    assert (b = []) as -> by (apply zlen_zero_nil; lia). exists s'. rewrite app_nil_r in Hb. by subst.
Qed.

Lemma recv_all_closed n : 0 < n -> recv_all [] n = Ret None.
Proof.
  intros Hn. unfold recv_all. cbn [while]. rewrite (proj2 (Z.ltb_lt 0 n)) by done. cbn [negb andb RcRecv].
  change (zlen (@nil Z) <=? 0) with true. cbn [mbind outcome_bind]. destruct (Z.to_nat n) eqn:E; [lia|]. cbn [while]. by rewrite andb_false_r.
Qed.

(** * Frames *)

Record frame_ok (f : data_frame) : Prop := {
  fo_words : Forall is_u32 [f_cmd f; f_size f; f_id f; f_datatype f; f_param0 f];
  fo_param12 : is_u64 (f_param12 f);
  fo_size : zlen (f_buf f) = f_size f;
  fo_limit : f_size f <= BD_DATA_PROCESS_SIZE;
}.

(** A frame is read back from its bytes, in whatever pieces they come. *)
Lemma read_frame_words s ws buf rest param12 cmd size id datatype param0 :
  ws = [cmd; size; id; datatype; param0] ++ words_of_u64 param12 ->
  Forall is_u32 [cmd; size; id; datatype; param0] -> is_u64 param12 -> zlen buf = size -> size <= BD_DATA_PROCESS_SIZE ->
  pieces s -> concat s = bytes_of_words ws ++ buf ++ rest ->
  exists s', read_frame s = Ret (Got (Frame cmd size id datatype param0 param12 buf) s') /\ concat s' = rest /\ pieces s'.
Proof.
  intros -> Hw H12 Hsz Hlim Hs Hc. set (ws := [cmd; size; id; datatype; param0] ++ words_of_u64 param12) in *.
  destruct (recv_all_spec s (bytes_of_words ws) (buf ++ rest) sizeof_RcDataPack) as (s1 & H1 & Hc1 & Hs1); [done|done|by rewrite zlen_bytes_of_words|].
  destruct (recv_all_spec s1 buf rest size) as (s2 & H2 & Hc2 & Hs2); [done|done|done|].
  assert (Forall is_u32 ws) as Hws.
  { apply Forall_app. split; [done|]. apply Forall_cons. split; [apply u32_range|]. apply Forall_singleton. apply u32_range. }
  unfold read_frame. rewrite H1, bind_ret.
  rewrite (word_at_bytes_of_words ws 0 cmd Hws eq_refl), (word_at_bytes_of_words ws 1 size Hws eq_refl),
    (word_at_bytes_of_words ws 2 id Hws eq_refl), (word_at_bytes_of_words ws 3 datatype Hws eq_refl),
    (word_at_bytes_of_words ws 4 param0 Hws eq_refl), (word_at_bytes_of_words ws 5 (u32 param12) Hws eq_refl),
    (word_at_bytes_of_words ws 6 (u32 (param12 / 2 ^ 32)) Hws eq_refl), !bind_ret.
  rewrite (proj2 (Z.ltb_ge _ _)) by lia. rewrite H2, bind_ret, words_of_u64_join by done. eauto.
Qed.

Lemma read_frame_spec s f rest : frame_ok f -> pieces s -> concat s = frame_bytes f ++ rest ->
  exists s', read_frame s = Ret (Got f s') /\ concat s' = rest /\ pieces s'.
Proof.
  intros [H1 H2 H3 H4] Hs Hc. destruct f as [cmd size id datatype param0 param12 buf]. cbn [f_cmd f_size f_id f_datatype f_param0 f_param12 f_buf] in *.
  eapply read_frame_words; [done..|]. unfold frame_bytes in Hc. by rewrite <- app_assoc in Hc.
Qed.

Lemma read_frame_closed s : pieces s -> concat s = [] -> read_frame s = Ret Closed.
Proof.
  intros Hs Hc. assert (s = []) as ->.
  { destruct s as [|c s]; [done|]. apply Forall_cons in Hs as [Hne _]. cbn in Hc. by apply app_eq_nil in Hc as [-> _]. }
  unfold read_frame. by rewrite recv_all_closed.
Qed.

(** * Words *)

Section words.
Ltac Zify.zify_post_hook ::= Z.to_euclidean_division_equations.

Lemma words_of_bytes_of_words ws : Forall is_u32 ws -> words_of_bytes (bytes_of_words ws) = ws.
Proof.
  induction 1 as [|w ws Hw _ IH]; [done|]. rewrite bytes_of_words_cons. unfold bytes_of_word. cbn [app words_of_bytes].
  rewrite IH. f_equal. ranges.
Qed.

Lemma word_of_u8 (bs : list Z) : zlen bs = 4 -> Forall is_u8 bs -> exists w, is_u32 w /\ bs = bytes_of_word w.
Proof.
  intros Hl Hb. destruct bs as [|b0 [|b1 [|b2 [|b3 [|]]]]]; try (unfold zlen in Hl; cbn in Hl; lia).
  rewrite !Forall_cons in Hb. destruct Hb as (H0 & H1 & H2 & H3 & _). unfold is_u8 in *.
  exists (b0 + 256 * b1 + 65536 * b2 + 16777216 * b3). split; [ranges|]. unfold bytes_of_word. repeat f_equal; lia.
Qed.
Ltac Zify.zify_post_hook ::= idtac.
End words.

Lemma words_of_u8 n bs : zlen bs = 4 * Z.of_nat n -> Forall is_u8 bs ->
  exists ws, length ws = n /\ Forall is_u32 ws /\ bs = bytes_of_words ws.
Proof.
  revert bs. induction n as [|n IH]; intros bs Hl Hb.
  - exists []. split; [done|]. split; [done|]. apply zlen_zero_nil. lia.
  - rewrite <- (take_drop 4 bs) in Hb |- *. apply Forall_app in Hb as [H1 H2].
    destruct (word_of_u8 (take 4 bs)) as (w & Hw & ->); [unfold zlen in *; rewrite length_take; lia|done|].
    destruct (IH (drop 4 bs)) as (ws & E & Hws & ->); [unfold zlen in *; rewrite length_drop; lia|done|].
    exists (w :: ws). rewrite bytes_of_words_cons. cbn. split; [lia|]. split; [by constructor|done].
Qed.

(** * Closures *)

Lemma words_of_u64_pair a b : is_u32 a -> is_u32 b -> words_of_u64 (a + 2 ^ 32 * b) = [a; b].
Proof.
  intros Ha Hb. unfold words_of_u64, u32, is_u32 in *. rewrite (Z.mul_comm (2 ^ 32) b), Z.div_add, Z_mod_plus_full, (Z.div_small a) by lia.
  by rewrite !Z.mod_small by lia.
Qed.

Lemma wr_word_at pre w0 w post bs i : zlen pre = i ->
  wr_word (bytes_of_words (pre ++ w0 :: post) ++ bs) i w = Ret (bytes_of_words (pre ++ w :: post) ++ bs).
Proof.
  intros <-. unfold wr_word. assert (forall x, bytes_of_words (pre ++ x :: post) ++ bs = bytes_of_words pre ++ bytes_of_word x ++ (bytes_of_words post ++ bs)) as E.
  { intros x. unfold bytes_of_words. rewrite flat_map_app. cbn [flat_map]. by rewrite <- !app_assoc. }
  rewrite !E. by rewrite wr_range_split by (by rewrite ?zlen_bytes_of_words).
Qed.

(** The bytes that are sent for a closure are those of a frame; of its words two are what
    the stack held, and nobody reads them. *)
Lemma closure_bytes buf param event id obj : zlen buf = BD_DATA_PROCESS_SIZE -> Forall is_u8 buf ->
  is_u32 param -> is_u32 event -> sizeof_RcDataPack + zlen obj <= BD_DATA_PROCESS_SIZE ->
  exists f, AcExecuteClosureInThreadPool buf param event id obj = Ret (frame_bytes f) /\ frame_ok f /\
    f_cmd f = 5 /\ f_id f = u32 id /\ f_param0 f = event /\ u32 (f_param12 f) = param /\ f_buf f = obj.
Proof.
  intros Hz Hb Hp He Hsz. unfold BD_DATA_PROCESS_SIZE, sizeof_RcDataPack in *. pose proof (zlen_nonneg obj) as Ho.
  rewrite <- (take_drop 28 buf) in Hb |- *. apply Forall_app in Hb as [Hb1 _].
  destruct (words_of_u8 7 (take 28 buf)) as (ws & Hl & Hws & ->); [unfold zlen in *; rewrite length_take; lia|done|].
  assert (zlen (drop 28 buf) = 16384 - 28) as Hd by (unfold zlen in *; rewrite length_drop; lia).
  set (rest := drop 28 buf) in *. clearbody rest. clear Hb1 Hz buf.
  destruct ws as [|w0 [|w1 [|w2 [|w3 [|w4 [|w5 [|w6 [|]]]]]]]]; try done.
  rewrite !Forall_cons in Hws. destruct Hws as (_ & _ & _ & H3 & _ & _ & H6 & _).
  unfold AcExecuteClosureInThreadPool.
  rewrite (wr_word_at [] w0 5 [w1; w2; w3; w4; w5; w6] rest), bind_ret by done. cbn [app].
  rewrite (wr_word_at [5; w1] w2 (u32 id) [w3; w4; w5; w6] rest), bind_ret by done. cbn [app].
  rewrite (wr_word_at [5; w1; u32 id; w3] w4 event [w5; w6] rest), bind_ret by done. cbn [app].
  rewrite (wr_word_at [5; w1; u32 id; w3; event] w5 param [w6] rest), bind_ret by done. cbn [app].
  rewrite <- (take_drop (Z.to_nat (zlen obj)) rest). unfold sizeof_RcDataPack.
  rewrite (wr_range_split _ (take _ rest) _ obj), bind_ret by (done || rewrite zlen_take; lia).
  rewrite (wr_word_at [5] w1 (u32 (zlen obj)) [u32 id; w3; event; param; w6]), bind_ret by done. cbn [app].
  rewrite app_assoc. rewrite <- (app_nil_l ((bytes_of_words _ ++ obj) ++ _)).
  rewrite (rd_range_split [] (bytes_of_words [5; u32 (zlen obj); u32 id; w3; event; param; w6] ++ obj)) by
    (done || (rewrite zlen_app, zlen_bytes_of_words; change (zlen [5; u32 (zlen obj); u32 id; w3; event; param; w6]) with 7; lia)).
  pose proof (words_of_u64_pair param w6 Hp H6) as Ew.
  exists (Frame 5 (u32 (zlen obj)) (u32 id) w3 event (param + 2 ^ 32 * w6) obj). unfold frame_bytes. cbn [f_cmd f_size f_id f_datatype f_param0 f_param12 f_buf].
  rewrite Ew. cbn [app]. split; [done|]. injection Ew as -> Ew. split; [|done]. rewrite u32_small by ranges.
  split; cbn [f_cmd f_size f_id f_datatype f_param0 f_param12 f_buf]; [|ranges|done|unfold BD_DATA_PROCESS_SIZE; lia].
  repeat constructor; (done || apply u32_range || ranges).
Qed.

(** * The listener *)

Section listener.
Context {T : Type} `{Element T}.
Context (of_word : Z -> T) (to_word : T -> Z).
Context (cache_get : Z -> Z -> outcome Z) (accu : Z -> accumulator T) (BaseDoReduce : list T -> outcome (list T)).
Context (num_nodes self_node_id : Z) (procs : list Z).
#[local] Abbreviation frame_of := (frame_of_pack to_word).
#[local] Abbreviation on_frame := (AcListenData_frame of_word cache_get accu BaseDoReduce num_nodes self_node_id procs).
#[local] Abbreviation listen := (AcListenData_stream of_word cache_get accu BaseDoReduce num_nodes self_node_id procs).

(** What is sent on a connection: a message of the accumulators, or a closure. *)
Inductive sent_item := Message (p : RcDataPack T) | Closure (obj : list Z) (param event id : Z).

Definition word_of_elem (x : T) : Prop := is_u32 (to_word x) /\ of_word (to_word x) = x.
Record pack_ok (p : RcDataPack T) : Prop := {
  po_words : is_u32 (dp_id p) /\ is_u32 (dp_param0 p) /\ is_u64 (dp_param12 p);
  po_size : zlen (f_buf (frame_of p)) = dp_size p;
  po_limit : dp_size p <= BD_DATA_PROCESS_SIZE;
  po_body : match dp_cmd p, dp_body p with
    | AcDataAccumulate, Dense l => Forall word_of_elem l
    | AcDataAccumulate, SparseList es => Forall (fun e => is_u32 (index e) /\ word_of_elem (sdata e)) es
    | AcDataAccumulatePartialDone, Dense [] | AcDataLocalReduce, Dense [] => True
    | _, _ => False
    end;
}.

(** The bytes of an item; the buffer of a closure is on the stack, with what it held. *)
Definition sent_bytes (it : sent_item) (bs : list Z) : Prop :=
  match it with
  | Message p => pack_ok p /\ bs = frame_bytes (frame_of p)
  | Closure obj param event id =>
      is_u32 param /\ is_u32 event /\ - 2 ^ 31 <= id < 2 ^ 31 /\ sizeof_RcDataPack + zlen obj <= BD_DATA_PROCESS_SIZE /\
      exists buf, zlen buf = BD_DATA_PROCESS_SIZE /\ Forall is_u8 buf /\
        AcExecuteClosureInThreadPool buf param event id obj = Ret bs
  end.

(** What the receiver has to do with an item. *)
Definition handle (m : ac_manager T) (i : Z) (it : sent_item) : outcome (ac_manager T * list (ac_effect T) * list job) :=
  match it with
  | Message p =>
      r ← AcListenData_cmd cache_get accu num_nodes self_node_id BaseDoReduce m i p;
      match r with Some (m, effs) => Ret (m, effs, []) | None => Abort end
  | Closure obj param event id => func ← rd procs id; Ret (m, [], [Job func obj param event])
  end.
Fixpoint handle_all (m : ac_manager T) (i : Z) (its : list sent_item) : outcome (ac_manager T * list (ac_effect T) * list job) :=
  match its with
  | [] => Ret (m, [], [])
  | it :: its =>
      '(m, effs, jobs) ← handle m i it;
      '(m, effs', jobs') ← handle_all m i its;
      Ret (m, effs ++ effs', jobs ++ jobs')
  end.

Lemma sparse_of_words_spec es : Forall (fun e => is_u32 (index e) /\ word_of_elem (sdata e)) es ->
  sparse_of_words of_word (flat_map (fun e => [index e; to_word (sdata e)]) es) = es.
Proof.
  induction 1 as [|[i x] es [_ [_ Hx]] _ IH]; [done|]. cbn [flat_map app index sdata sparse_of_words] in *. by rewrite IH, Hx.
Qed.

Lemma sparse_words_u32 es : Forall (fun e => is_u32 (index e) /\ word_of_elem (sdata e)) es ->
  Forall is_u32 (flat_map (fun e => [index e; to_word (sdata e)]) es).
Proof. induction 1 as [|e es [Hi [Hx _]] _ IH]; [constructor|]. cbn [flat_map app]. by rewrite !Forall_cons. Qed.

(** The elements of a message come out of its bytes. *)
Lemma body_of_frame_of p : pack_ok p -> dp_cmd p = AcDataAccumulate -> body_of_frame of_word (frame_of p) = Ret (dp_body p).
Proof.
  intros [_ _ _ Hb] Hc. rewrite Hc in Hb. unfold body_of_frame, frame_of_pack. destruct (dp_body p) as [l|es]; cbn [f_datatype f_buf].
  - change (1 =? 1) with true. cbn match. rewrite words_of_bytes_of_words.
    + f_equal. f_equal. rewrite <- list_fmap_compose. rewrite <- (list_fmap_id l) at 2. apply list_fmap_ext.
      intros i x Hx. apply (Forall_lookup_1 _ _ _ _ Hb Hx).
    + apply Forall_fmap. eapply Forall_impl; [done|]. intros x Hx. apply Hx.
  - change (2 =? 1) with false. change (2 =? 2) with true. cbn match. rewrite words_of_bytes_of_words by by apply sparse_words_u32.
    by rewrite sparse_of_words_spec.
Qed.

Lemma frame_of_ok p : pack_ok p -> frame_ok (frame_of p).
Proof.
  intros [(H1 & H2 & H3) Hz Hl _]. pose proof (zlen_nonneg (f_buf (frame_of p))) as Hn. rewrite Hz in Hn. unfold BD_DATA_PROCESS_SIZE in *.
  assert (is_u32 (cmd_number (dp_cmd p))) as Hcmd by (destruct (dp_cmd p); split; cbn; lia).
  assert (is_u32 (dp_size p)) as Hsz by ranges.
  unfold frame_of_pack in *. destruct (dp_body p); cbn [f_buf] in *; split; cbn [f_cmd f_size f_id f_datatype f_param0 f_param12 f_buf]; try done.
  all: rewrite !Forall_cons; split_and!; try done; split; lia.
Qed.

(** A frame does what its item is for. *)
Lemma on_frame_message m i p : pack_ok p -> on_frame m i (frame_of p) = handle m i (Message p).
Proof.
  intros Hp. pose proof (body_of_frame_of p Hp) as Hbody. destruct Hp as [_ _ _ Hb]. destruct p as [cmd size id param0 param12 body].
  unfold AcListenData_frame, handle. cbn [dp_cmd dp_body dp_size dp_id dp_param0 dp_param12] in *.
  destruct cmd; try (exfalso; by destruct body); unfold frame_of_pack in *; cbn [dp_cmd dp_body dp_size dp_id dp_param0 dp_param12 cmd_number] in *.
  - rewrite Hbody by done. by destruct body.
  - by destruct body as [[|]|].
  - by destruct body as [[|]|].
Qed.

Lemma on_frame_closure m i f obj param event id : - 2 ^ 31 <= id < 2 ^ 31 -> f_cmd f = 5 -> f_id f = u32 id -> f_param0 f = event ->
  u32 (f_param12 f) = param -> f_buf f = obj -> on_frame m i f = handle m i (Closure obj param event id).
Proof.
  intros Hid Hc Hi He Hp <-. unfold AcListenData_frame, ExecuteClosureInLocalThreadPool, handle. rewrite Hc, Hi, He, Hp.
  assert (s32 (u32 id) = id) as ->; [unfold s32, u32; rewrite Zplus_mod_idemp_l, Z.mod_small; lia|]. cbn. by destruct (rd procs id).
Qed.

Lemma sent_bytes_frame it bs : sent_bytes it bs -> exists f, bs = frame_bytes f /\ frame_ok f /\
  forall m i, on_frame m i f = handle m i it.
Proof.
  destruct it as [p|obj param event id]; cbn [sent_bytes].
  - intros [Hp ->]. exists (frame_of p). split; [done|]. split; [by apply frame_of_ok|]. intros. by apply on_frame_message.
  - intros (Hp & He & Hid & Hz & buf & Hbl & Hb & Hs). destruct (closure_bytes buf param event id obj) as (f & Hf & Hok & H1 & H2 & H3 & H4 & H5); try done.
    rewrite Hf in Hs. injection Hs as <-. exists f. split; [done|]. split; [done|]. intros. by apply on_frame_closure.
Qed.

(** C14. The data connection delivers: whatever messages and closures a node sends on it, one
    after the other, and however the bytes of them are cut up on the way, the listener of the
    other end handles each of them as it was sent, in order and once, and stops when the
    connection is closed. *)
Theorem stream_delivers m i its bss s : Forall2 sent_bytes its bss -> pieces s -> concat s = concat bss ->
  listen (S (length its)) m i s = handle_all m i its.
Proof.
  intros HF. revert m s. induction HF as [|it bs its bss Hit _ IH]; intros m s Hs Hc.
  - cbn [length AcListenData_stream handle_all]. by rewrite read_frame_closed.
  - destruct (sent_bytes_frame it bs Hit) as (f & -> & Hok & Hf). cbn [concat] in Hc.
    destruct (read_frame_spec s f (concat bss) Hok Hs Hc) as (s' & Hr & Hc' & Hs').
    change (listen (S (length (it :: its))) m i s) with
      (r ← read_frame s; match r with Got f s => '(m, effs, jobs) ← on_frame m i f;
          '(m, effs', jobs') ← listen (S (length its)) m i s; Ret (m, effs ++ effs', jobs ++ jobs') | _ => Ret (m, [], []) end).
    rewrite Hr, bind_ret, Hf. cbn [handle_all]. destruct (handle m i it) as [[[m1 effs] jobs]| |]; cbn [mbind outcome_bind]; try done.
    by rewrite IH.
Qed.
End listener.

(** Node 1 of two gets the first words of its part and a closure, byte by byte. *)
Lemma stream_delivers_witness : exists (its : list (sent_item (T := Z))) bss,
  Forall2 (sent_bytes (fun w => w) (fun x => x)) its bss /\
  let get := fun _ f => Ret (if f =? 4 then 1 else if f =? 2 then 33 else 99) in
  let run := AcListenData_stream (fun w => w) get (fun _ => DAddAccumulator) Ret 2 1 [42] 3 ∅ 0 (map (fun b => [b]) (concat bss)) in
  run = handle_all get (fun _ => DAddAccumulator) Ret 2 1 [42] ∅ 0 its /\
  match handle_all get (fun _ => DAddAccumulator) Ret 2 1 [42] ∅ 0 its with
  | Ret (m, effs, jobs) => (buf <$> m !! 7, effs, jobs) = (Some [5], [], [Job 42 [1; 2] 9 8])
  | _ => False
  end.
Proof.
  set (its := [Message {| dp_cmd := AcDataAccumulate; dp_size := 4; dp_id := 7; dp_param0 := 32; dp_param12 := 0; dp_body := Dense [5] |};
    Closure [1; 2] 9 8 0] : list (sent_item (T := Z))).
  set (b0 := bytes_of_words [2; 4; 7; 1; 32; 0; 0; 5]). set (b1 := bytes_of_words [5; 2; 0; 0; 8; 9; 0] ++ [1; 2]).
  assert (Forall2 (sent_bytes (fun w => w) (fun x => x)) its [b0; b1]) as Hs.
  { apply Forall2_cons; split; [|apply Forall2_cons; split; [|by apply Forall2_nil]].
    - split; [|by vm_compute]. split; [split_and!; split; cbn; lia|done|by vm_compute|].
      apply Forall_singleton. split; [split; cbn; lia|done].
    - split; [split; lia|]. split; [split; lia|]. split; [lia|]. split; [by vm_compute|].
      exists (replicate (Z.to_nat BD_DATA_PROCESS_SIZE) 0). split; [by vm_compute|]. split; [|by vm_compute].
      apply Forall_replicate. split; lia. }
  exists its, [b0; b1]. split; [done|]. split; [|by vm_compute].
  change 3%nat with (S (length its)). eapply (stream_delivers (fun w => w) (fun x => x)); [exact Hs| |].
  - apply Forall_map. apply Forall_true. done.
  - vm_compute. reflexivity.
Defined.
