(* ===== verification/DMap.v ===== *)
(** The shared red-black tree, [include/DMap.h]: its nodes are objects of the shared
    memory that refer to each other by object id.  [remove] and [removeFixUp] cannot be
    instantiated and have no model: the one assigns a reference to a pointer to one, the
    other copies a field, whose copy assignment is deleted. *)
From S2P Require Import Prelude.

(** The operators of the template parameter [T]. *)
Class KeyOps (K : Type) := {
  key_lt : K -> K -> bool;
  key_eq : K -> K -> bool;
  key_gt : K -> K -> bool;
  key_ge : K -> K -> bool;
}.

#[export] Instance int_keys : KeyOps Z :=
  {| key_lt := Z.ltb; key_eq := Z.eqb; key_gt := Z.gtb; key_ge := Z.geb |}.

Inductive RBTColor := RED | BLACK.
#[export] Instance RBTColor_eq_dec : EqDecision RBTColor.
Proof. solve_decision. Defined.

(** [nullptr] is the object id 0. *)
Record RBTNode (K V : Type) := Node {
  key : K;
  value : V;
  color : RBTColor;
  left : Z;
  right : Z;
  parent : Z;
}.
Arguments Node {K V} _ _ _ _ _ _.
Arguments key {K V} _.
Arguments value {K V} _.
Arguments color {K V} _.
Arguments left {K V} _.
Arguments right {K V} _.
Arguments parent {K V} _.

(** The nodes by object id, [self->mRoot], and the caller's variable that the
    functions get as [root], by reference. *)
Record map_state (K V : Type) := MapState {
  heap : gmap Z (RBTNode K V);
  mRoot : Z;
  root : Z;
}.
Arguments MapState {K V} _ _ _.
Arguments heap {K V} _.
Arguments mRoot {K V} _.
Arguments root {K V} _.

Section map.
Context {K V : Type} `{KeyOps K}.
Implicit Types (s : map_state K V) (x y p node : Z) (k : K) (v : V).

(** [p->...]: a reference to no node (with [nullptr], to the globals) is an error. *)
Definition node_at s p : outcome (RBTNode K V) :=
  match heap s !! p with Some n => Ret n | None => Abort end.

Definition update s p (f : RBTNode K V -> RBTNode K V) : outcome (map_state K V) :=
  n ← node_at s p;
  Ret (MapState (<[p := f n]> (heap s)) (mRoot s) (root s)).

Definition set_left s p x := update s p (fun n => Node (key n) (value n) (color n) x (right n) (parent n)).
Definition set_right s p x := update s p (fun n => Node (key n) (value n) (color n) (left n) x (parent n)).
Definition set_parent s p x := update s p (fun n => Node (key n) (value n) (color n) (left n) (right n) x).
Definition set_color s p c := update s p (fun n => Node (key n) (value n) c (left n) (right n) (parent n)).

(** More steps than a path has nodes. *)
Definition path_fuel s : nat := Datatypes.S (Datatypes.S (size (heap s))).

(** * Looking up *)

Fixpoint search_in (fuel : nat) s x k : outcome Z :=
  match fuel with
  | O => NoFuel
  | Datatypes.S fuel =>
      if x =? 0 then Ret x
      else
        n ← node_at s x;
        if key_eq (key n) k then Ret x
        else if key_lt k (key n) then search_in fuel s (left n) k
        else search_in fuel s (right n) k
  end.
Definition search s k : outcome Z := search_in (path_fuel s) s (mRoot s) k.

Fixpoint upperBound_in (fuel : nat) s x k (ub : Z) : outcome Z :=
  match fuel with
  | O => NoFuel
  | Datatypes.S fuel =>
      if x =? 0 then Ret ub
      else
        n ← node_at s x;
        if key_gt (key n) k then upperBound_in fuel s (left n) k x
        else upperBound_in fuel s (right n) k ub
  end.
Definition upperBound s k : outcome Z := upperBound_in (path_fuel s) s (mRoot s) k 0.

Fixpoint lowerBound_in (fuel : nat) s x k (lb : Z) : outcome Z :=
  match fuel with
  | O => NoFuel
  | Datatypes.S fuel =>
      if x =? 0 then Ret lb
      else
        n ← node_at s x;
        if key_ge (key n) k then lowerBound_in fuel s (left n) k x
        else lowerBound_in fuel s (right n) k lb
  end.
Definition lowerBound s k : outcome Z := lowerBound_in (path_fuel s) s (mRoot s) k 0.

(** [while (tree->left != nullptr) tree = tree->left]. *)
Fixpoint leftmost (fuel : nat) s x : outcome Z :=
  match fuel with
  | O => NoFuel
  | Datatypes.S fuel =>
      n ← node_at s x;
      if left n =? 0 then Ret x else leftmost fuel s (left n)
  end.
Definition minimum_of s x : outcome Z := if x =? 0 then Ret 0 else leftmost (path_fuel s) s x.
Definition minimum s : outcome Z := minimum_of s (mRoot s).

Fixpoint rightmost (fuel : nat) s x : outcome Z :=
  match fuel with
  | O => NoFuel
  | Datatypes.S fuel =>
      n ← node_at s x;
      if right n =? 0 then Ret x else rightmost fuel s (right n)
  end.
Definition maximum_of s x : outcome Z := if x =? 0 then Ret 0 else rightmost (path_fuel s) s x.
Definition maximum s : outcome Z := maximum_of s (mRoot s).

(** [while (y != nullptr && x == y->right) { x = y; y = y->parent; }]. *)
Fixpoint climb_right (fuel : nat) s x y : outcome Z :=
  match fuel with
  | O => NoFuel
  | Datatypes.S fuel =>
      if y =? 0 then Ret y
      else
        n ← node_at s y;
        if x =? right n then climb_right fuel s y (parent n) else Ret y
  end.
Definition successor s x : outcome Z :=
  n ← node_at s x;
  if negb (right n =? 0) then minimum_of s (right n)
  else climb_right (path_fuel s) s x (parent n).

Fixpoint climb_left (fuel : nat) s x y : outcome Z :=
  match fuel with
  | O => NoFuel
  | Datatypes.S fuel =>
      if y =? 0 then Ret y
      else
        n ← node_at s y;
        if x =? left n then climb_left fuel s y (parent n) else Ret y
  end.
Definition predecessor s x : outcome Z :=
  n ← node_at s x;
  if negb (left n =? 0) then maximum_of s (left n)
  else climb_left (path_fuel s) s x (parent n).

(** * Rotations *)

Definition leftRotate s x : outcome (map_state K V) :=
  nx ← node_at s x;
  let y := right nx in
  ny ← node_at s y;
  s ← set_right s x (left ny);
  ny ← node_at s y;
  s ← (if negb (left ny =? 0) then set_parent s (left ny) x else Ret s);
  nx ← node_at s x;
  let xv := parent nx in
  s ← set_parent s y xv;
  s ← (if xv =? 0 then Ret (MapState (heap s) y y)
       else
         nxv ← node_at s xv;
         if left nxv =? x then set_left s xv y else set_right s xv y);
  s ← set_left s y x;
  set_parent s x y.

Definition rightRotate s y : outcome (map_state K V) :=
  ny ← node_at s y;
  let x := left ny in
  nx ← node_at s x;
  s ← set_left s y (right nx);
  nx ← node_at s x;
  s ← (if negb (right nx =? 0) then set_parent s (right nx) y else Ret s);
  ny ← node_at s y;
  let yv := parent ny in
  s ← set_parent s x yv;
  s ← (if yv =? 0 then Ret (MapState (heap s) x x)
       else
         nyv ← node_at s yv;
         if right nyv =? y then set_right s yv x else set_left s yv x);
  s ← set_right s x y;
  set_parent s y x.

(** * Insertion *)

Definition is_red s p : outcome bool :=
  if p =? 0 then Ret false else n ← node_at s p; Ret (bool_decide (color n = RED)).

(** The two branches of the loop of [insertFixUp]; the new [node]. *)
Definition fix_left s node parent gparent : outcome (map_state K V * Z) :=
  g ← node_at s gparent;
  let uncle := right g in
  red ← is_red s uncle;
  if red : bool then
    s ← set_color s uncle BLACK;
    s ← set_color s parent BLACK;
    s ← set_color s gparent RED;
    Ret (s, gparent)
  else
    p ← node_at s parent;
    '(s, parent, node) ←
      (if right p =? node then s ← leftRotate s parent; Ret (s, node, parent)
       else Ret (s, parent, node));
    s ← set_color s parent BLACK;
    s ← set_color s gparent RED;
    s ← rightRotate s gparent;
    Ret (s, node).

Definition fix_right s node parent gparent : outcome (map_state K V * Z) :=
  g ← node_at s gparent;
  let uncle := left g in
  red ← is_red s uncle;
  if red : bool then
    s ← set_color s uncle BLACK;
    s ← set_color s parent BLACK;
    s ← set_color s gparent RED;
    Ret (s, gparent)
  else
    p ← node_at s parent;
    '(s, parent, node) ←
      (if left p =? node then s ← rightRotate s parent; Ret (s, node, parent)
       else Ret (s, parent, node));
    s ← set_color s parent BLACK;
    s ← set_color s gparent RED;
    s ← leftRotate s gparent;
    Ret (s, node).

Fixpoint fix_loop (fuel : nat) s node : outcome (map_state K V) :=
  match fuel with
  | O => NoFuel
  | Datatypes.S fuel =>
      n ← node_at s node;
      red ← is_red s (parent n);
      if red : bool then
        p ← node_at s (parent n);
        let gparent := parent p in
        g ← node_at s gparent;
        '(s, node) ← (if parent n =? left g then fix_left s node (parent n) gparent
                      else fix_right s node (parent n) gparent);
        fix_loop fuel s node
      else Ret s
  end.

Definition insertFixUp s node : outcome (map_state K V) :=
  s ← fix_loop (path_fuel s) s node;
  set_color s (root s) BLACK.

(** The search for the new node's parent, [y]. *)
Fixpoint descend (fuel : nat) s k x y : outcome Z :=
  match fuel with
  | O => NoFuel
  | Datatypes.S fuel =>
      if x =? 0 then Ret y
      else
        n ← node_at s x;
        descend fuel s k (if key_lt k (key n) then left n else right n) x
  end.

Definition insertNode s node : outcome (map_state K V) :=
  n ← node_at s node;
  y ← descend (path_fuel s) s (key n) (root s) 0;
  s ← set_parent s node y;
  s ← (if negb (y =? 0) then
         ny ← node_at s y;
         if key_lt (key n) (key ny) then set_left s y node else set_right s y node
       else Ret (MapState (heap s) (mRoot s) node));
  s ← set_color s node RED;
  insertFixUp s node.

(** [insert]; [z] is the object id that [NewObj] gets for the new node. *)
Definition insert s (z : Z) k v : outcome (map_state K V) :=
  let s := MapState (<[z := Node k v BLACK 0 0 0]> (heap s)) (mRoot s) (mRoot s) in
  s ← insertNode s z;
  Ret (MapState (heap s) (root s) (root s)).

(** * Printing *)

(** A line of [print]: a key and, unless it is the root's, its color, the parent's key and
    whether it is a right child. *)
Record printed := Line { l_key : K; l_below : option (RBTColor * K * bool) }.

(** [print(tree, key, direction)]; the lines behind those of [out]. *)
Fixpoint print_in (fuel : nat) s x k (direction : Z) (out : list printed) : outcome (list printed) :=
  match fuel with
  | O => NoFuel
  | Datatypes.S fuel =>
      if x =? 0 then Ret out
      else
        n ← node_at s x;
        let line := if direction =? 0 then Line (key n) None
                    else Line (key n) (Some (color n, k, direction =? 1)) in
        out ← print_in fuel s (left n) (key n) (-1) (out ++ [line]);
        print_in fuel s (right n) (key n) 1 out
  end.
Definition print s : outcome (list printed) :=
  if mRoot s =? 0 then Ret []
  else n ← node_at s (mRoot s); print_in (path_fuel s) s (mRoot s) (key n) 0 [].

(** * Construction and destruction *)

Definition new_map : map_state K V := MapState ∅ 0 0.

(** [DelObj(tree)] of the nodes that [destroy] reaches. *)
Fixpoint destroy_in (fuel : nat) s x : outcome (map_state K V) :=
  match fuel with
  | O => NoFuel
  | Datatypes.S fuel =>
      if x =? 0 then Ret s
      else
        n ← node_at s x;
        if negb (left n =? 0) then destroy_in fuel s (left n)
        else if negb (right n =? 0) then destroy_in fuel s (right n)
        else Ret (MapState (delete x (heap s)) (mRoot s) (root s))
  end.
Definition destroy s : outcome (map_state K V) := destroy_in (path_fuel s) s (mRoot s).
End map.
Arguments printed K : clear implicits.
Arguments Line {K} _ _.
