(* ===== verification/DMapTree.v ===== *)
(** What a heap of DMap.v represents: trees and the places in them, the frame rules
    for writes, the rotations, and the mirror that turns left into right. *)
From S2P Require Import Prelude DMap.

(** [operator<] of the keys is a strict total order, and the other operators agree
    with it. *)
Class KeyOrder (K : Type) `{KeyOps K} := {
  lt_irrefl : forall a : K, key_lt a a = false;
  lt_trans : forall a b c : K, key_lt a b = true -> key_lt b c = true -> key_lt a c = true;
  lt_total : forall a b : K, key_lt a b = false -> key_lt b a = false -> a = b;
  eq_spec : forall a b : K, key_eq a b = true <-> a = b;
  gt_lt : forall a b : K, key_gt a b = key_lt b a;
  ge_lt : forall a b : K, key_ge a b = negb (key_lt a b);
}.

#[export] Instance int_order : KeyOrder Z.
Proof. split; cbn; intros; try lia; by rewrite Z.geb_leb, Z.leb_antisym. Qed.

(** * Trees and their places *)

Inductive tree (K V : Type) : Type :=
| Leaf
| Branch (c : RBTColor) (l : tree K V) (a : Z) (k : K) (v : V) (r : tree K V).
Arguments Leaf {K V}.
Arguments Branch {K V} _ _ _ _ _ _.

(** A step up from a subtree: it is the left, or the right, child of node [a]. *)
Inductive frame (K V : Type) : Type :=
| InLeft (c : RBTColor) (a : Z) (k : K) (v : V) (r : tree K V)
| InRight (c : RBTColor) (l : tree K V) (a : Z) (k : K) (v : V).
Arguments InLeft {K V} _ _ _ _ _.
Arguments InRight {K V} _ _ _ _ _.

Section trees.
Context {K V : Type}.
Implicit Types (t l r : tree K V) (f : frame K V) (ctx : list (frame K V)) (h : gmap Z (RBTNode K V)).

(** The object id of the root, and the nodes in order. *)
Definition addr t : Z := match t with Leaf => 0 | Branch _ _ a _ _ _ => a end.
Fixpoint entries t : list (Z * (K * V)) :=
  match t with
  | Leaf => []
  | Branch _ l a k v r => entries l ++ (a, (k, v)) :: entries r
  end.
Fixpoint height t : nat :=
  match t with Leaf => 0%nat | Branch _ l _ _ _ r => Datatypes.S (height l `max` height r) end.

(** The nodes of the heap are those of the tree, with [p] the parent of its root. *)
Fixpoint holds h t (p : Z) : Prop :=
  match t with
  | Leaf => True
  | Branch c l a k v r =>
      h !! a = Some (Node k v c (addr l) (addr r) p) /\ holds h l a /\ holds h r a
  end.

Definition plug1 t f : tree K V :=
  match f with InLeft c a k v r => Branch c t a k v r | InRight c l a k v => Branch c l a k v t end.
Definition plug ctx t : tree K V := foldl plug1 t ctx.
Definition up ctx : Z := match ctx with [] => 0 | InLeft _ a _ _ _ :: _ => a | InRight _ _ a _ _ :: _ => a end.
Fixpoint before ctx : list (Z * (K * V)) :=
  match ctx with
  | [] => []
  | InLeft _ _ _ _ _ :: ctx => before ctx
  | InRight _ l a k v :: ctx => before ctx ++ entries l ++ [(a, (k, v))]
  end.
Fixpoint after ctx : list (Z * (K * V)) :=
  match ctx with
  | [] => []
  | InLeft _ a k v r :: ctx => (a, (k, v)) :: entries r ++ after ctx
  | InRight _ _ _ _ _ :: ctx => after ctx
  end.
Fixpoint holds_ctx h ctx (p : Z) : Prop :=
  match ctx with
  | [] => True
  | InLeft c a k v r :: ctx =>
      h !! a = Some (Node k v c p (addr r) (up ctx)) /\ holds h r a /\ holds_ctx h ctx a
  | InRight c l a k v :: ctx =>
      h !! a = Some (Node k v c (addr l) p (up ctx)) /\ holds h l a /\ holds_ctx h ctx a
  end.

Lemma entries_plug ctx t : entries (plug ctx t) = before ctx ++ entries t ++ after ctx.
Proof.
  revert t. induction ctx as [|f ctx IH]; intros t; cbn; [by rewrite app_nil_r|].
  fold (plug ctx (plug1 t f)). rewrite IH. destruct f; cbn; by rewrite <- ?app_assoc.
Qed.

Lemma holds_plug h ctx t : holds h (plug ctx t) 0 <-> holds h t (up ctx) /\ holds_ctx h ctx (addr t).
Proof.
  revert t. induction ctx as [|f ctx IH]; intros t; cbn; [tauto|].
  fold (plug ctx (plug1 t f)). rewrite IH. destruct f; cbn; tauto.
Qed.

(** ** Object ids *)

(** How often an id occurs in a tree and around its place. *)
Definition occt (b : Z) t : nat := occ b (entries t).*1.
Definition occ_ctx (b : Z) ctx : nat := occ b (before ctx ++ after ctx).*1.
Definition distinct ctx t : Prop :=
  forall b, (occ_ctx b ctx + occt b t <= if decide (b = 0%Z) then 0 else 1)%nat.

Lemma occt_branch b c l a k v r :
  occt b (Branch c l a k v r) = (occt b l + (if decide (b = a) then 1 else 0) + occt b r)%nat.
Proof. unfold occt. cbn. rewrite fmap_app, occ_app. cbn. lia. Qed.
Lemma occ_in_left b c a k v r ctx :
  occ_ctx b (InLeft c a k v r :: ctx) = ((if decide (b = a) then 1 else 0) + occt b r + occ_ctx b ctx)%nat.
Proof. unfold occ_ctx, occt. cbn. rewrite !fmap_app. cbn. rewrite !fmap_app, !occ_app. cbn. rewrite occ_app. lia. Qed.
Lemma occ_in_right b c l a k v ctx :
  occ_ctx b (InRight c l a k v :: ctx) = ((if decide (b = a) then 1 else 0) + occt b l + occ_ctx b ctx)%nat.
Proof. unfold occ_ctx, occt. cbn. rewrite !fmap_app, !occ_app. cbn. lia. Qed.
Lemma occ_plug b ctx t : (occ_ctx b [] + occt b (plug ctx t))%nat = (occ_ctx b ctx + occt b t)%nat.
Proof. unfold occt, occ_ctx. rewrite entries_plug. cbn. rewrite !fmap_app, !occ_app. lia. Qed.
Lemma occt_leaf b : occt b Leaf = 0%nat.
Proof. done. Qed.
End trees.

#[global] Arguments occt : simpl never.
#[global] Arguments occ_ctx : simpl never.
#[export] Hint Rewrite @occt_branch @occt_leaf @occ_in_left @occ_in_right : occs.

(** Derive a fact on the ids from [distinct], looked at for [b]. *)
Ltac ids Hd b :=
  let H := fresh in
  pose proof (Hd b) as H; autorewrite with occs in H |- *; cbn [addr up] in *;
  repeat (first [rewrite decide_True in H by done | rewrite decide_True by done]);
  repeat match goal with
  | H : context [if decide ?P then _ else _] |- _ => destruct (decide P)
  | |- context [if decide ?P then _ else _] => destruct (decide P)
  end;
  subst; lia || congruence.

Section frames.
Context {K V : Type}.
Implicit Types (t l r : tree K V) (ctx : list (frame K V)) (h : gmap Z (RBTNode K V)).

(** Writes elsewhere. *)
Lemma holds_insert h t p a n : occt a t = 0%nat -> holds h t p -> holds (<[a := n]> h) t p.
Proof.
  revert p. induction t as [|c l IHl b k v r IHr]; intros p Ha; [done|]. rewrite occt_branch in Ha. cbn.
  destruct (decide (a = b)); [lia|]. intros (Hb & Hl & Hr). rewrite lookup_insert_ne by done.
  split; [done|]. split; [apply IHl|apply IHr]; [lia|done|lia|done].
Qed.

Lemma holds_ctx_insert h ctx p a n : occ_ctx a ctx = 0%nat ->
  holds_ctx h ctx p -> holds_ctx (<[a := n]> h) ctx p.
Proof.
  revert p. induction ctx as [|[c b k v r|c l b k v] ctx IH]; intros p Ha; [done|..];
    [rewrite occ_in_left in Ha|rewrite occ_in_right in Ha]; cbn; destruct (decide (a = b)); try lia;
    intros (Hb & Ht & Hc); rewrite lookup_insert_ne by done;
    (split; [done|]; split; [apply holds_insert; [lia|done]|apply IH; [lia|done]]).
Qed.

(** The parent of a subtree's root written. *)
Lemma holds_set_parent h t p q : (forall b, occt b t <= 1)%nat -> holds h t p -> t <> Leaf ->
  exists n, h !! addr t = Some n /\
    holds (<[addr t := Node (key n) (value n) (color n) (left n) (right n) q]> h) t q.
Proof.
  destruct t as [|c l a k v r]; [done|]. intros Hd (Ha & Hl & Hr) _. cbn. eexists. split; [exact Ha|].
  rewrite lookup_insert. pose proof (Hd a) as Hda. rewrite occt_branch, decide_True in Hda by done. cbn.
  rewrite decide_True by done. split; [done|]. split; apply holds_insert; [lia|done|lia|done].
Qed.

(** The child of the node above written. *)
Lemma holds_ctx_child h f ctx p q : (forall b, occ_ctx b (f :: ctx) <= 1)%nat ->
  holds_ctx h (f :: ctx) p -> exists n, h !! up (f :: ctx) = Some n /\
  holds_ctx (<[up (f :: ctx) := match f with
    | InLeft _ _ _ _ _ => Node (key n) (value n) (color n) q (right n) (parent n)
    | InRight _ _ _ _ _ => Node (key n) (value n) (color n) (left n) q (parent n) end]> h) (f :: ctx) q.
Proof.
  destruct f as [c a k v r|c l a k v]; cbn; intros Hd (Ha & Ht & Hc); eexists; (split; [exact Ha|]);
    rewrite lookup_insert, decide_True by done; pose proof (Hd a) as Hda;
    [rewrite occ_in_left in Hda|rewrite occ_in_right in Hda]; rewrite decide_True in Hda by done;
    (split; [done|]; split; [apply holds_insert; [lia|done]|apply holds_ctx_insert; [lia|done]]).
Qed.
End frames.

(** * Rotations *)

Section rotation.
Context {K V : Type}.
Implicit Types (s : map_state K V) (t l r : tree K V) (ctx : list (frame K V)) (h : gmap Z (RBTNode K V)).

(** The state is the tree with [t] at the place [ctx]. *)
Record focus s ctx t : Prop := {
  focus_tree : holds (heap s) t (up ctx);
  focus_ctx : holds_ctx (heap s) ctx (addr t);
  focus_ids : distinct ctx t;
  focus_root : root s = addr (plug ctx t);
}.

Lemma holds_ext h h' t p : (forall a, (0 < occt a t)%nat -> h' !! a = h !! a) ->
  holds h t p -> holds h' t p.
Proof.
  revert p. induction t as [|c l IHl a k v r IHr]; intros p Hx; [done|]. cbn. intros (Ha & Hl & Hr).
  rewrite Hx by ids Hx a. split; [done|].
  split; [apply IHl|apply IHr]; try done; intros b Hb; apply Hx; rewrite occt_branch; lia.
Qed.

Lemma holds_ctx_ext h h' ctx p : (forall a, (0 < occ_ctx a ctx)%nat -> h' !! a = h !! a) ->
  holds_ctx h ctx p -> holds_ctx h' ctx p.
Proof.
  revert p. induction ctx as [|[c a k v r|c l a k v] ctx IH]; intros p Hx; [done|..]; cbn; intros (Ha & Ht & Hc);
    (rewrite Hx by (first [rewrite occ_in_left|rewrite occ_in_right]; rewrite decide_True by done; lia);
     split; [done|]; split; [apply (holds_ext h); [|done]|apply IH; [|done]];
     intros b Hb; apply Hx; first [rewrite occ_in_left|rewrite occ_in_right]; lia).
Qed.

Definition simple (n : nat) (b : Z) : Prop := (n <= if decide (b = 0%Z) then 0 else 1)%nat.

Lemma addr_null t : (forall b, simple (occt b t) b) -> addr t = 0 <-> t = Leaf.
Proof.
  intros Hd. destruct t as [|c l a k v r]; [done|]. cbn. split; [|done]. intros ->.
  pose proof (Hd 0) as H. unfold simple in H. rewrite occt_branch, !decide_True in H by done. lia.
Qed.

Lemma up_null ctx : (forall b, simple (occ_ctx b ctx) b) -> up ctx = 0 <-> ctx = [].
Proof.
  intros Hd. destruct ctx as [|f ctx]; [done|]. split; [|done]. intros Hu. pose proof (Hd 0) as H. unfold simple in H.
  destruct f; cbn in Hu; subst; [rewrite occ_in_left in H|rewrite occ_in_right in H];
    rewrite !decide_True in H by done; lia.
Qed.

Lemma relink s t p q : holds (heap s) t p -> (forall b, simple (occt b t) b) -> exists h',
  (if negb (addr t =? 0) then set_parent s (addr t) q else Ret s) = Ret (MapState h' (mRoot s) (root s)) /\
  holds h' t q /\ forall a, occt a t = 0%nat -> h' !! a = heap s !! a.
Proof.
  intros Ht Hd. destruct (Z.eqb_spec (addr t) 0) as [E|E]; cbn.
  { exists (heap s). apply addr_null in E as ->; [|done]. by destruct s. }
  destruct (holds_set_parent (heap s) t p q) as (n & Hn & Hh); [|done|by intros ->|].
  { intros b. pose proof (Hd b) as H. unfold simple in H. destruct (decide (b = 0)); lia. }
  eexists. unfold set_parent, update, node_at. rewrite Hn. cbn. split; [done|]. split; [exact Hh|].
  intros a Ha. rewrite lookup_insert_ne; [done|]. intros <-. destruct t as [|c l a k v r]; [done|].
  cbn in Ha. rewrite occt_branch, decide_True in Ha by done. lia.
Qed.

Lemma occ_up f ctx : (0 < occ_ctx (up (f :: ctx)) (f :: ctx))%nat.
Proof. destruct f; cbn; [rewrite occ_in_left|rewrite occ_in_right]; rewrite decide_True by done; lia. Qed.

Lemma replace_child s ctx x y : holds_ctx (heap s) ctx x -> (forall b, simple (occ_ctx b ctx) b) ->
  x <> 0 -> occ_ctx x ctx = 0%nat -> exists h',
  (if up ctx =? 0 then Ret (MapState (heap s) y y)
   else n ← node_at s (up ctx);
        if left n =? x then set_left s (up ctx) y else set_right s (up ctx) y) =
    Ret (MapState h' (match ctx with [] => y | _ => mRoot s end) (match ctx with [] => y | _ => root s end)) /\
  holds_ctx h' ctx y /\ forall a, occ_ctx a ctx = 0%nat -> h' !! a = heap s !! a.
Proof.
  intros Hc Hd Hx0 Hx. destruct (Z.eqb_spec (up ctx) 0) as [E|E].
  { apply up_null in E as ->; [|done]. by exists (heap s). }
  destruct ctx as [|f ctx]; [done|]. pose proof (occ_up f ctx) as Hup.
  destruct (holds_ctx_child (heap s) f ctx x y) as (n & Hn & Hh); [|done|].
  { intros b. pose proof (Hd b) as H. unfold simple in H. destruct (decide (b = 0)); lia. }
  assert (forall n' a, occ_ctx a (f :: ctx) = 0%nat -> <[up (f :: ctx) := n']> (heap s) !! a = heap s !! a) as Hoth.
  { intros n' a Ha. rewrite lookup_insert_ne; [done|]. intros <-. lia. }
  unfold node_at, set_left, set_right, update, node_at. rewrite Hn.
  destruct f as [c a k v r|c l a k v]; cbn in Hn, Hc; destruct Hc as (Ha & Ht & Hc); rewrite Ha in Hn; injection Hn as <-; cbn.
  - rewrite Z.eqb_refl. eexists. split; [done|]. split; [exact Hh|]. apply Hoth.
  - destruct (Z.eqb_spec (addr l) x) as [El|_].
    { rewrite occ_in_right in Hx. destruct l as [|c' l a' k' v' r]; [done|]. cbn in El. subst.
      rewrite occt_branch, (decide_True (P := x = x)) in Hx by done. destruct (decide (x = a)); lia. }
    eexists. split; [done|]. split; [exact Hh|]. apply Hoth.
Qed.

Lemma addr_plug ctx t t' : addr t = addr t' -> addr (plug ctx t) = addr (plug ctx t').
Proof.
  revert t t'. induction ctx as [|f ctx IH]; intros t t' Ht; [done|]. cbn.
  apply (IH (plug1 t f) (plug1 t' f)). by destruct f.
Qed.

Lemma addr_plug_cons f ctx t t' : addr (plug (f :: ctx) t) = addr (plug (f :: ctx) t').
Proof. cbn. apply (addr_plug ctx (plug1 t f) (plug1 t' f)). by destruct f. Qed.

Lemma node_at_eq s p n : heap s !! p = Some n -> node_at s p = Ret n.
Proof. unfold node_at. by intros ->. Qed.
Lemma update_eq s p f n : heap s !! p = Some n ->
  update s p f = Ret (MapState (<[p := f n]> (heap s)) (mRoot s) (root s)).
Proof. unfold update. by intros ->%node_at_eq. Qed.

Lemma leftRotate_spec s ctx cx lx x kx vx cy ly y ky vy ry :
  focus s ctx (Branch cx lx x kx vx (Branch cy ly y ky vy ry)) ->
  exists s', leftRotate s x = Ret s' /\
    focus s' ctx (Branch cy (Branch cx lx x kx vx ly) y ky vy ry).
Proof.
  intros [(Hx & Hlx & Hy & Hly & Hry) Hc Hd Hr]. cbn in Hx, Hy, Hc.
  assert (x <> 0 /\ y <> 0 /\ x <> y) as (Hx0 & Hy0 & Hxy) by (split; [|split]; intros E; subst; [ids Hd 0|ids Hd 0|ids Hd y]).
  assert (forall n b, simple (n + (occt b ly + occ_ctx b ctx))%nat b -> simple (occt b ly) b) as Hw.
  { unfold simple. intros; lia. }
  set (s1 := MapState (<[x := Node kx vx cx (addr lx) (addr ly) (up ctx)]> (heap s)) (mRoot s) (root s)).
  destruct (relink s1 ly y x) as (h2 & E2 & Hly2 & Hh2).
  { cbn. apply holds_insert; [ids Hd x|done]. }
  { intros b. unfold simple. ids Hd b. }
  set (s2 := MapState h2 (mRoot s1) (root s1)) in *.
  assert (h2 !! x = Some (Node kx vx cx (addr lx) (addr ly) (up ctx))) as Hx2.
  { rewrite Hh2 by ids Hd x. cbn. by rewrite lookup_insert, decide_True. }
  assert (h2 !! y = Some (Node ky vy cy (addr ly) (addr ry) x)) as Hy2.
  { rewrite Hh2 by ids Hd y. cbn. by rewrite lookup_insert_ne. }
  set (s3 := MapState (<[y := Node ky vy cy (addr ly) (addr ry) (up ctx)]> h2) (mRoot s) (root s)).
  destruct (replace_child s3 ctx x y) as (h4 & E4 & Hc4 & Hh4).
  { cbn. apply (holds_ctx_ext (heap s)); [|done]. intros b Hb.
    rewrite lookup_insert_ne by (intros <-; ids Hd y). rewrite Hh2 by ids Hd b. cbn.
    rewrite lookup_insert_ne; [done|]. intros <-; ids Hd x. }
  { intros b. unfold simple. ids Hd b. }
  { done. }
  { ids Hd x. }
  assert (heap s1 !! y = Some (Node ky vy cy (addr ly) (addr ry) x)) as Hy1.
  { cbn. by rewrite lookup_insert_ne. }
  assert (heap (MapState h4 (match ctx with [] => y | _ => mRoot s3 end) (match ctx with [] => y | _ => root s3 end)) !! y
    = Some (Node ky vy cy (addr ly) (addr ry) (up ctx))) as Hy4.
  { cbn [heap]. rewrite Hh4 by ids Hd y. cbn. by rewrite lookup_insert, decide_True. }
  assert (forall n m ro, heap (MapState (<[y := n]> h4) m ro) !! x = Some (Node kx vx cx (addr lx) (addr ly) (up ctx))) as Hx5.
  { intros n m ro. cbn. rewrite lookup_insert_ne by done. rewrite Hh4 by ids Hd x. cbn. by rewrite lookup_insert_ne. }
  eexists. split.
  { unfold leftRotate. rewrite (node_at_eq s x _ Hx). cbn [mbind outcome_bind right].
    rewrite (node_at_eq s y _ Hy). cbn [mbind outcome_bind left].
    assert (set_right s x (addr ly) = Ret s1) as -> by exact (update_eq s x _ _ Hx). cbn [mbind outcome_bind].
    rewrite (node_at_eq s1 y _ Hy1). cbn [mbind outcome_bind left]. rewrite E2. cbn [mbind outcome_bind].
    rewrite (node_at_eq s2 x _ Hx2). cbn [mbind outcome_bind parent].
    assert (set_parent s2 y (up ctx) = Ret s3) as -> by exact (update_eq s2 y _ _ Hy2). cbn [mbind outcome_bind].
    rewrite E4. cbn [mbind outcome_bind].
    unfold set_left. rewrite (update_eq _ y _ _ Hy4). cbn [mbind outcome_bind key value color left right parent heap mRoot root].
    unfold set_parent. rewrite (update_eq _ x _ _ (Hx5 _ _ _)). reflexivity. }
  assert (forall b, occ_ctx b ctx = 0%nat -> b <> x -> b <> y -> occt b ly = 0%nat -> h4 !! b = heap s !! b) as Hrest.
  { intros b H1 H2 H3 H4. rewrite Hh4 by done. cbn. rewrite lookup_insert_ne by done. rewrite Hh2 by done. cbn.
    by rewrite lookup_insert_ne. }
  split; cbn [heap root].
  - cbn. rewrite lookup_insert_ne by done. rewrite lookup_insert, decide_True by done.
    rewrite lookup_insert, decide_True by done. split; [done|].
    assert (forall t p, occt x t = 0%nat -> occt y t = 0%nat -> holds h4 t p ->
      holds (<[x:=Node kx vx cx (addr lx) (addr ly) y]> (<[y:=Node ky vy cy x (addr ry) (up ctx)]> h4)) t p) as Hfr.
    { intros t p Htx Hty Ht. by apply holds_insert, holds_insert. }
    split; [split; [done|split]|]; (apply Hfr; [ids Hd x|ids Hd y|]).
    + apply (holds_ext (heap s)); [|done]. intros b Hb. apply Hrest; try (intros ->); [ids Hd b|ids Hd x|ids Hd y|ids Hd b].
    + apply (holds_ext h2); [|done]. intros b Hb. rewrite Hh4 by ids Hd b. cbn. rewrite lookup_insert_ne; [done|].
      intros <-. ids Hd y.
    + apply (holds_ext (heap s)); [|done]. intros b Hb. apply Hrest; try (intros ->); [ids Hd b|ids Hd x|ids Hd y|ids Hd b].
  - apply holds_ctx_insert; [ids Hd x|]. apply holds_ctx_insert; [ids Hd y|]. done.
  - intros b. ids Hd b.
  - destruct ctx as [|f ctx]; [done|]. exact (eq_trans Hr (addr_plug_cons f ctx _ _)).
Qed.
End rotation.

(** * Left and right *)

(** The operations come in pairs that differ by left and right; the second ones run
    like the first on the mirrored state. *)
Section mirror.
Context {K V : Type}.
Implicit Types (s : map_state K V) (t l r : tree K V) (ctx : list (frame K V)) (h : gmap Z (RBTNode K V)).

Definition flip_node (n : RBTNode K V) : RBTNode K V :=
  Node (key n) (value n) (color n) (right n) (left n) (parent n).
Definition flip s : map_state K V := MapState (flip_node <$> heap s) (mRoot s) (root s).
Fixpoint mirror t : tree K V :=
  match t with Leaf => Leaf | Branch c l a k v r => Branch c (mirror r) a k v (mirror l) end.
Definition mirror1 (f : frame K V) : frame K V :=
  match f with InLeft c a k v r => InRight c (mirror r) a k v | InRight c l a k v => InLeft c a k v (mirror l) end.

Lemma flip_flip s : flip (flip s) = s.
Proof.
  destruct s as [h m ro]. unfold flip. cbn. f_equal. rewrite <- map_fmap_compose.
  rewrite <- (map_fmap_id h) at 2. apply map_fmap_ext. by intros i [] _.
Qed.
Lemma mirror_mirror t : mirror (mirror t) = t.
Proof. induction t; cbn; congruence. Qed.
Lemma addr_mirror t : addr (mirror t) = addr t.
Proof. by destruct t. Qed.
Lemma mirror_ctx ctx : mirror1 <$> (mirror1 <$> ctx) = ctx.
Proof.
  rewrite <- list_fmap_compose. rewrite <- (list_fmap_id ctx) at 2. apply list_fmap_ext.
  intros i [] _; cbn; by rewrite mirror_mirror.
Qed.
Lemma up_mirror ctx : up (mirror1 <$> ctx) = up ctx.
Proof. by destruct ctx as [|[] ctx]. Qed.
Lemma occt_mirror b t : occt b (mirror t) = occt b t.
Proof. induction t; cbn; [done|]. rewrite !occt_branch. lia. Qed.
Lemma occ_ctx_mirror b ctx : occ_ctx b (mirror1 <$> ctx) = occ_ctx b ctx.
Proof.
  induction ctx as [|[] ctx IH]; cbn; [done|..];
    rewrite occ_in_left, occ_in_right, occt_mirror; lia.
Qed.
Lemma entries_mirror t : entries (mirror t) = reverse (entries t).
Proof.
  induction t as [|c l IHl a k v r IHr]; cbn [mirror entries]; [done|].
  by rewrite reverse_app, reverse_cons, IHl, IHr, <- app_assoc.
Qed.
Lemma plug_mirror ctx t : mirror (plug ctx t) = plug (mirror1 <$> ctx) (mirror t).
Proof. revert t. induction ctx as [|f ctx IH]; intros t; cbn; [done|]. unfold plug in IH. rewrite IH. by destruct f. Qed.

Lemma holds_mirror h t p : holds h t p -> holds (flip_node <$> h) (mirror t) p.
Proof.
  revert p. induction t as [|c l IHl a k v r IHr]; intros p; cbn; [done|]. intros (Ha & Hl & Hr).
  rewrite lookup_fmap, Ha, !addr_mirror. cbn. auto.
Qed.
Lemma holds_ctx_mirror h ctx p : holds_ctx h ctx p -> holds_ctx (flip_node <$> h) (mirror1 <$> ctx) p.
Proof.
  revert p. induction ctx as [|[c a k v r|c l a k v] ctx IH]; intros p; cbn; [done|..]; intros (Ha & Ht & Hc);
    rewrite lookup_fmap, Ha, addr_mirror, up_mirror; cbn; auto using holds_mirror.
Qed.
Lemma focus_mirror s ctx t : focus s ctx t -> focus (flip s) (mirror1 <$> ctx) (mirror t).
Proof.
  intros [Ht Hc Hd Hr]. split; cbn.
  - rewrite up_mirror. by apply holds_mirror.
  - rewrite addr_mirror. by apply holds_ctx_mirror.
  - intros b. rewrite occ_ctx_mirror, occt_mirror. apply Hd.
  - by rewrite <- plug_mirror, addr_mirror.
Qed.
Lemma focus_flip s ctx t : focus (flip s) (mirror1 <$> ctx) (mirror t) -> focus s ctx t.
Proof. intros H%focus_mirror. by rewrite flip_flip, mirror_ctx, mirror_mirror in H. Qed.

(** ** The operations *)

Lemma node_at_flip s p : node_at (flip s) p = flip_node <$> node_at s p.
Proof. unfold node_at. cbn. rewrite lookup_fmap. by destruct (heap s !! p). Qed.

Lemma update_flip s p f g : (forall n, flip_node (f n) = g (flip_node n)) ->
  update (flip s) p g = flip <$> update s p f.
Proof.
  intros Hfg. unfold update. rewrite node_at_flip. destruct (node_at s p) as [n| |]; [|done..]. cbn.
  by rewrite <- Hfg, <- fmap_insert.
Qed.
Lemma set_left_flip s p x : set_left (flip s) p x = flip <$> set_right s p x.
Proof. by apply update_flip. Qed.
Lemma set_right_flip s p x : set_right (flip s) p x = flip <$> set_left s p x.
Proof. by apply update_flip. Qed.
Lemma set_parent_flip s p x : set_parent (flip s) p x = flip <$> set_parent s p x.
Proof. by apply update_flip. Qed.
Lemma set_color_flip s p c : set_color (flip s) p c = flip <$> set_color s p c.
Proof. by apply update_flip. Qed.
Lemma is_red_flip s p : is_red (flip s) p = is_red s p.
Proof. unfold is_red. destruct (p =? 0); [done|]. rewrite node_at_flip. by destruct (node_at s p). Qed.
Lemma state_flip s y z : MapState (heap (flip s)) y z = flip (MapState (heap s) y z).
Proof. done. Qed.
Lemma fmap_flip (m : outcome (map_state K V)) : flip <$> (flip <$> m) = m.
Proof. destruct m; cbn; [by rewrite flip_flip|done..]. Qed.

Lemma fmap_bind {A B C} (m : outcome A) (f : A -> B) (g : B -> outcome C) : (f <$> m) ≫= g = m ≫= (fun x => g (f x)).
Proof. by destruct m. Qed.
Lemma bind_fmap {A B C} (m : outcome A) (f : A -> outcome B) (g : B -> C) : g <$> (m ≫= f) = m ≫= (fun x => g <$> f x).
Proof. by destruct m. Qed.
Lemma bind_ext {A B} (m : outcome A) (f g : A -> outcome B) : (forall x, f x = g x) -> m ≫= f = m ≫= g.
Proof. intros H. destruct m; [apply H|done..]. Qed.
Lemma bind_bind {A B C} (m : outcome A) (f : A -> outcome B) (g : B -> outcome C) :
  (m ≫= f) ≫= g = m ≫= (fun x => f x ≫= g).
Proof. by destruct m. Qed.
Lemma fmap_if {A B} (f : A -> B) (b : bool) (m n : outcome A) :
  f <$> (if b then m else n) = if b then f <$> m else f <$> n.
Proof. by destruct b. Qed.
End mirror.

#[export] Hint Rewrite @node_at_flip @set_left_flip @set_right_flip @set_parent_flip @set_color_flip
  @is_red_flip @state_flip @fmap_flip @fmap_bind @bind_fmap : flips.

(** Go through two runs that mirror each other, a step of both at a time. *)
Ltac mirrored :=
  autorewrite with flips; cbn [flip_node left right parent color key value fst snd];
  lazymatch goal with
  | |- (if ?b then _ else _) ≫= _ = _ => destruct b; mirrored
  | |- Ret _ ≫= _ = _ => cbn [mbind outcome_bind]; mirrored
  | |- (_ ≫= _) ≫= _ = _ => rewrite !bind_bind; mirrored
  | |- _ ≫= _ = _ ≫= _ => first [apply bind_ext; intros; mirrored | idtac]
  | |- (if ?b then _ else _) = _ => destruct b; mirrored
  | |- _ => cbn; try reflexivity
  end.

#[local] Arguments path_fuel : simpl never.

Section mirrored_ops.
Context {K V : Type} `{KeyOps K}.
Implicit Types (s : map_state K V).

Lemma rightRotate_flip s y : rightRotate s y = flip <$> leftRotate (flip s) y.
Proof. unfold leftRotate, rightRotate. mirrored. Qed.

Lemma leftRotate_flip s x : leftRotate (flip s) x = flip <$> rightRotate s x.
Proof. by rewrite rightRotate_flip, fmap_flip. Qed.

Lemma rightRotate_flip' s y : rightRotate (flip s) y = flip <$> leftRotate s y.
Proof. by rewrite rightRotate_flip, flip_flip. Qed.
#[local] Hint Rewrite leftRotate_flip rightRotate_flip' @flip_flip : flips.

Lemma fix_right_flip s node parent gparent :
  fix_right s node parent gparent = prod_map flip id <$> fix_left (flip s) node parent gparent.
Proof.
  unfold fix_left, fix_right. mirrored; by rewrite flip_flip.
Qed.

Lemma path_fuel_flip s : path_fuel (flip s) = path_fuel s.
Proof. unfold path_fuel, flip. cbn [heap]. by rewrite map_size_fmap. Qed.
Lemma rightmost_flip fuel s x : rightmost fuel s x = leftmost fuel (flip s) x.
Proof.
  revert x. induction fuel as [|fuel IH]; intros x; cbn; [done|]. mirrored; apply IH.
Qed.
Lemma maximum_of_flip s x : maximum_of s x = minimum_of (flip s) x.
Proof. unfold maximum_of, minimum_of. by rewrite path_fuel_flip, rightmost_flip. Qed.
Lemma climb_left_flip fuel s x y : climb_left fuel s x y = climb_right fuel (flip s) x y.
Proof.
  revert x y. induction fuel as [|fuel IH]; intros x y; cbn; [done|]. mirrored; apply IH.
Qed.
Lemma predecessor_flip s x : predecessor s x = successor (flip s) x.
Proof.
  unfold predecessor, successor. mirrored; [apply maximum_of_flip|]. by rewrite path_fuel_flip, climb_left_flip.
Qed.
End mirrored_ops.
