(* ===== verification/DMapFacts.v ===== *)
(** The correctness of the red-black tree of DMap.v: its invariant (the order of the
    keys, the colours), insertion, the searches, walking in order, destruction. *)
From stdpp Require Import sorting.
From S2P Require Import Prelude DMap DMapTree.

#[local] Arguments path_fuel : simpl never.

(** * Restoring the colours *)

Section colours.
Context {K V : Type}.
Implicit Types (s : map_state K V) (t l r u : tree K V) (f : frame K V) (ctx : list (frame K V)).

Definition redb t : bool := match t with Branch RED _ _ _ _ _ => true | _ => false end.
Definition fcolor f : RBTColor := match f with InLeft c _ _ _ _ => c | InRight c _ _ _ _ => c end.
Definition sibling f : tree K V := match f with InLeft _ _ _ _ r => r | InRight _ l _ _ _ => l end.
Definition top_black ctx : Prop := match ctx with f :: _ => fcolor f = BLACK | [] => False end.

(** No red node has a red child, and every path down has [n] black nodes. *)
Fixpoint rb t (n : nat) : Prop :=
  match t with
  | Leaf => n = O
  | Branch RED l _ _ _ r => redb l = false /\ redb r = false /\ rb l n /\ rb r n
  | Branch BLACK l _ _ _ r => match n with O => False | Datatypes.S n => rb l n /\ rb r n end
  end.

(** The same around a place for a tree with [n] black nodes on every path, which may
    be red. *)
Fixpoint rb_ctx ctx (n : nat) : Prop :=
  match ctx with
  | [] => True
  | f :: ctx => rb (sibling f) n /\
      match fcolor f with
      | BLACK => rb_ctx ctx (Datatypes.S n)
      | RED => redb (sibling f) = false /\ top_black ctx /\ rb_ctx ctx n
      end
  end.

Lemma redb_mirror t : redb (mirror t) = redb t.
Proof. by destruct t as [|[]]. Qed.
Lemma rb_mirror t n : rb t n -> rb (mirror t) n.
Proof.
  revert n. induction t as [|[] l IHl a k v r IHr]; intros n; cbn; [done|..].
  - rewrite !redb_mirror. intuition auto.
  - destruct n; [done|]. intuition auto.
Qed.
Lemma rb_ctx_mirror ctx n : rb_ctx ctx n -> rb_ctx (mirror1 <$> ctx) n.
Proof.
  revert n. induction ctx as [|f ctx IH]; intros n; cbn; [done|]. intros [Hs Hc].
  assert (sibling (mirror1 f) = mirror (sibling f) /\ fcolor (mirror1 f) = fcolor f) as [-> ->] by by destruct f.
  split; [by apply rb_mirror|]. destruct (fcolor f); [|auto]. rewrite redb_mirror.
  destruct Hc as (H1 & H2 & H3). split; [done|]. split; [|auto]. by destruct ctx as [|[] ctx].
Qed.

(** A tree put where it fits. *)
Lemma rb_plug ctx n t : rb_ctx ctx n -> rb t n -> redb t = false \/ top_black ctx ->
  (exists m, rb (plug ctx t) m) /\ (ctx <> [] -> redb (plug ctx t) = false).
Proof.
  revert n t. induction ctx as [|f ctx IH]; intros n t; cbn; [intros _ Ht _; split; [by eauto|done]|].
  intros [Hs Hc] Ht Hor.
  enough (exists n', rb_ctx ctx n' /\ rb (plug1 t f) n' /\ (redb (plug1 t f) = false \/ top_black ctx)) as (n' & H1 & H2 & H3).
  { destruct (IH n' _ H1 H2 H3) as [Hm Hr]. split; [done|]. intros _. destruct ctx as [|g ctx]; [|by apply Hr].
    destruct H3 as [H3|[]]. exact H3. }
  destruct f as [[] a k v r|[] l a k v]; cbn in *.
  - destruct Hor as [Hor|?]; [|done]. destruct Hc as (H1 & H2 & H3). by exists n; auto 6.
  - exists (Datatypes.S n). by auto.
  - destruct Hor as [Hor|?]; [|done]. destruct Hc as (H1 & H2 & H3). by exists n; auto 6.
  - exists (Datatypes.S n). by auto.
Qed.

(** ** Moving around *)

Lemma focus_plug s ctx t : focus s ctx t <-> focus s [] (plug ctx t).
Proof.
  split; intros [Ht Hc Hd Hr].
  - split; [|done| |done].
    + apply holds_plug. auto.
    + intros b. rewrite occ_plug. apply Hd.
  - apply holds_plug in Ht as [Ht Hc']. split; [done..| |done]. intros b. rewrite <- occ_plug. apply Hd.
Qed.

Lemma refocus s ctx t ctx' t' : focus s ctx t -> plug ctx t = plug ctx' t' -> focus s ctx' t'.
Proof. rewrite focus_plug, (focus_plug s ctx'). by intros ? <-. Qed.

Lemma focus_simple s ctx t b : focus s ctx t -> simple (occt b t) b.
Proof. intros [_ _ Hd _]. unfold simple. pose proof (Hd b). lia. Qed.

Lemma is_red_spec s ctx t : focus s ctx t -> is_red s (addr t) = Ret (redb t).
Proof.
  intros Hf. pose proof (fun b => focus_simple s ctx t b Hf) as Hd. unfold is_red.
  destruct (Z.eqb_spec (addr t) 0) as [E|E]; [by apply addr_null in E as ->|].
  destruct t as [|c l a k v r]; [done|]. destruct Hf as [(Ha & _) _ _ _]. cbn.
  rewrite (node_at_eq s a _ Ha). cbn. by destruct c.
Qed.

Lemma set_color_spec s ctx c c' l a k v r : focus s ctx (Branch c l a k v r) -> exists s',
  set_color s a c' = Ret s' /\ focus s' ctx (Branch c' l a k v r).
Proof.
  intros [(Ha & Hl & Hr) Hc Hd Hroot]. unfold set_color. rewrite (update_eq s a _ _ Ha). cbn.
  eexists. split; [done|]. split; cbn.
  - rewrite lookup_insert, decide_True by done. split; [done|].
    split; (apply holds_insert; [ids Hd a|done]).
  - apply holds_ctx_insert; [ids Hd a|done].
  - intros b. ids Hd b.
  - rewrite Hroot. by apply addr_plug.
Qed.

Lemma rightRotate_spec s ctx cy cx lx x kx vx rx y ky vy ry :
  focus s ctx (Branch cy (Branch cx lx x kx vx rx) y ky vy ry) ->
  exists s', rightRotate s y = Ret s' /\
    focus s' ctx (Branch cx lx x kx vx (Branch cy rx y ky vy ry)).
Proof.
  intros Hf%focus_mirror. rewrite rightRotate_flip. cbn in Hf.
  apply leftRotate_spec in Hf as (s' & -> & Hf). eexists. split; [done|]. apply focus_flip.
  by rewrite flip_flip.
Qed.

(** A step of the loop: the same nodes in the same order, a red node nearer the root. *)
Definition nearer ctx t (r : outcome (map_state K V * Z)) : Prop :=
  exists s' ctx' t', r = Ret (s', addr t') /\ focus s' ctx' t' /\
    entries (plug ctx' t') = entries (plug ctx t) /\ redb t' = true /\
    (exists n, rb t' n /\ rb_ctx ctx' n) /\ (length ctx' < length ctx)%nat.

(** The last case: the parent moves up. *)
Lemma fix_left_last s ctx t n p kp vp rp g kg vg u : redb t = true -> rb t n -> rb rp n -> redb rp = false ->
  rb u n -> redb u = false -> rb_ctx ctx (Datatypes.S n) ->
  focus s (InLeft RED p kp vp rp :: InLeft BLACK g kg vg u :: ctx) t ->
  nearer (InLeft RED p kp vp rp :: InLeft BLACK g kg vg u :: ctx) t
    (s ← set_color s p BLACK; s ← set_color s g RED; s ← rightRotate s g; Ret (s, addr t)).
Proof.
  intros Hred Ht Hrp Hbp Hu Hbu Hc Hf.
  apply (refocus _ _ _ (InLeft BLACK g kg vg u :: ctx) (Branch RED t p kp vp rp)) in Hf; [|done].
  apply (set_color_spec _ _ _ BLACK) in Hf as (s1 & -> & Hf). cbn [mbind outcome_bind].
  apply (refocus _ _ _ ctx (Branch BLACK (Branch BLACK t p kp vp rp) g kg vg u)) in Hf; [|done].
  apply (set_color_spec _ _ _ RED) in Hf as (s2 & -> & Hf). cbn [mbind outcome_bind]. apply rightRotate_spec in Hf as (s3 & -> & Hf). cbn [mbind outcome_bind].
  exists s3, (InLeft BLACK p kp vp (Branch RED rp g kg vg u) :: ctx), t. split; [done|].
  split; [by eapply refocus|]. split; [|split; [done|split; [exists n; cbn; auto 7|cbn; lia]]].
  rewrite !entries_plug. cbn. by rewrite <- !app_assoc.
Qed.
End colours.

Section fixup.
Context {K V : Type} `{KeyOps K}.
Implicit Types (s : map_state K V) (t l r u : tree K V) (f : frame K V) (ctx : list (frame K V)).

Definition place f : Z := match f with InLeft _ a _ _ _ => a | InRight _ _ a _ _ => a end.

(** A red uncle gives its colour up. *)
Lemma fix_left_recolour s ctx t n f g kg vg l a k v r : fcolor f = RED -> redb t = true -> rb t n ->
  let u := Branch RED l a k v r in
  let gctx := f :: InLeft BLACK g kg vg u :: ctx in
  rb_ctx gctx n -> focus s gctx t ->
  nearer gctx t (s ← set_color s a BLACK; s ← set_color s (place f) BLACK; s ← set_color s g RED; Ret (s, g)).
Proof.
  intros Hf Hred Ht u gctx Hc Hfoc. unfold gctx in Hc. cbn in Hc.
  assert (exists pl pr, plug1 t f = Branch RED pl (place f) (match f with InLeft _ _ k _ _ => k | InRight _ _ _ k _ => k end)
    (match f with InLeft _ _ _ v _ => v | InRight _ _ _ _ v => v end) pr /\
    rb (Branch BLACK pl (place f) (match f with InLeft _ _ k _ _ => k | InRight _ _ _ k _ => k end)
    (match f with InLeft _ _ _ v _ => v | InRight _ _ _ _ v => v end) pr) (Datatypes.S n)) as (pl & pr & Ep & Hp).
  { destruct f as [[] ? ? ? ?|[] ? ? ? ?]; try done; cbn in *; eexists _, _; (split; [done|]); tauto. }
  set (kp := match f with InLeft _ _ k _ _ => k | InRight _ _ _ k _ => k end) in *.
  set (vp := match f with InLeft _ _ _ v _ => v | InRight _ _ _ _ v => v end) in *.
  apply (refocus _ _ _ (InRight BLACK (plug1 t f) g kg vg :: ctx) u) in Hfoc; [|done].
  apply (set_color_spec _ _ _ BLACK) in Hfoc as (s1 & -> & Hfoc). cbn [mbind outcome_bind].
  rewrite Ep in Hfoc. apply (refocus _ _ _ (InLeft BLACK g kg vg (Branch BLACK l a k v r) :: ctx)
    (Branch RED pl (place f) kp vp pr)) in Hfoc; [|done].
  apply (set_color_spec _ _ _ BLACK) in Hfoc as (s2 & -> & Hfoc). cbn [mbind outcome_bind].
  apply (refocus _ _ _ ctx (Branch BLACK (Branch BLACK pl (place f) kp vp pr) g kg vg (Branch BLACK l a k v r))) in Hfoc; [|done].
  apply (set_color_spec _ _ _ RED) in Hfoc as (s3 & -> & Hfoc). cbn [mbind outcome_bind].
  exists s3, ctx, (Branch RED (Branch BLACK pl (place f) kp vp pr) g kg vg (Branch BLACK l a k v r)).
  split; [done|]. split; [done|]. split.
  { change (plug gctx t) with (plug ctx (plug1 (plug1 t f) (InLeft BLACK g kg vg u))). rewrite Ep.
    rewrite !entries_plug. done. }
  split; [done|]. split; [|cbn; lia]. exists (Datatypes.S n). destruct f as [[] ? ? ? ?|[] ? ? ? ?]; try done; cbn in *; tauto.
Qed.

Lemma fix_left_spec s ctx t n f g kg vg u : fcolor f = RED -> redb t = true -> rb t n ->
  rb_ctx (f :: InLeft BLACK g kg vg u :: ctx) n ->
  focus s (f :: InLeft BLACK g kg vg u :: ctx) t ->
  nearer (f :: InLeft BLACK g kg vg u :: ctx) t (fix_left s (addr t) (place f) g).
Proof.
  intros Hf Hred Ht Hc Hfoc. pose proof Hfoc as [Htr Hfc Hd _].
  assert (exists pl pr cp kp vp, heap s !! g = Some (Node kg vg BLACK (place f) (addr u) (up ctx)) /\
    heap s !! place f = Some (Node kp vp cp pl pr g)) as (pl & pr & cp & kp & vp & Hg & Hp).
  { destruct f; cbn in Hfc; destruct Hfc as (Hp & _ & Hg & _); do 5 eexists; (split; [exact Hg|exact Hp]). }
  unfold fix_left. rewrite (node_at_eq s g _ Hg). cbn [mbind outcome_bind right].
  assert (is_red s (addr u) = Ret (redb u)) as ->.
  { apply (is_red_spec s (InRight BLACK (plug1 t f) g kg vg :: ctx)). by eapply refocus. }
  cbn [mbind outcome_bind]. destruct (redb u) eqn:Hu.
  { destruct u as [|[] l a k v r]; [done| |done]. by apply (fix_left_recolour s ctx t n f g kg vg l a k v r). }
  rewrite (node_at_eq s _ _ Hp). cbn [mbind outcome_bind right].
  cbn in Hc. rewrite Hf in Hc. destruct Hc as (Hs & Hbs & _ & Hru & Hc).
  destruct f as [c p k v rp|c lp p k v]; cbn in Hf, Hfc, Hp; subst c;
    destruct Hfc as (Hp' & _); rewrite Hp in Hp'; injection Hp' as -> -> -> -> ->.
  - destruct (Z.eqb_spec (addr rp) (addr t)) as [E|_].
    { destruct t as [|c l a k' v' r]; [done|]. cbn in E. destruct rp as [|c' l' a' k'' v'' r']; cbn in E; subst; ids Hd 0 || ids Hd a. }
    cbn [mbind outcome_bind]. by apply (fix_left_last s ctx t n).
  - rewrite Z.eqb_refl. destruct t as [|[] lz z kz vz rz]; [done| |done].
    apply (refocus _ _ _ (InLeft BLACK g kg vg u :: ctx) (Branch RED lp p k v (Branch RED lz z kz vz rz))) in Hfoc; [|done].
    destruct (leftRotate_spec _ _ _ _ _ _ _ _ _ _ _ _ _ Hfoc) as (s1 & E & Hfoc1). cbn [place addr]. rewrite E.
    cbn [mbind outcome_bind]. cbn in Ht, Hs, Hbs. destruct Ht as (Hlz & Hrz & Hblz & Hbrz).
    destruct (fix_left_last s1 ctx (Branch RED lp p k v lz) n z kz vz rz g kg vg u)
      as (s' & ctx' & t' & Er & Hf' & He & Hr' & Hn' & Hlen); try done.
    { by eapply refocus. }
    exists s', ctx', t'. split; [exact Er|]. split; [done|]. split; [|done]. rewrite He, !entries_plug. cbn.
    by rewrite <- ?app_assoc; cbn; rewrite <- ?app_assoc.
Qed.

Lemma nearer_mirror ctx t res : nearer (mirror1 <$> ctx) (mirror t) res -> nearer ctx t (prod_map flip id <$> res).
Proof.
  intros (s' & ctx' & t' & -> & Hf & He & Hr & (n & Ht & Hc) & Hl).
  exists (flip s'), (mirror1 <$> ctx'), (mirror t'). rewrite addr_mirror. split; [done|].
  split; [by apply focus_mirror|]. rewrite <- !plug_mirror, !entries_mirror in *.
  split; [by rewrite He, reverse_involutive|]. rewrite redb_mirror. split; [done|].
  split; [exists n; auto using rb_mirror, rb_ctx_mirror|]. by rewrite !length_fmap in *.
Qed.

Lemma fix_right_spec s ctx t n f g kg vg u : fcolor f = RED -> redb t = true -> rb t n ->
  rb_ctx (f :: InRight BLACK u g kg vg :: ctx) n ->
  focus s (f :: InRight BLACK u g kg vg :: ctx) t ->
  nearer (f :: InRight BLACK u g kg vg :: ctx) t (fix_right s (addr t) (place f) g).
Proof.
  intros Hf Hred Ht Hc%rb_ctx_mirror Hfoc%focus_mirror. rewrite fix_right_flip. apply nearer_mirror.
  rewrite <- (addr_mirror t). cbn in *. assert (place f = place (mirror1 f)) as -> by by destruct f.
  apply (fix_left_spec _ _ _ n); [by destruct f|by rewrite redb_mirror|by apply rb_mirror|exact Hc|exact Hfoc].
Qed.

Definition blacken t : tree K V :=
  match t with Leaf => Leaf | Branch _ l a k v r => Branch BLACK l a k v r end.

Lemma rb_blacken t n : rb t n -> exists m, rb (blacken t) m.
Proof. destruct t as [|[] l a k v r]; cbn; [by eauto| |by eauto]. intros (_ & _ & ? & ?). by exists (Datatypes.S n). Qed.

(** The loop ends, with every colour right but maybe the root's. *)
Lemma fix_loop_spec fuel s ctx t n : redb t = true -> rb t n -> rb_ctx ctx n -> focus s ctx t ->
  (length ctx < fuel)%nat -> exists s' t', fix_loop fuel s (addr t) = Ret s' /\ focus s' [] t' /\
    entries t' = entries (plug ctx t) /\ t' <> Leaf /\ exists m, rb (blacken t') m.
Proof.
  revert s ctx t n. induction fuel as [|fuel IH]; intros s ctx t n Hred Ht Hc Hfoc Hl; [lia|].
  assert (exists n, node_at s (addr t) = Ret n /\ parent n = up ctx) as (nt & Hnt & Hup).
  { destruct t as [|c l z k v r]; [done|]. destruct Hfoc as [(Hz & _) _ _ _]. cbn [addr].
    rewrite (node_at_eq s z _ Hz). eauto. }
  cbn [fix_loop]. rewrite Hnt. cbn [mbind outcome_bind]. rewrite Hup.
  destruct ctx as [|f ctx].
  { cbn. exists s, t. split; [done|]. split; [done|]. split; [done|]. split; [by intros ->|]. by apply (rb_blacken t n). }
  assert (is_red s (up (f :: ctx)) = Ret (bool_decide (fcolor f = RED)) /\ up (f :: ctx) = place f) as [-> ->].
  { apply (refocus _ _ _ ctx (plug1 t f)) in Hfoc; [|done]. apply is_red_spec in Hfoc.
    split; [|by destruct f]. by destruct f as [[] ? ? ? ?|[] ? ? ? ?]. }
  cbn [mbind outcome_bind]. destruct (fcolor f) eqn:Hf.
  2: { rewrite bool_decide_false by done. exists s, (plug (f :: ctx) t). split; [done|]. split; [exact (proj1 (focus_plug _ _ _) Hfoc)|].
    split; [done|]. destruct (rb_plug _ n t Hc Ht) as [[m Hm] _]; [by right|]. split; [|exact (rb_blacken _ m Hm)].
    intros E%(f_equal (fun t => length (entries t))). rewrite entries_plug, !length_app in E.
    destruct t; [done|]. cbn in E. rewrite length_app in E. cbn in E. lia. }
  rewrite bool_decide_true by done.
  assert (exists g ctx', ctx = g :: ctx' /\ fcolor g = BLACK) as (g & ctx' & -> & Hg).
  { cbn in Hc. rewrite Hf in Hc. destruct Hc as (_ & _ & Htop & _). destruct ctx as [|g ctx]; [done|eauto]. }
  assert (exists np, node_at s (place f) = Ret np /\ parent np = place g) as (np & -> & Hnp).
  { destruct Hfoc as [_ Hfc _ _]. destruct f, g; destruct Hfc as (Hp & _); cbn; rewrite (node_at_eq _ _ _ Hp); eauto. }
  assert (exists ng, node_at s (place g) = Ret ng /\
    (place f =? left ng) = match g with InLeft _ _ _ _ _ => true | _ => false end) as (ng & Hng & Hside).
  { pose proof Hfoc as [_ Hfc Hd _]. assert (heap s !! place g = Some (match g with
      | InLeft c a k v r => Node k v c (place f) (addr r) (up ctx')
      | InRight c l a k v => Node k v c (addr l) (place f) (up ctx') end)) as E.
    { destruct f, g; destruct Hfc as (_ & _ & Hq & _); exact Hq. }
    rewrite (node_at_eq _ _ _ E). eexists. split; [done|]. destruct g as [c a k v r|c [|c' l' a' k' v' r'] a k v]; cbn.
    - by rewrite Z.eqb_refl.
    - apply Z.eqb_neq. intros E0. destruct f; cbn in E0; subst; ids Hd 0.
    - apply Z.eqb_neq. intros E0. destruct f; cbn in E0; subst; ids Hd a'. }
  cbn [mbind outcome_bind]. rewrite Hnp, Hng. cbn [mbind outcome_bind]. rewrite Hside.
  assert (nearer (f :: g :: ctx') t (if match g with InLeft _ _ _ _ _ => true | _ => false end
    then fix_left s (addr t) (place f) (place g) else fix_right s (addr t) (place f) (place g))) as Hnear.
  { destruct g as [c a k v r|c l a k v]; cbn in Hg; subst c;
      [by apply (fix_left_spec s ctx' t n)|by apply (fix_right_spec s ctx' t n)]. }
  destruct Hnear as (s' & ctx'' & t' & -> & Hfoc' & He & Hred' & (n' & Ht' & Hc') & Hl'). cbn [mbind outcome_bind].
  destruct (IH s' ctx'' t' n') as (s2 & t2 & E2 & Hf2 & He2 & Hrest); [done..|lia|].
  exists s2, t2. split; [done|]. split; [done|]. split; [by rewrite He2|done].
Qed.
End fixup.

(** * Sizes *)

Section sizes.
Context {K V : Type}.
Implicit Types (s : map_state K V) (t l r : tree K V) (ctx : list (frame K V)) (h : gmap Z (RBTNode K V)).

Lemma holds_dom h t p a : holds h t p -> (0 < occt a t)%nat -> is_Some (h !! a).
Proof.
  revert p. induction t as [|c l IHl b k v r IHr]; intros p; cbn; [rewrite occt_leaf; lia|].
  intros (Hb & Hl & Hr) Ho. rewrite occt_branch in Ho. destruct (decide (a = b)) as [->|]; [eauto|].
  destruct (decide (0 < occt a l)%nat); [by eapply IHl|]. eapply IHr; [done|lia].
Qed.

Lemma occ_NoDup (l : list Z) : (forall b, occ b l <= 1)%nat -> NoDup l.
Proof.
  induction l as [|a l IH]; intros Hl; constructor.
  - rewrite occ_pos. specialize (Hl a). cbn in Hl. rewrite decide_True in Hl by done. lia.
  - apply IH. intros b. specialize (Hl b). cbn in Hl. lia.
Qed.

Lemma nodes_le s ctx t : focus s ctx t -> (length (entries (plug ctx t)) <= size (heap s))%nat.
Proof.
  intros Hf%focus_plug. destruct Hf as [Ht _ Hd _]. set (u := plug ctx t) in *.
  rewrite <- size_dom, <- (length_fmap fst). assert (NoDup (entries u).*1) as Hn.
  { apply occ_NoDup. intros b. specialize (Hd b). unfold occt in Hd. case_match; lia. }
  rewrite <- (size_list_to_set (C := gset Z)) by done. apply subseteq_size.
  intros a Ha%elem_of_list_to_set%occ_pos. apply elem_of_dom. by eapply holds_dom.
Qed.

Lemma height_le t : (height t <= length (entries t))%nat.
Proof. induction t; cbn; [done|]. rewrite length_app. cbn. lia. Qed.

Lemma depth_le ctx t : (length ctx + length (entries t) <= length (entries (plug ctx t)))%nat.
Proof.
  rewrite entries_plug, !length_app. enough (length ctx <= length (before ctx) + length (after ctx))%nat by lia.
  induction ctx as [|[] ctx IH]; cbn; [done|..]; rewrite !length_app; cbn; lia.
Qed.

Lemma path_le s ctx t : focus s ctx t -> (length ctx + height t < path_fuel s)%nat.
Proof.
  intros Hf. pose proof (nodes_le s ctx t Hf). pose proof (depth_le ctx t). pose proof (height_le t).
  unfold path_fuel. lia.
Qed.

(** A balanced tree is low. *)
Lemma rb_height t n : rb t n -> (height t <= 2 * n + (if redb t then 1 else 0) /\
  2 ^ n <= Datatypes.S (length (entries t)))%nat.
Proof.
  revert n. induction t as [|[] l IHl a k v r IHr]; intros n; cbn [rb height entries redb].
  - intros ->. cbn. lia.
  - intros (Hbl & Hbr & [Hl1 Hl2]%IHl & [Hr1 Hr2]%IHr). rewrite Hbl in Hl1. rewrite Hbr in Hr1.
    rewrite length_app. cbn. split; lia.
  - destruct n as [|n]; [done|]. intros ([Hl1 Hl2]%IHl & [Hr1 Hr2]%IHr). rewrite length_app.
    cbn [length Nat.pow]. split; [|lia]. destruct (redb l), (redb r); lia.
Qed.

(** The other direction of [rb_plug]. *)
Lemma rb_unplug ctx t m : rb (plug ctx t) m -> redb (plug ctx t) = false ->
  exists n, rb t n /\ rb_ctx ctx n /\ (redb t = true -> top_black ctx).
Proof.
  revert t. induction ctx as [|f ctx IH]; intros t Hm Hb; [exists m; cbn in *; by rewrite Hb|].
  destruct (IH (plug1 t f) Hm Hb) as (n & Hn & Hc & Htop).
  destruct f as [[] a k v r|[] l a k v]; cbn in Hn.
  - destruct Hn as (H1 & H2 & H3 & H4). exists n. pose proof (Htop eq_refl). cbn. intuition congruence.
  - destruct n as [|n]; [done|]. destruct Hn. exists n. cbn. auto 6.
  - destruct Hn as (H1 & H2 & H3 & H4). exists n. pose proof (Htop eq_refl). cbn. intuition congruence.
  - destruct n as [|n]; [done|]. destruct Hn. exists n. cbn. auto 6.
Qed.
End sizes.

(** * The map *)

Section ordered.
Context {K V : Type} `{KeyOrder K}.
Implicit Types (s : map_state K V) (t l r : tree K V) (ctx : list (frame K V)) (k : K) (v : V).

Definition le_entry (e1 e2 : Z * (K * V)) : Prop := key_lt (fst (snd e2)) (fst (snd e1)) = false.

(** What a map's state keeps: the nodes in order, balanced. *)
Record dmap s t : Prop := {
  map_tree : holds (heap s) t 0;
  map_ids : distinct [] t;
  map_root : mRoot s = addr t /\ root s = addr t;
  map_sorted : StronglySorted le_entry (entries t);
  map_black : redb t = false;
  map_rb : exists n, rb t n;
}.

Lemma le_lt_trans a b c : key_lt b a = false -> key_lt b c = true -> key_lt a c = true.
Proof.
  intros Hab Hbc. destruct (key_lt a b) eqn:E; [by apply (lt_trans a b c)|].
  by rewrite (lt_total a b E Hab).
Qed.
Lemma lt_le_trans a b c : key_lt a b = true -> key_lt c b = false -> key_lt a c = true.
Proof.
  intros Hab Hcb. destruct (key_lt b c) eqn:E; [by apply (lt_trans a b c)|].
  by rewrite <- (lt_total b c E Hcb).
Qed.
Lemma lt_asym a b : key_lt a b = true -> key_lt b a = false.
Proof.
  intros Hab. destruct (key_lt b a) eqn:E; [|done].
  pose proof (lt_trans a b a Hab E) as Haa. by rewrite lt_irrefl in Haa.
Qed.

(** The nodes that come after a key, and the others. *)
Definition above k (e : Z * (K * V)) : Prop := key_lt k (fst (snd e)) = true.
Definition upto k (e : Z * (K * V)) : Prop := key_lt k (fst (snd e)) = false.

#[global] Instance above_dec k e : Decision (above k e).
Proof. unfold above. apply _. Defined.

(** Around a node, in order. *)
Lemma sorted_around ctx c l a k v r :
  StronglySorted le_entry (entries (plug ctx (Branch c l a k v r))) ->
  Forall (fun e => key_lt k (fst (snd e)) = false) (before ctx ++ entries l) /\
  Forall (fun e => key_lt (fst (snd e)) k = false) (entries r ++ after ctx).
Proof.
  rewrite entries_plug. cbn. rewrite <- app_assoc. cbn. rewrite app_assoc.
  intros (Hb & _ & Hs)%StronglySorted_app. apply StronglySorted_inv in Hs as [_ Ha]. split.
  - apply Forall_forall. intros e He. exact (Hb e (a, (k, v)) He (list_elem_of_here _ _)).
  - exact Ha.
Qed.

(** Both sides of a search: left of [a] when [k] comes before it, right of it if not. *)
Lemma split_left ctx c l a k' v r k : key_lt k k' = true ->
  StronglySorted le_entry (entries (plug ctx (Branch c l a k' v r))) -> Forall (above k) (after ctx) ->
  Forall (above k) (after (InLeft c a k' v r :: ctx)).
Proof.
  intros Hk [_ Hr]%sorted_around Ha. cbn. constructor; [done|]. apply Forall_app in Hr as [Hr _].
  apply Forall_app. split; [|done]. eapply Forall_impl; [exact Hr|]. intros e He. by apply (lt_le_trans _ k').
Qed.

Lemma split_right ctx c l a k' v r k : key_lt k k' = false ->
  StronglySorted le_entry (entries (plug ctx (Branch c l a k' v r))) -> Forall (upto k) (before ctx) ->
  Forall (upto k) (before (InRight c l a k' v :: ctx)).
Proof.
  intros Hk [Hl _]%sorted_around Hb. cbn. apply Forall_app. split; [done|]. apply Forall_app in Hl as [_ Hl].
  apply Forall_app. split; [|by constructor]. eapply Forall_impl; [exact Hl|]. intros e He. unfold upto.
  destruct (key_lt k (fst (snd e))) eqn:E; [|done].
  pose proof (lt_le_trans k (fst (snd e)) k' E He). congruence.
Qed.
End ordered.

(** * Insertion *)

Section insertion.
Context {K V : Type} `{KeyOrder K}.
Implicit Types (s : map_state K V) (t l r : tree K V) (ctx : list (frame K V)) (k : K) (v : V).

(** The place of a key: what comes after it is on the right. *)
Definition place_of k ctx : Prop := Forall (upto k) (before ctx) /\ Forall (above k) (after ctx).

Lemma descend_spec fuel s k ctx t : focus s ctx t -> StronglySorted le_entry (entries (plug ctx t)) ->
  place_of k ctx -> (height t < fuel)%nat -> exists ctx', descend fuel s k (addr t) (up ctx) = Ret (up ctx') /\
  plug ctx' Leaf = plug ctx t /\ place_of k ctx'.
Proof.
  revert ctx t. induction fuel as [|fuel IH]; intros ctx t Hf Hs [Hb Ha] Hh; [lia|]. cbn [descend].
  destruct t as [|c l a k' v r]; [by exists ctx|]. cbn [height] in Hh.
  pose proof Hf as [(Hn & _) _ Hd _]. cbn [addr].
  destruct (Z.eqb_spec a 0) as [->|_]; [ids Hd 0|]. rewrite (node_at_eq s a _ Hn). cbn [mbind outcome_bind key left right].
  destruct (key_lt k k') eqn:Hk.
  - apply (IH (InLeft c a k' v r :: ctx) l); [by eapply refocus|done| |lia]. split; [done|by apply (split_left ctx c l a k' v r)].
  - apply (IH (InRight c l a k' v :: ctx) r); [by eapply refocus|done| |lia]. split; [by apply (split_right ctx c l a k' v r)|done].
Qed.

(** A new red leaf hung at a place, before the colours are restored. *)
Lemma hang_spec s ctx z k v : focus s ctx Leaf -> place_of k ctx -> z <> 0 -> occ_ctx z ctx = 0%nat ->
  heap s !! z = Some (Node k v BLACK 0 0 0) -> exists s',
  (s ← set_parent s z (up ctx);
   s ← (if negb (up ctx =? 0) then
          ny ← node_at s (up ctx);
          if key_lt k (key ny) then set_left s (up ctx) z else set_right s (up ctx) z
        else Ret (MapState (heap s) (mRoot s) z));
   set_color s z RED) = Ret s' /\ focus s' ctx (Branch RED Leaf z k v Leaf).
Proof.
  intros [_ Hc Hd Hr] [Hb Ha] Hz0 Hz Hnz. cbn in Hc.
  unfold set_parent. rewrite (update_eq s z _ _ Hnz). cbn [mbind outcome_bind key value color left right].
  set (h1 := <[z := Node k v BLACK 0 0 (up ctx)]> (heap s)). set (s1 := MapState h1 (mRoot s) (root s)).
  assert (holds_ctx h1 ctx 0) as Hc1 by by apply holds_ctx_insert.
  assert (exists h2, (if negb (up ctx =? 0) then
          ny ← node_at s1 (up ctx);
          if key_lt k (key ny) then set_left s1 (up ctx) z else set_right s1 (up ctx) z
        else Ret (MapState (heap s1) (mRoot s1) z)) = Ret (MapState h2 (mRoot s) (match ctx with [] => z | _ => root s end)) /\
    holds_ctx h2 ctx z /\ h2 !! z = Some (Node k v BLACK 0 0 (up ctx))) as (h2 & E2 & Hc2 & Hz2).
  { destruct (Z.eqb_spec (up ctx) 0) as [E|E].
    { apply up_null in E as ->; [|intros b; unfold simple; ids Hd b]. cbn. exists h1. split; [done|]. split; [done|].
      unfold h1. by rewrite lookup_insert, decide_True. }
    destruct ctx as [|f ctx]; [done|]. cbn [negb].
    destruct (holds_ctx_child h1 f ctx 0 z) as (n & Hn & Hh); [|done|].
    { intros b. pose proof (Hd b) as Hdb. destruct (decide (b = 0)); lia. }
    assert (forall n', <[up (f :: ctx) := n']> h1 !! z = Some (Node k v BLACK 0 0 (up (f :: ctx)))) as Hz2.
    { intros n'. rewrite lookup_insert_ne; [unfold h1; by rewrite lookup_insert, decide_True|].
      intros <-. pose proof (occ_up f ctx). lia. }
    rewrite (node_at_eq s1 _ _ Hn). cbn [mbind outcome_bind]. unfold set_left, set_right. rewrite !(update_eq s1 _ _ _ Hn).
    destruct f as [c a k' v' r|c l a k' v']; destruct Hc1 as (Hn' & _); cbn in Hn; rewrite Hn' in Hn; injection Hn as <-;
      cbn [key]; cbn in Ha, Hb.
    - apply Forall_cons in Ha as [Hk _]. unfold above in Hk. cbn in Hk. rewrite Hk. eexists. split; [reflexivity|]. split; [exact Hh|apply Hz2].
    - apply Forall_app in Hb as [_ [_ [Hk _]%Forall_cons]%Forall_app]. unfold upto in Hk. cbn in Hk. rewrite Hk.
      eexists. split; [reflexivity|]. split; [exact Hh|apply Hz2]. }
  rewrite E2. cbn [mbind outcome_bind]. unfold set_color. 
  rewrite (update_eq (MapState h2 (mRoot s) (match ctx with [] => z | _ => root s end)) z _ _ Hz2). eexists. split; [done|]. split; cbn.
  - by rewrite lookup_insert, decide_True.
  - by apply holds_ctx_insert.
  - intros b. pose proof (Hd b). rewrite occt_branch, !occt_leaf. rewrite occt_leaf in *.
    destruct (decide (b = z)) as [->|]; [rewrite decide_False by done; lia|lia].
  - destruct ctx as [|f ctx]; [done|]. exact (eq_trans Hr (addr_plug_cons f ctx _ _)).
Qed.

Lemma insertFixUp_spec s ctx z k v m : focus s ctx (Branch RED Leaf z k v Leaf) ->
  rb (plug ctx Leaf) m -> redb (plug ctx Leaf) = false -> exists s' t',
  insertFixUp s z = Ret s' /\ focus s' [] t' /\ entries t' = entries (plug ctx (Branch RED Leaf z k v Leaf)) /\
  redb t' = false /\ exists n, rb t' n.
Proof.
  intros Hf Hm Hb. destruct (rb_unplug ctx Leaf m Hm Hb) as (n & Hn & Hc & _). cbn in Hn. subst n.
  destruct (fix_loop_spec (path_fuel s) s ctx (Branch RED Leaf z k v Leaf) 0%nat)
    as (s1 & t1 & E & Hf1 & He & Hleaf & m' & Hm'); [done|done|done|done|pose proof (path_le s ctx _ Hf); lia|].
  unfold insertFixUp. cbn [addr] in E. rewrite E. cbn [mbind outcome_bind].
  destruct t1 as [|c l a k' v' r]; [done|]. rewrite (focus_root _ _ _ Hf1). cbn [plug foldl addr].
  destruct (set_color_spec s1 [] c BLACK l a k' v' r Hf1) as (s2 & -> & Hf2).
  exists s2, (Branch BLACK l a k' v' r). split; [done|]. split; [done|]. split; [by rewrite <- He|]. split; [done|].
  by exists m'.
Qed.

Lemma focus_fresh s t z n : holds (heap s) t 0 -> distinct [] t -> mRoot s = addr t -> heap s !! z = None ->
  focus (MapState (<[z := n]> (heap s)) (mRoot s) (mRoot s)) [] t /\ occt z t = 0%nat.
Proof.
  intros Ht Hd Hr Hz. assert (occt z t = 0%nat) as Hz0.
  { destruct (decide (0 < occt z t)%nat) as [Hp|]; [|lia].
    destruct (holds_dom _ _ _ _ Ht Hp). congruence. }
  split; [|done]. split; [by apply holds_insert|done..].
Qed.

Lemma insert_ok s t z k v : dmap s t -> z <> 0 -> heap s !! z = None -> exists s' t' es1 es2,
  insert s z k v = Ret s' /\ dmap s' t' /\
  entries t = es1 ++ es2 /\ entries t' = es1 ++ (z, (k, v)) :: es2 /\
  Forall (upto k) es1 /\ Forall (above k) es2.
Proof.
  intros [Ht Hd [Hr _] Hs Hb [m Hm]] Hz0 Hz.
  set (s0 := MapState (<[z := Node k v BLACK 0 0 0]> (heap s)) (mRoot s) (mRoot s)).
  destruct (focus_fresh s t z (Node k v BLACK 0 0 0) Ht Hd Hr Hz) as [Hf Hocc]. fold s0 in Hf.
  destruct (descend_spec (path_fuel s0) s0 k [] t Hf Hs) as (ctx & Ed & Ep & Hpl);
    [by split|pose proof (path_le s0 [] t Hf); lia|]. cbn [up] in Ed. change (plug [] t) with t in Ep.
  assert (heap s0 !! z = Some (Node k v BLACK 0 0 0)) as Hnz by (cbn; by rewrite lookup_insert, decide_True).
  assert (occ_ctx z ctx = 0%nat) as Hoc by (pose proof (occ_plug z ctx Leaf) as E; rewrite Ep, occt_leaf in E;
    change (occ_ctx z (@nil (frame K V))) with 0%nat in E; lia).
  destruct (hang_spec s0 ctx z k v) as (s1 & E1 & Hf1); [by eapply refocus|done..|].
  destruct (insertFixUp_spec s1 ctx z k v m) as (s2 & t2 & E2 & Hf2 & He & Hb2 & Hm2); [done|by rewrite Ep..|].
  exists (MapState (heap s2) (root s2) (root s2)), t2, (before ctx), (after ctx).
  assert (entries t2 = before ctx ++ (z, (k, v)) :: after ctx) as Het by (rewrite He, entries_plug; done).
  assert (entries t = before ctx ++ after ctx) as He0 by (rewrite <- Ep, entries_plug; done).
  split; [|split; [|done]].
  - unfold insert. fold s0. unfold insertNode. rewrite (node_at_eq s0 z _ Hnz). cbn [mbind outcome_bind key].
    change (root s0) with (mRoot s). rewrite Hr, Ed. cbn [mbind outcome_bind].
    revert E1. intros (s3 & E3 & (s4 & E4 & E1)%bind_Ret_inv)%bind_Ret_inv.
    rewrite E3. cbn [mbind outcome_bind]. rewrite E4. cbn [mbind outcome_bind]. rewrite E1. cbn [mbind outcome_bind].
    by rewrite E2.
  - destruct Hf2 as [Ht2 _ Hd2 Hr2]. split; [done|done|by split| |done|done]. rewrite Het. rewrite He0 in Hs.
    apply StronglySorted_app in Hs as (Hba & Hsb & Hsa). destruct Hpl as [Hup Hab].
    apply StronglySorted_app. split; [|split; [done|]].
    + intros e1 e2 He1 [<-|He2]%list_elem_of_In%in_inv; [|apply Hba; [done|by apply list_elem_of_In]].
      by apply (proj1 (Forall_forall _ _) Hup).
    + constructor; [done|]. eapply Forall_impl; [exact Hab|]. intros e He'. unfold le_entry. cbn. by apply lt_asym.
Qed.
End insertion.

(** * Looking up *)

Section lookup.
Context {K V : Type} `{KeyOrder K}.
Implicit Types (s : map_state K V) (t l r : tree K V) (ctx : list (frame K V)) (k : K) (v : V)
  (es : list (Z * (K * V))).

(** The object id of the first node of a list, [nullptr] without one. *)
Definition first_id es : Z := default 0 (fst <$> head es).
Definition last_id es : Z := default 0 (fst <$> last es).

Definition found k es (p : Z) : Prop :=
  (p = 0 /\ Forall (fun e => fst (snd e) <> k) es) \/ exists v, (p, (k, v)) ∈ es.

Lemma node_not_null s ctx c l a k v r : focus s ctx (Branch c l a k v r) -> (a =? 0) = false /\
  node_at s a = Ret (Node k v c (addr l) (addr r) (up ctx)).
Proof.
  intros [(Hn & _) _ Hd _]. split; [|by apply node_at_eq]. apply Z.eqb_neq. intros ->. ids Hd 0.
Qed.

Lemma sorted_branch c l a k v r : StronglySorted le_entry (entries (Branch c l a k v r)) ->
  StronglySorted le_entry (entries l) /\ StronglySorted le_entry (entries r) /\
  Forall (fun e => key_lt k (fst (snd e)) = false) (entries l) /\
  Forall (fun e => key_lt (fst (snd e)) k = false) (entries r).
Proof.
  intros Hs. pose proof (sorted_around [] c l a k v r Hs) as [Hl Hr]. cbn in Hl, Hr. rewrite app_nil_r in Hr.
  cbn in Hs. apply StronglySorted_app in Hs as (_ & Hsl & [_ Hsr]%StronglySorted_cons). done.
Qed.

Lemma search_in_spec fuel s ctx t k : focus s ctx t -> StronglySorted le_entry (entries t) ->
  (height t < fuel)%nat -> exists p, search_in fuel s (addr t) k = Ret p /\ found k (entries t) p.
Proof.
  revert ctx t. induction fuel as [|fuel IH]; intros ctx t Hf Hs Hh; [lia|]. cbn [search_in].
  destruct t as [|c l a k' v r]; [exists 0; split; [done|]; left; split; [done|constructor]|]. cbn [height] in Hh.
  destruct (node_not_null _ _ _ _ _ _ _ _ Hf) as [E En]. cbn [addr]. rewrite E, En. cbn [mbind outcome_bind key left right].
  apply sorted_branch in Hs as (Hsl & Hsr & Hl & Hr). cbn [entries].
  destruct (key_eq k' k) eqn:Ek.
  { apply eq_spec in Ek as <-. exists a. split; [done|]. right. exists v. apply elem_of_app. right. constructor. }
  assert (k' <> k) as Hne by (intros ->; rewrite (proj2 (eq_spec k k)) in Ek; done).
  destruct (key_lt k k') eqn:Elt.
  - destruct (IH (InLeft c a k' v r :: ctx) l) as (p & Ep & Hp); [by eapply refocus|done|lia|].
    exists p. split; [done|]. destruct Hp as [[-> Hno]|[v' Hv']]; [left; split; [done|]|right; exists v'; by apply elem_of_app; left].
    apply Forall_app. split; [done|]. constructor; [done|]. eapply Forall_impl; [exact Hr|]. intros e He Hk. cbn in He. rewrite Hk in He. congruence.
  - destruct (IH (InRight c l a k' v :: ctx) r) as (p & Ep & Hp); [by eapply refocus|done|lia|].
    exists p. split; [done|]. destruct Hp as [[-> Hno]|[v' Hv']].
    + left; split; [done|]. apply Forall_app. split; [|by constructor]. eapply Forall_impl; [exact Hl|].
      intros e He Hk. cbn in He. apply Hne. rewrite Hk in He. by apply lt_total.
    + right; exists v'. apply elem_of_app. right. by constructor.
Qed.

Lemma filter_none {A} (P : A -> Prop) `{forall x, Decision (P x)} (l : list A) :
  Forall (fun x => ~ P x) l -> filter P l = [].
Proof. induction 1; [done|]. by rewrite filter_cons_False. Qed.

Lemma first_id_app es1 es2 : default (first_id es2) (fst <$> head es1) = first_id (es1 ++ es2).
Proof. by destruct es1. Qed.

(** The two searches for a bound look for the first node with a property that holds
    from some node on. *)
Lemma upperBound_in_spec fuel s ctx t k ub : focus s ctx t -> StronglySorted le_entry (entries t) ->
  (height t < fuel)%nat ->
  upperBound_in fuel s (addr t) k ub = Ret (default ub (fst <$> head (filter (above k) (entries t)))).
Proof.
  revert ctx t ub. induction fuel as [|fuel IH]; intros ctx t ub Hf Hs Hh; [lia|]. cbn [upperBound_in].
  destruct t as [|c l a k' v r]; [done|]. cbn [height] in Hh.
  destruct (node_not_null _ _ _ _ _ _ _ _ Hf) as [E En]. cbn [addr]. rewrite E, En. cbn [mbind outcome_bind key left right].
  apply sorted_branch in Hs as (Hsl & Hsr & Hl & Hr). cbn [entries]. rewrite gt_lt, filter_app.
  destruct (key_lt k k') eqn:Elt.
  - rewrite (IH (InLeft c a k' v r :: ctx) l); [|by eapply refocus|done|lia].
    rewrite (filter_cons_True _ (a, (k', v))) by done. by destruct (filter (above k) (entries l)).
  - rewrite (IH (InRight c l a k' v :: ctx) r); [|by eapply refocus|done|lia].
    rewrite (filter_cons_False _ (a, (k', v))) by (unfold above; cbn; congruence).
    rewrite (filter_none _ (entries l)); [done|]. eapply Forall_impl; [exact Hl|]. intros e He Ha.
    pose proof (lt_le_trans k (fst (snd e)) k' Ha He). congruence.
Qed.

(** The nodes that do not come before a key. *)
Definition from k (e : Z * (K * V)) : Prop := key_lt (fst (snd e)) k = false.
#[global] Instance from_dec k e : Decision (from k e).
Proof. unfold from. apply _. Defined.

Lemma lowerBound_in_spec fuel s ctx t k lb : focus s ctx t -> StronglySorted le_entry (entries t) ->
  (height t < fuel)%nat ->
  lowerBound_in fuel s (addr t) k lb = Ret (default lb (fst <$> head (filter (from k) (entries t)))).
Proof.
  revert ctx t lb. induction fuel as [|fuel IH]; intros ctx t lb Hf Hs Hh; [lia|]. cbn [lowerBound_in].
  destruct t as [|c l a k' v r]; [done|]. cbn [height] in Hh.
  destruct (node_not_null _ _ _ _ _ _ _ _ Hf) as [E En]. cbn [addr]. rewrite E, En. cbn [mbind outcome_bind key left right].
  apply sorted_branch in Hs as (Hsl & Hsr & Hl & Hr). cbn [entries]. rewrite ge_lt, filter_app.
  destruct (key_lt k' k) eqn:Elt; cbn [negb].
  - rewrite (IH (InRight c l a k' v :: ctx) r); [|by eapply refocus|done|lia].
    rewrite (filter_cons_False _ (a, (k', v))) by (unfold from; cbn; congruence).
    rewrite (filter_none _ (entries l)); [done|]. eapply Forall_impl; [exact Hl|]. intros e He Hfr.
    unfold from in Hfr. pose proof (le_lt_trans (fst (snd e)) k' k He Elt). congruence.
  - rewrite (IH (InLeft c a k' v r :: ctx) l); [|by eapply refocus|done|lia].
    rewrite (filter_cons_True _ (a, (k', v))) by done. by destruct (filter (from k) (entries l)).
Qed.

(** * Walking in order *)

Lemma leftmost_spec fuel s ctx t : focus s ctx t -> t <> Leaf -> (height t <= fuel)%nat ->
  leftmost fuel s (addr t) = Ret (first_id (entries t)).
Proof.
  revert ctx t. induction fuel as [|fuel IH]; intros ctx t Hf Hne Hh; destruct t as [|c l a k v r]; try done; cbn [height] in Hh; [lia|].
  destruct (node_not_null _ _ _ _ _ _ _ _ Hf) as [_ En]. cbn [leftmost addr]. rewrite En. cbn [mbind outcome_bind left].
  destruct l as [|cl ll al kl vl rl]; [done|]. pose proof Hf as Hl.
  apply (refocus _ _ _ (InLeft c a k v r :: ctx) (Branch cl ll al kl vl rl)) in Hl; [|done].
  cbn [addr]. destruct (node_not_null _ _ _ _ _ _ _ _ Hl) as [-> _].
  etrans; [apply (IH _ _ Hl); [done|lia]|]. cbn [entries]. rewrite <- !app_assoc. by destruct (entries ll).
Qed.

Lemma minimum_of_spec s ctx t : focus s ctx t -> minimum_of s (addr t) = Ret (first_id (entries t)).
Proof.
  intros Hf. unfold minimum_of. destruct t as [|c l a k v r]; [done|].
  destruct (node_not_null _ _ _ _ _ _ _ _ Hf) as [E _]. cbn [addr]. rewrite E.
  apply (leftmost_spec _ s ctx (Branch c l a k v r)); [done|done|]. pose proof (path_le _ _ _ Hf). lia.
Qed.

Lemma climb_right_spec fuel s ctx t : focus s ctx t -> t <> Leaf -> (length ctx < fuel)%nat ->
  climb_right fuel s (addr t) (up ctx) = Ret (first_id (after ctx)).
Proof.
  revert ctx t. induction fuel as [|fuel IH]; intros ctx t Hf Hne Hl; [lia|]. cbn [climb_right].
  destruct ctx as [|f ctx]; [done|]. cbn [length] in Hl. pose proof Hf as Hp.
  apply (refocus _ _ _ ctx (plug1 t f)) in Hp; [|done].
  destruct f as [c a k v r|c l a k v]; cbn [plug1] in Hp;
    destruct (node_not_null _ _ _ _ _ _ _ _ Hp) as [E En]; cbn [up]; rewrite E, En; cbn [mbind outcome_bind right parent].
  - destruct (Z.eqb_spec (addr t) (addr r)) as [Ea|_]; [|done]. destruct Hf as [_ _ Hd _].
    destruct t as [|c' l' a' k' v' r']; [done|]. cbn in Ea. destruct r as [|c2 l2 a2 k2 v2 r2]; cbn in Ea; subst; ids Hd 0 || ids Hd a2.
  - rewrite Z.eqb_refl. apply (IH ctx _ Hp); [done|lia].
Qed.

Lemma successor_spec s ctx c l a k v r : focus s ctx (Branch c l a k v r) ->
  successor s a = Ret (first_id (entries r ++ after ctx)).
Proof.
  intros Hf. destruct (node_not_null _ _ _ _ _ _ _ _ Hf) as [E En]. unfold successor. rewrite En. cbn [mbind outcome_bind right parent].
  pose proof Hf as Hr. apply (refocus _ _ _ (InRight c l a k v :: ctx) r) in Hr; [|done].
  destruct r as [|cr lr ar kr vr rr]; cbn [addr].
  - cbn. apply (climb_right_spec _ s ctx _ Hf); [done|]. pose proof (path_le _ _ _ Hf). lia.
  - destruct (node_not_null _ _ _ _ _ _ _ _ Hr) as [E' _]. rewrite E'. cbn [negb].
    etrans; [exact (minimum_of_spec _ _ _ Hr)|]. cbn [entries]. rewrite <- app_assoc. by destruct (entries lr).
Qed.

Lemma entries_place t es1 a k v es2 ctx0 : entries t = es1 ++ (a, (k, v)) :: es2 -> exists ctx c l r,
  plug ctx0 t = plug ctx (Branch c l a k v r) /\
  before ctx ++ entries l = before ctx0 ++ es1 /\ entries r ++ after ctx = es2 ++ after ctx0.
Proof.
  revert es1 es2 ctx0. induction t as [|c l IHl a' k' v' r IHr]; intros es1 es2 ctx0; cbn; [by destruct es1|].
  intros (es & [[El Er]|[El Er]])%app_eq_app.
  - destruct es as [|e es]; [injection Er as -> -> -> ->|injection Er as <- Er].
    + exists ctx0, c, l, r. by rewrite El, app_nil_r.
    + destruct (IHl es1 es (InLeft c a' k' v' r :: ctx0) El) as (ctx & c1 & l1 & r1 & Hp & Hb & Ha).
      exists ctx, c1, l1, r1. split; [done|]. split; [done|]. rewrite Ha, Er. cbn. by rewrite <- app_assoc.
  - destruct es as [|e es]; [injection Er as -> -> -> <-|injection Er as <- Er].
    + exists ctx0, c, l, r. by rewrite El, app_nil_r.
    + destruct (IHr es es2 (InRight c l a' k' v' :: ctx0) Er) as (ctx & c1 & l1 & r1 & Hp & Hb & Ha).
      exists ctx, c1, l1, r1. split; [done|]. split; [|done]. rewrite Hb, El. cbn. by rewrite <- !app_assoc.
Qed.

Lemma last_id_reverse es : last_id es = first_id (reverse es).
Proof. unfold last_id, first_id. by rewrite head_reverse. Qed.

Lemma predecessor_spec s ctx c l a k v r : focus s ctx (Branch c l a k v r) ->
  predecessor s a = Ret (last_id (before ctx ++ entries l)).
Proof.
  intros Hf%focus_mirror. cbn [mirror] in Hf. rewrite predecessor_flip, last_id_reverse.
  etrans; [exact (successor_spec _ _ _ _ _ _ _ _ Hf)|]. apply (f_equal (fun es => Ret (first_id es))).
  rewrite reverse_app, entries_mirror. f_equal. clear Hf. induction ctx as [|[] ctx IH]; cbn [fmap list_fmap mirror1 after before]; [done|done|].
  rewrite !reverse_app, <- IH, entries_mirror. done.
Qed.

Lemma maximum_of_spec s t : focus s [] t -> maximum_of s (addr t) = Ret (last_id (entries t)).
Proof.
  intros Hf%focus_mirror. rewrite maximum_of_flip, last_id_reverse, <- entries_mirror, <- (addr_mirror t).
  exact (minimum_of_spec _ _ _ Hf).
Qed.

(** What [print] writes of a tree: its nodes, each before its subtrees. *)
Fixpoint lines_of (t : tree K V) (k : K) (direction : Z) : list (printed K) :=
  match t with
  | Leaf => []
  | Branch c l _ k' _ r =>
      (if direction =? 0 then Line k' None else Line k' (Some (c, k, direction =? 1)))
      :: lines_of l k' (-1) ++ lines_of r k' 1
  end.

Lemma lines_keys t k d : l_key <$> lines_of t k d ≡ₚ (fun e => fst (snd e)) <$> entries t.
Proof.
  revert k d. induction t as [|c l IHl a k' v r IHr]; intros k d; cbn; [done|].
  rewrite !fmap_app. cbn. rewrite IHl, IHr. destruct (d =? 0); cbn; by rewrite Permutation_middle.
Qed.

Lemma print_in_spec fuel s ctx t k d out : focus s ctx t -> (height t < fuel)%nat ->
  print_in fuel s (addr t) k d out = Ret (out ++ lines_of t k d).
Proof.
  revert ctx t k d out. induction fuel as [|fuel IH]; intros ctx t k d out Hf Hh; [lia|]. cbn [print_in].
  destruct t as [|c l a k' v r]; [cbn; by rewrite app_nil_r|]. cbn [height] in Hh.
  destruct (node_not_null _ _ _ _ _ _ _ _ Hf) as [E En]. cbn [addr]. rewrite E, En. cbn [mbind outcome_bind key left right color].
  rewrite (IH (InLeft c a k' v r :: ctx) l) by (lia || by eapply refocus). cbn [mbind outcome_bind].
  rewrite (IH (InRight c l a k' v :: ctx) r) by (lia || by eapply refocus). cbn [lines_of].
  by rewrite <- !app_assoc.
Qed.

Lemma destroy_in_spec fuel s ctx t : focus s ctx t -> t <> Leaf -> (height t < fuel)%nat -> exists a n,
  heap s !! a = Some n /\
  destroy_in fuel s (addr t) = Ret (MapState (delete a (heap s)) (mRoot s) (root s)).
Proof.
  revert ctx t. induction fuel as [|fuel IH]; intros ctx t Hf Hne Hh; [lia|]. destruct t as [|c l a k v r]; [done|]. cbn [height] in Hh.
  destruct (node_not_null _ _ _ _ _ _ _ _ Hf) as [E En]. cbn [destroy_in addr]. rewrite E, En. cbn [mbind outcome_bind left right].
  pose proof Hf as Hl. apply (refocus _ _ _ (InLeft c a k v r :: ctx) l) in Hl; [|done].
  pose proof Hf as Hr. apply (refocus _ _ _ (InRight c l a k v :: ctx) r) in Hr; [|done].
  destruct l as [|cl ll al kl vl rl]; cbn [addr].
  2: { destruct (node_not_null _ _ _ _ _ _ _ _ Hl) as [-> _]. apply (IH _ _ Hl); [done|lia]. }
  destruct r as [|cr lr ar kr vr rr]; cbn [addr].
  2: { destruct (node_not_null _ _ _ _ _ _ _ _ Hr) as [-> _]. apply (IH _ _ Hr); [done|lia]. }
  exists a. destruct Hf as [(Hn & _) _ _ _]. eauto.
Qed.
End lookup.

(** * Properties *)

Section properties.
Context {K V : Type} `{KeyOrder K}.
Implicit Types (s : map_state K V) (t : tree K V) (k : K) (v : V) (es : list (Z * (K * V))).

(** The states that insertions with fresh object ids lead to, with what was inserted,
    the last first. *)
Inductive inserted : map_state K V -> list (Z * (K * V)) -> Prop :=
| inserted_none : inserted new_map []
| inserted_more s es z k v s' : inserted s es -> z <> 0 -> heap s !! z = None ->
    insert s z k v = Ret s' -> inserted s' ((z, (k, v)) :: es).

Lemma dmap_focus s t : dmap s t -> focus s [] t.
Proof. intros [Ht Hd [_ Hr] _ _ _]. by split. Qed.

Lemma new_map_ok : dmap (new_map : map_state K V) Leaf.
Proof. split; [done| |done|constructor|done|by exists O]. intros b. unfold occ_ctx, occt. cbn. lia. Qed.

Lemma inserted_ok s es : inserted s es -> exists t, dmap s t /\ entries t ≡ₚ es.
Proof.
  induction 1 as [|s es z k v s' _ (t & Ht & Hes) Hz Hno Hins]; [exists Leaf; split; [apply new_map_ok|done]|].
  destruct (insert_ok s t z k v Ht Hz Hno) as (s2 & t' & es1 & es2 & E & Ht' & H1 & H2 & _).
  assert (s2 = s') as -> by congruence. exists t'. split; [done|]. rewrite H2, <- Permutation_middle, <- H1, Hes. done.
Qed.

Lemma height_log s t : dmap s t -> (height t <= 2 * Nat.log2 (Datatypes.S (length (entries t))))%nat.
Proof.
  intros [_ _ _ _ Hb [n Hn]]. apply rb_height in Hn as [Hh Hs]. rewrite Hb in Hh.
  apply Nat.log2_le_pow2 in Hs; lia.
Qed.

(** C8. Whatever is inserted, the state is a red-black tree of exactly the inserted
    pairs, in the order of their keys, and no path is longer than twice the logarithm of
    their number; and the next insertion succeeds too. *)
Theorem map_inserts s es : inserted s es ->
  (exists t, dmap s t /\ entries t ≡ₚ es /\ (height t <= 2 * Nat.log2 (Datatypes.S (length es)))%nat) /\
  forall z k v, z <> 0 -> heap s !! z = None -> exists s', insert s z k v = Ret s'.
Proof.
  intros (t & Ht & Hes)%inserted_ok. split.
  - exists t. split; [done|]. split; [done|]. rewrite <- Hes. by apply (height_log s).
  - intros z k v Hz Hno. destruct (insert_ok s t z k v Ht Hz Hno) as (s' & t' & _ & _ & E & _). eauto.
Qed.

(** A pair is inserted after the pairs with smaller or equal keys and before the
    others, and the other pairs keep their order. *)
Theorem map_insert_place s t z k v : dmap s t -> z <> 0 -> heap s !! z = None ->
  exists s' t' es1 es2, insert s z k v = Ret s' /\ dmap s' t' /\
  entries t = es1 ++ es2 /\ entries t' = es1 ++ (z, (k, v)) :: es2 /\
  Forall (upto k) es1 /\ Forall (above k) es2.
Proof. intros Ht Hz Hno. by apply insert_ok. Qed.

Lemma search_in_det f1 f2 s x k p q : search_in f1 s x k = Ret p -> search_in f2 s x k = Ret q -> p = q.
Proof.
  revert f2 x. induction f1 as [|f1 IH]; intros [|f2] x; [done..|]. cbn.
  destruct (x =? 0); [congruence|]. destruct (node_at s x) as [n| |]; [|done..]. cbn.
  destruct (key_eq _ _); [congruence|]. destruct (key_lt _ _); apply IH.
Qed.

(** C29. A search finds a node with the key if there is one, in at most
    2 log2(n + 1) + 1 steps. *)
Theorem map_search s t k : dmap s t -> exists p,
  search s k = Ret p /\ found k (entries t) p /\
  search_in (2 * Nat.log2 (Datatypes.S (length (entries t))) + 1) s (mRoot s) k = Ret p.
Proof.
  intros Ht. pose proof (dmap_focus s t Ht) as Hf. pose proof (height_log s t Ht).
  destruct Ht as [_ _ [Hr _] Hs _ _]. unfold search. rewrite Hr.
  destruct (search_in_spec (2 * Nat.log2 (Datatypes.S (length (entries t))) + 1) s [] t k) as (p & E & Hp); [done|done|lia|].
  destruct (search_in_spec (path_fuel s) s [] t k) as (q & E' & _); [done|done|pose proof (path_le _ _ _ Hf); lia|].
  pose proof (search_in_det _ _ _ _ _ _ _ E E') as ->. by exists q.
Qed.

(** [upperBound] is the first node with a greater key, [lowerBound] the first whose
    key is not smaller, [minimum] and [maximum] the ends, null where there is none. *)
Theorem map_bounds s t k : dmap s t ->
  upperBound s k = Ret (first_id (filter (above k) (entries t))) /\
  lowerBound s k = Ret (first_id (filter (from k) (entries t))) /\
  minimum s = Ret (first_id (entries t)) /\ maximum s = Ret (last_id (entries t)).
Proof.
  intros Ht. pose proof (dmap_focus s t Ht) as Hf. destruct Ht as [_ _ [Hr _] Hs _ _].
  pose proof (path_le _ _ _ Hf). unfold upperBound, lowerBound, minimum, maximum. rewrite Hr.
  rewrite (upperBound_in_spec _ s [] t), (lowerBound_in_spec _ s [] t) by (done || lia).
  rewrite (minimum_of_spec s [] t Hf), (maximum_of_spec s t Hf). done.
Qed.

(** From any node [successor] goes to the next node in order and [predecessor] to
    the one before, so that either visits all nodes. *)
Theorem map_neighbours s t a k v es1 es2 : dmap s t -> entries t = es1 ++ (a, (k, v)) :: es2 ->
  successor s a = Ret (first_id es2) /\ predecessor s a = Ret (last_id es1).
Proof.
  intros Hf%dmap_focus He. destruct (entries_place t es1 a k v es2 [] He) as (ctx & c & l & r & Hp & Hb & Ha).
  cbn [before after] in Hb, Ha. rewrite app_nil_r in Ha. cbn in Hb. subst es1 es2.
  apply (refocus _ _ _ ctx (Branch c l a k v r)) in Hf; [|done].
  split; [exact (successor_spec _ _ _ _ _ _ _ _ Hf)|exact (predecessor_spec _ _ _ _ _ _ _ _ Hf)].
Qed.

(** [print] ends and writes every node once, before its children. *)
Theorem map_print s t k : dmap s t -> print s = Ret (lines_of t k 0) /\
  l_key <$> lines_of t k 0 ≡ₚ (fun e => fst (snd e)) <$> entries t.
Proof.
  intros Ht. split; [|apply lines_keys]. pose proof (dmap_focus s t Ht) as Hf. destruct Ht as [_ _ [Hr _] _ _ _].
  unfold print. rewrite Hr. destruct t as [|c l a k' v r]; [done|].
  destruct (node_not_null _ _ _ _ _ _ _ _ Hf) as [E En]. cbn [addr]. rewrite E, En. cbn [mbind outcome_bind key].
  etrans; [apply (print_in_spec _ s [] (Branch c l a k' v r)); [done|pose proof (path_le _ _ _ Hf); lia]|]. done.
Qed.

(** [destroy] deletes one node, whatever the size of the map. *)
Theorem map_destroy_leaks s t : dmap s t -> t <> Leaf -> exists s' a n, destroy s = Ret s' /\
  heap s !! a = Some n /\ heap s' = delete a (heap s) /\ Datatypes.S (size (heap s')) = size (heap s).
Proof.
  intros Ht Hne. pose proof (dmap_focus s t Ht) as Hf. destruct Ht as [_ _ [Hr _] _ _ _].
  destruct (destroy_in_spec (path_fuel s) s [] t) as (a & n & Ha & E); [done|done|pose proof (path_le _ _ _ Hf); lia|].
  unfold destroy. rewrite Hr. eexists _, a, n. split; [exact E|]. split; [done|]. split; [done|]. cbn.
  rewrite map_size_delete, Ha. assert (size (heap s) <> 0)%nat; [|lia].
  intros Hz%map_size_empty_inv. by rewrite Hz in Ha.
Qed.
End properties.

(** * A concrete map *)

Fixpoint insert_all (ks : list Z) (z : Z) (s : map_state Z Z) (es : list (Z * (Z * Z))) :
    outcome (map_state Z Z * list (Z * (Z * Z))) :=
  match ks with
  | [] => Ret (s, es)
  | k :: ks =>
      match heap s !! z with
      | None => s' ← insert s z k (10 * k); insert_all ks (z + 1) s' ((z, (k, 10 * k)) :: es)
      | Some _ => Abort
      end
  end.

Lemma insert_all_inserted ks z s es s' es' : 0 < z -> inserted s es ->
  insert_all ks z s es = Ret (s', es') -> inserted s' es'.
Proof.
  revert z s es. induction ks as [|k ks IH]; intros z s es Hz Hs; cbn; [by intros [= <- <-]|].
  destruct (heap s !! z) eqn:Hno; [done|]. intros (s1 & E & Hr)%bind_Ret_inv.
  eapply IH; [| |exact Hr]; [lia|]. eapply inserted_more; [exact Hs|lia|done|exact E].
Qed.

Definition demo_run : outcome (map_state Z Z * list (Z * (Z * Z))) :=
  insert_all [5; 3; 8; 1; 4; 7; 9; 2; 6; 5] 100 new_map [].

Lemma demo_map : exists (s : map_state Z Z) t es, inserted s es /\ length es = 10%nat /\ dmap s t /\ entries t ≡ₚ es /\ t <> Leaf /\
  size (heap s) = 10%nat /\ search s 6 = Ret 108 /\ lowerBound s 5 = Ret 100 /\ maximum s = Ret 106.
Proof.
  assert (match demo_run with
    | Ret (s, es) => bool_decide (length es = 10%nat /\ size (heap s) = 10%nat /\ search s 6 = Ret 108 /\
        lowerBound s 5 = Ret 100 /\ maximum s = Ret 106)
    | _ => false end = true) as Hrun by (vm_compute; reflexivity).
  pose proof (insert_all_inserted [5; 3; 8; 1; 4; 7; 9; 2; 6; 5] 100 new_map []) as Hins. fold demo_run in Hins.
  generalize dependent demo_run. intros [[s es]| |] Hrun Hins; [|discriminate Hrun..].
  apply bool_decide_eq_true in Hrun as (Hl & Hsz & Hrest).
  pose proof (Hins s es ltac:(lia) inserted_none eq_refl) as Hs. destruct (inserted_ok s es Hs) as (t & Ht & Hp).
  exists s, t, es. split; [done|]. split; [done|]. split; [done|]. split; [done|]. split; [|done].
  intros ->. apply Permutation_length in Hp. rewrite Hl in Hp. discriminate Hp.
Qed.

Lemma map_inserts_witness : exists (s : map_state Z Z) t es, inserted s es /\ length es = 10%nat /\ dmap s t /\
  (height t <= 6)%nat /\ exists s' : map_state Z Z, insert s 200 6 7 = Ret s' \/ is_Some (heap s !! 200).
Proof.
  destruct demo_map as (s & _ & es & Hs & Hl & _).
  destruct (map_inserts s es Hs) as [(t & Ht & _ & Hh) Hnext]. exists s, t, es.
  split; [exact Hs|]. split; [exact Hl|]. split; [exact Ht|]. rewrite Hl in Hh. split; [exact Hh|].
  destruct (heap s !! 200) eqn:E; [exists s; right; eauto|].
  destruct (Hnext 200 6 7 ltac:(lia) E) as [s' Hs']. exists s'. left. exact Hs'.
Defined.

Lemma map_insert_place_witness : exists s t, insert (new_map : map_state Z Z) 7 5 50 = Ret s /\ dmap s t /\
  entries t = [(7, (5, 50))].
Proof.
  destruct (map_insert_place (new_map : map_state Z Z) Leaf 7 5 50 new_map_ok)
    as (s & t & es1 & es2 & E & Ht & H1 & H2 & _); [lia|reflexivity|].
  exists s, t. split; [exact E|]. split; [exact Ht|]. rewrite H2. by destruct es1, es2.
Defined.

Lemma map_search_witness : exists (s : map_state Z Z) t, dmap s t /\ found 6 (entries t) 108.
Proof.
  destruct demo_map as (s & t & es & _ & _ & Ht & _ & _ & _ & Hs & _).
  destruct (map_search s t 6 Ht) as (p & E & Hp & _). exists s, t. split; [exact Ht|].
  rewrite Hs in E. injection E as <-. exact Hp.
Defined.

Lemma map_bounds_witness : exists (s : map_state Z Z) t, dmap s t /\
  first_id (filter (from 5) (entries t)) = 100 /\ last_id (entries t) = 106.
Proof.
  destruct demo_map as (s & t & es & _ & _ & Ht & _ & _ & _ & _ & Hlo & Hmax).
  destruct (map_bounds s t 5 Ht) as (_ & E1 & _ & E2). exists s, t. split; [exact Ht|].
  split; [congruence|congruence].
Defined.

Lemma map_neighbours_witness : exists (s : map_state Z Z) t a k v es, dmap s t /\
  entries t = (a, (k, v)) :: es /\ successor s a = Ret (first_id es) /\ predecessor s a = Ret 0.
Proof.
  destruct demo_map as (s & t & es & _ & Hl & Ht & Hp & _).
  destruct (entries t) as [|[a [k v]] es'] eqn:He.
  { apply Permutation_length in Hp. rewrite Hl in Hp. discriminate Hp. }
  exists s, t, a, k, v, es'. split; [exact Ht|]. split; [exact He|].
  exact (map_neighbours s t a k v [] es' Ht He).
Defined.

Lemma map_destroy_leaks_witness : exists (s s' : map_state Z Z), destroy s = Ret s' /\ size (heap s') = 9%nat.
Proof.
  destruct demo_map as (s & t & es & _ & _ & Ht & _ & Hne & Hsz & _).
  destruct (map_destroy_leaks s t Ht Hne) as (s' & a & n & E & _ & _ & Hs).
  exists s, s'. split; [exact E|]. lia.
Defined.
