(* ===== verification/DirectoryCache.v ===== *)
(** The coherent cache of the shared memory, [include/DogeeDirectoryCache.h] and
    [Dogee/DogeeDirectoryCache.cpp]: each node caches blocks of 32 words, the home
    node of a block keeps a directory of the nodes that cache it, writes go through
    the home to the back end and are sent to the other nodes of the directory.

    An operation of a client, with the requests it makes and their replies, is one
    step; the messages that nobody waits for ([MsgRenew], [MsgWriteback]) stay in the
    control connections, in order, until they are delivered. The program serves each
    connection with two threads (CacheConnectionsFacts.v), which can handle two messages
    in the wrong order; what then happens is shown in DirectoryCacheRuns.v. *)
From S2P Require Import Prelude Storage.

(** * State *)

(** [struct CacheBlock]; [locked] is set while a thread holds the lock for writing. *)
Record CacheBlock := Block { words : list Z; lru : Z; bkey : Z; locked : bool }.

Inductive CacheMessageKind :=
| MsgReplyOK
| MsgReplyBadAddress
| MsgWriteMiss
| MsgReadMiss
| MsgWriteChunkMiss
| MsgWrite
| MsgRenew
| MsgWriteback
| MsgWriteChunk
| MsgRenewChunk.

#[export] Instance CacheMessageKind_eq_dec : EqDecision CacheMessageKind.
Proof. solve_decision. Defined.

(** [struct DataPack]; only the words of the buffer that were written are kept. *)
Record DataPack := Pack { p_addr : Z; p_kind : CacheMessageKind; p_len : Z; p_buf : list Z }.

(** What comes back on a data connection: a [ServerWriteReply] or a [DataPack]. *)
Inductive cache_reply :=
| WriteReply (addr : Z)
| DataReply (p : DataPack).

(** The cache of a node and its part of the directory. *)
Record cache_node := CacheNode {
  block_cache : list CacheBlock;
  block_queue : list Z;
  cache : gmap Z Z;
  directory : gmap Z Z;
  clock : Z;
}.

Definition init_node : cache_node := {|
  block_cache := replicate (Z.to_nat DSM_CACHE_SIZE)
                   (Block (replicate (Z.to_nat DSM_CACHE_BLOCK_SIZE) 0) 0 DSM_CACHE_BAD_KEY false);
  block_queue := seqZ 0 DSM_CACHE_SIZE;
  cache := ∅;
  directory := ∅;
  clock := 0;
|}.

Definition set_block (n : cache_node) (b : Z) (blk : CacheBlock) : outcome cache_node :=
  bs ← wr (block_cache n) b blk;
  Ret (CacheNode bs (block_queue n) (cache n) (directory n) (clock n)).
Definition set_directory (n : cache_node) (dir : gmap Z Z) : cache_node :=
  CacheNode (block_cache n) (block_queue n) (cache n) dir (clock n).

(** [CacheClock] of the node's process. *)
Definition CacheClock (n : cache_node) : Z * cache_node :=
  (clock n, CacheNode (block_cache n) (block_queue n) (cache n) (directory n) (u32 (clock n + 1))).

Definition high (addr : Z) : Z := Z.land addr DSM_CACHE_HIGH_MASK_64.
Definition low (addr : Z) : Z := Z.land addr DSM_CACHE_LOW_MASK_64.

(** [memcpy(&blk->cache[at], v, len words)]. *)
Definition patch (blk : CacheBlock) (at_ len : Z) (v : list Z) : outcome CacheBlock :=
  src ← rd_range v 0 len;
  ws ← wr_range (words blk) at_ src;
  Ret (Block ws (lru blk) (bkey blk) (locked blk)).

(** [mapput] and [freeblock], which nothing calls. *)
Definition mapput (n : cache_node) (key b : Z) : cache_node :=
  CacheNode (block_cache n) (block_queue n) (<[key := b]> (cache n)) (directory n) (clock n).
Definition freeblock (n : cache_node) (b : Z) : outcome cache_node :=
  blk ← rd (block_cache n) b;
  n ← set_block n b (Block (words blk) (lru blk) DSM_CACHE_BAD_KEY (locked blk));
  Ret (CacheNode (block_cache n) (block_queue n ++ [b]) (cache n) (directory n) (clock n)).

(** * The server *)

Section server.
Context {S : Type} `{SoStorage S}.
(** The number of caches and the id of this one. *)
Context (caches self : Z).

Definition home (addr : Z) : Z := Z.shiftr addr DSM_CACHE_BITS mod caches.

Definition ServerRenew (n : cache_node) (addr len : Z) (v : list Z) : outcome cache_node :=
  match cache n !! high addr with
  | Some b =>
      blk ← rd (block_cache n) b;
      if locked blk then Ret n
      else if bkey blk =? high addr then blk ← patch blk (low addr) len v; set_block n b blk
      else Ret n
  | None => Ret n
  end.

Definition ServerRenewChunk (n : cache_node) (addr : Z) (v : list Z) : outcome cache_node :=
  match cache n !! high addr with
  | Some b =>
      blk ← rd (block_cache n) b;
      if locked blk then Ret n
      else if bkey blk =? high addr then blk ← patch blk 0 DSM_CACHE_BLOCK_SIZE v; set_block n b blk
      else Ret n
  | None => Ret n
  end.

(** The loop over the directory's bits [old]: renew this cache directly, send to the
    others. *)
Definition renew_turn (addr src_id len : Z) (v : list Z) (pack : DataPack) (i : Z)
    (st : cache_node * list (Z * DataPack) * Z) : outcome (cache_node * list (Z * DataPack) * Z) :=
  let '(n, sends, old) := st in
  '(n, sends) ←
    (if negb (Z.land old 1 =? 0) && negb (src_id =? i) then
       if i =? self then n ← ServerRenew n addr len v; Ret (n, sends)
       else Ret (n, sends ++ [(i, pack)])
     else Ret (n, sends));
  Ret (n, sends, Z.shiftr old 1).
Definition renew_all (n : cache_node) (addr src_id len : Z) (v : list Z) (old : Z) :
    outcome (cache_node * list (Z * DataPack)) :=
  if old =? 0 then Ret (n, [])
  else
    (* the memcpy into sendpack.buf *)
    _ ← c_assert (len <=? DSM_CACHE_BLOCK_SIZE);
    buf ← rd_range v 0 len;
    '(n, sends, _) ← for_range 0 caches (renew_turn addr src_id len v (Pack addr MsgRenew len buf))
                       (n, [], old);
    Ret (n, sends).

(** [_BreakPoint] when a request reaches a node that is not its address's home. *)
Definition check_home (addr src_id : Z) : outcome unit :=
  c_assert ((src_id =? self) || (home addr =? self)).

Definition ServerWrite (s : S) (n : cache_node) (addr src_id : Z) (v : list Z) (len : Z) :
    outcome (S * cache_node * list (Z * DataPack) * cache_reply) :=
  let baddr := high addr in
  _ ← check_home addr src_id;
  '(s, _) ← so_putchunk s (Z.shiftr addr 32) (Z.land addr 0xffffffff) len v;
  let old := default 0 (directory n !! baddr) in
  '(n, sends) ← renew_all n addr src_id len v old;
  Ret (s, n, sends, WriteReply addr).

Definition ServerWriteback (n : cache_node) (addr src_id : Z) : outcome cache_node :=
  _ ← c_assert (home addr =? self);
  match directory n !! addr with
  | Some old =>
      let newv := Z.land old (u64 (Z.lnot (Z.shiftl 1 src_id))) in
      if negb (newv =? 0) then Ret (set_directory n (<[addr := newv]> (directory n)))
      else Ret (set_directory n (delete addr (directory n)))
  | None => Ret n
  end.

(** The reply carries the block, into [outbuf] for the node itself. *)
Definition reply_block (s : S) (baddr addr : Z) (outbuf : list Z) : outcome cache_reply :=
  '(st, buf) ← so_getblock s baddr outbuf;
  Ret (DataReply (Pack addr (if decide (st = SoOK) then MsgReplyOK else MsgReplyBadAddress)
         DSM_CACHE_BLOCK_SIZE buf)).

Definition ServerWriteMiss (s : S) (n : cache_node) (addr src_id : Z) (v : list Z) (in_len : Z)
    (outbuf : list Z) : outcome (S * cache_node * list (Z * DataPack) * cache_reply) :=
  let baddr := high addr in
  _ ← check_home addr src_id;
  '(s, _) ← so_putchunk s (Z.shiftr addr 32) (Z.land addr 0xffffffff) in_len v;
  let old := default 0 (directory n !! baddr) in
  let newv := Z.lor old (u64 (Z.shiftl 1 src_id)) in
  let n := set_directory n (<[baddr := newv]> (directory n)) in
  '(n, sends) ← renew_all n addr src_id in_len v old;
  reply ← reply_block s baddr addr outbuf;
  Ret (s, n, sends, reply).

Definition ServerReadMiss (s : S) (n : cache_node) (addr src_id : Z) (outbuf : list Z) :
    outcome (cache_node * cache_reply) :=
  _ ← check_home addr src_id;
  let old := default 0 (directory n !! addr) in
  let newv := Z.lor old (u64 (Z.shiftl 1 src_id)) in
  let n := set_directory n (<[addr := newv]> (directory n)) in
  reply ← reply_block s addr addr outbuf;
  Ret (n, reply).

(** The uninitialised buffer of a reply. *)
Definition pack_buf : list Z := replicate (Z.to_nat DSM_CACHE_BLOCK_SIZE) 0.

(** A message from the control connection of node [target_id]; [MsgWriteChunkMiss]
    passes the buffer's size in bytes as its length in words. *)
Definition CacheProtocalProc_cmd (s : S) (n : cache_node) (target_id : Z) (p : DataPack) :
    outcome (S * cache_node * list (Z * DataPack) * option cache_reply) :=
  match p_kind p with
  | MsgReadMiss =>
      '(n, r) ← ServerReadMiss s n (p_addr p) target_id pack_buf; Ret (s, n, [], Some r)
  | MsgWriteMiss =>
      '(s, n, sends, r) ← ServerWriteMiss s n (p_addr p) target_id (p_buf p) (p_len p) pack_buf;
      Ret (s, n, sends, Some r)
  | MsgWriteChunkMiss =>
      '(s, n, sends, r) ← ServerWriteMiss s n (p_addr p) target_id (p_buf p)
                            (4 * DSM_CACHE_BLOCK_SIZE) pack_buf;
      Ret (s, n, sends, Some r)
  | MsgWrite =>
      '(s, n, sends, r) ← ServerWrite s n (p_addr p) target_id (p_buf p) (p_len p);
      Ret (s, n, sends, Some r)
  | MsgRenew => n ← ServerRenew n (p_addr p) (p_len p) (p_buf p); Ret (s, n, [], None)
  | MsgWriteback => n ← ServerWriteback n (p_addr p) target_id; Ret (s, n, [], None)
  | MsgRenewChunk => n ← ServerRenewChunk n (p_addr p) (p_buf p); Ret (s, n, [], None)
  | _ => Ret (s, n, [], None)
  end.
End server.

(** * The caches together *)

(** The back end, the nodes, and the messages [(from, to, pack)] in the control
    connections, oldest first. *)
Record dsm (S : Type) := Dsm {
  backend : S;
  nodes : gmap Z cache_node;
  ctrl : list (Z * Z * DataPack);
}.
Arguments Dsm {S} _ _ _.
Arguments backend {S} _.
Arguments nodes {S} _.
Arguments ctrl {S} _.

Section cluster.
Context {S : Type} `{SoStorage S}.
Context (caches : Z).

Definition get_node (d : dsm S) (i : Z) : outcome cache_node :=
  match nodes d !! i with Some n => Ret n | None => Abort end.
Definition set_node (d : dsm S) (i : Z) (n : cache_node) : dsm S :=
  Dsm (backend d) (<[i := n]> (nodes d)) (ctrl d).

(** The caches when all nodes are connected. *)
Definition init_dsm (s : S) : dsm S :=
  Dsm s (list_to_map ((fun i => (i, init_node)) <$> seqZ 0 caches)) [].

Definition between (src dst : Z) (m : Z * Z * DataPack) : bool :=
  (fst (fst m) =? src) && (snd (fst m) =? dst).

(** Node [dst] handles message [p] of node [src]; the reply, if any, is returned. *)
Definition handle (src dst : Z) (p : DataPack) (d : dsm S) : outcome (dsm S * option cache_reply) :=
  n ← get_node d dst;
  '(s, n, sends, r) ← CacheProtocalProc_cmd caches dst (backend d) n src p;
  Ret (Dsm s (<[dst := n]> (nodes d)) (ctrl d ++ ((fun '(t, q) => (dst, t, q)) <$> sends)), r).

(** A request to another node: what is in the connection before it is handled first. *)
Definition request (src dst : Z) (p : DataPack) (d : dsm S) : outcome (dsm S * cache_reply) :=
  let before := filter (fun m => between src dst m = true) (ctrl d) in
  let d := Dsm (backend d) (nodes d) (filter (fun m => between src dst m = false) (ctrl d)) in
  d ← for_each before (fun m d => '(d, _) ← handle src dst (snd m) d; Ret d) d;
  '(d, r) ← handle src dst p d;
  match r with Some r => Ret (d, r) | None => NoFuel end.

Definition Writeback (i addr : Z) (d : dsm S) : outcome (dsm S) :=
  let target := home caches addr in
  if target =? i then
    n ← get_node d i;
    n ← ServerWriteback caches i n addr i;
    Ret (set_node d i n)
  else Ret (Dsm (backend d) (nodes d) (ctrl d ++ [(i, target, Pack addr MsgWriteback 0 [])])).

Definition local_sends (i : Z) (s : S) (n : cache_node) (sends : list (Z * DataPack)) (d : dsm S) :
    dsm S :=
  Dsm s (<[i := n]> (nodes d)) (ctrl d ++ ((fun '(t, q) => (i, t, q)) <$> sends)).

Definition Write (i addr : Z) (v : list Z) (len : Z) (d : dsm S) : outcome (dsm S) :=
  let target := home caches addr in
  if target =? i then
    n ← get_node d i;
    '(s, n, sends, _) ← ServerWrite caches i (backend d) n addr i v len;
    Ret (local_sends i s n sends d)
  else
    _ ← c_assert (len <=? DSM_CACHE_BLOCK_SIZE);
    buf ← rd_range v 0 len;
    '(d, r) ← request i target (Pack addr MsgWrite len buf) d;
    match r with
    | WriteReply addr' => if addr' =? addr then Ret d else Abort
    | DataReply _ => Abort
    end.

(** Put what came for [addr] into block [b]; [None] stands for [SoFail], after which
    the block's key is not set and the callers break. *)
Definition fill_block (i b k addr : Z) (r : cache_reply) (d : dsm S) : outcome (dsm S) :=
  match r with
  | DataReply p =>
      if decide (p_kind p = MsgReplyOK) then
        if p_addr p =? addr then
          n ← get_node d i;
          blk ← rd (block_cache n) b;
          n ← set_block n b (Block (p_buf p) (lru blk) k (locked blk));
          Ret (set_node d i n)
        else Abort
      else Abort
  | WriteReply _ => Abort
  end.

Definition WriteMiss (i addr : Z) (v : list Z) (len b : Z) (d : dsm S) : outcome (dsm S) :=
  let target := home caches addr in
  if target =? i then
    n ← get_node d i;
    blk ← rd (block_cache n) b;
    '(s, n, sends, r) ← ServerWriteMiss caches i (backend d) n addr i v 1 (words blk);
    fill_block i b (high addr) addr r (local_sends i s n sends d)
  else
    _ ← c_assert (len <=? DSM_CACHE_BLOCK_SIZE);
    buf ← rd_range v 0 len;
    '(d, r) ← request i target (Pack addr MsgWriteMiss len buf) d;
    fill_block i b (high addr) addr r d.

Definition ReadMiss (i addr b : Z) (d : dsm S) : outcome (dsm S) :=
  let target := home caches addr in
  if target =? i then
    n ← get_node d i;
    blk ← rd (block_cache n) b;
    '(n, r) ← ServerReadMiss caches i (backend d) n addr i (words blk);
    fill_block i b addr addr r (set_node d i n)
  else
    '(d, r) ← request i target (Pack addr MsgReadMiss 0 []) d;
    fill_block i b addr addr r d.

(** * Blocks *)

(** The block least recently used among those in use. *)
Definition oldest_turn (n : cache_node) (i : Z) (st : Z * Z) : outcome (Z * Z) :=
  let '(minlru, mini) := st in
  blk ← rd (block_cache n) i;
  if negb (bkey blk =? DSM_CACHE_BAD_KEY) && (lru blk <? minlru) then Ret (lru blk, i)
  else Ret (minlru, mini).
Definition oldest (n : cache_node) : outcome Z :=
  '(_, mini) ← for_range 0 DSM_CACHE_SIZE (oldest_turn n) (0xffffffff, -1);
  _ ← c_assert (negb (mini =? -1));
  Ret mini.

(** The new block and [is_pending]; a new block's lock is held. *)
Definition getblock (i k : Z) (d : dsm S) : outcome (dsm S * Z * bool) :=
  n ← get_node d i;
  match cache n !! k with
  | Some b => Ret (d, b, true)
  | None =>
      match block_queue n with
      | [] =>
          mini ← oldest n;
          blk ← rd (block_cache n) mini;
          let oldkey := bkey blk in
          bs ← wr (block_cache n) mini (Block (words blk) 0xffffffff DSM_CACHE_BAD_KEY true);
          let n := CacheNode bs [] (<[k := mini]> (delete oldkey (cache n))) (directory n) (clock n) in
          d ← Writeback i oldkey (set_node d i n);
          Ret (d, mini, false)
      | b :: queue =>
          blk ← rd (block_cache n) b;
          bs ← wr (block_cache n) b (Block (words blk) (lru blk) (bkey blk) true);
          let n := CacheNode bs queue (<[k := b]> (cache n)) (directory n) (clock n) in
          Ret (set_node d i n, b, false)
      end
  end.

(** [blk->lru = CacheClock()], the accesses to the words [func], and the new lock. *)
Definition touch (i b : Z) (lock : bool) (d : dsm S) : outcome (dsm S) :=
  n ← get_node d i;
  blk ← rd (block_cache n) b;
  let '(t, n) := CacheClock n in
  n ← set_block n b (Block (words blk) t (bkey blk) lock);
  Ret (set_node d i n).

(** A block found in the table: wait for its lock, look at its key. *)
Definition enter_block (i b k : Z) (d : dsm S) : outcome bool :=
  n ← get_node d i;
  blk ← rd (block_cache n) b;
  if locked blk then NoFuel else Ret (bkey blk =? k).

(** * Reads and writes within a block *)

Definition write_hit (i b addr : Z) (v : list Z) (len : Z) (d : dsm S) : outcome (dsm S) :=
  d ← touch i b false d;
  n ← get_node d i;
  blk ← rd (block_cache n) b;
  blk ← patch blk (low addr) len v;
  n ← set_block n b blk;
  Write i addr v len (set_node d i n).

Fixpoint doput_miss (fuel : nat) (i addr : Z) (v : list Z) (len : Z) (d : dsm S) :
    outcome (dsm S) :=
  match fuel with
  | O => NoFuel
  | Datatypes.S fuel =>
      '(d, b, is_pending) ← getblock i (high addr) d;
      if is_pending : bool then
        ok ← enter_block i b (high addr) d;
        if ok : bool then write_hit i b addr v len d else doput_miss fuel i addr v len d
      else
        d ← WriteMiss i addr v len b d;
        touch i b false d
  end.

(** The number of times a thread tries again when it finds its block reused. *)
Definition miss_fuel : nat := 2.

Definition doput (i addr : Z) (v : list Z) (len : Z) (d : dsm S) : outcome (dsm S * SoStatus) :=
  n ← get_node d i;
  d ← match cache n !! high addr with
      | Some b =>
          ok ← enter_block i b (high addr) d;
          if ok : bool then write_hit i b addr v len d else doput_miss miss_fuel i addr v len d
      | None => doput_miss miss_fuel i addr v len d
      end;
  Ret (d, SoOK).

Definition read_hit (i b : Z) (d : dsm S) : outcome (dsm S * list Z) :=
  d ← touch i b false d;
  n ← get_node d i;
  blk ← rd (block_cache n) b;
  Ret (d, words blk).

Fixpoint doget_miss (fuel : nat) (i k : Z) (d : dsm S) : outcome (dsm S * list Z) :=
  match fuel with
  | O => NoFuel
  | Datatypes.S fuel =>
      '(d, b, is_pending) ← getblock i k d;
      if is_pending : bool then
        ok ← enter_block i b k d;
        if ok : bool then read_hit i b d else doget_miss fuel i k d
      else
        d ← ReadMiss i k b d;
        read_hit i b d
  end.

(** The words of the block of [k], for the callers' [func]. *)
Definition doget (i k : Z) (d : dsm S) : outcome (dsm S * list Z) :=
  let k := high k in
  n ← get_node d i;
  match cache n !! k with
  | Some b =>
      ok ← enter_block i b k d;
      if ok : bool then read_hit i b d else doget_miss miss_fuel i k d
  | None => doget_miss miss_fuel i k d
  end.

(** * The operations of [DSMCache] *)

Definition get (i okey fldid : Z) (d : dsm S) : outcome (dsm S * Z) :=
  '(d, ws) ← doget i (MAKE64 okey fldid) d;
  w ← rd ws (Z.land fldid DSM_CACHE_LOW_MASK);
  Ret (d, w).

Definition put (i okey fldid v : Z) (d : dsm S) : outcome (dsm S * SoStatus) :=
  doput i (MAKE64 okey fldid) [v] 1 d.

Definition getblockdata (i k len : Z) (d : dsm S) : outcome (dsm S * list Z) :=
  '(d, ws) ← doget i k d;
  l ← rd_range ws (low k) len;
  Ret (d, l).

(** The range of a chunk: [k_start], [k_end] and the part of the first block. *)
Definition chunk_start (k : Z) : Z :=
  if negb (low k =? 0) then u64 (high k + DSM_CACHE_BLOCK_SIZE) else k.
Definition chunk_end (k len : Z) : Z := high (u64 (k + len)).
Definition chunk_head (k len : Z) : Z :=
  if chunk_start k <? u64 (k + len) then u32 (chunk_start k - k) else len.

(** The blocks of a chunk of [len] words from address [k] on, in the order of
    [putchunk] and [getchunk]: [piece a idx n] moves the [n] words of one block at
    address [a] from or to index [idx] of the buffer. *)
Definition chunk_walk {X} (k len : Z) (piece : Z -> Z -> Z -> X -> outcome X) (x : X) : outcome X :=
  let copylen := chunk_head k len in
  _ ← c_assert (copylen <=? DSM_CACHE_BLOCK_SIZE);
  x ← (if 0 <? copylen then piece k 0 copylen x else Ret x);
  '(_, idx, x) ← while (Z.to_nat (len / DSM_CACHE_BLOCK_SIZE) + 2)
    (fun '(j, idx, x) => j <? chunk_end k len)
    (fun '(j, idx, x) =>
       x ← piece j idx DSM_CACHE_BLOCK_SIZE x;
       Ret (u64 (j + DSM_CACHE_BLOCK_SIZE), u32 (idx + DSM_CACHE_BLOCK_SIZE), x))
    (chunk_start k, copylen, x);
  if idx <? len then piece (chunk_end k len) idx (len - idx) x else Ret x.

(** The status is returned uninitialised unless a write failed, and [doput] never
    reports a failure. *)
Definition putchunk (i okey fldid len : Z) (v : list Z) (d : dsm S) : outcome (dsm S) :=
  chunk_walk (MAKE64 okey fldid) len (fun a idx n d =>
    buf ← rd_range v idx n;
    '(d, _) ← doput i a buf n d;
    Ret d) d.

Definition getchunk (i okey fldid len : Z) (v : list Z) (d : dsm S) : outcome (dsm S * list Z) :=
  chunk_walk (MAKE64 okey fldid) len (fun a idx n '(d, v) =>
    '(d, l) ← getblockdata i a n d;
    v ← wr_range v idx l;
    Ret (d, v)) (d, v).

Definition put64 (i okey fldid v : Z) (d : dsm S) : outcome (dsm S) :=
  putchunk i okey fldid 2 (words_of_u64 v) d.
Definition putchunk64 (i okey fldid len : Z) (v : list Z) (d : dsm S) : outcome (dsm S) :=
  putchunk i okey fldid (u32 (len * 2)) v d.
Definition getchunk64 (i okey fldid len : Z) (v : list Z) (d : dsm S) : outcome (dsm S * list Z) :=
  getchunk i okey fldid (u32 (len * 2)) v d.

(** * Steps *)

(** A client's operation, or the delivery of the oldest message of a connection. *)
Inductive dsm_step : dsm S -> dsm S -> Prop :=
| step_get i k d d' ws : doget i k d = Ret (d', ws) -> dsm_step d d'
| step_put i addr v len d d' st : doput i addr v len d = Ret (d', st) -> dsm_step d d'
| step_deliver s ns l1 l2 src dst p d' r :
    Forall (fun m => between src dst m = false) l1 ->
    handle src dst p (Dsm s ns (l1 ++ l2)) = Ret (d', r) ->
    dsm_step (Dsm s ns (l1 ++ (src, dst, p) :: l2)) d'.
End cluster.
