(* ===== verification/CacheConnections.v ===== *)
(** How the caches of the nodes connect to each other: the constructor of
    [DSMCacheProtocal] and [ListenSocketProc] in [include/DogeeDirectoryCache.h]. Cache
    [k] accepts a control and a data connection from each of the [k] caches before it
    while its constructor makes the two connections to each cache behind it. *)
From S2P Require Import Prelude.

Definition CACHE_HELLO_MAGIC : Z := 0x2e3a4f01.

(** * State *)

Record CacheHelloPackage := Hello { magic : Z; cacheid : Z }.

(** The two ports a cache listens on, [controllisten] and [datalisten]. *)
Inductive channel := Control | Data.

(** A [SOCKET] is one end of a connection: the cache that connected, the one that
    listened, the port, and whether this is the end of the former. *)
Record cache_socket := CacheSock { connector : Z; listener : Z; chan : channel; connector_end : bool }.

#[export] Instance channel_eq_dec : EqDecision channel.
Proof. solve_decision. Defined.
#[export] Instance cache_socket_eq_dec : EqDecision cache_socket.
Proof. solve_decision. Defined.
#[export] Instance CacheHelloPackage_eq_dec : EqDecision CacheHelloPackage.
Proof. solve_decision. Defined.

(** Where [ListenSocketProc] is: in [accept] of the turn [i], [j] of its loops, or gone. *)
Inductive listen_pc :=
| ListenAt (i j : Z)
| ListenReturned.

(** Where the constructor is: about to connect the control socket of cache [i] or waiting
    for the reply on it, the same for the data socket, or past its last statement. *)
Inductive connect_pc :=
| ToControl (i : Z)
| AwaitControl (i : Z) (sock : cache_socket)
| ToData (i : Z)
| AwaitData (i : Z) (sock : cache_socket)
| Constructed.

(** [DSMCacheProtocal]: the sockets ([None] is not yet set), the targets of the threads
    started on [CacheProtocalProc], the connections not yet accepted with the hello that
    follows each, the replies on this cache's own connections, the two threads. *)
Record cache_conns := CacheConns {
  controlsockets : list (option cache_socket);
  datasockets : list (option cache_socket);
  threads : list Z;
  control_backlog : list (cache_socket * CacheHelloPackage);
  data_backlog : list (cache_socket * CacheHelloPackage);
  replies : list (cache_socket * CacheHelloPackage);
  listening : listen_pc;
  constructing : connect_pc;
}.

Definition set_sockets (c : channel) (t : list (option cache_socket)) (n : cache_conns) : cache_conns :=
  match c with
  | Control => CacheConns t (datasockets n) (threads n) (control_backlog n) (data_backlog n) (replies n) (listening n) (constructing n)
  | Data => CacheConns (controlsockets n) t (threads n) (control_backlog n) (data_backlog n) (replies n) (listening n) (constructing n)
  end.
Definition set_backlog (c : channel) (q : list (cache_socket * CacheHelloPackage)) (n : cache_conns) : cache_conns :=
  match c with
  | Control => CacheConns (controlsockets n) (datasockets n) (threads n) q (data_backlog n) (replies n) (listening n) (constructing n)
  | Data => CacheConns (controlsockets n) (datasockets n) (threads n) (control_backlog n) q (replies n) (listening n) (constructing n)
  end.
Definition start_threads (ts : list Z) (n : cache_conns) : cache_conns :=
  CacheConns (controlsockets n) (datasockets n) (threads n ++ ts) (control_backlog n) (data_backlog n) (replies n) (listening n) (constructing n).
Definition set_replies (q : list (cache_socket * CacheHelloPackage)) (n : cache_conns) : cache_conns :=
  CacheConns (controlsockets n) (datasockets n) (threads n) (control_backlog n) (data_backlog n) q (listening n) (constructing n).
Definition set_listening (pc : listen_pc) (n : cache_conns) : cache_conns :=
  CacheConns (controlsockets n) (datasockets n) (threads n) (control_backlog n) (data_backlog n) (replies n) pc (constructing n).
Definition set_constructing (pc : connect_pc) (n : cache_conns) : cache_conns :=
  CacheConns (controlsockets n) (datasockets n) (threads n) (control_backlog n) (data_backlog n) (replies n) (listening n) pc.

Definition sockets (c : channel) (n : cache_conns) : list (option cache_socket) :=
  match c with Control => controlsockets n | Data => datasockets n end.
Definition backlog (c : channel) (n : cache_conns) : list (cache_socket * CacheHelloPackage) :=
  match c with Control => control_backlog n | Data => data_backlog n end.

(** * The listening thread *)

Section caches.
Context (caches : Z).

(** The other end of an accepted connection gets the reply. *)
Definition send_reply (sock : cache_socket) (pack : CacheHelloPackage) (nodes : list cache_conns) : outcome (list cache_conns) :=
  n ← rd nodes (connector sock);
  wr nodes (connector sock)
    (set_replies (replies n ++ [(CacheSock (connector sock) (listener sock) (chan sock) true, pack)]) n).

(** One turn of the inner loop of [ListenSocketProc] on cache [cache_id]; [accepted] and
    [received] say whether [accept] and [RcRecv] succeed. *)
Definition ListenSocketProc_turn (accepted received : bool) (cache_id : Z) (nodes : list cache_conns) : outcome (list cache_conns) :=
  n ← rd nodes cache_id;
  match listening n with
  | ListenReturned => NoFuel
  | ListenAt i j =>
      if i <? cache_id then
        let c := if j mod 2 =? 0 then Control else Data in
        match backlog c n with
        | [] => if accepted then NoFuel else wr nodes cache_id (set_listening ListenReturned n)
        | (sock, pack) :: q =>
            let n := set_backlog c q n in
            if negb accepted || negb received || negb (magic pack =? CACHE_HELLO_MAGIC) || (cache_id <=? cacheid pack)
            then wr nodes cache_id (set_listening ListenReturned n)
            else
              t ← wr (sockets c n) (cacheid pack) (Some sock);
              let n := set_sockets c t n in
              let n := if j mod 2 =? 0 then start_threads [cacheid pack] n else n in
              let n := set_listening (if j + 1 <? 2 then ListenAt i (j + 1) else ListenAt (i + 1) 0) n in
              nodes ← wr nodes cache_id n;
              send_reply sock (Hello CACHE_HELLO_MAGIC cache_id) nodes
        end
      else NoFuel
  end.

(** [th.join()] returns. *)
Definition listener_done (cache_id : Z) (n : cache_conns) : bool :=
  match listening n with ListenReturned => true | ListenAt i _ => cache_id <=? i end.

(** * The constructor *)

(** [RcConnect] with the hello that is sent next: [tries] says which tries succeed, the
    control connection has three and the data connection one. *)
Definition connect_hello (tries : list bool) (c : channel) (cache_id i : Z) (nodes : list cache_conns) :
    outcome (list cache_conns * cache_socket) :=
  _ ← c_assert (existsb id (take (match c with Control => 3 | Data => 1 end) tries));
  target ← rd nodes i;
  nodes ← wr nodes i
    (set_backlog c (backlog c target ++ [(CacheSock cache_id i c false, Hello CACHE_HELLO_MAGIC cache_id)]) target);
  Ret (nodes, CacheSock cache_id i c true).

(** The reply that waits on a socket. *)
Fixpoint take_reply (sock : cache_socket) (q : list (cache_socket * CacheHelloPackage)) :
    option (CacheHelloPackage * list (cache_socket * CacheHelloPackage)) :=
  match q with
  | [] => None
  | (s, pack) :: q =>
      if decide (s = sock) then Some (pack, q)
      else '(p, q) ← take_reply sock q; Some (p, (s, pack) :: q)
  end.

(** [RcRecv] of the reply, its checks and the assignment to the table. *)
Definition await_hello (received : bool) (c : channel) (i : Z) (sock : cache_socket) (n : cache_conns) : outcome cache_conns :=
  match take_reply sock (replies n) with
  | None => NoFuel
  | Some (pack, q) =>
      _ ← c_assert (received && (magic pack =? CACHE_HELLO_MAGIC) && (cacheid pack =? i));
      t ← wr (sockets c n) i (Some sock);
      Ret (set_sockets c t (set_replies q n))
  end.

(** The last loop: a thread on [CacheProtocalProc] for every other cache. *)
Definition protocal_threads (cache_id : Z) : list Z := filter (λ i, i <> cache_id) (seqZ 0 caches).

(** The constructor's next statements. *)
Definition construct_turn (tries : list bool) (received : bool) (cache_id : Z) (nodes : list cache_conns) :
    outcome (list cache_conns) :=
  n ← rd nodes cache_id;
  match constructing n with
  | ToControl i =>
      if i <? caches then
        '(nodes, sock) ← connect_hello tries Control cache_id i nodes;
        n ← rd nodes cache_id;
        wr nodes cache_id (set_constructing (AwaitControl i sock) n)
      else if listener_done cache_id n then
        wr nodes cache_id (set_constructing Constructed (start_threads (protocal_threads cache_id) n))
      else NoFuel
  | AwaitControl i sock =>
      n ← await_hello received Control i sock n;
      wr nodes cache_id (set_constructing (ToData i) n)
  | ToData i =>
      '(nodes, sock) ← connect_hello tries Data cache_id i nodes;
      n ← rd nodes cache_id;
      wr nodes cache_id (set_constructing (AwaitData i sock) n)
  | AwaitData i sock =>
      n ← await_hello received Data i sock n;
      wr nodes cache_id (set_constructing (ToControl (i + 1)) n)
  | Constructed => NoFuel
  end.

(** The constructor up to the start of the listening thread. *)
Definition new_conns (cache_id : Z) : cache_conns :=
  CacheConns (replicate (Z.to_nat caches) None) (replicate (Z.to_nat caches) None) [] [] [] []
    (ListenAt 0 0) (ToControl (cache_id + 1)).
Definition new_caches : list cache_conns := new_conns <$> seqZ 0 caches.

(** The two threads of every cache, while no system call fails. *)
Inductive caches_step : list cache_conns -> list cache_conns -> Prop :=
| caches_listen i nodes nodes' :
    ListenSocketProc_turn true true i nodes = Ret nodes' -> caches_step nodes nodes'
| caches_construct tries i nodes nodes' :
    construct_turn tries true i nodes = Ret nodes' -> caches_step nodes nodes'.

(** [~DSMCacheProtocal]: the sockets it closes, in order. *)
Definition close_turn (cache_id : Z) (n : cache_conns) (i : Z) (closed : list (option cache_socket)) :
    outcome (list (option cache_socket)) :=
  if i =? cache_id then Ret closed
  else
    c ← rd (controlsockets n) i;
    d ← rd (datasockets n) i;
    Ret (closed ++ [c; d]).
Definition close_conns (cache_id : Z) (n : cache_conns) : outcome (list (option cache_socket)) :=
  for_range 0 caches (close_turn cache_id n) [].
End caches.
