(* ===== verification/CacheConnectionsFacts.v ===== *)
(** The caches connect: the set-up ends with a control and a data connection between every
    two caches, and what threads it leaves on them. *)
From S2P Require Import Prelude Counting CacheConnections.

(** * Fields *)

Lemma sockets_set c c' t n : sockets c (set_sockets c' t n) = if decide (c = c') then t else sockets c n.
Proof. by destruct c, c'. Qed.

Lemma backlog_set c c' q n : backlog c (set_backlog c' q n) = if decide (c = c') then q else backlog c n.
Proof. by destruct c, c'. Qed.

Lemma sockets_set_backlog c c' q n : sockets c (set_backlog c' q n) = sockets c n.
Proof. by destruct c, c'. Qed.

Lemma backlog_set_sockets c c' t n : backlog c (set_sockets c' t n) = backlog c n.
Proof. by destruct c, c'. Qed.

Lemma other_fields c t q n :
  threads (set_sockets c t n) = threads n /\ replies (set_sockets c t n) = replies n /\
  listening (set_sockets c t n) = listening n /\ constructing (set_sockets c t n) = constructing n /\
  threads (set_backlog c q n) = threads n /\ replies (set_backlog c q n) = replies n /\
  listening (set_backlog c q n) = listening n /\ constructing (set_backlog c q n) = constructing n.
Proof. by destruct c. Qed.

#[export] Instance connect_pc_eq_dec : EqDecision connect_pc.
Proof. solve_decision. Defined.

(** * Stages

    How far the connections from one cache to another are: 0 at first; then, for the
    control connection, made (1), accepted (2) and confirmed (3); then the same for the
    data connection (4 to 6). *)
Definition base (c : channel) : Z := match c with Control => 0 | Data => 3 end.

Definition hello (i k : Z) (c : channel) : cache_socket * CacheHelloPackage :=
  (CacheSock i k c false, Hello CACHE_HELLO_MAGIC i).
Definition reply (i k : Z) (c : channel) : cache_socket * CacheHelloPackage :=
  (CacheSock i k c true, Hello CACHE_HELLO_MAGIC k).

Section stages.
Context (caches : Z).

Definition target (pc : connect_pc) : Z :=
  match pc with ToControl i | AwaitControl i _ | ToData i | AwaitData i _ => i | Constructed => caches end.

(** What the constructor of cache [k] knows of the stage of its target. *)
Definition pc_stage (k : Z) (pc : connect_pc) (s : Z) : Prop :=
  match pc with
  | ToControl i => i < caches -> s = 0
  | AwaitControl i sock => i < caches /\ sock = CacheSock k i Control true /\ 1 <= s <= 2
  | ToData i => i < caches /\ s = 3
  | AwaitData i sock => i < caches /\ sock = CacheSock k i Data true /\ 4 <= s <= 5
  | Constructed => True
  end.

(** The connecting half of cache [k]; [f x] is the stage towards cache [x]. *)
Record connector_inv (f : Z -> Z) (k : Z) (n : cache_conns) : Prop := {
  con_target : k < target (constructing n) <= caches;
  con_before : forall x, k < x < target (constructing n) -> f x = 6;
  con_after : forall x, target (constructing n) < x < caches -> f x = 0;
  con_pc : pc_stage k (constructing n) (f (target (constructing n)));
  con_socket : forall c x, k < x < caches ->
    (sockets c n).[x] = Some (if base c + 3 <=? f x then Some (CacheSock k x c true) else None);
  con_nodup : NoDup (replies n);
  con_replies : forall e, e ∈ replies n <-> exists c x, k < x < caches /\ f x = base c + 2 /\ e = reply k x c;
}.

(** The listening half; [g x] is the stage of cache [x] towards this one. *)
Definition half (s : Z) : Prop := 2 <= s <= 4.
Definition both (g : Z -> Z) (x : Z) : bool := 5 <=? g x.

Record listener_inv (g : Z -> Z) (k : Z) (n : cache_conns) : Prop := {
  lis_socket : forall c x, 0 <= x < k ->
    (sockets c n).[x] = Some (if base c + 2 <=? g x then Some (CacheSock x k c false) else None);
  lis_nodup : forall c, NoDup (backlog c n);
  lis_backlog : forall c e, e ∈ backlog c n <-> exists x, 0 <= x < k /\ g x = base c + 1 /\ e = hello x k c;
  lis_pc : exists j, listening n = ListenAt (count (both g) (seqZ 0 k)) j /\
    (j = 0 /\ (forall x, 0 <= x < k -> ~ half (g x)) \/
     j = 1 /\ exists y, 0 <= y < k /\ half (g y) /\ forall x, 0 <= x < k -> x <> y -> ~ half (g x));
}.

(** The threads on [CacheProtocalProc]: one from the listener, one from the end of the
    constructor. *)
Definition thread_count (g : Z -> Z) (k : Z) (pc : connect_pc) (x : Z) : nat :=
  Nat.add (if decide (0 <= x < k /\ 2 <= g x) then 1%nat else 0%nat)
    (if decide (pc = Constructed /\ 0 <= x < caches /\ x <> k) then 1%nat else 0%nat).

Record conns_inv (st : Z -> Z -> Z) (k : Z) (n : cache_conns) : Prop := {
  ci_tables : forall c, zlen (sockets c n) = caches;
  ci_connector : connector_inv (st k) k n;
  ci_listener : listener_inv (λ x, st x k) k n;
  ci_threads : forall x, occ x (threads n) = thread_count (λ x, st x k) k (constructing n) x;
  ci_constructed : constructing n = Constructed -> forall x, 0 <= x < k -> 5 <= st x k;
}.

Record caches_inv (st : Z -> Z -> Z) (nodes : list cache_conns) : Prop := {
  cs_len : zlen nodes = caches;
  cs_node : forall k n, nodes.[k] = Some n -> conns_inv st k n;
  cs_stage : forall i k, 0 <= i < k -> k < caches -> 0 <= st i k <= 6;
}.

(** One more stage from [i] to [k]. *)
Definition advance (st : Z -> Z -> Z) (i k a b : Z) : Z := if (a =? i) && (b =? k) then st a b + 1 else st a b.

Lemma advance_here st i k : advance st i k i k = st i k + 1.
Proof. unfold advance. by rewrite !Z.eqb_refl. Qed.

Lemma advance_other st i k a b : a <> i \/ b <> k -> advance st i k a b = st a b.
Proof. unfold advance. intros H. destruct (Z.eqb_spec a i), (Z.eqb_spec b k); cbn; try done. lia. Qed.

(** * Frames *)

Lemma connector_inv_ext f f' k n n' : (forall x, k < x < caches -> f' x = f x) ->
  (forall c x, k < x < caches -> (sockets c n').[x] = (sockets c n).[x]) -> replies n' = replies n ->
  constructing n' = constructing n -> connector_inv f k n -> connector_inv f' k n'.
Proof.
  intros Hf Hs Hr Hc [H1 H2 H3 H4 H5 H6 H7]. split; rewrite ?Hc, ?Hr; try done.
  - intros x Hx. rewrite Hf by lia. auto.
  - intros x Hx. rewrite Hf by lia. auto.
  - destruct (Z.lt_ge_cases (target (constructing n)) caches) as [Hlt|Hge]; [by rewrite Hf by lia|].
    destruct (constructing n); cbn in *; try done; lia.
  - intros c x Hx. rewrite Hs, Hf by lia. auto.
  - intros e. rewrite H7. split; intros (c & x & Hx & E & ->); exists c, x; (split; [done|]; split; [|done]); rewrite <- E; [|symmetry]; auto.
Qed.

Lemma listener_inv_ext g g' k n n' : (forall x, 0 <= x < k -> g' x = g x) ->
  (forall c x, 0 <= x < k -> (sockets c n').[x] = (sockets c n).[x]) -> (forall c, backlog c n' = backlog c n) ->
  listening n' = listening n -> listener_inv g k n -> listener_inv g' k n'.
Proof.
  intros Hg Hs Hb Hl [H1 H2 H3 (j & H4 & H5)]. split.
  - intros c x Hx. rewrite Hs, Hg by lia. auto.
  - intros c. by rewrite Hb.
  - intros c e. rewrite Hb, H3. split; intros (x & Hx & E & ->); exists x; (split; [done|]; split; [|done]); rewrite <- E; [|symmetry]; auto.
  - exists j. rewrite Hl, H4. rewrite (count_same (both g') (both g)); [|intros y Hy%elem_of_seqZ; unfold both; by rewrite Hg by lia].
    split; [done|]. destruct H5 as [[-> H5]|[-> (y & Hy & Hh & H5)]]; [left|right]; (split; [done|]).
    + intros x Hx. rewrite Hg by done. auto.
    + exists y. split; [done|]. rewrite Hg by done. split; [done|]. intros x Hx Hne. rewrite Hg by done. auto.
Qed.

(** [conns_inv] of a node that a step of two other nodes leaves alone. *)
Lemma conns_inv_other st i k m n : m <> i -> m <> k -> conns_inv st m n -> conns_inv (advance st i k) m n.
Proof.
  intros Hi Hk [H1 H2 H3 H4 H5]. split; try done.
  - apply (connector_inv_ext (st m) _ m n n); try done. intros x _. apply advance_other. by left.
  - apply (listener_inv_ext (λ x, st x m) _ m n n); try done. intros x _. apply advance_other. by right.
  - intros x. rewrite H4. unfold thread_count. by rewrite (advance_other st i k x m) by (by right).
  - intros Hc x Hx. rewrite advance_other by (by right). auto.
Qed.

(** A step from [i] to [k] that changes those two nodes. *)
Lemma advance_inv st i k nodes nodes' ni nk ni' nk' : caches_inv st nodes -> 0 <= i < k -> k < caches ->
  nodes.[i] = Some ni -> nodes.[k] = Some nk -> zlen nodes' = zlen nodes -> st i k < 6 ->
  (forall m, nodes'.[m] = if m =? i then Some ni' else if m =? k then Some nk' else nodes.[m]) ->
  (conns_inv st i ni -> conns_inv st k nk -> conns_inv (advance st i k) i ni' /\ conns_inv (advance st i k) k nk') ->
  caches_inv (advance st i k) nodes'.
Proof.
  intros [L Hn Hst] Hi Hk Ei Ek Hlen Hlt K H. destruct (H (Hn i ni Ei) (Hn k nk Ek)) as [Hni Hnk]. split; [lia| |].
  - intros m n. rewrite K. destruct (Z.eqb_spec m i) as [->|Hmi]; [by intros [= <-]|].
    destruct (Z.eqb_spec m k) as [->|Hmk]; [by intros [= <-]|]. intros Em. apply conns_inv_other; auto.
  - intros a b Ha Hb. pose proof (Hst a b Ha Hb). unfold advance. destruct (Z.eqb_spec a i) as [->|]; [|done].
    destruct (Z.eqb_spec b k) as [->|]; cbn; lia.
Qed.
(** * What the steps do *)

Definition to (c : channel) (k : Z) : connect_pc := match c with Control => ToControl k | Data => ToData k end.
Definition await (c : channel) (i k : Z) : connect_pc :=
  match c with Control => AwaitControl k (CacheSock i k c true) | Data => AwaitData k (CacheSock i k c true) end.
Definition after (c : channel) (k : Z) : connect_pc := match c with Control => ToData k | Data => ToControl (k + 1) end.
Definition max_tries (c : channel) : nat := match c with Control => 3%nat | Data => 1%nat end.

Lemma connect_spec c i k ni nk nodes : nodes.[i] = Some ni -> nodes.[k] = Some nk -> i <> k -> k < caches ->
  constructing ni = to c k -> exists nodes',
    zlen nodes' = zlen nodes /\
    (forall m, nodes'.[m] = if m =? i then Some (set_constructing (await c i k) ni)
       else if m =? k then Some (set_backlog c (backlog c nk ++ [hello i k c]) nk) else nodes.[m]) /\
    forall tries r, construct_turn caches tries r i nodes =
      if existsb id (take (max_tries c) tries) then Ret nodes' else Abort.
Proof.
  intros Ei Ek Hne Hk Hpc. pose proof (zlook_Some_range _ _ _ Ei). pose proof (zlook_Some_range _ _ _ Ek).
  destruct (wr_ok nodes k (set_backlog c (backlog c nk ++ [hello i k c]) nk)) as (n1 & W1 & L1 & K1); [done|].
  destruct (wr_ok n1 i (set_constructing (await c i k) ni)) as (n2 & W2 & L2 & K2); [lia|].
  exists n2. split; [lia|]. split; [intros m; rewrite K2, K1; by destruct (m =? i)|]. intros tries r.
  assert (n1.[i] = Some ni) as E1 by (by rewrite K1, (proj2 (Z.eqb_neq i k))).
  unfold construct_turn. rewrite (rd_ok _ _ _ Ei), bind_ret, Hpc. unfold connect_hello.
  destruct c; cbn [to max_tries]; [rewrite (proj2 (Z.ltb_lt k caches)) by done|];
    (destruct (existsb _ _); cbn [c_assert]; [|done]; rewrite bind_ret, (rd_ok _ _ _ Ek), bind_ret);
    [set (w := wr nodes k _); assert (w = Ret n1) as -> by exact W1
    |set (w := wr nodes k _); assert (w = Ret n1) as -> by exact W1];
    rewrite !bind_ret, (rd_ok _ _ _ E1), bind_ret; exact W2.
Qed.

Lemma take_reply_spec sock p q : (sock, p) ∈ q -> NoDup q -> (forall p', (sock, p') ∈ q -> p' = p) -> exists q',
  take_reply sock q = Some (p, q') /\ NoDup q' /\ forall e, e ∈ q' <-> e ∈ q /\ e <> (sock, p).
Proof.
  induction q as [|[s x] q IH]; intros Hin Hnd Huniq; [by apply not_elem_of_nil in Hin|].
  apply NoDup_cons in Hnd as [Hx Hnd]. cbn. case_decide as Hs.
  - subst s. assert (x = p) as -> by (apply Huniq; left). exists q. split; [done|]. split; [done|]. intros e.
    rewrite elem_of_cons. split; [intros He; split; [by right|intros ->; done]|]. intros [[->|He] Hne]; done.
  - apply elem_of_cons in Hin as [[= -> _]|Hin]; [done|]. destruct IH as (q' & -> & Hnd' & Hq'); [done|done|intros; apply Huniq; by right|].
    exists ((s, x) :: q'). split; [done|]. split; [constructor; [by rewrite Hq'; intros []|done]|]. intros e. rewrite !elem_of_cons, Hq'.
    split; [intros [->|[He Hne]]; [split; [by left|congruence]|tauto]|tauto].
Qed.

Lemma receive_spec c i k ni nodes : nodes.[i] = Some ni -> constructing ni = await c i k -> NoDup (replies ni) ->
  reply i k c ∈ replies ni -> (forall p, (CacheSock i k c true, p) ∈ replies ni -> p = Hello CACHE_HELLO_MAGIC k) ->
  0 <= k < zlen (sockets c ni) -> exists t q nodes',
    zlen t = zlen (sockets c ni) /\
    (forall m, t.[m] = if m =? k then Some (Some (CacheSock i k c true)) else (sockets c ni).[m]) /\
    NoDup q /\ (forall e, e ∈ q <-> e ∈ replies ni /\ e <> reply i k c) /\
    zlen nodes' = zlen nodes /\
    (forall m, nodes'.[m] = if m =? i then Some (set_constructing (after c k) (set_sockets c t (set_replies q ni))) else nodes.[m]) /\
    forall tries, construct_turn caches tries true i nodes = Ret nodes'.
Proof.
  intros Ei Hpc Hnd Hin Huniq Hk. pose proof (zlook_Some_range _ _ _ Ei).
  destruct (take_reply_spec _ _ _ Hin Hnd Huniq) as (q & E & Hndq & Hq).
  destruct (wr_ok (sockets c ni) k (Some (CacheSock i k c true)) Hk) as (t & Wt & Lt & Kt).
  destruct (wr_ok nodes i (set_constructing (after c k) (set_sockets c t (set_replies q ni)))) as (n' & W & L & K); [done|].
  exists t, q, n'. do 6 (split; [done|]). intros tries. unfold construct_turn. rewrite (rd_ok _ _ _ Ei), bind_ret, Hpc.
  destruct c; cbn [await]; unfold await_hello; rewrite E; cbn [magic cacheid andb]; rewrite !Z.eqb_refl; cbn [c_assert andb];
    rewrite bind_ret, Wt, !bind_ret; exact W.
Qed.

Definition accept_chan (j : Z) : channel := if j mod 2 =? 0 then Control else Data.
Definition accepted_node (c : channel) (x : Z) (q : list (cache_socket * CacheHelloPackage)) (t : list (option cache_socket))
    (pc : listen_pc) (n : cache_conns) : cache_conns :=
  set_listening pc ((if decide (c = Control) then start_threads [x] else id) (set_sockets c t (set_backlog c q n))).
Definition after_accept (c : channel) (a : Z) : listen_pc := match c with Control => ListenAt a 1 | Data => ListenAt (a + 1) 0 end.

Lemma accept_spec c a i k q ni nk nodes : nodes.[k] = Some nk -> nodes.[i] = Some ni -> 0 <= i < k -> k < caches ->
  listening nk = ListenAt a (match c with Control => 0 | Data => 1 end) -> a < k -> backlog c nk = hello i k c :: q ->
  zlen (sockets c nk) = caches -> exists t nodes',
    zlen t = caches /\ (forall m, t.[m] = if m =? i then Some (Some (CacheSock i k c false)) else (sockets c nk).[m]) /\
    zlen nodes' = zlen nodes /\
    (forall m, nodes'.[m] = if m =? i then Some (set_replies (replies ni ++ [reply i k c]) ni)
       else if m =? k then Some (accepted_node c i q t (after_accept c a) nk) else nodes.[m]) /\
    ListenSocketProc_turn true true k nodes = Ret nodes'.
Proof.
  intros Ek Ei Hi Hk Hpc Ha Hb Ht. pose proof (zlook_Some_range _ _ _ Ek). pose proof (zlook_Some_range _ _ _ Ei).
  destruct (wr_ok (sockets c nk) i (Some (CacheSock i k c false))) as (t & Wt & Lt & Kt); [lia|].
  destruct (wr_ok nodes k (accepted_node c i q t (after_accept c a) nk)) as (n1 & W1 & L1 & K1); [done|].
  destruct (wr_ok n1 i (set_replies (replies ni ++ [reply i k c]) ni)) as (n2 & W2 & L2 & K2); [lia|].
  exists t, n2. split; [lia|]. split; [done|]. split; [lia|]. split; [intros m; rewrite K2, K1; by destruct (m =? i)|].
  assert (n1.[i] = Some ni) as E1 by (by rewrite K1, (proj2 (Z.eqb_neq i k)) by lia).
  unfold ListenSocketProc_turn. rewrite (rd_ok _ _ _ Ek), bind_ret, Hpc, (proj2 (Z.ltb_lt a k)) by done.
  assert (send_reply (CacheSock i k c false) (Hello CACHE_HELLO_MAGIC k) n1 = Ret n2) as Hr.
  { unfold send_reply. cbn [connector listener chan]. rewrite (rd_ok _ _ _ E1), bind_ret. exact W2. }
  destruct c; [change (0 mod 2 =? 0) with true; change (0 + 1 <? 2) with true
              |change (1 mod 2 =? 0) with false; change (1 + 1 <? 2) with false]; cbv iota zeta;
    rewrite Hb; unfold hello; cbn [magic cacheid negb orb]; rewrite Z.eqb_refl, (proj2 (Z.leb_gt k i)) by lia; cbn [negb orb];
    rewrite sockets_set_backlog, Wt, bind_ret; rewrite <- Hr;
    match goal with |- (?w ≫= _) = _ => assert (w = Ret n1) as -> by exact W1 end; by rewrite bind_ret.
Qed.

Lemma construct_end i ni nodes : nodes.[i] = Some ni -> constructing ni = ToControl caches -> listener_done i ni = true -> exists nodes',
  wr nodes i (set_constructing Constructed (start_threads (protocal_threads caches i) ni)) = Ret nodes' /\
  forall tries, construct_turn caches tries true i nodes = Ret nodes'.
Proof.
  intros Ei Hpc Hd. pose proof (zlook_Some_range _ _ _ Ei).
  destruct (wr_ok nodes i (set_constructing Constructed (start_threads (protocal_threads caches i) ni))) as (n' & W & _); [done|].
  exists n'. split; [done|]. intros tries. unfold construct_turn. rewrite (rd_ok _ _ _ Ei), bind_ret, Hpc, Z.ltb_irrefl, Hd. exact W.
Qed.
(** * The halves of a step *)

Lemma stage_to f c i k n : connector_inv f i n -> constructing n = to c k -> k < caches -> i < k /\ f k = base c.
Proof. intros [H1 _ _ H4 _ _ _] E Hk. rewrite E in H1, H4. destruct c; cbn in *; split; try apply H4; lia. Qed.

Lemma stage_await f c i k n : connector_inv f i n -> constructing n = await c i k ->
  i < k < caches /\ (f k = base c + 1 \/ f k = base c + 2).
Proof. intros [H1 _ _ H4 _ _ _] E. rewrite E in H1, H4. destruct c; cbn in *; lia. Qed.

Lemma connect_connector st c i k n : conns_inv st i n -> constructing n = to c k -> k < caches ->
  conns_inv (advance st i k) i (set_constructing (await c i k) n).
Proof.
  intros [T C L Th D] Hpc Hk. destruct (stage_to _ _ _ _ _ C Hpc Hk) as [Hik Hst]. destruct C as [C1 C2 C3 C4 C5 C6 C7].
  assert (target (constructing n) = k) as Et by (rewrite Hpc; by destruct c). rewrite Et in *.
  assert (target (await c i k) = k) as Et' by by destruct c.
  assert (forall x, advance st i k i x = if x =? k then st i x + 1 else st i x) as Hf by (intros x; unfold advance; by rewrite Z.eqb_refl).
  split; [by destruct c| | |intros x; cbn; rewrite Th|by destruct c].
  - split; cbn [constructing set_constructing replies]; rewrite ?Et'; try done.
    + intros x Hx. rewrite Hf, (proj2 (Z.eqb_neq x k)) by lia. auto.
    + intros x Hx. rewrite Hf, (proj2 (Z.eqb_neq x k)) by lia. auto.
    + rewrite Hf, Z.eqb_refl, Hst. destruct c; cbn; (split; [done|]; split; [done|lia]).
    + intros c' x Hx. transitivity (sockets c' n).[x]; [by destruct c'|]. rewrite C5, Hf by done.
      destruct (Z.eqb_spec x k) as [->|]; [|done]. rewrite Hst. by destruct c, c'.
    + intros e. rewrite C7. split; intros (c' & x & Hx & E & ->); exists c', x; (split; [done|]; split; [|done]);
        rewrite Hf in *; destruct (Z.eqb_spec x k) as [->|]; try done; destruct c, c'; cbn in *; lia.
  - apply (listener_inv_ext (λ x, st x i) _ i n); try done; try by intros [].
    intros x Hx. apply advance_other. right. lia.
  - unfold thread_count. rewrite (advance_other st i k x i) by (right; lia). f_equal. rewrite Hpc. by destruct c.
Qed.

(** A listener whose peer [i] moves on without [accept]. *)
Lemma listener_turn st c i k n q : conns_inv st k n -> 0 <= i < k -> k < caches ->
  (st i k = base c /\ q = backlog c n ++ [hello i k c] \/ st i k = base c + 2 /\ q = backlog c n) ->
  conns_inv (advance st i k) k (set_backlog c q n).
Proof.
  intros [T C L Th D] Hi Hk Hq.
  assert (forall x, advance st i k x k = if x =? i then st x k + 1 else st x k) as Hg.
  { intros x. unfold advance. rewrite Z.eqb_refl, andb_true_r. done. }
  destruct (other_fields c [] q n) as (_ & _ & _ & _ & F1 & F2 & F3 & F4).
  assert (forall x lo, (lo = 2 \/ lo = 5) -> (lo <=? advance st i k x k) = (lo <=? st x k)) as Hlo.
  { intros x lo Hlo. rewrite Hg. destruct (Z.eqb_spec x i) as [->|]; [|done]. destruct Hq as [[-> _]|[-> _]], Hlo as [-> | ->], c; done. }
  assert (forall x, half (advance st i k x k) <-> half (st x k)) as Hhalf.
  { intros x. rewrite Hg. destruct (Z.eqb_spec x i) as [->|]; [|done]. unfold half. destruct Hq as [[-> _]|[-> _]], c; cbn; lia. }
  split.
  - intros c'. by rewrite sockets_set_backlog.
  - apply (connector_inv_ext (st k) _ k n); try done; [intros x Hx; apply advance_other; left; lia|].
    intros c' x Hx. by rewrite sockets_set_backlog.
  - destruct L as [L1 L2 L3 (j & L4 & L5)]. split.
    + intros c' x Hx. rewrite sockets_set_backlog, Hlo by (destruct c'; cbn; lia). auto.
    + intros c'. rewrite backlog_set. case_decide as Hc; [|done]. subst c'. destruct Hq as [[Est ->]|[_ ->]]; [|done].
      apply NoDup_app. split; [done|]. split; [|apply NoDup_singleton]. intros e He ->%list_elem_of_singleton.
      apply L3 in He as (x & Hx & E & Eh). injection Eh as ->. lia.
    + intros c' e. rewrite backlog_set. case_decide as Hc; [subst c'; destruct Hq as [[Est ->]|[Est ->]]|].
      * rewrite elem_of_app, list_elem_of_singleton, L3. split.
        { intros [(x & Hx & E & ->)| ->]; [|exists i; by rewrite Hg, Z.eqb_refl, Est].
          exists x. rewrite Hg. destruct (Z.eqb_spec x i) as [->|]; [lia|done]. }
        { intros (x & Hx & E & ->). rewrite Hg in E. destruct (Z.eqb_spec x i) as [->|]; [by right|]. left. by exists x. }
      * rewrite L3. split; intros (x & Hx & E & ->); exists x; rewrite Hg in *; destruct (Z.eqb_spec x i) as [->|]; lia || done.
      * rewrite L3. split; intros (x & Hx & E & ->); exists x; rewrite Hg in *; destruct (Z.eqb_spec x i) as [->|]; try done;
          destruct Hq as [[Est _]|[Est _]], c, c'; cbn in *; lia || done.
    + exists j. rewrite F3, L4. rewrite (count_same (both (λ x, advance st i k x k)) (both (λ x, st x k))); [|intros y _; apply Hlo; by right].
      split; [done|]. setoid_rewrite Hhalf. done.
  - intros x. rewrite F1, F4, Th. unfold thread_count. f_equal. apply decide_ext.
    pose proof (Hlo x 2 (or_introl eq_refl)) as H2. destruct (Z.leb_spec 2 (advance st i k x k)), (Z.leb_spec 2 (st x k)); (done || lia).
  - rewrite F4. intros Hc x Hx. specialize (D Hc x Hx). pose proof (Hlo x 5 (or_intror eq_refl)) as H5.
    destruct (Z.leb_spec 5 (advance st i k x k)), (Z.leb_spec 5 (st x k)); (done || lia).
Qed.

Lemma accept_connector st c i k n : conns_inv st i n -> 0 <= i < k -> k < caches -> st i k = base c + 1 ->
  conns_inv (advance st i k) i (set_replies (replies n ++ [reply i k c]) n).
Proof.
  intros [T C L Th D] Hi Hk Hst. pose proof C as [C1 C2 C3 C4 C5 C6 C7].
  assert (target (constructing n) = k) as Et.
  { destruct (Z.lt_trichotomy k (target (constructing n))) as [H|[H|H]]; [|done|].
    - rewrite (C2 k) in Hst by lia. destruct c; done.
    - rewrite (C3 k) in Hst by lia. destruct c; done. }
  assert (constructing n = await c i k) as Hpc.
  { rewrite Et, Hst in C4. destruct (constructing n), c; cbn in Et, C4 |- *; destruct_and?; subst; try done; lia. }
  assert (forall x, advance st i k i x = if x =? k then st i x + 1 else st i x) as Hf by (intros x; unfold advance; by rewrite Z.eqb_refl).
  split; [done| | |intros x; cbn; rewrite Th|intros Hc x Hx; rewrite advance_other by (right; lia); by apply D].
  - split; cbn [constructing set_replies replies]; try done.
    + intros x Hx. rewrite Hf, (proj2 (Z.eqb_neq x k)) by lia. auto.
    + intros x Hx. rewrite Hf, (proj2 (Z.eqb_neq x k)) by lia. auto.
    + rewrite Et, Hf, Z.eqb_refl, Hst, Hpc. destruct c; cbn; (split; [done|]; split; [done|lia]).
    + intros c' x Hx. transitivity (sockets c' n).[x]; [by destruct c'|]. rewrite C5, Hf by done.
      destruct (Z.eqb_spec x k) as [->|]; [|done]. rewrite Hst. by destruct c, c'.
    + apply NoDup_app. split; [done|]. split; [|apply NoDup_singleton]. intros e He ->%list_elem_of_singleton.
      apply C7 in He as (c' & x & Hx & E & Eh). injection Eh as -> ->. lia.
    + intros e. rewrite elem_of_app, list_elem_of_singleton, C7. split.
      * intros [(c' & x & Hx & E & ->)| ->]; [|exists c, k; rewrite Hf, Z.eqb_refl; split; [lia|split; [lia|done]]].
        exists c', x. rewrite Hf. destruct (Z.eqb_spec x k) as [->|]; [destruct c, c'; cbn in *; lia|done].
      * intros (c' & x & Hx & E & ->). rewrite Hf in E. destruct (Z.eqb_spec x k) as [->|].
        { right. assert (c' = c) as -> by (destruct c, c'; cbn in *; done || lia). done. }
        { left. by exists c', x. }
  - apply (listener_inv_ext (λ x, st x i) _ i n); try done. intros x Hx. apply advance_other. right. lia.
  - unfold thread_count. rewrite (advance_other st i k x i) by (right; lia). done.
Qed.
Lemma receive_connector st c i k n t q : conns_inv st i n -> constructing n = await c i k -> st i k = base c + 2 ->
  zlen t = caches -> (forall m, t.[m] = if m =? k then Some (Some (CacheSock i k c true)) else (sockets c n).[m]) ->
  NoDup q -> (forall e, e ∈ q <-> e ∈ replies n /\ e <> reply i k c) ->
  conns_inv (advance st i k) i (set_constructing (after c k) (set_sockets c t (set_replies q n))).
Proof.
  intros [T C L Th D] Hpc Hst Ht Kt Hnd Hq. destruct (stage_await _ _ _ _ _ C Hpc) as [Hik _]. destruct C as [C1 C2 C3 C4 C5 C6 C7].
  assert (target (constructing n) = k) as Et by (rewrite Hpc; by destruct c). rewrite Et in *.
  assert (forall x, advance st i k i x = if x =? k then st i x + 1 else st i x) as Hf by (intros x; unfold advance; by rewrite Z.eqb_refl).
  set (n' := set_constructing _ _).
  assert (forall c', sockets c' n' = if decide (c' = c) then t else sockets c' n) as Hs by (by intros []; destruct c).
  assert (replies n' = q /\ constructing n' = after c k /\ threads n' = threads n /\ listening n' = listening n) as (F1 & F2 & F3 & F4)
    by by destruct c.
  split.
  - intros c'. rewrite Hs. case_decide; [done|apply T].
  - split; rewrite ?F1, ?F2; try done.
    + destruct c; cbn; lia.
    + intros x Hx. rewrite Hf. destruct (Z.eqb_spec x k) as [->|]; [|apply C2; destruct c; cbn in Hx; lia]. destruct c; cbn in *; lia.
    + intros x Hx. rewrite Hf. destruct (Z.eqb_spec x k) as [->|]; [|apply C3; destruct c; cbn in Hx; lia]. destruct c; cbn in *; lia.
    + rewrite Hf. destruct c; cbn; [rewrite Z.eqb_refl, Hst; cbn; lia|]. intros Hk. rewrite (proj2 (Z.eqb_neq (k + 1) k)) by lia. apply C3. lia.
    + intros c' x Hx. rewrite Hs, Hf. case_decide as Hc; [subst c'; rewrite Kt|]; [|rewrite C5 by done];
        (destruct (Z.eqb_spec x k) as [->|]; [rewrite Hst|]; rewrite ?C5 by done); [|done| |done].
      * rewrite (proj2 (Z.leb_le _ _)) by lia. done.
      * destruct c, c'; done.
    + intros e. rewrite Hq, C7. split.
      * intros [(c' & x & Hx & E & ->) Hne]. exists c', x. rewrite Hf. destruct (Z.eqb_spec x k) as [->|]; [|done].
        destruct Hne. assert (c' = c) as -> by (destruct c, c'; cbn in *; done || lia). done.
      * intros (c' & x & Hx & E & ->). rewrite Hf in E. destruct (Z.eqb_spec x k) as [->|Hne]; [destruct c, c'; cbn in *; lia|].
        split; [by exists c', x|]. intros [=]. congruence.
  - apply (listener_inv_ext (λ x, st x i) _ i n); try done.
    + intros x Hx. apply advance_other. right. lia.
    + intros c' x Hx. rewrite Hs. case_decide as Hc; [subst c'|done]. rewrite Kt, (proj2 (Z.eqb_neq x k)) by lia. done.
    + intros c'. by destruct c, c'.
  - intros x. rewrite F2, F3, Th. unfold thread_count. rewrite (advance_other st i k x i) by (right; lia). f_equal. rewrite Hpc. by destruct c.
  - rewrite F2. by destruct c.
Qed.

(** Where the listener is after an [accept]. *)
Lemma accept_pc st c i k j : 0 <= i < k -> st i k = base c + 1 -> j = (match c with Control => 0 | Data => 1 end) ->
  (j = 0 /\ (forall x, 0 <= x < k -> ~ half (st x k)) \/
   j = 1 /\ exists y, 0 <= y < k /\ half (st y k) /\ forall x, 0 <= x < k -> x <> y -> ~ half (st x k)) ->
  exists j', after_accept c (count (both (λ x, st x k)) (seqZ 0 k)) = ListenAt (count (both (λ x, advance st i k x k)) (seqZ 0 k)) j' /\
    (j' = 0 /\ (forall x, 0 <= x < k -> ~ half (advance st i k x k)) \/
     j' = 1 /\ exists y, 0 <= y < k /\ half (advance st i k y k) /\ forall x, 0 <= x < k -> x <> y -> ~ half (advance st i k x k)).
Proof.
  intros Hi Hst Ej L5.
  assert (forall x, advance st i k x k = if x =? i then st x k + 1 else st x k) as Hg.
  { intros x. unfold advance. rewrite Z.eqb_refl, andb_true_r. done. }
  assert (i ∈ seqZ 0 k) as Hin by (apply elem_of_seqZ; lia). destruct c.
  - exists 1. cbn [after_accept]. rewrite (count_same (both (λ x, advance st i k x k)) (both (λ x, st x k))); [|intros y _; unfold both; rewrite Hg;
      destruct (Z.eqb_spec y i) as [->|]; [rewrite Hst; done|done]]. split; [done|]. right. split; [done|].
    exists i. rewrite Hg, Z.eqb_refl, Hst. split; [done|]. split; [unfold half; cbn; lia|]. intros x Hx Hne.
    rewrite Hg, (proj2 (Z.eqb_neq x i)) by done. destruct L5 as [[_ L5]|[L5 _]]; [by apply L5|lia].
  - exists 0. cbn [after_accept]. rewrite (count_change (both (λ x, st x k)) (both (λ x, advance st i k x k)) (seqZ 0 k) i);
      [|apply NoDup_seqZ|done|unfold both; by rewrite Hst|unfold both; by rewrite Hg, Z.eqb_refl, Hst|
       intros y _ Hy; unfold both; by rewrite Hg, (proj2 (Z.eqb_neq y i))].
    split; [done|]. left. split; [done|]. destruct L5 as [[L5 _]|[_ (y & Hy & Hh & L5)]]; [lia|].
    assert (y = i) as -> by (destruct (decide (y = i)); [done|]; exfalso; apply (L5 i); [lia|done|rewrite Hst; unfold half; cbn; lia]).
    intros x Hx. rewrite Hg. destruct (Z.eqb_spec x i) as [->|Hne]; [rewrite Hst; unfold half; cbn; lia|by apply L5].
Qed.

Lemma accept_listener st c i k n q t : conns_inv st k n -> 0 <= i < k -> k < caches -> st i k = base c + 1 ->
  backlog c n = hello i k c :: q -> zlen t = caches ->
  (forall m, t.[m] = if m =? i then Some (Some (CacheSock i k c false)) else (sockets c n).[m]) ->
  listening n = ListenAt (count (both (λ x, st x k)) (seqZ 0 k)) (match c with Control => 0 | Data => 1 end) ->
  conns_inv (advance st i k) k (accepted_node c i q t (after_accept c (count (both (λ x, st x k)) (seqZ 0 k))) n).
Proof.
  intros [T C L Th D] Hi Hk Hst Hb Ht Kt Hpc.
  assert (forall x, advance st i k x k = if x =? i then st x k + 1 else st x k) as Hg.
  { intros x. unfold advance. rewrite Z.eqb_refl, andb_true_r. done. }
  set (n' := accepted_node _ _ _ _ _ _).
  assert (forall c', sockets c' n' = if decide (c' = c) then t else sockets c' n) as Hs by (by intros []; destruct c).
  assert (forall c', backlog c' n' = if decide (c' = c) then q else backlog c' n) as Hb' by (by intros []; destruct c).
  assert (replies n' = replies n /\ constructing n' = constructing n) as (F1 & F2) by by destruct c.
  assert (forall x, occ x (threads n') = (occ x (threads n) + if decide (c = Control /\ x = i) then 1 else 0)%nat) as F3.
  { intros x. assert (threads n' = threads n ++ if decide (c = Control) then [i] else []) as ->; [|rewrite occ_app; f_equal].
    - unfold n', accepted_node. case_decide; destruct c; cbn; try done. by rewrite app_nil_r.
    - repeat case_decide; cbn; repeat case_decide; naive_solver. }
  assert (listening n' = after_accept c (count (both (λ x, st x k)) (seqZ 0 k))) as F4 by by destruct c. clearbody n'.
  destruct L as [L1 L2 L3 (j & L4 & L5)]. rewrite Hpc in L4. injection L4 as Ej. split.
  - intros c'. rewrite Hs. destruct (decide _); [done|apply T].
  - apply (connector_inv_ext (st k) _ k n); try done; [intros x Hx; apply advance_other; left; lia|].
    intros c' x Hx. rewrite Hs. destruct (decide (c' = c)) as [Hc|Hc]; [subst c'|done]. rewrite Kt, (proj2 (Z.eqb_neq x i)) by lia. done.
  - split.
    + intros c' x Hx. rewrite Hs, Hg. destruct (decide (c' = c)) as [Hc|Hc]; [subst c'; rewrite Kt|]; [|rewrite L1 by done];
        (destruct (Z.eqb_spec x i) as [->|]; [rewrite Hst|]; rewrite ?L1 by done); [|done| |done].
      * rewrite (proj2 (Z.leb_le _ _)) by lia. done.
      * destruct c, c'; done.
    + intros c'. rewrite Hb'. destruct (decide (c' = c)) as [Hc|Hc]; [subst c'|done]. specialize (L2 c). rewrite Hb in L2. by apply NoDup_cons in L2 as [_ L2].
    + intros c' e. rewrite Hb'. destruct (decide (c' = c)) as [Hc|Hc].
      * subst c'. pose proof (L2 c) as Hnd. rewrite Hb in Hnd. apply NoDup_cons in Hnd as [Hnew _].
        specialize (L3 c e). rewrite Hb, elem_of_cons in L3. split.
        { intros He. destruct (proj1 L3 (or_intror He)) as (x & Hx & E & ->). exists x. rewrite Hg.
          destruct (Z.eqb_spec x i) as [->|]; [by destruct Hnew|done]. }
        { intros (x & Hx & E & ->). rewrite Hg in E. destruct (Z.eqb_spec x i) as [->|Hne]; [lia|].
          destruct (proj2 L3) as [Heq|]; [by exists x| |done]. injection Heq. congruence. }
      * rewrite L3. split; intros (x & Hx & E & ->); exists x; rewrite Hg in *; destruct (Z.eqb_spec x i) as [->|]; try done;
          destruct c, c'; cbn in *; lia || done.
    + rewrite F4. apply (accept_pc st c i k j); [lia|done|by rewrite Ej|done].
  - intros x. rewrite F2, F3, Th. unfold thread_count. rewrite Hg. destruct (Z.eqb_spec x i) as [->|Hne].
    + rewrite Hst. destruct c; repeat case_decide; cbn in *; naive_solver lia.
    + rewrite (decide_False (P := c = Control /\ x = i)) by tauto. lia.
  - rewrite F2. intros Hc x Hx. specialize (D Hc x Hx). rewrite Hg. destruct (x =? i); lia.
Qed.
(** * Steps of all the caches *)

(** What the two threads of cache [k] still do. *)
Definition conns_left (k : Z) (n : cache_conns) : Z :=
  match constructing n with
  | ToControl i => 4 * (caches - i) + 1
  | AwaitControl i _ => 4 * (caches - i)
  | ToData i => 4 * (caches - i) - 1
  | AwaitData i _ => 4 * (caches - i) - 2
  | Constructed => 0
  end + match listening n with ListenAt i j => 2 * (k - i) - j | ListenReturned => 0 end.

(** A step that keeps the invariant and leaves one less to do. *)
Definition good_step (st' : Z -> Z -> Z) (nodes nodes' : list cache_conns) : Prop :=
  caches_inv st' nodes' /\ node_sum conns_left 0 nodes' = node_sum conns_left 0 nodes - 1.

Lemma connect_good st c i k n nodes : caches_inv st nodes -> nodes.[i] = Some n -> constructing n = to c k -> k < caches ->
  exists nodes', good_step (advance st i k) nodes nodes' /\
    forall tries r, construct_turn caches tries r i nodes = if existsb id (take (max_tries c) tries) then Ret nodes' else Abort.
Proof.
  intros HI Ei Hpc Hk. pose proof HI as [L Hn Hst]. pose proof (zlook_Some_range _ _ _ Ei).
  destruct (stage_to _ _ _ _ _ (ci_connector _ _ _ (Hn i n Ei)) Hpc Hk) as [Hik Hs].
  destruct (zlook_is_Some nodes k) as [nk Ek]; [lia|].
  destruct (connect_spec c i k n nk nodes Ei Ek) as (nodes' & Hl & K & Ht); [lia|done..|]. exists nodes'. split; [split|done].
  - apply (advance_inv st i k nodes nodes' n nk _ _ HI ltac:(lia) Hk Ei Ek Hl) with (2 := K); [rewrite Hs; by destruct c|].
    intros Hi' Hk'. split; [by apply connect_connector|]. apply listener_turn; [done|lia|done|]. by left.
  - rewrite (node_sum_two conns_left nodes nodes' i k n nk _ _ ltac:(lia) Ei Ek Hl K).
    unfold conns_left. rewrite Hpc. destruct c; cbn; lia.
Qed.

Lemma receive_good st c i k n nodes : caches_inv st nodes -> nodes.[i] = Some n -> constructing n = await c i k -> st i k = base c + 2 ->
  exists nodes', good_step (advance st i k) nodes nodes' /\ forall tries, construct_turn caches tries true i nodes = Ret nodes'.
Proof.
  intros HI Ei Hpc Hs. pose proof HI as [L Hn Hst]. pose proof (zlook_Some_range _ _ _ Ei).
  pose proof (ci_connector _ _ _ (Hn i n Ei)) as C. destruct (stage_await _ _ _ _ _ C Hpc) as [Hik _]. pose proof C as [C1 C2 C3 C4 C5 C6 C7].
  destruct (zlook_is_Some nodes k) as [nk Ek]; [lia|].
  destruct (receive_spec c i k n nodes Ei Hpc C6) as (t & q & nodes' & Ht & Kt & Hnd & Hq & Hl & K & Hrun).
  - apply C7. exists c, k. split; [lia|]. done.
  - intros p (c' & x & Hx & E & Eq)%C7. by injection Eq as -> -> ->.
  - rewrite (ci_tables _ _ _ (Hn i n Ei)). lia.
  - rewrite (ci_tables _ _ _ (Hn i n Ei)) in Ht. exists nodes'. split; [split|done].
    + apply (advance_inv st i k nodes nodes' n nk (set_constructing (after c k) (set_sockets c t (set_replies q n))) nk
        HI ltac:(lia) ltac:(lia) Ei Ek Hl); [rewrite Hs; by destruct c| |].
      * intros m. rewrite K. destruct (m =? i); [done|]. destruct (Z.eqb_spec m k) as [->|]; done.
      * intros Hi' Hk'. split; [by apply receive_connector|].
        assert (set_backlog c (backlog c nk) nk = nk) as E by (by destruct nk, c).
        rewrite <- E at 1. apply listener_turn; [done|lia|lia|]. by right.
    + destruct (wr_ok nodes i (set_constructing (after c k) (set_sockets c t (set_replies q n)))) as (n2 & W & L2 & K2); [done|].
      assert (nodes' = n2) as ->. { apply zlook_ext; [lia|]. intros m _. by rewrite K, K2. }
      rewrite (node_sum_wr conns_left nodes n2 i n _ Ei W). unfold conns_left. rewrite Hpc. destruct c; cbn; lia.
Qed.

Lemma accept_good st c a k n nodes : caches_inv st nodes -> nodes.[k] = Some n ->
  listening n = ListenAt a (match c with Control => 0 | Data => 1 end) -> backlog c n <> [] ->
  exists i nodes', good_step (advance st i k) nodes nodes' /\ ListenSocketProc_turn true true k nodes = Ret nodes' /\ a < k.
Proof.
  intros HI Ek Hpc Hb. pose proof HI as [L Hn Hst]. pose proof (zlook_Some_range _ _ _ Ek).
  pose proof (Hn k n Ek) as Nk. pose proof (ci_listener _ _ _ Nk) as [L1 L2 L3 (j & L4 & _)]. rewrite Hpc in L4. injection L4 as Ea _.
  destruct (backlog c n) as [|e q] eqn:Eb; [done|]. destruct (proj1 (L3 c e)) as (i & Hi & Hs & ->); [rewrite Eb; left|].
  destruct (zlook_is_Some nodes i) as [ni Ei]; [lia|].
  assert (a < k) as Hak.
  { assert (zlen (seqZ 0 k) = k) as <- by (unfold zlen; rewrite length_seqZ; lia). rewrite Ea.
    apply (count_missing _ _ i); [apply elem_of_seqZ; lia|]. unfold both. rewrite Hs. by destruct c. }
  destruct (accept_spec c a i k q ni n nodes Ek Ei Hi ltac:(lia) Hpc Hak Eb (ci_tables _ _ _ Nk c)) as (t & nodes' & Ht & Kt & Hl & K & Hrun).
  exists i, nodes'. split; [split|done].
  - apply (advance_inv st i k nodes nodes' ni n _ _ HI Hi ltac:(lia) Ei Ek Hl) with (2 := K); [rewrite Hs; by destruct c|].
    intros Hi' Hk'. split; [by apply accept_connector; try lia|]. subst a. by apply accept_listener; try lia.
  - rewrite (node_sum_two conns_left nodes nodes' i k ni n _ _ ltac:(lia) Ei Ek Hl K).
    assert (conns_left i (set_replies (replies ni ++ [reply i k c]) ni) = conns_left i ni) as -> by done.
    assert (constructing (accepted_node c i q t (after_accept c a) n) = constructing n /\
      listening (accepted_node c i q t (after_accept c a) n) = after_accept c a) as [E1 E2] by by destruct c.
    unfold conns_left. rewrite E1, E2, Hpc. destruct c; cbn; lia.
Qed.

Lemma protocal_threads_occ i x : occ x (protocal_threads caches i) = if decide (0 <= x < caches /\ x <> i) then 1%nat else 0%nat.
Proof.
  assert (NoDup (protocal_threads caches i)) as Hnd by (apply NoDup_filter, NoDup_seqZ).
  assert (x ∈ protocal_threads caches i <-> 0 <= x < caches /\ x <> i) as He.
  { unfold protocal_threads. rewrite list_elem_of_filter, elem_of_seqZ. lia. }
  assert (forall l : list Z, NoDup l -> (occ x l <= 1)%nat) as Hle.
  { clear. induction 1 as [|y l Hy Hnd IH]; cbn; [lia|]. case_decide as E; [|lia]. subst y.
    assert (~ (0 < occ x l)%nat) by (by rewrite <- occ_pos). lia. }
  specialize (Hle _ Hnd). rewrite (occ_pos x) in He. case_decide as Hd; [apply He in Hd; lia|].
  destruct (occ x _); [done|]. destruct Hd. apply He. lia.
Qed.

Lemma end_good st i n nodes : caches_inv st nodes -> nodes.[i] = Some n -> constructing n = ToControl caches -> listener_done i n = true ->
  exists nodes', good_step st nodes nodes' /\ forall tries, construct_turn caches tries true i nodes = Ret nodes'.
Proof.
  intros HI Ei Hpc Hd. pose proof HI as [L Hn Hst]. pose proof (zlook_Some_range _ _ _ Ei).
  destruct (construct_end i n nodes Ei Hpc Hd) as (nodes' & W & Hrun). exists nodes'. split; [split|done].
  - pose proof (wr_look _ _ _ _ W) as (Hl & _ & K). split; [lia| |done]. intros m x. rewrite K.
    destruct (Z.eqb_spec m i) as [->|]; [|apply Hn]. intros [= <-]. destruct (Hn i n Ei) as [T C Ls Th D]. split.
    + exact T.
    + destruct C as [C1 C2 C3 C4 C5 C6 C7]. rewrite Hpc in *. by split.
    + by apply (listener_inv_ext (λ x, st x i) _ i n).
    + intros x. cbn. rewrite occ_app, Th, protocal_threads_occ, Hpc. unfold thread_count. rewrite <- Nat.add_assoc. f_equal.
      rewrite decide_False by (by intros []). apply decide_ext. tauto.
    + intros _ x Hx. destruct Ls as [_ _ _ (j & L4 & L5)]. unfold listener_done in Hd. rewrite L4 in Hd. apply Z.leb_le in Hd.
      assert (zlen (seqZ 0 i) = i) as Hz by (unfold zlen; rewrite length_seqZ; lia).
      pose proof (count_le (both (λ x, st x i)) (seqZ 0 i)). assert (count (both (λ x, st x i)) (seqZ 0 i) = zlen (seqZ 0 i)) as E by lia.
      apply count_all in E. rewrite Forall_forall in E. apply Z.leb_le, (E x), elem_of_seqZ. lia.
  - rewrite (node_sum_wr conns_left nodes nodes' i n _ Ei W). unfold conns_left. rewrite Hpc. cbn. lia.
Qed.

Lemma take_reply_in sock q p q' : take_reply sock q = Some (p, q') -> (sock, p) ∈ q.
Proof.
  revert q'. induction q as [|[s x] q IH]; intros q' H; [done|]. cbn in H. case_decide as Hs; [subst; injection H as -> _; left|].
  destruct (take_reply sock q) as [[p1 q1]|]; cbn in H; [|done]. injection H as -> _. right. by eapply IH.
Qed.

(** The constructor waits for a reply only until the stage says that it was sent. *)
Lemma await_stage st c i k n nodes nodes' tries : caches_inv st nodes -> nodes.[i] = Some n -> constructing n = await c i k ->
  construct_turn caches tries true i nodes = Ret nodes' -> st i k = base c + 2.
Proof.
  intros [L Hn Hst] Ei Hpc Hrun. unfold construct_turn in Hrun. rewrite (rd_ok _ _ _ Ei), bind_ret, Hpc in Hrun.
  assert (exists p q, take_reply (CacheSock i k c true) (replies n) = Some (p, q)) as (p & q & E).
  { destruct c; cbn in Hrun; unfold await_hello in Hrun; destruct (take_reply _ _) as [[p q]|]; try done; by exists p, q. }
  apply take_reply_in in E. apply (con_replies _ _ _ (ci_connector _ _ _ (Hn i n Ei))) in E as (c' & x & Hx & E & Eq).
  by injection Eq as -> -> _.
Qed.

Lemma caches_step_good st nodes nodes' : caches_inv st nodes -> caches_step caches nodes nodes' -> exists st', good_step st' nodes nodes'.
Proof.
  intros HI Hstep. revert HI. destruct Hstep as [i nodes nodes' Hrun|tries i nodes nodes' Hrun]; intros HI.
  - pose proof Hrun as Hr. unfold ListenSocketProc_turn in Hr. apply bind_Ret_inv in Hr as (n & En%rd_Ret & Hr).
    pose proof HI as [L Hn Hst]. destruct (ci_listener _ _ _ (Hn i n En)) as [L1 L2 L3 (j & L4 & L5)]. rewrite L4 in Hr.
    case_test in Hr; [|done]. destruct L5 as [[-> _]|[-> _]].
    + destruct (accept_good st Control _ i n nodes HI En L4) as (x & n' & Hg & E & _); [intros Eb; change (0 mod 2 =? 0) with true in Hr; cbv iota zeta in Hr; by rewrite Eb in Hr|].
      rewrite E in Hrun. injection Hrun as <-. by eexists.
    + destruct (accept_good st Data _ i n nodes HI En L4) as (x & n' & Hg & E & _); [intros Eb; change (1 mod 2 =? 0) with false in Hr; cbv iota zeta in Hr; by rewrite Eb in Hr|].
      rewrite E in Hrun. injection Hrun as <-. by eexists.
  - pose proof Hrun as Hr. unfold construct_turn in Hr. apply bind_Ret_inv in Hr as (n & En%rd_Ret & Hr).
    pose proof (cs_node _ _ HI i n En) as N. pose proof (con_target _ _ _ (ci_connector _ _ _ N)) as Ht.
    pose proof (con_pc _ _ _ (ci_connector _ _ _ N)) as Hp.
    assert (forall c k, constructing n = to c k -> k < caches -> exists st', good_step st' nodes nodes') as Hto.
    { intros c k Hc Hk. destruct (connect_good st c i k n nodes HI En Hc Hk) as (n' & Hg & E). rewrite E in Hrun.
      destruct (existsb _ _); [|done]. injection Hrun as <-. by eexists. }
    assert (forall c k, constructing n = await c i k -> exists st', good_step st' nodes nodes') as Hawait.
    { intros c k Hc. pose proof (await_stage st c i k n nodes nodes' tries HI En Hc Hrun) as Hs.
      destruct (receive_good st c i k n nodes HI En Hc Hs) as (n' & Hg & E). rewrite E in Hrun. injection Hrun as <-. by eexists. }
    destruct (constructing n) as [k|k s|k|k s|] eqn:Hc; cbn in Ht, Hp.
    + case_test in Hr; [apply (Hto Control k); [done|lia]|]. case_test in Hr; [|done]. assert (k = caches) as -> by lia.
      destruct (end_good st i n nodes HI En Hc) as (n' & Hg & E); [done|]. rewrite E in Hrun. injection Hrun as <-. by eexists.
    + destruct Hp as (_ & -> & _). by apply (Hawait Control k).
    + apply (Hto Data k); [done|lia].
    + destruct Hp as (_ & -> & _). by apply (Hawait Data k).
    + done.
Qed.
(** * Progress *)

Lemma new_caches_inv : 0 <= caches -> caches_inv (λ _ _, 0) (new_caches caches).
Proof.
  intros H0. assert (forall k n, (new_caches caches).[k] = Some n -> n = new_conns caches k /\ 0 <= k < caches) as Hnew.
  { intros k n Hk. pose proof (zlook_Some_range _ _ _ Hk) as Hr. unfold new_caches in *. rewrite zlen_fmap in Hr. unfold zlen in Hr.
    rewrite length_seqZ in Hr. rewrite zlook_fmap, zlook_lookup, lookup_seqZ_lt in Hk by lia. cbn in Hk. injection Hk as <-. split; [f_equal; lia|lia]. }
  split; [unfold new_caches; rewrite zlen_fmap; unfold zlen; rewrite length_seqZ; lia| |lia].
  intros k n [-> Hk]%Hnew. split; try done.
  - intros []; apply zlen_replicate; lia.
  - split; cbn; try done; try lia; [intros c x Hx; rewrite (proj2 (Z.leb_gt _ _)) by (destruct c; cbn; lia);
      destruct c; apply zlook_replicate; lia|constructor|].
    intros e. split; [intros []%elem_of_nil|intros (c & x & _ & E & _); by destruct c].
  - split; [intros c x Hx; rewrite (proj2 (Z.leb_gt _ _)) by (destruct c; cbn; lia); destruct c; apply zlook_replicate; lia|
      intros []; constructor| |].
    + intros c e. split; [by destruct c; intros []%elem_of_nil|]. intros (x & _ & E & _). by destruct c.
    + exists 0. split; [|left; split; [done|]; unfold half; lia]. cbn. f_equal. induction (seqZ 0 k) as [|x l IH]; [done|]. by rewrite count_cons, <- IH.
  - intros x. unfold thread_count. rewrite !decide_False; [done|..]; [by intros []|lia].
Qed.

Lemma conns_left_nonneg st nodes : caches_inv st nodes -> 0 <= node_sum conns_left 0 nodes.
Proof.
  intros [Hlen Hn _]. apply node_sum_nonneg. intros i n Ei. pose proof (zlook_Some_range _ _ _ Ei). destruct (Hn i n Ei) as [T C Ls Th D].
  pose proof (con_target _ _ _ C) as Ht. pose proof (con_pc _ _ _ C) as Hp.
  destruct Ls as [_ _ _ (j & L4 & L5)]. unfold conns_left. rewrite L4.
  assert (zlen (seqZ 0 i) = i) as Hz by (unfold zlen; rewrite length_seqZ; lia).
  pose proof (count_le (both (λ x, st x i)) (seqZ 0 i)).
  assert (0 <= 2 * (i - count (both (λ x, st x i)) (seqZ 0 i)) - j).
  { destruct L5 as [[-> _]|[-> (y & Hy & Hh & _)]]; [lia|].
    pose proof (count_missing (both (λ x, st x i)) (seqZ 0 i) y) as Hm. rewrite elem_of_seqZ in Hm. unfold both, half in *. lia. }
  destruct (constructing n); cbn in *; lia.
Qed.

(** A connection that was accepted and is not yet confirmed can go on, and so can one whose
    data connection was made. *)
Lemma half_progress st i k nodes : caches_inv st nodes -> 0 <= i < k -> k < caches -> half (st i k) -> exists nodes', caches_step caches nodes nodes'.
Proof.
  intros HI Hi Hk Hh. pose proof HI as [L Hn Hst]. destruct (zlook_is_Some nodes i) as [n Ei]; [lia|]. destruct (zlook_is_Some nodes k) as [nk Ek]; [lia|].
  pose proof (ci_connector _ _ _ (Hn i n Ei)) as [C1 C2 C3 C4 _ _ _].
  assert (target (constructing n) = k) as Et.
  { unfold half in Hh. destruct (Z.lt_trichotomy k (target (constructing n))) as [H|[H|H]]; [rewrite (C2 k) in Hh by lia; lia|done|rewrite (C3 k) in Hh by lia; lia]. }
  rewrite Et in C4. unfold half in Hh. destruct (constructing n) as [x|x s|x|x s|] eqn:Hc; cbn in Et, C4; [lia|..|lia]; subst x.
  - destruct C4 as (_ & -> & Hs). destruct (receive_good st Control i k n nodes HI Ei Hc) as (nodes' & _ & E); [cbn; lia|].
    exists nodes'. by apply (caches_construct _ [true] i).
  - destruct (connect_good st Data i k n nodes HI Ei Hc) as (nodes' & _ & E); [done|]. exists nodes'. apply (caches_construct _ [true] i). by rewrite E.
  - destruct C4 as (_ & -> & Hs). destruct (decide (st i k = 5)) as [E5|]; [lia|].
    pose proof (ci_listener _ _ _ (Hn k nk Ek)) as [L1 L2 L3 (j & L4 & L5)].
    destruct L5 as [[-> L5]|[-> _]]; [by destruct (L5 i Hi)|].
    destruct (accept_good st Data _ k nk nodes HI Ek L4) as (y & nodes' & _ & E & _); [|exists nodes'; by apply (caches_listen _ k)].
    intros Hb. specialize (L3 Data (hello i k Data)). rewrite Hb in L3. apply (not_elem_of_nil (hello i k Data)), L3.
    exists i. split; [done|]. split; [cbn; lia|done].
Qed.

Definition past_connecting (k : Z) (n : cache_conns) : bool :=
  match constructing n with Constructed => true | ToControl i => caches <=? i | _ => false end.

Lemma connecting_progress st i n nodes : caches_inv st nodes -> nodes.[i] = Some n -> past_connecting i n = false ->
  exists nodes', caches_step caches nodes nodes'.
Proof.
  intros HI Ei Hp. pose proof HI as [L Hn Hst]. pose proof (zlook_Some_range _ _ _ Ei).
  pose proof (ci_connector _ _ _ (Hn i n Ei)) as [C1 C2 C3 C4 _ _ _]. unfold past_connecting in Hp.
  destruct (constructing n) as [k|k s|k|k s|] eqn:Hc; cbn in C1, C4; try done.
  - destruct (connect_good st Control i k n nodes HI Ei Hc) as (nodes' & _ & E); [lia|]. exists nodes'. apply (caches_construct _ [true] i). by rewrite E.
  - destruct C4 as (Hk & -> & Hs). destruct (decide (st i k = 2)) as [E2|]; [apply (half_progress st i k); [done|lia|done|unfold half; lia]|].
    destruct (zlook_is_Some nodes k) as [nk Ek]; [lia|]. pose proof (ci_listener _ _ _ (Hn k nk Ek)) as [L1 L2 L3 (j & L4 & L5)].
    destruct L5 as [[-> L5]|[-> (y & Hy & Hh & _)]]; [|by apply (half_progress st y k); [|lia|..]].
    destruct (accept_good st Control _ k nk nodes HI Ek L4) as (y & nodes' & _ & E & _); [|exists nodes'; by apply (caches_listen _ k)].
    intros Hb. specialize (L3 Control (hello i k Control)). rewrite Hb in L3. apply (not_elem_of_nil (hello i k Control)), L3.
    exists i. split; [lia|]. split; [cbn; lia|done].
  - apply (half_progress st i k); [done|lia|lia|unfold half; lia].
  - destruct C4 as (Hk & -> & Hs). destruct (decide (st i k = 5)) as [E5|]; [|apply (half_progress st i k); [done|lia|done|unfold half; lia]].
    destruct (receive_good st Data i k n nodes HI Ei Hc) as (nodes' & _ & E); [done|]. exists nodes'. by apply (caches_construct _ [true] i).
Qed.

Lemma caches_progress st i n nodes : caches_inv st nodes -> nodes.[i] = Some n -> constructing n <> Constructed ->
  exists nodes', caches_step caches nodes nodes'.
Proof.
  intros HI Ei Hne. pose proof HI as [L Hn Hst]. pose proof (zlook_Some_range _ _ _ Ei).
  destruct (some_node (λ k m, negb (past_connecting k m)) nodes) as [(k & m & Ek & Hm%negb_true_iff)|Hall]; [by apply (connecting_progress st k m)|].
  assert (forall a b, 0 <= a < b -> b < caches -> st a b = 6) as Hdone.
  { intros a b Ha Hb. destruct (zlook_is_Some nodes a) as [m Em]; [lia|]. specialize (Hall a m Em). apply negb_false_iff in Hall.
    pose proof (ci_connector _ _ _ (Hn a m Em)) as [C1 C2 _ _ _ _ _]. apply C2. unfold past_connecting in Hall.
    destruct (constructing m); cbn in *; try done; lia. }
  pose proof (Hall i n Ei) as Hp. apply negb_false_iff in Hp. unfold past_connecting in Hp.
  destruct (constructing n) as [k| | | |] eqn:Hc; try done.
  pose proof (con_target _ _ _ (ci_connector _ _ _ (Hn i n Ei))) as Ht. rewrite Hc in Ht. cbn in Ht. assert (k = caches) as -> by lia.
  destruct (end_good st i n nodes HI Ei Hc) as (nodes' & _ & E); [|exists nodes'; by apply (caches_construct _ [] i)].
  pose proof (ci_listener _ _ _ (Hn i n Ei)) as [_ _ _ (j & L4 & _)]. unfold listener_done. rewrite L4. apply Z.leb_le.
  rewrite count_full; [unfold zlen; rewrite length_seqZ; lia|]. apply Forall_forall. intros x Hx%elem_of_seqZ. unfold both. by rewrite Hdone by lia.
Qed.

Lemma caches_steps_inv st m nodes nodes' : caches_inv st nodes -> nsteps (caches_step caches) m nodes nodes' -> exists st',
  caches_inv st' nodes' /\ node_sum conns_left 0 nodes' = node_sum conns_left 0 nodes - Z.of_nat m.
Proof.
  intros HI Hs. revert st HI. induction Hs as [s|m s1 s2 s3 Hs Hrest IH]; intros st HI; [exists st; split; [done|lia]|].
  destruct (caches_step_good st _ _ HI Hs) as (st2 & HI2 & E). destruct (IH st2 HI2) as (st3 & HI3 & E3). exists st3. split; [done|lia].
Qed.
End stages.

Lemma new_caches_left caches : 0 <= caches -> node_sum (conns_left caches) 0 (new_caches caches) = 3 * caches * (caches - 1) + caches.
Proof.
  intros H0. unfold new_caches. assert (forall k i, node_sum (conns_left caches) i (new_conns caches <$> seqZ i (Z.of_nat k)) =
    Z.of_nat k * (4 * caches - 3 - Z.of_nat k + 1 - 2 * i)) as H.
  { induction k as [|k IH]; intros i; [done|]. rewrite seqZ_cons by lia. cbn [fmap list_fmap node_sum].
    replace (Z.pred (Z.of_nat (S k))) with (Z.of_nat k) by lia. replace (Z.succ i) with (i + 1) by lia. rewrite IH. unfold conns_left. cbn. nia. }
  specialize (H (Z.to_nat caches) 0). rewrite Z2Nat.id in H by done. rewrite H. nia.
Qed.

(** C32. The caches connect. Whatever the order of their threads, the set-up has at most
    [3 * caches * (caches - 1) + caches] steps, and when none is left every constructor has
    returned. Two caches whose constructors returned hold the two ends of one control and
    one data connection under each other's id. A thread that answers the requests of cache
    [i] always finds the data socket that its replies need once [i] can send any. But such a
    cache answers each cache before it with two threads that read one control socket. *)
Theorem caches_connect caches m nodes : 0 <= caches -> nsteps (caches_step caches) m (new_caches caches) nodes ->
  Z.of_nat m <= 3 * caches * (caches - 1) + caches /\
  ((forall nodes', ~ caches_step caches nodes nodes') -> forall k n, nodes.[k] = Some n -> constructing n = Constructed) /\
  (forall i k ni nk c, nodes.[i] = Some ni -> nodes.[k] = Some nk -> i < k -> constructing ni = Constructed -> constructing nk = Constructed ->
    (sockets c ni).[k] = Some (Some (CacheSock i k c true)) /\ (sockets c nk).[i] = Some (Some (CacheSock i k c false))) /\
  (forall i k ni nk, nodes.[i] = Some ni -> nodes.[k] = Some nk -> constructing ni = Constructed -> i ∈ threads nk ->
    exists s, (datasockets nk).[i] = Some (Some s)) /\
  (forall i k nk, nodes.[k] = Some nk -> constructing nk = Constructed -> 0 <= i < caches ->
    occ i (threads nk) = if i <? k then 2%nat else if i =? k then 0%nat else 1%nat).
Proof.
  intros H0 Hrun. destruct (caches_steps_inv caches _ m _ _ (new_caches_inv caches H0) Hrun) as (st & HI & E).
  rewrite new_caches_left in E by done. pose proof (conns_left_nonneg caches st nodes HI). split; [lia|]. split.
  { intros Hstuck k n Ek. destruct (decide (constructing n = Constructed)) as [|Hne]; [done|].
    destruct (caches_progress caches st k n nodes HI Ek Hne) as [nodes' Hs]. by destruct (Hstuck nodes'). }
  destruct HI as [L Hn Hst].
  assert (forall a n b, nodes.[a] = Some n -> constructing n = Constructed -> a < b < caches -> st a b = 6) as H6.
  { intros a n b Ea Ca Hb. apply (con_before _ _ _ _ (ci_connector _ _ _ _ (Hn a n Ea))). rewrite Ca. done. }
  split; [|split].
  - intros i k ni nk c Ei Ek Hik Ci Ck. pose proof (zlook_Some_range _ _ _ Ei). pose proof (zlook_Some_range _ _ _ Ek).
    rewrite (con_socket _ _ _ _ (ci_connector _ _ _ _ (Hn i ni Ei))), (lis_socket _ _ _ (ci_listener _ _ _ _ (Hn k nk Ek))),
      (H6 i ni k Ei Ci) by lia. by destruct c.
  - intros i k ni nk Ei Ek Ci Hin. pose proof (zlook_Some_range _ _ _ Ei). pose proof (zlook_Some_range _ _ _ Ek).
    apply occ_pos in Hin. rewrite (ci_threads _ _ _ _ (Hn k nk Ek)) in Hin. unfold thread_count in Hin.
    destruct (Z.lt_trichotomy i k) as [Hik|[->|Hki]].
    + exists (CacheSock i k Data false). pose proof (lis_socket _ _ _ (ci_listener _ _ _ _ (Hn k nk Ek)) Data i ltac:(lia)) as Hs.
      cbn [sockets] in Hs. rewrite Hs, (H6 i ni k Ei Ci) by lia. done.
    + rewrite !decide_False in Hin by lia. lia.
    + exists (CacheSock k i Data true). rewrite (decide_False (P := 0 <= i < k /\ _)) in Hin by lia.
      destruct (decide (constructing nk = Constructed /\ _)) as [[Ck _]|]; [|lia].
      pose proof (con_socket _ _ _ _ (ci_connector _ _ _ _ (Hn k nk Ek)) Data i ltac:(lia)) as Hs.
      cbn [sockets] in Hs. rewrite Hs, (H6 k nk i Ek Ck) by lia. done.
  - intros i k nk Ek Ck Hi. pose proof (zlook_Some_range _ _ _ Ek). rewrite (ci_threads _ _ _ _ (Hn k nk Ek)). unfold thread_count.
    pose proof (ci_constructed _ _ _ _ (Hn k nk Ek) Ck i) as H5.
    destruct (Z.ltb_spec i k), (Z.eqb_spec i k); [lia|..]; repeat match goal with |- context [decide ?P] => destruct (decide P) end; naive_solver lia.
Qed.

(** Two caches: the control connection, the data connection, the two constructors' ends. *)
Definition two_caches_0 : cache_conns :=
  CacheConns [None; Some (CacheSock 0 1 Control true)] [None; Some (CacheSock 0 1 Data true)] [1] [] [] [] (ListenAt 0 0) Constructed.
Definition two_caches_1 : cache_conns :=
  CacheConns [Some (CacheSock 0 1 Control false); None] [Some (CacheSock 0 1 Data false); None] [0; 0] [] [] [] (ListenAt 1 0) Constructed.

Lemma two_caches_run : nsteps (caches_step 2) 8 (new_caches 2) [two_caches_0; two_caches_1].
Proof.
  eapply nsteps_l; [apply (caches_construct 2 [true] 0); vm_compute; reflexivity|].
  eapply nsteps_l; [apply (caches_listen 2 1); vm_compute; reflexivity|].
  eapply nsteps_l; [apply (caches_construct 2 [] 0); vm_compute; reflexivity|].
  eapply nsteps_l; [apply (caches_construct 2 [true] 0); vm_compute; reflexivity|].
  eapply nsteps_l; [apply (caches_listen 2 1); vm_compute; reflexivity|].
  eapply nsteps_l; [apply (caches_construct 2 [] 0); vm_compute; reflexivity|].
  eapply nsteps_l; [apply (caches_construct 2 [] 0); vm_compute; reflexivity|].
  eapply nsteps_l; [apply (caches_construct 2 [] 1); vm_compute; reflexivity|].
  apply nsteps_O.
Qed.

Lemma caches_connect_witness : nsteps (caches_step 2) 8 (new_caches 2) [two_caches_0; two_caches_1] /\
  Z.of_nat 8 <= 3 * 2 * (2 - 1) + 2 /\ occ 0 (threads two_caches_1) = 2%nat.
Proof.
  split; [exact two_caches_run|]. split.
  - exact (proj1 (caches_connect 2 8 [two_caches_0; two_caches_1] ltac:(lia) two_caches_run)).
  - exact (proj2 (proj2 (proj2 (proj2 (caches_connect 2 8 [two_caches_0; two_caches_1] ltac:(lia) two_caches_run))))
      0 1 two_caches_1 eq_refl eq_refl ltac:(lia)).
Defined.
