(* ===== verification/ObjectModel.v ===== *)
(** The object layer, [include/DogeeBase.h], [include/DogeeMacro.h],
    [include/DogeeString.h], [include/DogeeSharedConst.h] and the object list of
    [Dogee/DogeeShared.cpp]: objects with fields, arrays, strings, globals and
    constants, over any cache of the shared memory. *)
From stdpp Require Import sorting.
From S2P Require Import Prelude Storage Handshake DirectoryCache.

(** * The cache interface *)

(** [class DSMCache] as its clients use it: the status codes are dropped.  [c_backend]
    and [c_set_backend] are [DogeeEnv::backend], which the object layer uses too. *)
Class DSMCache (C S : Type) := {
  c_backend : C -> S;
  c_set_backend : C -> S -> C;
  c_put : C -> Z -> Z -> Z -> outcome C;
  c_put64 : C -> Z -> Z -> Z -> outcome C;
  c_get : C -> Z -> Z -> outcome (C * Z);
  c_getchunk : C -> Z -> Z -> Z -> list Z -> outcome (C * list Z);
  c_getchunk64 : C -> Z -> Z -> Z -> list Z -> outcome (C * list Z);
  c_putchunk : C -> Z -> Z -> Z -> list Z -> outcome C;
  c_putchunk64 : C -> Z -> Z -> Z -> list Z -> outcome C;
}.

#[export] Instance no_cache {S : Type} `{SoStorage S} : DSMCache S S := {|
  c_backend s := s;
  c_set_backend _ s := s;
  c_put s o f v := fst <$> DSMNoCache.put s o f v;
  c_put64 s o f v := fst <$> DSMNoCache.put64 s o f v;
  c_get s o f := pair s <$> DSMNoCache.get s o f;
  c_getchunk s o f len buf := '(_, buf) ← DSMNoCache.getchunk s o f len buf; Ret (s, buf);
  c_getchunk64 s o f len buf := '(_, buf) ← DSMNoCache.getchunk64 s o f len buf; Ret (s, buf);
  c_putchunk s o f len buf := fst <$> DSMNoCache.putchunk s o f len buf;
  c_putchunk64 s o f len buf := fst <$> DSMNoCache.putchunk64 s o f len buf;
|}.

(** The directory cache of node [i] among [caches]. *)
Definition directory_cache {S : Type} `{SoStorage S} (caches i : Z) : DSMCache (dsm S) S := {|
  c_backend := backend;
  c_set_backend d s := Dsm s (nodes d) (ctrl d);
  c_put d o f v := fst <$> DirectoryCache.put caches i o f v d;
  c_put64 d o f v := DirectoryCache.put64 caches i o f v d;
  c_get d o f := DirectoryCache.get caches i o f d;
  c_getchunk d o f len buf := DirectoryCache.getchunk caches i o f len buf d;
  c_getchunk64 d o f len buf := DirectoryCache.getchunk64 caches i o f len buf d;
  c_putchunk d o f len buf := DirectoryCache.putchunk caches i o f len buf d;
  c_putchunk64 d o f len buf := DirectoryCache.putchunk64 caches i o f len buf d;
|}.

(** * Class layout *)

(** [Def(Name, ...)]: the field id of the [i]-th field of a class whose base classes
    have [pbase] fields ([_PBASE_]); every field has two words. *)
Definition Def (pbase i : Z) : Z := u32 (2 * (i + pbase)).
(** [DefEnd()], [_LAST_], for a class with [n] fields of its own. *)
Definition DefEnd (pbase n : Z) : Z := n + pbase.

(** [RegisterGlobalVariable]: the new [gloabl_fid] is also the field. *)
Definition RegisterGlobalVariable (gloabl_fid : Z) : Z * Z :=
  let gloabl_fid := u32 (gloabl_fid + 2) in (gloabl_fid, gloabl_fid).

(** [ClassIdInc], [RegisterClass], [GetClassById], [AutoRegisterObject::Init]; creators
    are numbers. *)
Record classes := Classes { next_class : Z; creators : gmap Z Z }.
Definition no_classes : classes := Classes 100 ∅.
Definition ClassIdInc (c : classes) : classes * Z := (Classes (next_class c + 1) (creators c), next_class c).
Definition RegisterClass (c : classes) (cls_id func : Z) : classes :=
  Classes (next_class c) (<[cls_id := func]> (creators c)).
(** The empty [std::function] that a lookup of an unknown class inserts cannot be called. *)
Definition GetClassById (c : classes) (cls_id : Z) : option Z := creators c !! cls_id.
Definition AutoRegisterObject_Init (c : classes) (createInstance : Z) : classes * Z :=
  let '(c, mid) := ClassIdInc c in (RegisterClass c mid createInstance, mid).

(** * Values *)

(** [DSMInterface<T>::dsm_size_of] for a [T] of [sz] bytes. *)
Definition dsm_size_of (sz : Z) : Z := if sz =? 8 then 2 else 1.

Section values.
Context {C S : Type} `{SoStorage S} `{DSMCache C S}.

(** [DSMInterface<T>] with [sizeof(T) = sz]; [Ref] and [Array] are stored like a
    [uint32_t]. Values are their bits. *)
Definition get_value (sz : Z) (c : C) (obj_id field_id : Z) : outcome (C * Z) :=
  if sz =? 4 then c_get c obj_id field_id
  else
    '(c, ret) ← c_getchunk64 c obj_id field_id 1 [0; 0];
    match ret with [lo; hi] => Ret (c, lo + 2 ^ 32 * hi) | _ => Abort end.
Definition set_value (sz : Z) (c : C) (obj_id field_id val : Z) : outcome C :=
  if sz =? 4 then c_put c obj_id field_id val else c_put64 c obj_id field_id val.

(** * Arrays *)

(** The object id and the field of [arr[k]]; [get_address]. *)
Definition ArrayAccess (sz : Z) (object_id k : Z) : Z * Z := (object_id, u32 (k * dsm_size_of sz)).
Definition get_address (e : Z * Z) : Z := Z.lor (u64 (Z.shiftl (fst e) 32)) (snd e).
Definition element_get (sz : Z) (c : C) (e : Z * Z) : outcome (C * Z) := get_value sz c (fst e) (snd e).
Definition element_set (sz : Z) (c : C) (e : Z * Z) (x : Z) : outcome C := set_value sz c (fst e) (snd e) x.

(** The buffer as words. *)
Definition CopyTo (sz : Z) (c : C) (object_id : Z) (localarr : list Z) (start_index copy_len : Z) :
    outcome (C * list Z) :=
  if sz =? 4 then c_getchunk c object_id start_index copy_len localarr
  else c_getchunk64 c object_id start_index copy_len localarr.
Definition CopyFrom (sz : Z) (c : C) (object_id : Z) (localarr : list Z) (start_index copy_len : Z) : outcome C :=
  if sz =? 4 then c_putchunk c object_id start_index copy_len localarr
  else c_putchunk64 c object_id start_index copy_len localarr.

(** The words of an array of elements. *)
Definition element_words (sz : Z) (els : list Z) : list Z := if sz =? 8 then words_of_u64s els else els.

Definition bsize : Z := DSM_CACHE_BLOCK_SIZE * 8.
Definition Fill (sz : Z) (c : C) (object_id : Z) (func : Z -> Z) (start_index len : Z) : outcome C :=
  let blk := replicate (Z.to_nat bsize) 0 in
  '(c, blk) ← for_range 0 (len / bsize)
    (fun i '(c, blk) =>
       blk ← for_range 0 bsize (fun j blk => wr blk j (func (u32 (i * bsize + j)))) blk;
       c ← CopyFrom sz c object_id (element_words sz blk) (u32 (start_index + i * bsize)) bsize;
       Ret (c, blk)) (c, blk);
  let remain_start := len / bsize * bsize in
  blk ← for_range remain_start len (fun j blk => wr blk (j - remain_start) (func j)) blk;
  CopyFrom sz c object_id (element_words sz blk) (u32 (start_index + remain_start)) (len - remain_start).

(** * Object ids *)

(** What the object layer of a process has: the cache, [object_list], and the values
    that [rand()] is going to return. *)
Record process := Process { env : C; object_list : gset Z; rands : list Z }.

Definition with_env (p : process) (c : C) : process := Process c (object_list p) (rands p).

Definition GetObjectNumber (p : process) : Z := Z.of_nat (size (object_list p)).
Definition DeleteObject (p : process) (key : Z) : process :=
  Process (env p) (object_list p ∖ {[key]}) (rands p).
Definition PushObject (p : process) (key : Z) : process :=
  Process (env p) ({[key]} ∪ object_list p) (rands p).
(** The ids in the order of [std::set]. *)
Definition object_keys (p : process) : list Z := merge_sort Z.le (elements (object_list p)).
Definition ForEachObject {X} (p : process) (func : Z -> X -> outcome X) (x : X) : outcome X :=
  for_each (object_keys p) func x.

(** [while (key == 0) key = rand();]. *)
Fixpoint draw (rs : list Z) (key : Z) : outcome (list Z * Z) :=
  if key =? 0 then
    match rs with [] => NoFuel | r :: rs => draw rs r end
  else Ret (rs, key).

Definition DOGEE_MAX_SHARED_KEY_TRIES : nat := 200.

(** The loop of [AllocObjectId]; [abort()] when no try succeeds. *)
Fixpoint alloc_tries (tries : nat) (p : process) (key cls_id size : Z) : outcome (process * Z) :=
  match tries with
  | O => Abort
  | Datatypes.S tries =>
      '(rs, key) ← draw (rands p) key;
      let '(s, st) := so_newobj (c_backend (env p)) key cls_id size in
      let p := Process (c_set_backend (env p) s) (object_list p) rs in
      if decide (st = SoOK) then Ret (PushObject p key, key) else alloc_tries tries p key cls_id size
  end.
Definition AllocObjectId (p : process) (cls_id size : Z) : outcome (process * Z) :=
  alloc_tries DOGEE_MAX_SHARED_KEY_TRIES p 0 cls_id size.

(** * Objects *)

Definition NewArray (sz : Z) (p : process) (size : Z) : outcome (process * Z) :=
  AllocObjectId p 1 (u32 (size * dsm_size_of sz)).
Definition DelArray (p : process) (key : Z) : outcome process :=
  let p := DeleteObject p key in
  '(s, _) ← so_del (c_backend (env p)) key;
  Ret (with_env p (c_set_backend (env p) s)).

(** [Destroy] and the constructor [ctor] are the class's. *)
Definition DelObj (Destroy : process -> Z -> outcome process) (p : process) (key : Z) : outcome process :=
  p ← Destroy p key;
  let p := DeleteObject p key in
  '(s, _) ← so_del (c_backend (env p)) key;
  Ret (with_env p (c_set_backend (env p) s)).
Definition NewObj (cls_id last : Z) (ctor : process -> Z -> outcome process) (p : process) : outcome (process * Z) :=
  '(p, ok) ← AllocObjectId p cls_id (u32 (last * 2));
  p ← ctor p ok;
  Ret (p, ok).

(** When [getinfo] fails, what is returned is an uninitialised variable. *)
Definition GetClassId (p : process) (obj_id : Z) : outcome Z :=
  '(st, (ret, _)) ← so_getinfo (c_backend (env p)) obj_id (0, 0);
  if decide (st = SoOK) then Ret ret else Abort.

(** * Strings *)

(** [DString::Create]; a string is its bytes. The last word is read past the end of
    the string and its terminator, into [beyond]. *)
Definition string_words (len : Z) : Z := len / 4 + (if negb (len mod 4 =? 0) then 1 else 0).
Definition Create (cls_id : Z) (str beyond : list Z) (p : process) : outcome (process * Z) :=
  let size := string_words (zlen str) in
  '(p, okey) ← AllocObjectId p cls_id (1 + size);
  ws ← for_range 0 size (fun i ws => w ← word_at (str ++ 0 :: beyond) i; Ret (ws ++ [w])) [];
  c ← c_putchunk (env p) okey 1 size ws;
  c ← c_put c okey 0 (u32 (zlen str));
  Ret (with_env p c, okey).

(** A local [DString] for object [ds_id]. *)
Record DString := DStr { ds_id : Z; cached : bool; cached_string : list Z }.
Definition new_DString (obj_id : Z) : DString := DStr obj_id false [].

Definition getstr (p : process) (d : DString) : outcome (process * DString * list Z) :=
  if cached d then Ret (p, d, cached_string d)
  else
    '(c, sz) ← c_get (env p) (ds_id d) 0;
    let size := string_words sz in
    '(c, ws) ← c_getchunk c (ds_id d) 1 size (replicate (Z.to_nat (size + 1)) 0);
    buffer ← wr (bytes_of_words ws) sz 0;
    s ← c_string buffer;
    Ret (with_env p c, DStr (ds_id d) true s, s).

(** * Shared constants *)

(** [SharedConst<T>], of 4 or 8 bytes, and the initializers that [map] registers
    ([None] after they ran). *)
Record SharedConst := Const { const_sz : Z; const_fk : Z; const_val : Z }.
Definition const_set (c : C) (k : SharedConst) (x : Z) : outcome (C * SharedConst) :=
  c ← set_value (const_sz k) c 0 (const_fk k) x;
  Ret (c, Const (const_sz k) (const_fk k) x).
Definition const_load (c : C) (k : SharedConst) : outcome (C * SharedConst) :=
  '(c, v) ← get_value (const_sz k) c 0 (const_fk k);
  Ret (c, Const (const_sz k) (const_fk k) v).
Definition new_const (sz gloabl_fid : Z) (map : list SharedConst) : Z * list SharedConst :=
  let '(gloabl_fid, fk) := RegisterGlobalVariable gloabl_fid in
  (gloabl_fid, map ++ [Const sz fk 0]).
Definition InitSharedConst (c : C) (map : option (list SharedConst)) : outcome (C * list SharedConst) :=
  match map with
  | Some l => for_each l (fun k '(c, done) => '(c, k) ← const_load c k; Ret (c, done ++ [k])) (c, [])
  | None => Ret (c, [])
  end.
End values.
Arguments process C : clear implicits.
Arguments Process {C} _ _ _.
