(* ===== verification/ObjectFacts.v ===== *)
(** The correctness of the object layer of ObjectModel.v over a cache that implements a
    memory of words: object ids, the layout of classes, arrays, strings. *)
From S2P Require Import Prelude Storage Memcached MemcachedFacts Handshake DirectoryCache ObjectModel.

(** * What the object layer relies on *)

(** The words of a range changed to a buffer's, and nothing else. *)
Definition stored_words (mem mem' : Z -> Z -> Z) (o f len : Z) (buf : list Z) : Prop :=
  forall o' f', is_u32 o' -> 0 <= f' < MAX_FIELD ->
    if (o' =? o) && (f <=? f') && (f' <? f + len) then buf.[f' - f] = Some (mem' o' f')
    else mem' o' f' = mem o' f'.
Definition same_words (mem mem' : Z -> Z -> Z) : Prop :=
  forall o f, is_u32 o -> 0 <= f < MAX_FIELD -> mem' o f = mem o f.

(** A cache that behaves like a memory, and a [newobj] that does not touch the words of
    fields. *)
Class DSMCacheLaws (C S : Type) `{SoStorage S} `{DSMCache C S} := {
  c_ok : C -> Prop;
  c_mem : C -> Z -> Z -> Z;
  c_mem_u32 : forall c o f, c_ok c -> is_u32 o -> 0 <= f < MAX_FIELD -> is_u32 (c_mem c o f);
  c_get_law : forall c o f, c_ok c -> is_u32 o -> 0 <= f < MAX_FIELD ->
    exists c', c_get c o f = Ret (c', c_mem c o f) /\ c_ok c' /\ same_words (c_mem c) (c_mem c');
  c_getchunk_law : forall c o f len buf, c_ok c -> range_ok o f len -> 0 < len -> len <= zlen buf ->
    exists c' buf', c_getchunk c o f len buf = Ret (c', buf') /\ c_ok c' /\
      same_words (c_mem c) (c_mem c') /\ zlen buf' = zlen buf /\
      forall j, buf'.[j] = if (0 <=? j) && (j <? len) then Some (c_mem c o (f + j)) else buf.[j];
  c_putchunk_law : forall c o f len buf, c_ok c -> range_ok o f len -> len <= zlen buf ->
    Forall is_u32 buf -> exists c', c_putchunk c o f len buf = Ret c' /\ c_ok c' /\
      stored_words (c_mem c) (c_mem c') o f len buf;
  c_putchunk64_law : forall c o f len buf, c_putchunk64 c o f len buf = c_putchunk c o f (u32 (len * 2)) buf;
  c_put_law : forall c o f v, c_ok c -> is_u32 o -> 0 <= f < MAX_FIELD -> is_u32 v ->
    exists c', c_put c o f v = Ret c' /\ c_ok c' /\ stored_words (c_mem c) (c_mem c') o f 1 [v];
  c_backend_law : forall (c : C) (s : S), c_backend (c_set_backend c s) = s;
  c_newobj_law : forall c key cls size s st, c_ok c -> is_u32 key ->
    so_newobj (c_backend c) key cls size = (s, st) ->
    c_ok (c_set_backend c s) /\ same_words (c_mem c) (c_mem (c_set_backend c s));
}.

(** What the back end adds to it. *)
Class SoNewObj (S : Type) `{SoStorageLaws S} : Prop :=
  so_newobj_law : forall (s : S) key cls size s' st, so_ok s -> is_u32 key ->
    so_newobj s key cls size = (s', st) -> so_ok s' /\ same_words (so_mem s) (so_mem s').

#[export] Instance no_cache_laws (S : Type) `{SoReliable S} `{!SoNewObj S} : DSMCacheLaws S S.
Proof.
  refine {| c_ok := so_ok; c_mem := so_mem |}.
  - intros. by apply so_mem_u32.
  - intros s o f Hs Ho Hf. exists s. cbn. unfold DSMNoCache.get. rewrite so_get_law by done. done.
  - intros s o f len buf Hs Hr Hl Hb. destruct (so_getchunk_law s o f len buf Hs Hr Hb Hl) as (buf' & E & Hlen & Hbuf).
    exists s, buf'. cbn. unfold DSMNoCache.getchunk. rewrite E. done.
  - intros s o f len buf Hs Hr Hb Hu.
    destruct (so_putchunk_law s o f len buf Hs Hr Hb Hu) as (s' & st & E & Hok & Hw).
    exists s'. cbn. unfold DSMNoCache.putchunk. rewrite E. split; [done|]. split; [done|].
    rewrite (so_reliable s o f len buf s' st Hs Hr E) in Hw. intros o' f' Ho' Hf'. specialize (Hw o' f' Ho' Hf').
    case_test; [by apply Hw|done].
  - intros s o f len buf. cbn. unfold DSMNoCache.putchunk64, DSMNoCache.putchunk. by rewrite so_putchunk64_law.
  - intros s o f v Hs Ho Hf Hv. assert (range_ok o f 1) as Hr by (unfold range_ok; ranges).
    destruct (so_putchunk_law s o f 1 [v] Hs Hr) as (s' & st & E & Hok & Hw); [done|u32s|].
    exists s'. cbn. unfold DSMNoCache.put. rewrite so_put_law, E. split; [done|]. split; [done|].
    rewrite (so_reliable s o f 1 [v] s' st Hs Hr E) in Hw. intros o' f' Ho' Hf'. specialize (Hw o' f' Ho' Hf').
    case_test; [by apply Hw|done].
  - done.
  - intros s key cls size s' st Hs Hk E. exact (so_newobj_law s key cls size s' st Hs Hk E).
Defined.

(** * The layout of classes *)

(** The number of fields of the base classes of the [a]-th class of a hierarchy. *)
Definition base_fields (ns : list Z) (a : nat) : Z := foldl DefEnd 0 (take a ns).

(** Two different fields share no word, and all are below the size that [NewObj] asks for. *)
Lemma layout_disjoint (ns : list Z) a b n m i j : Forall (fun n => 0 <= n) ns ->
  2 * foldl DefEnd 0 ns < 2 ^ 32 ->
  ns !! a = Some n -> ns !! b = Some m -> 0 <= i < n -> 0 <= j < m ->
  (a <> b \/ i <> j) ->
  (Def (base_fields ns a) i + 2 <= Def (base_fields ns b) j \/
   Def (base_fields ns b) j + 2 <= Def (base_fields ns a) i) /\
  0 <= Def (base_fields ns a) i /\ Def (base_fields ns a) i + 2 <= u32 (foldl DefEnd 0 ns * 2).
Proof.
  intros Hns Hmax.
  assert (forall l x, foldl DefEnd x l = x + foldl DefEnd 0 l) as Hshift.
  { intros l. induction l as [|y l IH]; intros x; cbn; [lia|]. rewrite IH, (IH (DefEnd 0 y)).
    change (DefEnd x y) with (y + x). change (DefEnd 0 y) with (y + 0). lia. }
  assert (forall l, Forall (fun n => 0 <= n) l -> 0 <= foldl DefEnd 0 l) as Hpos.
  { intros l. induction 1 as [|y l Hy _ IH]; cbn; [done|]. rewrite Hshift.
    change (DefEnd 0 y) with (y + 0). lia. }
  assert (forall c k, ns !! c = Some k -> 0 <= base_fields ns c /\ base_fields ns c + k <= foldl DefEnd 0 ns) as Hin.
  { intros c k Hc. pose proof (take_drop_middle ns c k Hc) as E. unfold base_fields.
    assert (foldl DefEnd 0 ns = foldl DefEnd 0 (take c ns) + k + foldl DefEnd 0 (drop (Datatypes.S c) ns)) as Et.
    { rewrite <- E at 1. rewrite foldl_app. cbn. rewrite (Hshift _ (DefEnd _ _)).
      change (DefEnd (foldl DefEnd 0 (take c ns)) k) with (k + foldl DefEnd 0 (take c ns)). lia. }
    pose proof (Hpos (take c ns) (Forall_take _ _ _ Hns)). pose proof (Hpos _ (Forall_drop _ (Datatypes.S c) _ Hns)). lia. }
  assert (forall c d k, (c < d)%nat -> ns !! c = Some k -> base_fields ns c + k <= base_fields ns d) as Hlt.
  { intros c d k Hcd Hc. unfold base_fields. assert (take d ns = take c ns ++ k :: take (d - Datatypes.S c) (drop (Datatypes.S c) ns)) as ->.
    { rewrite <- (take_drop_middle ns c k Hc) at 1. rewrite take_app, take_take. rewrite length_take.
      pose proof (lookup_lt_Some _ _ _ Hc). f_equal; [f_equal; lia|].
      replace (d - c `min` length ns)%nat with (Datatypes.S (d - Datatypes.S c)) by lia. done. }
    rewrite foldl_app. cbn. rewrite (Hshift _ (DefEnd _ _)). pose proof (Hpos _ (Forall_take _ (d - Datatypes.S c) _ (Forall_drop _ (Datatypes.S c) _ Hns))).
    change (DefEnd (foldl DefEnd 0 (take c ns)) k) with (k + foldl DefEnd 0 (take c ns)). lia. }
  intros Ha Hb Hi Hj Hne. destruct (Hin a n Ha), (Hin b m Hb). unfold Def. rewrite !u32_small by ranges.
  split; [|lia]. destruct (Nat.lt_trichotomy a b) as [Hab|[Hab|Hab]].
  - pose proof (Hlt a b n Hab Ha). lia.
  - subst b. lia.
  - pose proof (Hlt b a m Hab Hb). lia.
Qed.

Section facts.
Context {C S : Type} `{DSMCacheLaws C S}.

(** * Object ids *)

Lemma draw_nonzero rs key0 rs' key : draw rs key0 = Ret (rs', key) -> key <> 0.
Proof.
  revert key0. induction rs as [|r rs IH]; intros key0; cbn; destruct (Z.eqb_spec key0 0); try done; [by intros [= _ <-]|apply IH|].
  by intros [= _ <-].
Qed.

Lemma draw_done rs key : key <> 0 -> draw rs key = Ret (rs, key).
Proof. intros Hk. destruct rs; cbn; by rewrite (proj2 (Z.eqb_neq key 0)). Qed.

Lemma alloc_taken (taken : S -> Prop) tries (p : process C) key cls size : key <> 0 ->
  (forall s, taken s -> let '(s', st) := so_newobj s key cls size in st <> SoOK /\ taken s') ->
  taken (c_backend (env p)) -> alloc_tries tries p key cls size = Abort.
Proof.
  intros Hk Htaken. revert p. induction tries as [|tries IH]; intros p Hp; [done|]. cbn [alloc_tries].
  rewrite draw_done by done. cbn [mbind outcome_bind]. specialize (Htaken _ Hp).
  destruct (so_newobj _ key cls size) as [s st]. destruct Htaken as [Hst Hs].
  rewrite decide_False by done. apply IH. cbn. by rewrite c_backend_law.
Qed.

(** [AllocObjectId] takes the first number other than 0 that [rand()] returns, and
    claims it; but when that id is taken it tries the same id 200 times and aborts,
    whatever numbers would come next. *)
Theorem alloc_object (p : process C) cls size rs key : draw (rands p) 0 = Ret (rs, key) ->
  key <> 0 /\
  (forall s, so_newobj (c_backend (env p)) key cls size = (s, SoOK) ->
     AllocObjectId p cls size =
       Ret (Process (c_set_backend (env p) s) ({[key]} ∪ object_list p) rs, key)) /\
  (forall taken : S -> Prop, taken (c_backend (env p)) ->
     (forall s, taken s -> let '(s', st) := so_newobj s key cls size in st <> SoOK /\ taken s') ->
     AllocObjectId p cls size = Abort).
Proof.
  intros Hd. pose proof (draw_nonzero _ _ _ _ Hd) as Hk. split; [done|].
  unfold AllocObjectId. change DOGEE_MAX_SHARED_KEY_TRIES with (Datatypes.S 199).
  generalize 199%nat as more. intros more. cbn [alloc_tries]. rewrite Hd. cbn [mbind outcome_bind]. split.
  - intros s ->. by rewrite decide_True.
  - intros taken Hp Htaken. pose proof (Htaken _ Hp) as Hf.
    destruct (so_newobj _ key cls size) as [s st]. destruct Hf as [Hst Hs].
    rewrite decide_False by done. apply (alloc_taken taken more); [done|done|]. cbn. by rewrite c_backend_law.
Qed.

(** * Arrays *)

Lemma fill_buffer lo hi (body : Z -> list Z -> outcome (list Z)) g blk : lo <= hi -> hi - lo <= zlen blk ->
  (forall j blk, body j blk = wr blk (j - lo) (g j)) ->
  exists blk', for_range lo hi body blk = Ret blk' /\ zlen blk' = zlen blk /\
    forall j, blk'.[j] = if (0 <=? j) && (j <? hi - lo) then Some (g (lo + j)) else blk.[j].
Proof.
  intros Hle Hlen Hbody.
  destruct (for_range_rule (fun i b => zlen b = zlen blk /\
    forall j, b.[j] = if (0 <=? j) && (j <? i - lo) then Some (g (lo + j)) else blk.[j]) lo hi body blk)
    as (b & E & Hl & Hb); [done| | |by exists b].
  - intros i b Hi [Hl Hb]. rewrite Hbody. destruct (wr_ok b (i - lo) (g i)) as (b' & -> & Hl' & Hb'); [lia|].
    exists b'. split; [done|]. split; [lia|]. intros j. rewrite Hb', Hb. destruct (Z.eqb_spec j (i - lo)) as [->|Hne].
    + rewrite (proj2 (andb_true_iff _ _)) by lia. f_equal. f_equal. lia.
    + destruct (Z.ltb_spec j (i - lo)), (Z.ltb_spec j (i + 1 - lo)); try lia; done.
  - split; [done|]. intros j. destruct (Z.leb_spec 0 j), (Z.ltb_spec j (lo - lo)); try lia; done.
Qed.

(** What [Fill] has written when [n] elements are done. *)
Definition filled (mem mem' : Z -> Z -> Z) (o start n : Z) (func : Z -> Z) : Prop :=
  forall o' f', is_u32 o' -> 0 <= f' < MAX_FIELD ->
    mem' o' f' = if (o' =? o) && (start <=? f') && (f' <? start + n) then func (f' - start) else mem o' f'.

Lemma filled_more mem mem1 mem2 o start n m func buf : 0 <= n -> 0 <= m ->
  filled mem mem1 o start n func -> stored_words mem1 mem2 o (start + n) m buf ->
  (forall j, 0 <= j < m -> buf.[j] = Some (func (n + j))) -> filled mem mem2 o start (n + m) func.
Proof.
  intros Hn Hm Hf1 Hf2 Hbuf o' f' Ho' Hf'. specialize (Hf1 o' f' Ho' Hf'). specialize (Hf2 o' f' Ho' Hf').
  destruct (Z.eqb_spec o' o); cbn [andb] in *; [|congruence].
  destruct (Z.leb_spec (start + n) f'), (Z.ltb_spec f' (start + n + m)), (Z.leb_spec start f'),
    (Z.ltb_spec f' (start + n)), (Z.ltb_spec f' (start + (n + m))); cbn [andb] in *; try lia; try congruence.
  rewrite Hbuf in Hf2 by lia. injection Hf2 as Hf2. rewrite <- Hf2. f_equal. lia.
Qed.

(** A buffer whose first [n] words were computed goes to the array behind the [lo] that
    are there. *)
Lemma copy_filled (c c1 : C) o start lo n func g blk blk' : c_ok c1 -> range_ok o start (lo + n) -> 0 <= lo -> 0 <= n <= zlen blk' ->
  Forall is_u32 blk -> (forall j, blk'.[j] = if (0 <=? j) && (j <? n) then Some (g j) else blk.[j]) ->
  (forall j, is_u32 (g j)) -> (forall j, 0 <= j < n -> g j = func (lo + j)) -> filled (c_mem c) (c_mem c1) o start lo func ->
  exists c2, CopyFrom 4 c1 o (element_words 4 blk') (u32 (start + lo)) n = Ret c2 /\ c_ok c2 /\ Forall is_u32 blk' /\
    filled (c_mem c) (c_mem c2) o start (lo + n) func.
Proof.
  intros Hc1 (Ho & Hs & Hl & Hmax) Hlo Hn Hu Hb' Hg Hgf Hf. unfold MAX_FIELD in Hmax.
  assert (Forall is_u32 blk') as Hu'.
  { apply Forall_zlook. intros j x. rewrite Hb'. case_test; [by intros [= <-]|]. intros Hx. by apply (zlook_Forall _ _ _ _ Hu Hx). }
  unfold CopyFrom. cbn [Z.eqb Pos.eqb]. rewrite u32_small by (unfold is_u32; lia).
  destruct (c_putchunk_law c1 o (start + lo) n (element_words 4 blk')) as (c2 & -> & Hc2 & Hst);
    [done|unfold range_ok, MAX_FIELD; split; [done|lia]|cbn; lia|done|].
  exists c2. split; [done|]. split; [done|]. split; [done|]. eapply filled_more; [| |exact Hf|exact Hst|]; [lia|lia|].
  intros j Hj. cbn. rewrite Hb', (proj2 (andb_true_iff _ _)) by lia. by rewrite Hgf.
Qed.

(** The words of a buffer whose first elements were computed. *)
Lemma filled_words (blk blk' : list Z) n func : 0 <= n ->
  (forall j, blk'.[j] = if (0 <=? j) && (j <? n) then Some (func j) else blk.[j]) -> n <= zlen blk' ->
  words_of_u64s blk' = words_of_u64s (func <$> seqZ 0 n) ++ words_of_u64s (drop (Z.to_nat n) blk').
Proof.
  intros Hn Hb Hl. rewrite <- (take_drop (Z.to_nat n) blk') at 1. unfold words_of_u64s. rewrite flat_map_app.
  f_equal. f_equal. apply list_eq. intros i. rewrite list_lookup_fmap.
  destruct (decide (i < Z.to_nat n)%nat) as [Hi|Hi].
  - rewrite lookup_take_lt, (proj2 (lookup_seqZ 0 n i (Z.of_nat i))) by lia. cbn.
    specialize (Hb (Z.of_nat i)). rewrite zlook_lookup, Nat2Z.id, (proj2 (andb_true_iff _ _)) in Hb by lia.
    by rewrite Hb.
  - rewrite lookup_take_ge by lia. rewrite (proj2 (lookup_ge_None _ i)); [done|rewrite length_seqZ; lia].
Qed.

(** [Fill] with elements of one word. *)
Lemma fill_elements (c : C) o start len func : c_ok c -> range_ok o start len ->
  (forall j, is_u32 (func j)) ->
  exists c', Fill 4 c o func start len = Ret c' /\ c_ok c' /\
    filled (c_mem c) (c_mem c') o start len func.
Proof.
  intros Hc Hr Hfunc. pose proof Hr as (Ho & Hs & Hl & Hmax). unfold MAX_FIELD in Hmax. unfold Fill.
  assert (bsize = 256) as Hbs by reflexivity.
  pose proof (Z.div_mod len bsize ltac:(lia)) as Hdiv. pose proof (Z.mod_pos_bound len bsize ltac:(lia)) as Hmod.
  destruct (for_range_rule (S := C * list Z) (fun i '(c1, blk) => c_ok c1 /\ zlen blk = bsize /\ Forall is_u32 blk /\
      filled (c_mem c) (c_mem c1) o start (i * bsize) func) 0 (len / bsize)
    (fun i '(c, blk) =>
       blk ← for_range 0 bsize (fun j blk => wr blk j (func (u32 (i * bsize + j)))) blk;
       c ← CopyFrom 4 c o (element_words 4 blk) (u32 (start + i * bsize)) bsize;
       Ret (c, blk)) (c, replicate (Z.to_nat bsize) 0)) as ([c1 blk] & E & Hc1 & Hblk & Hu & Hf1).
  - apply Z.div_pos; lia.
  - intros i [c1 blk] Hi (Hc1 & Hblk & Hu & Hf1).
    destruct (fill_buffer 0 bsize (fun j blk => wr blk j (func (u32 (i * bsize + j))))
      (fun j => func (u32 (i * bsize + j))) blk) as (blk' & -> & Hl' & Hb'); [lia|lia|intros; by rewrite Z.sub_0_r|].
    rewrite bind_ret. replace ((i + 1) * bsize) with (i * bsize + bsize) by lia.
    destruct (copy_filled c c1 o start (i * bsize) bsize func (fun j => func (u32 (i * bsize + j))) blk blk')
      as (c2 & -> & Hc2 & Hu2 & Hf2); [done|unfold range_ok, MAX_FIELD; split; [done|nia]|nia|lia|done|by rewrite Z.sub_0_r in Hb'|done| |done|].
    { intros j Hj. by rewrite u32_small by (unfold is_u32; nia). }
    eexists. split; [done|]. cbn beta iota. split_and!; try done. lia.
  - split; [done|]. split; [by rewrite zlen_replicate|]. split; [apply Forall_replicate; ranges|].
    intros o' f' _ _. rewrite Z.mul_0_l, Z.add_0_r. destruct (Z.leb_spec start f'), (Z.ltb_spec f' start); try lia; by rewrite ?andb_false_r.
  - rewrite E, bind_ret. set (lo := len / bsize * bsize) in *.
    destruct (fill_buffer lo len (fun j blk => wr blk (j - lo) (func j)) func blk) as (blk' & -> & Hl' & Hb'); [lia|lia|done|]. rewrite bind_ret.
    destruct (copy_filled c c1 o start lo (len - lo) func (fun j => func (lo + j)) blk blk') as (c2 & -> & Hc2 & _ & Hf2);
      [done|by rewrite Zplus_minus|lia|lia|done|done|done|done|done|]. rewrite Zplus_minus in Hf2. eauto.
Qed.
(** [Fill] with less than a block of elements of two words. *)
Lemma fill_words (c : C) o start len func : c_ok c -> range_ok o start (2 * len) -> len < bsize ->
  exists c', Fill 8 c o func start len = Ret c' /\ c_ok c' /\
    stored_words (c_mem c) (c_mem c') o start (2 * len) (words_of_u64s (func <$> seqZ 0 len)).
Proof.
  intros Hc Hr Hlt. pose proof Hr as (Ho & Hs & Hl & Hmax). unfold MAX_FIELD in Hmax.
  assert (bsize = 256) as Hbs by reflexivity. unfold Fill.
  rewrite (Z.div_small len bsize), Z.mul_0_l, Z.sub_0_r by lia. match goal with |- context [for_range 0 0 ?f ?x] => change (for_range 0 0 f x) with (Ret x) end.
  rewrite bind_ret.
  destruct (fill_buffer 0 len (fun j blk => wr blk (j - 0) (func j)) func (replicate (Z.to_nat bsize) 0))
    as (blk' & -> & Hl' & Hb'); [lia|rewrite zlen_replicate; lia|done|]. rewrite bind_ret.
  rewrite zlen_replicate in Hl' by lia. rewrite Z.sub_0_r in Hb'. unfold CopyFrom. cbn [Z.eqb Pos.eqb].
  change (element_words 8 blk') with (words_of_u64s blk').
  rewrite c_putchunk64_law, !u32_small, Z.add_0_r by (rewrite ?Z.add_0_r; unfold is_u32; lia).
  destruct (c_putchunk_law c o start (len * 2) (words_of_u64s blk')) as (c' & -> & Hc' & Hst);
    [done|by rewrite Z.mul_comm|rewrite zlen_words_of_u64s; lia|apply words_of_u64s_u32|].
  exists c'. split; [done|]. split; [done|]. intros o' f' Ho' Hf'. specialize (Hst o' f' Ho' Hf').
  rewrite Z.mul_comm in Hst. case_test; [|done].
  rewrite (filled_words _ blk' len func ltac:(lia) Hb' ltac:(lia)), zlook_app_l in Hst; [done|].
  rewrite zlen_words_of_u64s, zlen_fmap. unfold zlen. rewrite length_seqZ. lia.
Qed.

End facts.

(** * Strings *)

Section bytes.
Ltac Zify.zify_post_hook ::= Z.to_euclidean_division_equations.

(** The words of a byte buffer, and back. *)
Lemma word_at_bytes bs i w : Forall is_u8 bs -> word_at bs i = Ret w ->
  is_u32 w /\ bytes_of_word w = take 4 (drop (Z.to_nat (4 * i)) bs).
Proof.
  intros Hbs Hw. split; [exact (word_at_u32 bs i w Hbs Hw)|].
  unfold word_at in Hw. apply bind_Ret_inv in Hw as (l & Hl & Hw). unfold rd_range in Hl.
  case_test in Hl; [|done]. injection Hl as Hl. change (Z.to_nat 4) with 4%nat in Hl. rewrite Hl.
  assert (Forall is_u8 l) as Hbl by (subst l; by apply Forall_take, Forall_drop).
  destruct l as [|b0 [|b1 [|b2 [|b3 [|]]]]]; try done. injection Hw as <-.
  rewrite !Forall_cons in Hbl. destruct Hbl as (H0 & H1 & H2 & H3 & _). unfold is_u8 in *. unfold bytes_of_word.
  clear Hbs Hl. repeat f_equal; lia.
Qed.

Lemma string_words_bounds n : 0 <= n -> 4 * string_words n - 3 <= n <= 4 * string_words n.
Proof. intros Hn. unfold string_words. destruct (Z.eqb_spec (n mod 4) 0); cbn; lia. Qed.
Ltac Zify.zify_post_hook ::= idtac.

(** The loop that reads [n] words of a byte buffer. *)
Lemma read_words bs n : Forall is_u8 bs -> 0 <= n -> 4 * n <= zlen bs -> exists ws,
  for_range 0 n (fun i ws => w ← word_at bs i; Ret (ws ++ [w])) [] = Ret ws /\
  zlen ws = n /\ Forall is_u32 ws /\ bytes_of_words ws = take (Z.to_nat (4 * n)) bs.
Proof.
  intros Hbs Hn Hlen.
  destruct (for_range_rule (fun i ws => zlen ws = i /\ Forall is_u32 ws /\ bytes_of_words ws = take (Z.to_nat (4 * i)) bs)
    0 n (fun i ws => w ← word_at bs i; Ret (ws ++ [w])) []) as (ws & E & Hws); [done| |done|by exists ws].
  intros i ws Hi (Hl & Hu & Hb). destruct (word_at_total bs i) as [w Hw]; [lia|lia|]. rewrite Hw. cbn [mbind outcome_bind].
  destruct (word_at_bytes bs i w Hbs Hw) as [Hwu Hwb]. eexists. split; [done|]. rewrite zlen_app. change (zlen [w]) with 1. split; [lia|].
  split; [apply Forall_app; split; [done|by apply Forall_singleton]|]. unfold bytes_of_words in *. rewrite flat_map_app, Hb. cbn [flat_map]. rewrite app_nil_r, Hwb.
  replace (Z.to_nat (4 * (i + 1))) with (Z.to_nat (4 * i) + 4)%nat by lia. by rewrite take_take_drop.
Qed.

Lemma c_string_cut (s buf : list Z) : 0 ∉ s -> take (length s) buf = s -> buf !! length s = Some 0 -> c_string buf = Ret s.
Proof.
  intros Hs Ht Hz. rewrite <- (take_drop_middle buf (length s) 0 Hz), Ht. by apply c_string_app.
Qed.
End bytes.

Section strings.
Context {C S : Type} `{DSMCacheLaws C S}.

(** C35. A string stored by [DString::Create] is what [getstr] returns, on the node that
    created it or another, and what it returns from then on without a look at the shared
    memory, provided that it is not empty and has no zero byte. *)
Theorem dstring_roundtrip (p : process C) cls str beyond rs key s :
  c_ok (env p) -> draw (rands p) 0 = Ret (rs, key) -> is_u32 key ->
  so_newobj (c_backend (env p)) key cls (1 + string_words (zlen str)) = (s, SoOK) ->
  Forall is_u8 str -> 0 ∉ str -> 0 < zlen str < 2 ^ 31 -> Forall is_u8 beyond -> 2 <= zlen beyond ->
  exists p' p'' d, Create cls str beyond p = Ret (p', key) /\ c_ok (env p') /\
    getstr p' (new_DString key) = Ret (p'', d, str) /\ forall q : process C, getstr q d = Ret (q, d, str).
Proof.
  intros Hc Hd Hkey Hnew Hstr Hz Hlen Hbeyond Hb2.
  pose proof (string_words_bounds (zlen str) ltac:(lia)) as Hsz. set (size := string_words (zlen str)) in *.
  destruct (alloc_object p cls (1 + size) rs key Hd) as (Hk & Halloc & _). specialize (Halloc s Hnew).
  unfold Create. fold size. rewrite Halloc. cbn [mbind outcome_bind].
  destruct (read_words (str ++ 0 :: beyond) size) as (ws & -> & Hwl & Hwu & Hwb);
    [apply Forall_app; split; [done|by constructor]|lia|rewrite zlen_app; unfold zlen in *; cbn [length]; lia|].
  cbn [mbind outcome_bind env]. destruct (c_newobj_law (env p) key cls (1 + size) s SoOK Hc Hkey Hnew) as [Hc0 _].
  destruct (c_putchunk_law (c_set_backend (env p) s) key 1 size ws) as (c1 & -> & Hc1 & Hs1);
    [done|unfold range_ok, MAX_FIELD; split; [done|lia]|lia|done|]. cbn [mbind outcome_bind].
  destruct (c_put_law c1 key 0 (u32 (zlen str))) as (c2 & -> & Hc2 & Hs2);
    [done|done|unfold MAX_FIELD; lia|apply u32_range|]. cbn [mbind outcome_bind].
  assert (c_mem c2 key 0 = zlen str) as Hm0.
  { specialize (Hs2 key 0 Hkey ltac:(unfold MAX_FIELD; lia)). rewrite Z.eqb_refl in Hs2. cbn in Hs2.
    injection Hs2 as Hs2. rewrite <- Hs2. apply u32_small. ranges. }
  assert (forall j, 0 <= j < size -> ws.[j] = Some (c_mem c2 key (1 + j))) as Hmj.
  { intros j Hj. specialize (Hs2 key (1 + j) Hkey ltac:(unfold MAX_FIELD; lia)). rewrite Z.eqb_refl in Hs2.
    destruct (Z.leb_spec 0 (1 + j)), (Z.ltb_spec (1 + j) (0 + 1)); try lia. cbn [andb] in Hs2. rewrite Hs2.
    specialize (Hs1 key (1 + j) Hkey ltac:(unfold MAX_FIELD; lia)). rewrite Z.eqb_refl in Hs1.
    destruct (Z.leb_spec 1 (1 + j)), (Z.ltb_spec (1 + j) (1 + size)); try lia. cbn [andb] in Hs1.
    by replace (1 + j - 1) with j in Hs1 by lia. }
  eexists. destruct (c_get_law c2 key 0 Hc2 Hkey ltac:(unfold MAX_FIELD; lia)) as (c3 & Eg & Hc3 & Hm3).
  destruct (c_getchunk_law c3 key 1 size (replicate (Z.to_nat (size + 1)) 0)) as (c4 & buf & Ec & Hc4 & Hm4 & Hbl & Hbuf);
    [done|unfold range_ok, MAX_FIELD; split; [done|lia]|lia|rewrite zlen_replicate by lia; lia|].
  rewrite zlen_replicate in Hbl by lia.
  assert (buf = ws ++ [0]) as ->.
  { apply zlook_ext; [rewrite zlen_app, Hwl; change (zlen [0]) with 1; lia|]. intros j Hj. rewrite Hbuf. destruct (Z.ltb_spec j size).
    - rewrite (proj2 (Z.leb_le 0 j)) by lia. cbn [andb]. rewrite zlook_app_l by lia. rewrite Hmj by lia.
      f_equal. apply Hm3; [done|unfold MAX_FIELD; lia].
    - rewrite andb_false_r. rewrite zlook_app_r by lia. rewrite zlook_replicate by lia. by replace (j - zlen ws) with 0 by lia. }
  destruct (wr_ok (bytes_of_words (ws ++ [0])) (zlen str) 0) as (buf2 & Ew & Hl2 & Hbuf2).
  { rewrite zlen_bytes_of_words, zlen_app, Hwl. change (zlen [0]) with 1. lia. }
  exists (with_env (Process c2 ({[key]} ∪ object_list p) rs) c4), (DStr key true str).
  split; [done|]. split; [done|]. split; [|done].
  unfold getstr, new_DString. cbn [cached ds_id env with_env]. rewrite Eg. cbn [mbind outcome_bind]. rewrite Hm0. fold size.
  rewrite Ec. cbn [mbind outcome_bind]. rewrite Ew. cbn [mbind outcome_bind].
  rewrite (c_string_cut str buf2); [done|done| |].
  - apply list_eq. intros i. destruct (decide (i < length str)%nat) as [Hi|Hi].
    2: { rewrite lookup_take_ge by lia. symmetry. apply lookup_ge_None_2. lia. }
    rewrite lookup_take_lt by lia. specialize (Hbuf2 (Z.of_nat i)). unfold zlen in *.
    rewrite (proj2 (Z.eqb_neq (Z.of_nat i) (Z.of_nat (length str)))) in Hbuf2 by lia.
    rewrite !zlook_lookup, Nat2Z.id in Hbuf2 by lia. rewrite Hbuf2. unfold bytes_of_words in *. rewrite flat_map_app, Hwb.
    rewrite lookup_app_l by (rewrite length_take, length_app; cbn; lia). rewrite lookup_take_lt by lia. by rewrite lookup_app_l by lia.
  - specialize (Hbuf2 (zlen str)). rewrite Z.eqb_refl, zlook_lookup in Hbuf2 by lia. unfold zlen in Hbuf2. by rewrite Nat2Z.id in Hbuf2.
Qed.
End strings.

(** * The Memcached back ends *)

Section memcached.
Context {M : Type} `{MemcachedLaws M}.

Lemma info_key_other o o' f : is_u32 o -> is_u32 o' -> 0 <= f < MAX_FIELD -> MAKE64 o f <> info_key o'.
Proof.
  intros Ho Ho' Hf E. unfold MAX_FIELD in Hf. unfold info_key in E.
  destruct (MAKE64_inj o f o' 0xFFFFFFFF) as [_ Ef]; [ranges|ranges|exact E|lia].
Qed.

#[export] Instance word_newobj : SoNewObj (word_store M).
Proof.
  intros [m] key cls size s' st Hs Hk Hn. cbn in Hn.
  destruct (SoStorageMemcached.newobj m key cls size) as [m' st'] eqn:E. injection Hn as <- <-.
  apply newobj_inv in E as [Hok Hno].
  assert (forall o f, is_u32 o -> 0 <= f < MAX_FIELD -> mc_view m' !! MAKE64 o f = mc_view m !! MAKE64 o f) as Hv.
  { intros o f Ho Hf. destruct (decide (st' = SoOK)) as [Est|Est].
    - destruct (Hok Est) as [_ ->]. apply lookup_insert_ne. intros E. by apply (info_key_other o key f Ho Hk Hf).
    - by destruct (Hno Est) as [_ ->]. }
  split.
  - intros o f v Ho Hf. cbn. rewrite Hv by done. by apply Hs.
  - intros o f Ho Hf. unfold so_mem. cbn. unfold word_mem. cbn. by rewrite Hv.
Qed.

#[export] Instance chunk_newobj : SoNewObj (chunk_store M).
Proof.
  intros [m] key cls size s' st Hs Hk Hn. cbn in Hn.
  destruct (SoStorageMemcached.newobj m key cls size) as [m' st'] eqn:E. injection Hn as <- <-.
  apply newobj_inv in E as [Hok Hno].
  assert (forall o b, is_u32 o -> 0 <= b -> b < MAX_FIELD -> mc_view m' !! MAKE64 o b = mc_view m !! MAKE64 o b) as Hv.
  { intros o f Ho Hf Hf'. destruct (decide (st' = SoOK)) as [Est|Est].
    - destruct (Hok Est) as [_ ->]. apply lookup_insert_ne. intros E. by apply (info_key_other o key f Ho Hk).
    - by destruct (Hno Est) as [_ ->]. }
  split.
  - intros o b v Ho Hb Hmax. cbn. rewrite Hv by lia || done. by apply Hs.
  - intros o f Ho Hf. unfold so_mem. cbn. unfold chunk_mem. cbn.
    rewrite Hv; [done|done|apply Z.div_pos; lia|apply Z.div_lt_upper_bound; lia].
Qed.
End memcached.

(** * New objects *)

Section new_objects.
Context {M : Type} `{MemcachedLaws M}.

(** An allocation that succeeds has claimed its id with the class and the size. *)
Lemma alloc_claims tries (p p' : process (word_store M)) key0 key cls size :
  alloc_tries tries p key0 cls size = Ret (p', key) -> is_u32 cls -> is_u32 size ->
  so_getinfo (c_backend (env p')) key (0, 0) = Ret (SoOK, (cls, size)).
Proof.
  intros Halloc Hcls Hsize. revert p key0 Halloc. induction tries as [|tries IH]; intros p key0; [done|]. cbn [alloc_tries].
  intros ([rs k] & _ & Ha)%bind_Ret_inv. cbn in Ha.
  destruct (SoStorageMemcached.newobj (word_client (env p)) k cls size) as [m st] eqn:En.
  destruct (decide (st = SoOK)) as [->|]; [|by eapply IH]. injection Ha as <- <-. cbn.
  by apply (newobj_claims_once (word_client (env p)) m k cls size (0, 0)).
Qed.

(** C40. In a class hierarchy whose classes have [ns] fields of their own, two different
    fields share no word, not even across classes. And an object that [NewObj] has made is
    known to the back end by its class and with a size that covers every field, before
    the constructor runs and whatever it does. *)
Theorem fields_disjoint (ns : list Z) a b n m i j : Forall (fun n => 0 <= n) ns ->
  2 * foldl DefEnd 0 ns < 2 ^ 32 ->
  ns !! a = Some n -> ns !! b = Some m -> 0 <= i < n -> 0 <= j < m ->
  (a <> b \/ i <> j) ->
  (Def (base_fields ns a) i + 2 <= Def (base_fields ns b) j \/
   Def (base_fields ns b) j + 2 <= Def (base_fields ns a) i) /\
  forall cls ctor (p p' : process (word_store M)) key, is_u32 cls ->
    NewObj cls (foldl DefEnd 0 ns) ctor p = Ret (p', key) -> exists p1 size,
    so_getinfo (c_backend (env p1)) key (0, 0) = Ret (SoOK, (cls, size)) /\ ctor p1 key = Ret p' /\
    0 <= Def (base_fields ns a) i /\ Def (base_fields ns a) i + 2 <= size.
Proof.
  intros Hns Hmax Ha Hb Hi Hj Hne.
  destruct (layout_disjoint ns a b n m i j) as (Hd & Hlo & Hs); [done..|]. split; [done|].
  intros cls ctor p p' key Hcls. unfold NewObj, AllocObjectId.
  intros ([p1 k] & Halloc & (p2 & Hc & [= <- <-])%bind_Ret_inv)%bind_Ret_inv.
  exists p1, (u32 (foldl DefEnd 0 ns * 2)). split; [|done].
  apply (alloc_claims _ _ _ _ _ _ _ Halloc); [done|apply u32_range].
Qed.
End new_objects.

(** * Witnesses *)

Section witnesses.
Import MapServer MapServerFacts.

Definition fresh_process (rs : list Z) : process (word_store server) := Process (WordStore ∅) ∅ rs.

(** The id 5 taken. *)
Definition taken_process : process (word_store server) :=
  Process (fst (so_newobj (WordStore (∅ : server)) 5 100 4)) ∅ [0; 5; 6; 7].

Lemma alloc_object_witness :
  (exists p, AllocObjectId (fresh_process [0; 5; 6]) 100 4 = Ret (p, 5) /\ object_list p = {[5]}) /\
  AllocObjectId taken_process 100 4 = Abort.
Proof.
  split.
  - destruct (alloc_object (fresh_process [0; 5; 6]) 100 4 [6] 5 eq_refl) as (_ & Hok & _).
    destruct (so_newobj (c_backend (env (fresh_process [0; 5; 6]))) 5 100 4) as [s st] eqn:E.
    assert (st = SoOK) as -> by (vm_compute in E; congruence).
    eexists. split; [exact (Hok s eq_refl)|]. cbn. apply set_eq. set_solver.
  - destruct (alloc_object taken_process 100 4 [6; 7] 5 eq_refl) as (_ & _ & Htaken).
    apply (Htaken (fun s => is_Some (mc_view (word_client s) !! info_key 5))).
    + vm_compute. eauto.
    + intros [m] Hm. change (word_client (WordStore m)) with m in Hm. cbn [so_newobj word_SoStorage word_client]. destruct (SoStorageMemcached.newobj m 5 100 4) as [m' st] eqn:E.
      apply newobj_inv in E as [Hok Hno]. destruct (decide (st = SoOK)) as [Est|Est].
      { destruct (Hok Est) as [Hnone _]. rewrite Hnone in Hm. by destruct Hm. }
      split; [done|]. change (is_Some (mc_view m' !! info_key 5)). destruct (Hno Est) as [_ ->]. exact Hm.
Defined.

Lemma fields_disjoint_witness :
  (Def (base_fields [2; 0; 3] 0) 1 + 2 <= Def (base_fields [2; 0; 3] 2) 0 \/
   Def (base_fields [2; 0; 3] 2) 0 + 2 <= Def (base_fields [2; 0; 3] 0) 1) /\
  exists (p : process (word_store server)) size,
    so_getinfo (c_backend (env p)) 5 (0, 0) = Ret (SoOK, (100, size)) /\ Def (base_fields [2; 0; 3] 0) 1 + 2 <= size.
Proof.
  destruct (fields_disjoint (M := server) [2; 0; 3] 0 2 2 3 1 0) as [Hd Hnew];
    [repeat constructor; lia|reflexivity|reflexivity|reflexivity|lia|lia|lia|].
  split; [exact Hd|].
  destruct (NewObj 100 5 (fun p _ => Ret p) (fresh_process [5])) as [[p' key]| |] eqn:E; [|by vm_compute in E..].
  assert (key = 5) as -> by (vm_compute in E; congruence).
  destruct (Hnew 100 (fun p _ => Ret p) (fresh_process [5]) p' 5) as (p1 & size & Hi & _ & _ & Hs); [ranges|exact E|].
  exists p1, size. split; [exact Hi|exact Hs].
Defined.


Lemma dstring_roundtrip_witness : exists p p' d,
  Create 100 [68; 111; 103; 101; 101] [0; 0] (fresh_process [5]) = Ret (p, 5) /\
  getstr p (new_DString 5) = Ret (p', d, [68; 111; 103; 101; 101]).
Proof.
  destruct (so_newobj (c_backend (env (fresh_process [5]))) 5 100 3) as [s st] eqn:E.
  assert (st = SoOK) as -> by (vm_compute in E; congruence).
  destruct (dstring_roundtrip (fresh_process [5]) 100 [68; 111; 103; 101; 101] [0; 0] [] 5 s)
    as (p & p' & d & E1 & _ & E2 & _); [exact empty_word_ok|reflexivity|ranges|exact E| | | | |done|].
  - repeat (apply Forall_cons; split); try apply Forall_nil; unfold is_u8; lia.
  - set_solver.
  - done.
  - repeat (apply Forall_cons; split); try apply Forall_nil; unfold is_u8; lia.
  - exists p, p', d. split; [exact E1|exact E2].
Defined.
End witnesses.
