(* ===== verification/AccumulatorObject.v ===== *)
(** Accumulators as objects of the shared memory, [include/DogeeAccumulator.h] and
    [include/DogeeMR.h]: the fields that their constructors write and that
    [init_data_node] reads on every node, and a first round with a new accumulator. *)
From S2P Require Import Prelude Storage Memcached MemcachedFacts Sync Handshake DirectoryCache Accumulator AccumulatorFacts DataConnections Counting DataConnectionsFacts AccumulatorRounds AccumulatorRoundsFacts ObjectModel ObjectFacts.

Section objects.
Context {C S : Type} `{SoStorage S} `{DSMCache C S}.

(** * [DBaseAccumulator] *)

(** [Def(arr, ObjectKey)], [Def(len, uint32_t)], [Def(num_users, uint32_t)], [_LAST_]. *)
Definition arr : Z := Def 0 0.
Definition len : Z := Def 0 1.
Definition num_users : Z := Def 0 2.
Definition DBaseAccumulator_LAST : Z := DefEnd 0 3.

(** The three writes that the constructors of [DAccumulator] and [DMapReduce] make. *)
Definition set_fields (arr_ len_ users : Z) (p : process C) (k : Z) : outcome (process C) :=
  c ← set_value 4 (env p) k arr arr_;
  c ← set_value 4 c k len len_;
  c ← set_value 4 c k num_users users;
  Ret (with_env p c).

(** The constructors, for elements of [sz] bytes, and [NewObj] with them. *)
Definition DAccumulator (sz outarr outlen in_num_user : Z) : process C -> Z -> outcome (process C) :=
  set_fields outarr (u32 (outlen * dsm_size_of sz)) in_num_user.
Definition DMapReduce (users : Z) : process C -> Z -> outcome (process C) := set_fields 0 0 users.

(** What [node->accu->...] reads of object [aid] on a node whose cache is [c]. *)
Definition accu_get (c : C) (aid f : Z) : outcome Z := snd <$> get_value 4 c aid f.
End objects.

Section calls.
Context {T : Type} `{Element T}.

(** [AccumulateAndWait] up to its wait; [threshold] is 0 if it is not given. *)
Definition AccumulateAndWait cache_get accu num_nodes self (accu_mode : AccumulatorMode) (m : ac_manager T)
    (buf : list T) (len : Z) (threshold : T) (okey tid : Z) (readies : list (Z -> bool)) :=
  DoAccumulateAndWait cache_get accu num_nodes self m accu_mode threshold buf len okey tid readies.

(** [Accumulate] stops at a break point. *)
Definition Accumulate (buf : list T) (len : Z) : outcome unit := Abort.
End calls.

(** * A new accumulator *)

Section facts.
Context {C S : Type} `{DSMCacheLaws C S}.

Lemma stored_at (c c' : C) o f v o' f' : stored_words (c_mem c) (c_mem c') o f 1 [v] -> is_u32 o' -> 0 <= f' < MAX_FIELD ->
  c_mem c' o' f' = if (o' =? o) && (f' =? f) then v else c_mem c o' f'.
Proof.
  intros Hs Ho Hf. specialize (Hs o' f' Ho Hf). destruct (Z.eqb_spec o' o) as [->|]; [|done]. cbn [andb] in *.
  destruct (Z.eqb_spec f' f) as [->|Hne].
  - rewrite Z.leb_refl, (proj2 (Z.ltb_lt f (f + 1))) in Hs by lia. cbn [andb] in Hs. rewrite Z.sub_diag in Hs. by injection Hs.
  - destruct (Z.leb_spec f f'), (Z.ltb_spec f' (f + 1)); cbn [andb] in Hs; try done. lia.
Qed.

(** The constructors leave their arguments in the fields, and other words alone. *)
Lemma set_fields_spec (p : process C) k a l n : c_ok (env p) -> is_u32 k -> is_u32 a -> is_u32 l -> is_u32 n -> exists c,
  set_fields a l n p k = Ret (with_env p c) /\ c_ok c /\
  c_mem c k 0 = a /\ c_mem c k 2 = l /\ c_mem c k 4 = n /\
  forall o f, is_u32 o -> 0 <= f < MAX_FIELD -> o <> k -> c_mem c o f = c_mem (env p) o f.
Proof.
  intros Hc Hk Ha Hl Hn. unfold set_fields, set_value. cbn [Z.eqb Pos.eqb].
  change arr with 0. change len with 2. change num_users with 4.
  assert (forall f, f <= 4 -> 0 <= f -> 0 <= f < MAX_FIELD) as Hf by (unfold MAX_FIELD; lia).
  destruct (c_put_law (env p) k 0 a) as (c1 & -> & Hc1 & Hs1); [done|done|apply Hf; lia|done|]. cbn [mbind outcome_bind].
  destruct (c_put_law c1 k 2 l) as (c2 & -> & Hc2 & Hs2); [done|done|apply Hf; lia|done|]. cbn [mbind outcome_bind].
  destruct (c_put_law c2 k 4 n) as (c3 & -> & Hc3 & Hs3); [done|done|apply Hf; lia|done|]. cbn [mbind outcome_bind].
  exists c3. split; [done|]. split; [done|].
  do 3 (split; [rewrite ?(stored_at _ _ _ _ _ k _ Hs3), ?(stored_at _ _ _ _ _ k _ Hs2), ?(stored_at _ _ _ _ _ k _ Hs1), Z.eqb_refl by (done || apply Hf; lia); done|]).
  intros o f Ho Hr Hne. rewrite (stored_at _ _ _ _ _ o f Hs3), (stored_at _ _ _ _ _ o f Hs2), (stored_at _ _ _ _ _ o f Hs1) by done.
  by rewrite (proj2 (Z.eqb_neq o k)) by done.
Qed.
End facts.

Section round.
Context {C S : Type} `{DSMCacheLaws C S} {T : Type} `{ElementLaws T}.

Lemma accu_get_law (c : C) o f : c_ok c -> is_u32 o -> 0 <= f < MAX_FIELD -> accu_get c o f = Ret (c_mem c o f).
Proof.
  intros Hc Ho Hf. unfold accu_get, get_value. cbn [Z.eqb Pos.eqb].
  by destruct (c_get_law c o f Hc Ho Hf) as (c' & -> & _).
Qed.

(** Nodes that never saw the accumulator are idle. *)
Lemma new_idle (c : C) num_nodes aid k sz arr_ us arrays : c_ok c -> is_u32 aid -> 0 <= k < 2 ^ 31 ->
  0 <= sz <= 2 ^ 27 -> 0 < num_nodes <= 2 ^ 20 ->
  c_mem c aid 0 = arr_ -> c_mem c aid 2 = sz -> c_mem c aid 4 = k ->
  idle (T := T) (accu_get c) num_nodes aid k sz arr_ (AcWorld (replicate (Z.to_nat num_nodes) ∅) [] us arrays []).
Proof.
  intros Hc Ha Hk Hsz Hn E0 E2 E4. split; [done|]. split; [cbn; unfold zlen; rewrite length_replicate; lia|].
  assert (forall f v, c_mem c aid f = v -> 0 <= f <= 4 -> accu_get c aid f = Ret v) as Hget.
  { intros f v <- Hf. apply accu_get_law; [done|done|unfold MAX_FIELD; lia]. }
  intros j Hj. destruct (init_owner (T := T) (accu_get c) num_nodes j aid k sz arr_) as (node & Hi & Ho & Hw);
    [unfold part_ok; lia|done|by apply Hget|by apply Hget|by apply Hget|].
  exists ∅, node. cbn [managers]. rewrite zlook_replicate by lia. split; [done|]. split; [|done].
  unfold FindOrCreateDataSyncNode. by rewrite lookup_empty.
Qed.

(** So are they for a new map-reduce object, whose parts of a shared array are empty. *)
Lemma new_mapreduce_idle (p : process C) k n num_nodes us arrays : c_ok (env p) -> is_u32 k -> 0 <= n < 2 ^ 31 ->
  0 < num_nodes <= 2 ^ 20 -> exists c, DMapReduce n p k = Ret (with_env p c) /\ c_ok c /\
  idle (T := T) (accu_get c) num_nodes k n 0 0 (AcWorld (replicate (Z.to_nat num_nodes) ∅) [] us arrays []).
Proof.
  intros Hc Hk Hn Hnodes.
  destruct (set_fields_spec p k 0 0 n) as (c & E & Hc' & E0 & E2 & E4 & _); [done|done|done|done|unfold is_u32; lia|].
  exists c. split; [exact E|]. split; [done|]. by apply new_idle.
Qed.

End round.

(** * Witness *)

(** The accumulator 5 for the array 99 of 33 words, on two nodes with a user each. *)
Section witness.
Import MapServer MapServerFacts.

Definition two_rounders : list (round_user Z) :=
  [RoundUser 0 5 DenseMode (replicate 33 1) [fun _ => true]; RoundUser 1 6 SparseMode (replicate 33 2) [fun _ => true]].
Definition their_messages (r : round_user Z) : list (Z * RcDataPack Z) :=
  match user_messages 2 (ru_node r) (ru_mode r) zero (ru_vec r) 33 5 (ru_tid r) (ru_readies r) with Ret l => l | _ => [] end.

End witness.
