(* ===== verification/ThreadSystem.v ===== *)
(** What a process and each of its threads set up before they use the shared memory:
    [DogeeEnv] of [include/DogeeEnv.h], [Dogee/DogeeHelper.cpp] and [Dogee/DogeeShared.cpp],
    [SoStorageFactory] of [include/DogeeHelper.h], the clients of the threads in
    [Dogee/DogeeMemcachedStorage.cpp], and their events, which [Dogee/DogeeRemote.cpp]
    keeps in a map under a readers-writer lock. *)
From S2P Require Import Prelude.

(** * The process *)

Inductive BackendType := SoBackendTest | SoBackendChunkMemcached | SoBackendMemcached.
Inductive CacheType := SoNoCache | SoWriteThroughCache.

(** The object that [makecache] returns, the directory cache with its node id and ports. *)
Inductive made_cache :=
| MadeNoCache
| MadeDirectoryCache (node_id controlport dataport : Z).

(** [thread_lock]: the threads, by their number, that hold it. *)
Record rwlock := RWLock { lock_readers : gset nat; lock_writer : option nat }.

(** The static variables: [DogeeEnv::backend] and [cache], the back end that
    [InitStorageCurrentThread] belongs to, [main_memc], the clients that exist, how often
    the servers were flushed, [tid_count], [ThreadEventMap] (is the event set), the lock
    once it is initialised. *)
Record process := Process {
  backend : option BackendType;
  cache : option made_cache;
  thread_procs : option BackendType;
  main_memc : option Z;
  clients : gset Z;
  flushes : Z;
  tid_count : Z;
  ThreadEventMap : gmap Z bool;
  thread_lock : option rwlock;
}.

Definition new_process : process := Process None None None None ∅ 0 1 ∅ None.

Definition set_storage (p : process) (b : option BackendType) (c : option made_cache) : process :=
  Process b c (thread_procs p) (main_memc p) (clients p) (flushes p) (tid_count p) (ThreadEventMap p) (thread_lock p).
Definition set_clients (p : process) (cs : gset Z) : process :=
  Process (backend p) (cache p) (thread_procs p) (main_memc p) cs (flushes p) (tid_count p) (ThreadEventMap p) (thread_lock p).
Definition set_events (p : process) (m : gmap Z bool) : process :=
  Process (backend p) (cache p) (thread_procs p) (main_memc p) (clients p) (flushes p) (tid_count p) m (thread_lock p).
Definition set_lock (p : process) (l : option rwlock) : process :=
  Process (backend p) (cache p) (thread_procs p) (main_memc p) (clients p) (flushes p) (tid_count p) (ThreadEventMap p) l.

(** * The threads *)

(** One statement; those of one function stand in its list. *)
Inductive stmt :=
| CallAllocThreadId
| EnterWrite
| NewEvent
| DeleteEvent
| LeaveWrite
| EnterRead
| WaitForEvent
| SetEvent (local_thread_id : Z)
| ResetEvent
| LeaveRead
| InitStorageThread
| DestroyStorageThread
| ClearThreadId
| UseClient.

(** What a thread calls; [UseStorage] is any operation of a back end. *)
Inductive call :=
| CallInit
| CallDestroy
| CallWait
| CallSet (local_thread_id : Z)
| CallReset
| UseStorage.

#[export] Instance stmt_eq_dec : EqDecision stmt.
Proof. solve_decision. Defined.
#[export] Instance call_eq_dec : EqDecision call.
Proof. solve_decision. Defined.

(** A thread: its [THREAD_LOCAL] variables, the statements left of the call it is in, and
    the calls after that. *)
Record thread := ThreadState {
  current_thread_id : Z;
  memc : option Z;
  todo : list stmt;
  calls : list call;
}.

Definition RcPrepareNewThread : list stmt := [EnterWrite; NewEvent; LeaveWrite].
Definition RcDeleteThread : list stmt := [EnterWrite; DeleteEvent; LeaveWrite].
Definition RcWaitForRemoteEvent : list stmt := [EnterRead; WaitForEvent; LeaveRead].
Definition RcSetRemoteEvent (tid : Z) : list stmt := [EnterRead; SetEvent tid; LeaveRead].
Definition RcResetRemoteEvent : list stmt := [EnterRead; ResetEvent; LeaveRead].

Definition InitCurrentThread (tid : Z) : list stmt :=
  if tid =? 0 then CallAllocThreadId :: RcPrepareNewThread ++ [InitStorageThread] else [].
Definition DestroyCurrentThread (tid : Z) : list stmt :=
  if negb (tid =? 0) then RcDeleteThread ++ [DestroyStorageThread; ClearThreadId] else [].

Definition body_of (c : call) (tid : Z) : list stmt :=
  match c with
  | CallInit => InitCurrentThread tid
  | CallDestroy => DestroyCurrentThread tid
  | CallWait => RcWaitForRemoteEvent
  | CallSet t => RcSetRemoteEvent t
  | CallReset => RcResetRemoteEvent
  | UseStorage => [UseClient]
  end.

(** * Clients *)

(** [memcached_clone] and [memcached_create] return the [fresh] client. *)
Definition init_memcached_this_thread (fresh : Z) (p : process) (memc : option Z) : outcome (process * option Z) :=
  match memc with
  | Some c => Ret (p, Some c)
  | None =>
      match main_memc p with
      | Some m => _ ← c_assert (bool_decide (m ∈ clients p)); Ret (set_clients p ({[fresh]} ∪ clients p), Some fresh)
      | None => Ret (p, None)
      end
  end.

(** The thread's variable keeps the client that was freed. *)
Definition destroy_memcached_this_thread (p : process) (memc : option Z) : outcome process :=
  match memc with
  | None => Ret p
  | Some c => _ ← c_assert (bool_decide (c ∈ clients p)); Ret (set_clients p (clients p ∖ {[c]}))
  end.

(** * Statements *)

Definition with_memc (t : thread) (m : option Z) : thread := ThreadState (current_thread_id t) m (todo t) (calls t).
Definition with_id (t : thread) (tid : Z) : thread := ThreadState tid (memc t) (todo t) (calls t).

(** The shared and the exclusive mode of the lock, by thread [k]; readers are let in
    whenever no writer holds it. *)
Definition enter_write (k : nat) (l : rwlock) : outcome rwlock :=
  match lock_writer l with
  | None => if decide (lock_readers l = ∅) then Ret (RWLock ∅ (Some k)) else NoFuel
  | Some _ => NoFuel
  end.
Definition leave_write (k : nat) (l : rwlock) : outcome rwlock :=
  if decide (lock_writer l = Some k) then Ret (RWLock (lock_readers l) None) else Abort.
Definition enter_read (k : nat) (l : rwlock) : outcome rwlock :=
  match lock_writer l with
  | None => Ret (RWLock ({[k]} ∪ lock_readers l) None)
  | Some _ => NoFuel
  end.
Definition leave_read (k : nat) (l : rwlock) : outcome rwlock :=
  if decide (k ∈ lock_readers l) then Ret (RWLock (lock_readers l ∖ {[k]}) (lock_writer l)) else Abort.

Definition with_lock (f : rwlock -> outcome rwlock) (p : process) : outcome process :=
  match thread_lock p with
  | None => Abort
  | Some l => l ← f l; Ret (set_lock p (Some l))
  end.

(** [ThreadEventMap[tid]], dereferenced. *)
Definition event_of (p : process) (tid : Z) : outcome bool :=
  match ThreadEventMap p !! tid with Some b => Ret b | None => Abort end.

(** [tid_count++]. *)
Definition AllocThreadId (p : process) : process * Z :=
  (Process (backend p) (cache p) (thread_procs p) (main_memc p) (clients p) (flushes p)
     (s32 (tid_count p + 1)) (ThreadEventMap p) (thread_lock p), tid_count p).

(** A statement of thread [k], which is past it; [NoFuel] while it has to wait. *)
Definition exec (k : nat) (fresh : Z) (s : stmt) (p : process) (t : thread) : outcome (process * thread) :=
  match s with
  | CallAllocThreadId => let '(p, tid) := AllocThreadId p in Ret (p, with_id t tid)
  | EnterWrite => p ← with_lock (enter_write k) p; Ret (p, t)
  | LeaveWrite => p ← with_lock (leave_write k) p; Ret (p, t)
  | EnterRead => p ← with_lock (enter_read k) p; Ret (p, t)
  | LeaveRead => p ← with_lock (leave_read k) p; Ret (p, t)
  | NewEvent => Ret (set_events p (<[current_thread_id t := false]> (ThreadEventMap p)), t)
  | DeleteEvent =>
      _ ← event_of p (current_thread_id t);
      Ret (set_events p (delete (current_thread_id t) (ThreadEventMap p)), t)
  | WaitForEvent => b ← event_of p (current_thread_id t); if b : bool then Ret (p, t) else NoFuel
  | SetEvent tid => _ ← event_of p tid; Ret (set_events p (<[tid := true]> (ThreadEventMap p)), t)
  | ResetEvent =>
      _ ← event_of p (current_thread_id t);
      Ret (set_events p (<[current_thread_id t := false]> (ThreadEventMap p)), t)
  | InitStorageThread =>
      _ ← c_assert (bool_decide (is_Some (thread_procs p)));
      '(p, m) ← init_memcached_this_thread fresh p (memc t);
      Ret (p, with_memc t m)
  | DestroyStorageThread =>
      _ ← c_assert (bool_decide (is_Some (thread_procs p)));
      p ← destroy_memcached_this_thread p (memc t);
      Ret (p, t)
  | ClearThreadId => Ret (p, with_id t 0)
  | UseClient =>
      match memc t with
      | Some c => _ ← c_assert (bool_decide (c ∈ clients p)); Ret (p, t)
      | None => Abort
      end
  end.

(** * Storage of the process *)

Definition InitMemcachedStorage (isMaster : bool) (fresh : Z) (p : process) (t : thread) : outcome (process * thread) :=
  _ ← c_assert (bool_decide (main_memc p = None));
  Ret (Process (backend p) (cache p) (thread_procs p) (Some fresh) ({[fresh]} ∪ clients p)
         (if isMaster then flushes p + 1 else flushes p) (tid_count p) (ThreadEventMap p) (thread_lock p),
       with_memc t (Some fresh)).

(** [SoStorageFactory::make]; the test back end is commented out. *)
Definition make (type : BackendType) (isMaster : bool) (fresh : Z) (p : process) (t : thread) : outcome (process * thread) :=
  match type with
  | SoBackendTest => Abort
  | _ =>
      let p := Process (backend p) (cache p) (Some type) (main_memc p) (clients p) (flushes p) (tid_count p)
                 (ThreadEventMap p) (thread_lock p) in
      InitMemcachedStorage isMaster fresh p t
  end.

(** [makecache]; [listens] says on which ports [RcCreateListen] succeeds. *)
Definition makecache (cachetype : CacheType) (arr_ports : list Z) (node_id : Z) (listens : Z -> bool) : outcome made_cache :=
  match cachetype with
  | SoNoCache => Ret MadeNoCache
  | SoWriteThroughCache =>
      port ← rd arr_ports node_id;
      _ ← c_assert (listens (port + 1));
      _ ← c_assert (listens (port + 2));
      Ret (MadeDirectoryCache node_id (port + 1) (port + 2))
  end.

(** [RcInitThreadSystem] and [RcFinalizeThreadSystem]. *)
Definition RcInitThreadSystem (p : process) : process := set_lock p (Some (RWLock ∅ None)).
Definition RcFinalizeThreadSystem (p : process) : process := set_lock p None.

Definition InitStorage (backty : BackendType) (cachety : CacheType) (ports : list Z) (node_id : Z) (isMaster : bool)
    (listens : Z -> bool) (fresh : Z) (p : process) (t : thread) : outcome (process * thread) :=
  '(p, t) ← make backty isMaster fresh p t;
  c ← makecache cachety ports node_id listens;
  Ret (RcInitThreadSystem (set_storage p (Some backty) (Some c)), t).

Definition CloseStorage (p : process) : process := set_storage (RcFinalizeThreadSystem p) None None.

(** * Runs *)

Record env_state := EnvState { proc : process; threads : list thread }.

Definition at_stmt (t : thread) (rest : list stmt) : thread := ThreadState (current_thread_id t) (memc t) rest (calls t).
Definition begin_call (t : thread) (c : call) (cs : list call) : thread :=
  ThreadState (current_thread_id t) (memc t) (body_of c (current_thread_id t)) cs.

(** A thread begins its next call or executes its next statement. *)
Inductive env_step : env_state -> env_state -> Prop :=
| es_call p ts k t c cs :
    ts !! k = Some t -> todo t = [] -> calls t = c :: cs ->
    env_step (EnvState p ts) (EnvState p (<[k := begin_call t c cs]> ts))
| es_exec p ts k t s rest fresh p' t' :
    ts !! k = Some t -> todo t = s :: rest -> fresh ∉ clients p ->
    exec k fresh s p (at_stmt t rest) = Ret (p', t') ->
    env_step (EnvState p ts) (EnvState p' (<[k := t']> ts)).
