(* ===== verification/ThreadSystemFacts.v ===== *)
(** Threads that call [InitCurrentThread] first find their event and their client whenever
    they need them; but a thread that waits for its event keeps every other thread of its
    process from starting and from ending. *)
From S2P Require Import Prelude Counting ThreadSystem.

(** * The life of a thread *)

(** The calls of a thread: [InitCurrentThread], then anything, then for a thread other than
    the main thread [DestroyCurrentThread], if it calls that. *)
Definition ordinary (c : call) : Prop := c <> CallInit /\ c <> CallDestroy.
Definition later (main : bool) (cs : list call) : Prop :=
  exists body tail, cs = body ++ tail /\ Forall ordinary body /\ (tail = [] \/ main = false /\ tail = [CallDestroy]).
Definition disciplined (main : bool) (cs : list call) : Prop := exists cs', cs = CallInit :: cs' /\ later main cs'.

Lemma later_cons main c cs : later main (c :: cs) -> ordinary c /\ later main cs \/ c = CallDestroy /\ cs = [] /\ main = false.
Proof.
  intros ([|c' body] & tail & E & Hb & Ht); cbn in E.
  - destruct Ht as [->|[-> ->]]; [done|]. injection E as -> ->. by right.
  - injection E as -> ->. apply Forall_cons in Hb as [Hc Hb]. left. split; [done|]. by exists body, tail.
Qed.

(** Has the thread an id, an event, a client of its own? *)
Inductive client_state := NoClient | Own | Freed.
Record flags := Flags { f_id : bool; f_event : bool; f_client : client_state }.
Definition first_client (main : bool) : client_state := if main then Own else NoClient.

(** What can be left of a call between [InitCurrentThread] and [DestroyCurrentThread]. *)
Inductive in_call : list stmt -> Prop :=
| in_none : in_call []
| in_use : in_call [UseClient]
| in_leave : in_call [LeaveRead]
| in_read s : s = WaitForEvent \/ s = ResetEvent \/ (exists tid, s = SetEvent tid) -> in_call [s; LeaveRead]
| in_enter s : s = WaitForEvent \/ s = ResetEvent \/ (exists tid, s = SetEvent tid) -> in_call [EnterRead; s; LeaveRead].

Inductive life (main : bool) : list stmt -> list call -> flags -> Prop :=
| life_new cs : later main cs -> life main [] (CallInit :: cs) (Flags false false (first_client main))
| life_alloc cs : later main cs ->
    life main [CallAllocThreadId; EnterWrite; NewEvent; LeaveWrite; InitStorageThread] cs (Flags false false (first_client main))
| life_prepare cs : later main cs ->
    life main [EnterWrite; NewEvent; LeaveWrite; InitStorageThread] cs (Flags true false (first_client main))
| life_event cs : later main cs -> life main [NewEvent; LeaveWrite; InitStorageThread] cs (Flags true false (first_client main))
| life_prepared cs : later main cs -> life main [LeaveWrite; InitStorageThread] cs (Flags true true (first_client main))
| life_client cs : later main cs -> life main [InitStorageThread] cs (Flags true true (first_client main))
| life_run l cs : in_call l -> later main cs -> life main l cs (Flags true true Own)
| life_delete : main = false -> life main [EnterWrite; DeleteEvent; LeaveWrite; DestroyStorageThread; ClearThreadId] [] (Flags true true Own)
| life_unevent : main = false -> life main [DeleteEvent; LeaveWrite; DestroyStorageThread; ClearThreadId] [] (Flags true true Own)
| life_deleted : main = false -> life main [LeaveWrite; DestroyStorageThread; ClearThreadId] [] (Flags true false Own)
| life_free : main = false -> life main [DestroyStorageThread; ClearThreadId] [] (Flags true false Own)
| life_clear : main = false -> life main [ClearThreadId] [] (Flags true false Freed)
| life_ended : main = false -> life main [] [] (Flags false false Freed).

(** * The invariant *)

Record local (main : bool) (p : process) (t : thread) (f : flags) : Prop := {
  lo_life : life main (todo t) (calls t) f;
  lo_id : if f_id f then 1 <= current_thread_id t < tid_count p else current_thread_id t = 0;
  lo_event : f_id f = true -> is_Some (ThreadEventMap p !! current_thread_id t) <-> f_event f = true;
  lo_client : match f_client f with
    | Own => exists c, memc t = Some c /\ c ∈ clients p /\ (main = true <-> main_memc p = Some c)
    | NoClient => memc t = None
    | Freed => True
    end;
}.

(** The parts of the lock that the next statements of a thread stand for. *)
Definition holds_read (l : list stmt) : bool :=
  match l with (WaitForEvent | ResetEvent | SetEvent _ | LeaveRead) :: _ => true | _ => false end.
Definition holds_write (l : list stmt) : bool :=
  match l with (NewEvent | DeleteEvent | LeaveWrite) :: _ => true | _ => false end.

Record lock_ok (l : rwlock) (ts : list thread) : Prop := {
  lk_readers : forall k, k ∈ lock_readers l <-> exists t, ts !! k = Some t /\ holds_read (todo t) = true;
  lk_writer : forall k, lock_writer l = Some k <-> exists t, ts !! k = Some t /\ holds_write (todo t) = true;
  lk_excl : lock_writer l <> None -> lock_readers l = ∅;
}.

Definition has_no_id (t : thread) : Z :=
  if decide (CallInit ∈ calls t \/ CallAllocThreadId ∈ todo t) then 1 else 0.

Definition apart (f g : flags) (t u : thread) : Prop :=
  (f_id f = true -> f_id g = true -> current_thread_id t <> current_thread_id u) /\
  (f_client f = Own -> f_client g = Own -> memc t <> memc u).

Definition is_main (k : nat) : bool := bool_decide (k = 0%nat).

Record env_inv (fl : nat -> flags) (p : process) (ts : list thread) : Prop := {
  ei_local : forall k t, ts !! k = Some t -> local (is_main k) p t (fl k);
  ei_apart : forall j k t u, j <> k -> ts !! j = Some t -> ts !! k = Some u -> apart (fl j) (fl k) t u;
  ei_lock : exists l, thread_lock p = Some l /\ lock_ok l ts;
  ei_procs : is_Some (thread_procs p);
  ei_main : exists m, main_memc p = Some m /\ m ∈ clients p;
  ei_free : forall x, tid_count p <= x -> ThreadEventMap p !! x = None;
  ei_ids : 1 <= tid_count p /\ tid_count p + node_sum (λ _, has_no_id) 0 ts < 2 ^ 31;
}.

Definition put_flags (fl : nat -> flags) (k : nat) (f : flags) (j : nat) : flags := if decide (j = k) then f else fl j.

Lemma local_frame main p p' u g : local main p u g -> tid_count p <= tid_count p' -> main_memc p' = main_memc p ->
  (f_id g = true -> is_Some (ThreadEventMap p' !! current_thread_id u) <-> is_Some (ThreadEventMap p !! current_thread_id u)) ->
  (forall c, f_client g = Own -> memc u = Some c -> c ∈ clients p -> c ∈ clients p') -> local main p' u g.
Proof.
  intros [H1 H2 H3 H4] Ht Hm He Hc. split; [done| | |].
  - destruct (f_id g); [lia|done].
  - intros Hi. by rewrite He, H3.
  - destruct (f_client g); [done| |done]. destruct H4 as (c & E & Hin & Hmain). exists c. rewrite Hm. auto.
Qed.

(** A thread's number of ids to come. *)
Lemma node_sum_const {A} (f : A -> Z) (l : list A) k x y : l !! k = Some x ->
  node_sum (λ _, f) 0 (<[k := y]> l) = node_sum (λ _, f) 0 l - f x + f y.
Proof. intros Hk. by rewrite (node_sum_insert (λ _, f) l 0 k x y Hk). Qed.

Lemma has_no_id_range t : 0 <= has_no_id t <= 1.
Proof. unfold has_no_id. case_decide; lia. Qed.

Lemma no_ids_nonneg ts : 0 <= node_sum (λ _, has_no_id) 0 ts.
Proof. apply node_sum_nonneg. intros i t _. apply has_no_id_range. Qed.

(** A step of thread [k]. *)
Lemma env_inv_update fl p ts k t p' t' f l' : env_inv fl p ts -> ts !! k = Some t ->
  local (is_main k) p' t' f ->
  (forall j u, j <> k -> ts !! j = Some u -> local (is_main j) p' u (fl j) /\ apart (fl j) f u t') ->
  thread_lock p' = Some l' -> lock_ok l' (<[k := t']> ts) ->
  thread_procs p' = thread_procs p -> main_memc p' = main_memc p -> (forall m, main_memc p = Some m -> m ∈ clients p') ->
  (forall x, tid_count p' <= x -> ThreadEventMap p' !! x = None) ->
  1 <= tid_count p' -> tid_count p' + has_no_id t' <= tid_count p + has_no_id t ->
  env_inv (put_flags fl k f) p' (<[k := t']> ts).
Proof.
  intros HI Hk Hloc Hoth Hl Hlock Hp Hm Hmc Hfree Hc1 Hc2. pose proof (lookup_lt_Some _ _ _ Hk) as Hlt.
  assert (forall j u, <[k := t']> ts !! j = Some u -> j = k /\ u = t' \/ j <> k /\ ts !! j = Some u) as Hlook.
  { intros j u. destruct (decide (j = k)) as [->|Hj]; [|rewrite list_lookup_insert_ne by done; by right].
    rewrite list_lookup_insert_eq by done. intros [= <-]. by left. }
  split.
  - intros j u [[-> ->]|[Hj Hu]]%Hlook; unfold put_flags; [by rewrite decide_True|]. rewrite decide_False by done. by apply Hoth.
  - intros a b u v Hab Ha Hb. unfold put_flags.
    apply Hlook in Ha as [[-> ->]|[Ha Hu]], Hb as [[-> ->]|[Hb Hv]]; [done|..].
    + rewrite decide_True, decide_False by done. destruct (Hoth b v Hb Hv) as [_ [A1 A2]]. split; intros ? ?; apply not_eq_sym; auto.
    + rewrite decide_False, decide_True by done. by apply Hoth.
    + rewrite !decide_False by done. by apply (ei_apart _ _ _ HI a b).
  - by exists l'.
  - rewrite Hp. apply HI.
  - destruct (ei_main _ _ _ HI) as (m & E & _). exists m. rewrite Hm. auto.
  - done.
  - split; [done|]. rewrite (node_sum_const has_no_id ts k t) by done. pose proof (ei_ids _ _ _ HI). lia.
Qed.

(** * The lock *)

Lemma lock_ok_same l ts k t t' : lock_ok l ts -> ts !! k = Some t -> holds_read (todo t') = holds_read (todo t) ->
  holds_write (todo t') = holds_write (todo t) -> lock_ok l (<[k := t']> ts).
Proof.
  intros [H1 H2 H3] Hk Hr Hw. pose proof (lookup_lt_Some _ _ _ Hk). split; [| |done].
  - intros j. rewrite H1. destruct (decide (j = k)) as [->|Hj]; [|by rewrite list_lookup_insert_ne].
    rewrite list_lookup_insert_eq by done. split; intros (u & E & Hu); [exists t'|exists t]; split; try done; congruence.
  - intros j. rewrite H2. destruct (decide (j = k)) as [->|Hj]; [|by rewrite list_lookup_insert_ne].
    rewrite list_lookup_insert_eq by done. split; intros (u & E & Hu); [exists t'|exists t]; split; try done; congruence.
Qed.

(** What the four operations do to the lock, and that leaving it is never a failure. *)
Lemma lock_ok_change l l' ts k t t' : lock_ok l ts -> ts !! k = Some t ->
  (forall j, j <> k -> (j ∈ lock_readers l' <-> j ∈ lock_readers l) /\ (lock_writer l' = Some j <-> lock_writer l = Some j)) ->
  (k ∈ lock_readers l' <-> holds_read (todo t') = true) -> (lock_writer l' = Some k <-> holds_write (todo t') = true) ->
  (lock_writer l' <> None -> lock_readers l' = ∅) -> lock_ok l' (<[k := t']> ts).
Proof.
  intros [H1 H2 H3] Hk Hoth Hr Hw Hx. pose proof (lookup_lt_Some _ _ _ Hk). split; [| |done].
  - intros j. destruct (decide (j = k)) as [->|Hj].
    + rewrite list_lookup_insert_eq, Hr by done. split; [by exists t'|]. by intros (u & [= ->] & Hu).
    + rewrite list_lookup_insert_ne by done. rewrite (proj1 (Hoth j Hj)). apply H1.
  - intros j. destruct (decide (j = k)) as [->|Hj].
    + rewrite list_lookup_insert_eq, Hw by done. split; [by exists t'|]. by intros (u & [= ->] & Hu).
    + rewrite list_lookup_insert_ne by done. rewrite (proj2 (Hoth j Hj)). apply H2.
Qed.

Lemma enter_write_ok l l' ts k t t' : lock_ok l ts -> ts !! k = Some t -> enter_write k l = Ret l' ->
  holds_read (todo t') = false -> holds_write (todo t') = true -> lock_ok l' (<[k := t']> ts).
Proof.
  intros HL Hk He Hr Hw. unfold enter_write in He. destruct (lock_writer l) eqn:Ew; [done|]. case_decide as Hn; [|done]. injection He as <-.
  apply (lock_ok_change l _ ts k t t' HL Hk); cbn.
  - intros j Hj. rewrite Hn, Ew. split; [done|]. split; [congruence|done].
  - rewrite Hr. set_solver.
  - by rewrite Hw.
  - done.
Qed.

Lemma enter_read_ok l l' ts k t t' : lock_ok l ts -> ts !! k = Some t -> enter_read k l = Ret l' ->
  holds_read (todo t') = true -> holds_write (todo t') = false -> lock_ok l' (<[k := t']> ts).
Proof.
  intros HL Hk He Hr Hw. unfold enter_read in He. destruct (lock_writer l) eqn:Ew; [done|]. injection He as <-.
  apply (lock_ok_change l _ ts k t t' HL Hk); cbn.
  - intros j Hj. rewrite Ew. set_solver.
  - rewrite Hr. set_solver.
  - by rewrite Hw.
  - done.
Qed.

Lemma leave_write_ok l ts k t t' : lock_ok l ts -> ts !! k = Some t -> holds_write (todo t) = true ->
  holds_read (todo t') = false -> holds_write (todo t') = false ->
  exists l', leave_write k l = Ret l' /\ lock_ok l' (<[k := t']> ts).
Proof.
  intros HL Hk Hh Hr Hw. pose proof HL as [H1 H2 H3]. assert (lock_writer l = Some k) as E by (apply H2; by exists t).
  unfold leave_write. rewrite decide_True by done. eexists. split; [done|].
  assert (lock_readers l = ∅) as Er by (apply H3; by rewrite E).
  apply (lock_ok_change l _ ts k t t' HL Hk); cbn.
  - intros j Hj. rewrite E. split; [done|]. split; [done|congruence].
  - rewrite Er, Hr. set_solver.
  - by rewrite Hw.
  - done.
Qed.

Lemma leave_read_ok l ts k t t' : lock_ok l ts -> ts !! k = Some t -> holds_read (todo t) = true ->
  holds_read (todo t') = false -> holds_write (todo t') = false ->
  exists l', leave_read k l = Ret l' /\ lock_ok l' (<[k := t']> ts).
Proof.
  intros HL Hk Hh Hr Hw. pose proof HL as [H1 H2 H3]. assert (k ∈ lock_readers l) as E by (apply H1; by exists t).
  unfold leave_read. rewrite decide_True by done. eexists. split; [done|].
  assert (lock_writer l = None) as Er by (destruct (lock_writer l); [|done]; rewrite H3 in E by done; set_solver).
  apply (lock_ok_change l _ ts k t t' HL Hk); cbn.
  - intros j Hj. rewrite Er. set_solver.
  - rewrite Hr. set_solver.
  - by rewrite Hw, Er.
  - by rewrite Er.
Qed.

(** * The steps *)

(** A statement that leaves everything but the thread's place and the lock. *)
Lemma lock_step fl p ts k t rest l' : env_inv fl p ts -> ts !! k = Some t -> life (is_main k) rest (calls t) (fl k) ->
  has_no_id (at_stmt t rest) <= has_no_id t -> lock_ok l' (<[k := at_stmt t rest]> ts) ->
  env_inv (put_flags fl k (fl k)) (set_lock p (Some l')) (<[k := at_stmt t rest]> ts).
Proof.
  intros HI Hk Hlife Hid HL. destruct (ei_local _ _ _ HI k t Hk) as [L1 L2 L3 L4]. destruct (ei_main _ _ _ HI) as (m & Em & Hm).
  destruct (ei_ids _ _ _ HI) as [I1 I2].
  apply (env_inv_update fl p ts k t _ _ (fl k) l'); try done.
  - intros j u Hj Hu. split; [|by apply (ei_apart _ _ _ HI j k u t)]. apply (local_frame _ p); try done. by apply HI.
  - intros m' E. cbn. congruence.
  - by apply (ei_free _ _ _ HI).
  - cbn. lia.
Qed.

(** A statement that changes at most the events: its own, or one that is there. *)
Lemma event_step fl p ts k t rest ev m' : env_inv fl p ts -> ts !! k = Some t ->
  f_id (fl k) = true -> life (is_main k) rest (calls t) (Flags true ev (f_client (fl k))) ->
  (forall x, x <> current_thread_id t -> is_Some (m' !! x) <-> is_Some (ThreadEventMap p !! x)) ->
  (is_Some (m' !! current_thread_id t) <-> ev = true) ->
  has_no_id (at_stmt t rest) <= has_no_id t ->
  holds_read rest = holds_read (todo t) -> holds_write rest = holds_write (todo t) ->
  env_inv (put_flags fl k (Flags true ev (f_client (fl k)))) (set_events p m') (<[k := at_stmt t rest]> ts).
Proof.
  intros HI Hk Hid Hlife Hm' Hown Hno Hr Hw. destruct (ei_local _ _ _ HI k t Hk) as [L1 L2 L3 L4].
  destruct (ei_main _ _ _ HI) as (m & Em & Hm). destruct (ei_ids _ _ _ HI) as [I1 I2]. destruct (ei_lock _ _ _ HI) as (l & El & HL).
  rewrite Hid in L2.
  apply (env_inv_update fl p ts k t _ _ (Flags true ev (f_client (fl k))) l); try done.
  - intros j u Hj Hu. pose proof (ei_apart _ _ _ HI j k u t Hj Hu Hk) as [A1 A2]. split; [|split; [intros Hfj _; by apply A1|intros Hfj Hc; by apply A2]].
    apply (local_frame _ p); [by apply HI|done|done| |done]. intros Hfj. cbn. apply Hm'. by apply A1.
  - by apply (lock_ok_same l ts k t).
  - intros m2 E. cbn. congruence.
  - intros x Hx. cbn in *. apply eq_None_not_Some. rewrite Hm' by lia. rewrite (ei_free _ _ _ HI x Hx). by intros [].
  - cbn. lia.
Qed.

(** A statement that changes the thread's id or its client. *)
Lemma own_step fl p ts k t p' t' f : env_inv fl p ts -> ts !! k = Some t ->
  local (is_main k) p' t' f ->
  ThreadEventMap p' = ThreadEventMap p -> thread_lock p' = thread_lock p -> thread_procs p' = thread_procs p -> main_memc p' = main_memc p ->
  tid_count p <= tid_count p' -> tid_count p' + has_no_id t' <= tid_count p + has_no_id t ->
  holds_read (todo t') = holds_read (todo t) -> holds_write (todo t') = holds_write (todo t) ->
  (f_id f = true -> f_id (fl k) = true /\ current_thread_id t' = current_thread_id t \/ current_thread_id t' = tid_count p) ->
  (forall j u c, j <> k -> ts !! j = Some u -> f_client (fl j) = Own -> memc u = Some c -> c ∈ clients p -> c ∈ clients p') ->
  (forall m, main_memc p = Some m -> m ∈ clients p') ->
  (f_client f = Own -> f_client (fl k) = Own /\ memc t' = memc t \/ forall c, memc t' = Some c -> c ∉ clients p) ->
  env_inv (put_flags fl k f) p' (<[k := t']> ts).
Proof.
  intros HI Hk Hloc He Hlo Hp Hm Htc Hno Hr Hw Hid Hcl Hmain Hown. destruct (ei_lock _ _ _ HI) as (l & El & HL).
  destruct (ei_ids _ _ _ HI) as [I1 I2].
  apply (env_inv_update fl p ts k t p' t' f l); try done.
  - intros j u Hj Hu. pose proof (ei_apart _ _ _ HI j k u t Hj Hu Hk) as [A1 A2]. pose proof (ei_local _ _ _ HI j u Hu) as [U1 U2 U3 U4].
    split; [apply (local_frame _ p); [by apply HI|done|done|by rewrite He|intros c Hc E; by eapply Hcl]|split].
    + intros Hfj Hf. destruct (Hid Hf) as [[Hf' ->]| ->]; [by apply A1|]. rewrite Hfj in U2. lia.
    + intros Hfj Hf. destruct (Hown Hf) as [[Hf' ->]|Hnew]; [by apply A2|]. rewrite Hfj in U4. destruct U4 as (c & E & Hin & _).
      intros Heq. rewrite E in Heq. by apply (Hnew c).
  - by rewrite Hlo.
  - by apply (lock_ok_same l ts k t).
  - intros x Hx. rewrite He. apply (ei_free _ _ _ HI). lia.
  - lia.
Qed.

Lemma no_init_later main cs : later main cs -> CallInit ∉ cs.
Proof.
  intros (body & tail & -> & Hb & Ht). rewrite elem_of_app. intros [Hin|Hin].
  - rewrite Forall_forall in Hb. by destruct (Hb _ Hin).
  - destruct Ht as [->|[_ ->]]; set_solver.
Qed.

Lemma has_no_id_later main l cs t : later main cs -> calls t = cs -> todo t = l -> CallAllocThreadId ∉ l -> has_no_id t = 0.
Proof. intros H E1 E2 Hl. unfold has_no_id. apply no_init_later in H. rewrite decide_False; [done|]. rewrite E1, E2. tauto. Qed.

Lemma with_lock_Ret f p p' l : thread_lock p = Some l -> with_lock f p = Ret p' -> exists l', f l = Ret l' /\ p' = set_lock p (Some l').
Proof. unfold with_lock. intros ->. intros (l' & E & [= <-])%bind_Ret_inv. by exists l'. Qed.

(** What a lock statement of thread [k] does. *)
Lemma lock_stmt fl p ts k t s rest : env_inv fl p ts -> ts !! k = Some t -> todo t = s :: rest ->
  s = EnterWrite \/ s = LeaveWrite \/ s = EnterRead \/ s = LeaveRead ->
  life (is_main k) rest (calls t) (fl k) -> has_no_id (at_stmt t rest) <= has_no_id t ->
  (match s with EnterWrite => holds_write rest = true | _ => holds_write rest = false end) ->
  (match s with EnterRead => holds_read rest = true | _ => holds_read rest = false end) ->
  forall fresh, exec k fresh s p (at_stmt t rest) <> Abort /\
    forall p' t', exec k fresh s p (at_stmt t rest) = Ret (p', t') -> exists fl', env_inv fl' p' (<[k := t']> ts).
Proof.
  intros HI Hk Et Hs Hlife Hno Hw Hr fresh. destruct (ei_lock _ _ _ HI) as (l & El & HL).
  assert (forall l', lock_ok l' (<[k := at_stmt t rest]> ts) -> exists fl', env_inv fl' (set_lock p (Some l')) (<[k := at_stmt t rest]> ts)) as Hgo.
  { intros l' Hl'. eexists. by apply lock_step. }
  destruct Hs as [->|[->|[->| ->]]]; cbn [exec]; unfold with_lock; rewrite El.
  - split; [unfold enter_write; destruct (lock_writer l); [done|]; by case_decide|]. intros p' t' H.
    apply bind_Ret_inv in H as (p1 & (l' & E & [= <-])%bind_Ret_inv & [= <- <-]). apply Hgo. by eapply enter_write_ok.
  - destruct (leave_write_ok l ts k t (at_stmt t rest)) as (l' & -> & HL'); [done|done|by rewrite Et|done|done|]. split; [done|]. intros p' t' [= <- <-]. auto.
  - split; [unfold enter_read; by destruct (lock_writer l)|]. intros p' t' H.
    apply bind_Ret_inv in H as (p1 & (l' & E & [= <-])%bind_Ret_inv & [= <- <-]). apply Hgo. by eapply enter_read_ok.
  - destruct (leave_read_ok l ts k t (at_stmt t rest)) as (l' & -> & HL'); [done|done|by rewrite Et|done|done|]. split; [done|]. intros p' t' [= <- <-]. auto.
Qed.

(** The statement of thread [k] does not fail, and keeps the invariant. *)
Definition fine (fl : nat -> flags) (p : process) (ts : list thread) (k : nat) (t : thread) (s : stmt) (rest : list stmt) : Prop :=
  forall fresh, fresh ∉ clients p -> (exec k fresh s p (at_stmt t rest) <> Abort \/ exists tid, s = SetEvent tid) /\
    forall p' t', exec k fresh s p (at_stmt t rest) = Ret (p', t') -> exists fl', env_inv fl' p' (<[k := t']> ts).

Lemma set_events_same p : set_events p (ThreadEventMap p) = p.
Proof. by destruct p. Qed.

Lemma no_id_zero main cs t l : calls t = cs -> later main cs -> todo t = l -> CallAllocThreadId ∉ l -> has_no_id t = 0.
Proof. intros E1 H E2 Hl. by eapply has_no_id_later. Qed.

Section step.
Context (fl : nat -> flags) (p : process) (ts : list thread) (k : nat) (t : thread).
Context (HI : env_inv fl p ts) (Hk : ts !! k = Some t).

Lemma fine_lock s rest cs : todo t = s :: rest -> calls t = cs -> later (is_main k) cs \/ cs = [] -> CallAllocThreadId ∉ s :: rest ->
  s = EnterWrite \/ s = LeaveWrite \/ s = EnterRead \/ s = LeaveRead ->
  life (is_main k) rest cs (fl k) ->
  (match s with EnterWrite => holds_write rest = true | _ => holds_write rest = false end) ->
  (match s with EnterRead => holds_read rest = true | _ => holds_read rest = false end) -> fine fl p ts k t s rest.
Proof.
  intros Et Ec Hl Hno Hs Hlife Hw Hr fresh _. rewrite <- Ec in Hlife.
  assert (has_no_id (at_stmt t rest) <= has_no_id t) as Hn.
  { pose proof (has_no_id_range t). unfold has_no_id at 1. rewrite decide_False; [lia|]. cbn. rewrite Ec. intros [Hin|Hin]; [|apply Hno; by right].
    destruct Hl as [Hl| ->]; [by apply no_init_later in Hl|set_solver]. }
  destruct (lock_stmt fl p ts k t s rest HI Hk Et Hs Hlife Hn Hw Hr fresh) as [H1 H2]. split; [by left|done].
Qed.

Lemma event_there : f_id (fl k) = true -> f_event (fl k) = true -> exists b, event_of p (current_thread_id t) = Ret b /\
  ThreadEventMap p !! current_thread_id t = Some b.
Proof.
  intros Hi He. destruct (ei_local _ _ _ HI k t Hk) as [_ _ L3 _]. apply (proj2 (L3 Hi)) in He as [b E]. exists b.
  unfold event_of. by rewrite E.
Qed.

Lemma fine_new rest : todo t = NewEvent :: rest -> fl k = Flags true false (f_client (fl k)) ->
  life (is_main k) rest (calls t) (Flags true true (f_client (fl k))) -> later (is_main k) (calls t) -> CallAllocThreadId ∉ rest ->
  holds_read rest = false -> holds_write rest = true -> fine fl p ts k t NewEvent rest.
Proof.
  intros Et Ef Hlife Hl Hno Hr Hw fresh _. split; [by left|]. intros p' t' [= <- <-].
  eexists. apply (event_step fl p ts k t rest true); [exact HI|exact Hk|by rewrite Ef|exact Hlife| | |rewrite (no_id_zero (is_main k) (calls t) _ rest);
    [apply has_no_id_range|done|done|done|done]|by rewrite Et|by rewrite Et].
  - intros x Hx. by rewrite lookup_insert_ne by done.
  - cbn. rewrite lookup_insert_eq. by split.
Qed.

Lemma fine_delete rest : todo t = DeleteEvent :: rest -> fl k = Flags true true (f_client (fl k)) ->
  life (is_main k) rest (calls t) (Flags true false (f_client (fl k))) -> calls t = [] -> CallAllocThreadId ∉ rest ->
  holds_read rest = false -> holds_write rest = true -> fine fl p ts k t DeleteEvent rest.
Proof.
  intros Et Ef Hlife Hc Hno Hr Hw fresh _. destruct event_there as (b & E & _); [by rewrite Ef..|].
  cbn [exec current_thread_id at_stmt]. rewrite E, bind_ret. split; [by left|]. intros p' t' [= <- <-].
  eexists. apply (event_step fl p ts k t rest false); [exact HI|exact Hk|by rewrite Ef|exact Hlife| | | |by rewrite Et|by rewrite Et].
  - intros x Hx. by rewrite lookup_delete_ne by done.
  - cbn. rewrite lookup_delete_eq. split; [by intros []|done].
  - pose proof (has_no_id_range t). unfold has_no_id at 1. rewrite decide_False; [lia|]. cbn. rewrite Hc. intros [Hin|Hin]; [set_solver|done].
Qed.

Lemma fine_run s rest cs : todo t = s :: rest -> calls t = cs -> later (is_main k) cs -> in_call (s :: rest) ->
  fl k = Flags true true Own -> fine fl p ts k t s rest.
Proof.
  intros Et Ec Hl Hin Ef. assert (in_call rest) as Hrest.
  { inversion Hin as [| | |s' Hs|s' Hs]; subst; try constructor. done. }
  assert (life (is_main k) rest (calls t) (fl k)) as Hlife by (rewrite Ef, Ec; by constructor).
  assert (CallAllocThreadId ∉ s :: rest) as Hno.
  { inversion Hin as [| | |s' Hs|s' Hs]; subst; try destruct Hs as [->|[->|[? ->]]]; set_solver. }
  destruct event_there as (b & Eb & El); [by rewrite Ef..|].
  assert (forall m', (forall x, is_Some (m' !! x) <-> is_Some (ThreadEventMap p !! x)) ->
    holds_read rest = holds_read (s :: rest) -> holds_write rest = holds_write (s :: rest) ->
    exists fl', env_inv fl' (set_events p m') (<[k := at_stmt t rest]> ts)) as Hev.
  { intros m' Hm' Hr Hw. eexists. apply (event_step fl p ts k t rest true); [exact HI|exact Hk|by rewrite Ef|by rewrite Ef in Hlife |- *|..| |by rewrite Et|by rewrite Et].
    - intros x _. apply Hm'.
    - rewrite Hm', El. split; [done|by eexists].
    - rewrite (no_id_zero (is_main k) cs _ rest); [apply has_no_id_range|done|done|done|]. set_solver. }
  assert (forall x y, is_Some (<[current_thread_id t := y]> (ThreadEventMap p) !! x) <-> is_Some (ThreadEventMap p !! x)) as Hins.
  { intros x y. destruct (decide (x = current_thread_id t)) as [->|Hx]; [rewrite lookup_insert_eq, El; split; by eexists|by rewrite lookup_insert_ne]. }
  inversion Hin as [| |E|s' Hs E|s' Hs E]; subst.
  - intros fresh _. destruct (ei_local _ _ _ HI k t Hk) as [_ _ _ L4]. rewrite Ef in L4. destruct L4 as (c & Em & Hc & _).
    cbn [exec memc at_stmt]. rewrite Em, bool_decide_eq_true_2 by done. split; [by left|]. intros p' t' [= <- <-].
    rewrite <- (set_events_same p). by apply Hev.
  - apply (fine_lock LeaveRead [] (calls t)); [done|done|by left|done|tauto|done|done|done].
  - intros fresh _. destruct Hs as [->|[->|[tid ->]]]; cbn [exec current_thread_id at_stmt].
    + rewrite Eb, bind_ret. split; [left; by destruct b|]. intros p' t' H. destruct b; [|done]. injection H as <- <-.
      rewrite <- (set_events_same p). by apply Hev.
    + rewrite Eb, bind_ret. split; [by left|]. intros p' t' [= <- <-]. apply Hev; [|done|done]. intros x. apply Hins.
    + split; [right; by eexists|]. intros p' t' (b' & Eb' & [= <- <-])%bind_Ret_inv. apply Hev; [|done|done]. intros x.
      unfold event_of in Eb'. destruct (ThreadEventMap p !! tid) as [z|] eqn:Ez; [|done].
      destruct (decide (x = tid)) as [->|Hx]; [rewrite lookup_insert_eq, Ez; split; by eexists|by rewrite lookup_insert_ne].
  - apply (fine_lock EnterRead [s'; LeaveRead] (calls t)); [done|done|by left|done|tauto|done|..]; by destruct Hs as [->|[->|[tid ->]]].
Qed.

Lemma fine_alloc rest : todo t = CallAllocThreadId :: rest -> later (is_main k) (calls t) ->
  fl k = Flags false false (first_client (is_main k)) ->
  life (is_main k) rest (calls t) (Flags true false (first_client (is_main k))) -> CallAllocThreadId ∉ rest ->
  holds_read rest = false -> holds_write rest = false -> fine fl p ts k t CallAllocThreadId rest.
Proof.
  intros Et Hl Ef Hlife Hno Hr Hw fresh _. split; [by left|]. intros p' t' [= <- <-].
  destruct (ei_local _ _ _ HI k t Hk) as [L1 L2 L3 L4]. destruct (ei_ids _ _ _ HI) as [I1 I2]. destruct (ei_main _ _ _ HI) as (m & Em & Hm).
  assert (has_no_id t = 1) as Hone by (unfold has_no_id; rewrite decide_True; [done|right; rewrite Et; left]).
  pose proof (no_ids_nonneg (<[k := at_stmt t rest]> ts)) as Hnn. rewrite (node_sum_const has_no_id ts k t) in Hnn by done.
  assert (has_no_id (at_stmt t rest) = 0) as Hz by (by apply (no_id_zero (is_main k) (calls t) _ rest)).
  assert (s32 (tid_count p + 1) = tid_count p + 1) as Hs32 by (apply s32_small; lia).
  eexists. apply (own_step fl p ts k t _ _ (Flags true false (first_client (is_main k)))); try done; cbn; rewrite ?Hs32.
  - split; cbn; rewrite ?Hs32; [done|lia| |].
    + intros _. rewrite (ei_free _ _ _ HI) by lia. split; [by intros []|done].
    + rewrite Ef in L4. exact L4.
  - lia.
  - unfold has_no_id at 1. cbn. fold (has_no_id (at_stmt t rest)). rewrite Hone. unfold has_no_id in Hz. cbn in Hz. rewrite Hz. lia.
  - by rewrite Et.
  - by rewrite Et.
  - by right.
  - congruence.
  - intros Hown. left. by rewrite Ef.
Qed.
Lemma fine_init_client : todo t = [InitStorageThread] -> later (is_main k) (calls t) ->
  fl k = Flags true true (first_client (is_main k)) -> fine fl p ts k t InitStorageThread [].
Proof.
  intros Et Hl Ef fresh Hfresh. destruct (ei_local _ _ _ HI k t Hk) as [L1 L2 L3 L4]. destruct (ei_ids _ _ _ HI) as [I1 I2].
  destruct (ei_main _ _ _ HI) as (m & Em & Hm). rewrite Ef in L2, L3, L4. cbn [f_id f_event f_client] in L2, L3, L4.
  assert (has_no_id t = 0 /\ forall u, calls u = calls t -> todo u = [] -> has_no_id u = 0) as [Hn Hn'].
  { split; [apply (no_id_zero (is_main k) (calls t) _ [InitStorageThread]); [done|done|done|set_solver]|].
    intros u Eu Eu'. apply (no_id_zero (is_main k) (calls t) _ []); [done|done|done|set_solver]. }
  cbn [exec memc at_stmt]. rewrite (bool_decide_eq_true_2 _ (ei_procs _ _ _ HI)). cbn [c_assert]. rewrite bind_ret.
  unfold init_memcached_this_thread. destruct (is_main k) eqn:Emain; cbn [first_client] in L4.
  - destruct L4 as (c & Ec & Hc & Hcm). rewrite Ec, bind_ret. split; [by left|]. intros p' t' [= <- <-]. eexists.
    apply (own_step fl p ts k t _ _ (Flags true true Own)); try done; cbn.
    + rewrite Emain. split; cbn; try done; [apply life_run; [constructor|done]|]. exists c. auto.
    + rewrite Hn, Hn' by done. lia.
    + by rewrite Et.
    + by rewrite Et.
    + intros _. left. by rewrite Ef.
    + congruence.
    + intros _. left. by rewrite Ef, Ec.
  - rewrite L4, Em, bool_decide_eq_true_2 by done. cbn [c_assert]. rewrite !bind_ret. split; [by left|]. intros p' t' [= <- <-]. eexists.
    apply (own_step fl p ts k t _ _ (Flags true true Own)); try done; cbn.
    + rewrite Emain. split; cbn; try done; [apply life_run; [constructor|done]|]. exists fresh. split; [done|]. split; [set_solver|].
      rewrite Em. split; [done|]. intros [= ->]. done.
    + rewrite Hn, Hn' by done. lia.
    + by rewrite Et.
    + by rewrite Et.
    + intros _. left. by rewrite Ef.
    + set_solver.
    + intros m' Em'. assert (m' = m) as -> by congruence. set_solver.
    + intros _. right. by intros c [= <-].
Qed.

Lemma fine_free : todo t = [DestroyStorageThread; ClearThreadId] -> is_main k = false -> calls t = [] ->
  fl k = Flags true false Own -> fine fl p ts k t DestroyStorageThread [ClearThreadId].
Proof.
  intros Et Emain Ec Ef fresh _. destruct (ei_local _ _ _ HI k t Hk) as [L1 L2 L3 L4]. destruct (ei_ids _ _ _ HI) as [I1 I2].
  destruct (ei_main _ _ _ HI) as (m & Em & Hm). rewrite Ef in L2, L3, L4. cbn [f_id f_event f_client] in L2, L3, L4.
  destruct L4 as (c & Emc & Hc & Hcm). cbn [exec memc at_stmt]. rewrite (bool_decide_eq_true_2 _ (ei_procs _ _ _ HI)). cbn [c_assert]. rewrite bind_ret.
  unfold destroy_memcached_this_thread. rewrite Emc, bool_decide_eq_true_2 by done. cbn [c_assert]. rewrite !bind_ret.
  assert (m <> c) as Hne. { intros ->. rewrite Emain in Hcm. by destruct Hcm as [_ Hcm]; specialize (Hcm Em). }
  split; [by left|]. intros p' t' [= <- <-]. eexists.
  apply (own_step fl p ts k t _ _ (Flags true false Freed)); try done; cbn.
  - rewrite Emain. split; cbn; try done. rewrite Ec. by apply life_clear.
  - unfold has_no_id. cbn. rewrite Ec, Et, !decide_False by set_solver. lia.
  - by rewrite Et.
  - by rewrite Et.
  - intros _. left. by rewrite Ef.
  - intros j u c' Hj Hu Hown Eu Hin. assert (c' <> c); [|set_solver]. intros ->.
    destruct (ei_apart _ _ _ HI j k u t Hj Hu Hk) as [_ A2]. apply A2; [done|by rewrite Ef|congruence].
  - intros m' Em'. assert (m' = m) as -> by congruence. set_solver.
Qed.

Lemma fine_clear : todo t = [ClearThreadId] -> is_main k = false -> calls t = [] -> fl k = Flags true false Freed ->
  fine fl p ts k t ClearThreadId [].
Proof.
  intros Et Emain Ec Ef fresh _. destruct (ei_local _ _ _ HI k t Hk) as [L1 L2 L3 L4]. destruct (ei_ids _ _ _ HI) as [I1 I2].
  split; [by left|]. intros p' t' [= <- <-]. eexists.
  apply (own_step fl p ts k t _ _ (Flags false false Freed)); try done; cbn.
  - rewrite Emain. split; cbn; try done. rewrite Ec. by apply life_ended.
  - unfold has_no_id. cbn. rewrite Ec, Et, !decide_False by set_solver. lia.
  - by rewrite Et.
  - by rewrite Et.
  - intros m' Em'. destruct (ei_main _ _ _ HI) as (m & Em & Hm). congruence.
Qed.

(** Every statement of a live thread. *)
Lemma exec_fine s rest : todo t = s :: rest -> fine fl p ts k t s rest.
Proof.
  intros Et. destruct (ei_local _ _ _ HI k t Hk) as [L1 _ _ _]. rewrite Et in L1.
  remember (s :: rest) as l eqn:El. remember (calls t) as cs eqn:Ec. symmetry in Ec. remember (fl k) as f eqn:Ef. symmetry in Ef.
  destruct L1 as [cs' Hl|cs Hl|cs Hl|cs Hl|cs Hl|cs Hl|l cs Hin Hl|Hm|Hm|Hm|Hm|Hm|Hm]; try (injection El as <- <-); try done.
  - apply fine_alloc; try done; [by rewrite Ec|rewrite Ec; by constructor|set_solver].
  - apply (fine_lock _ _ cs); try done; [by left|set_solver|by left|rewrite Ef; by constructor].
  - apply fine_new; try done; [by rewrite Ef|rewrite Ef, Ec; by constructor|by rewrite Ec|set_solver].
  - apply (fine_lock _ _ cs); try done; [by left|set_solver|tauto|rewrite Ef; by constructor].
  - apply fine_init_client; try done. by rewrite Ec.
  - subst l. by apply (fine_run s rest cs).
  - apply (fine_lock _ _ []); try done; [by right|set_solver|by left|rewrite Ef; by constructor].
  - apply fine_delete; try done; [by rewrite Ef|rewrite Ef, Ec; by constructor|set_solver].
  - apply (fine_lock _ _ []); try done; [by right|set_solver|tauto|rewrite Ef; by constructor].
  - by apply fine_free.
  - by apply fine_clear.
Qed.

Lemma begin_inv c cs : todo t = [] -> calls t = c :: cs -> exists fl', env_inv fl' p (<[k := begin_call t c cs]> ts).
Proof.
  intros Et Ec. destruct (ei_local _ _ _ HI k t Hk) as [L1 L2 L3 L4]. destruct (ei_ids _ _ _ HI) as [I1 I2].
  destruct (ei_main _ _ _ HI) as (m & Em & Hm).
  assert (life (is_main k) (body_of c (current_thread_id t)) cs (fl k) /\ CallAllocThreadId ∉ body_of c (current_thread_id t) \/
    c = CallInit /\ life (is_main k) (body_of c (current_thread_id t)) cs (fl k) /\ later (is_main k) cs) as Hb.
  { rewrite Et, Ec in L1. destruct (fl k) as [fi fe fc] eqn:Ef. inversion L1 as [cs' Hl E1 E2| | | | | |l cs' Hin Hl E1 E2| | | | | |]; subst.
    - cbn in L2. right. split; [done|]. split; [|done]. cbn. unfold InitCurrentThread. rewrite L2. by constructor.
    - cbn in L2. left. apply later_cons in Hl as [[[Hn1 Hn2] Hl]|(-> & -> & Hm')].
      + destruct c; try done; cbn; (split; [constructor; [|done]|set_solver]); constructor; eauto.
      + cbn. unfold DestroyCurrentThread. rewrite (proj2 (Z.eqb_neq _ _)) by lia. split; [by constructor|set_solver]. }
  eexists. apply (own_step fl p ts k t p _ (fl k)); try done.
  - split; try done. cbn. by destruct Hb as [[Hb _]|(_ & Hb & _)].
  - destruct Hb as [[_ Hno]|(-> & _ & Hl)].
    + assert (has_no_id (begin_call t c cs) <= has_no_id t); [|lia]. unfold has_no_id at 1. case_decide as Hd; [|apply has_no_id_range].
      destruct Hd as [Hd|Hd]; cbn in Hd; [|done]. unfold has_no_id. rewrite decide_True; [done|]. left. rewrite Ec. by right.
    + assert (has_no_id t = 1) as -> by (unfold has_no_id; rewrite decide_True; [done|left; rewrite Ec; left]).
      pose proof (has_no_id_range (begin_call t CallInit cs)). lia.
  - rewrite Et. destruct c; cbn; try done; [unfold InitCurrentThread|unfold DestroyCurrentThread]; by destruct (_ =? _).
  - rewrite Et. destruct c; cbn; try done; [unfold InitCurrentThread|unfold DestroyCurrentThread]; by destruct (_ =? _).
  - intros Hi. by left.
  - congruence.
  - intros Hown. by left.
Qed.
End step.

Lemma env_step_inv fl st st' : env_inv fl (proc st) (threads st) -> env_step st st' -> exists fl', env_inv fl' (proc st') (threads st').
Proof.
  intros HI Hs. destruct Hs as [p ts k t c cs Hk Et Ec|p ts k t s rest fresh p' t' Hk Et Hf He]; cbn in *.
  - by eapply begin_inv.
  - destruct (exec_fine fl p ts k t HI Hk s rest Et fresh Hf) as [_ H]. by apply H.
Qed.

Lemma env_steps_inv fl st st' : env_inv fl (proc st) (threads st) -> rtc env_step st st' -> exists fl', env_inv fl' (proc st') (threads st').
Proof.
  intros HI Hs. revert fl HI. induction Hs as [|s1 s2 s3 H1 _ IH]; intros fl HI; [by exists fl|].
  destruct (env_step_inv fl s1 s2 HI H1) as [fl' HI']. by apply (IH fl').
Qed.

(** A thread before its first call, and the process after [InitStorage] in the main thread. *)
Definition new_thread (cs : list call) : thread := ThreadState 0 None [] cs.

Lemma env_start_inv backty cachety ports node_id isMaster listens fresh main_calls others p t :
  InitStorage backty cachety ports node_id isMaster listens fresh new_process (new_thread main_calls) = Ret (p, t) ->
  disciplined true main_calls -> Forall (disciplined false) others -> zlen others < 2 ^ 31 - 2 ->
  env_inv (λ k, Flags false false (first_client (is_main k))) p (t :: (new_thread <$> others)).
Proof.
  intros Hi Hm Ho Hlen. unfold InitStorage in Hi. apply bind_Ret_inv in Hi as ([p1 t1] & H1 & Hi). apply bind_Ret_inv in Hi as (c & _ & [= <- <-]).
  assert (p1 = Process None None (Some backty) (Some fresh) {[fresh]} (if isMaster then 1 else 0) 1 ∅ None /\
    t1 = with_memc (new_thread main_calls) (Some fresh)) as [-> ->].
  { destruct backty; cbn in H1; [done|..]; injection H1 as <- <-; (split; [|done]); f_equal; set_solver. }
  assert (forall k u, ((with_memc (new_thread main_calls) (Some fresh)) :: (new_thread <$> others)) !! k = Some u ->
    current_thread_id u = 0 /\ todo u = [] /\ disciplined (is_main k) (calls u) /\ memc u = if is_main k then Some fresh else None) as Hall.
  { intros [|k] u Hu; [by injection Hu as <-|]. change ((new_thread <$> others) !! k = Some u) in Hu. rewrite list_lookup_fmap in Hu. destruct (others !! k) as [cs|] eqn:E; [|done].
    injection Hu as <-. rewrite Forall_lookup in Ho. repeat split; eauto. }
  assert (forall k u, ((with_memc (new_thread main_calls) (Some fresh)) :: (new_thread <$> others)) !! k = Some u ->
    local (is_main k) (RcInitThreadSystem (set_storage (Process None None (Some backty) (Some fresh) {[fresh]} (if isMaster then 1 else 0) 1 ∅ None)
      (Some backty) (Some c))) u (Flags false false (first_client (is_main k)))) as Hloc.
  { intros k u Hu. destruct (Hall k u Hu) as (E1 & E2 & (cs & E3 & Hl) & E4). split; try done.
    - rewrite E2, E3. by constructor.
    - destruct (is_main k); cbn; [|done]. exists fresh. split; [done|]. split; [set_solver|done]. }
  split; try done.
  - intros j k a b Hjk Ha Hb. split; [done|]. cbn. destruct (is_main j) eqn:Ej, (is_main k) eqn:Ek; try done. unfold is_main in *.
    apply bool_decide_eq_true_1 in Ej, Ek. congruence.
  - exists (RWLock ∅ None). split; [done|]. split; cbn; [| |done].
    + intros k. split; [set_solver|]. intros (u & Hu & Hh). destruct (Hall k u Hu) as (_ & E & _). by rewrite E in Hh.
    + intros k. split; [done|]. intros (u & Hu & Hh). destruct (Hall k u Hu) as (_ & E & _). by rewrite E in Hh.
  - exists fresh. split; [done|]. cbn. set_solver.
  - split; [done|]. assert (forall l : list thread, node_sum (λ _, has_no_id) 1 l <= zlen l) as Hsum.
    { assert (forall l i, node_sum (λ _, has_no_id) i l <= zlen l) as H; [|auto]. induction l as [|u l IH]; intros i; [done|].
      cbn [node_sum]. cbv beta. rewrite zlen_cons. pose proof (has_no_id_range u). specialize (IH (i + 1)). lia. }
    specialize (Hsum (new_thread <$> others)). rewrite zlen_fmap in Hsum. pose proof (has_no_id_range (with_memc (new_thread main_calls) (Some fresh))).
    change (1 + (has_no_id (with_memc (new_thread main_calls) (Some fresh)) + node_sum (λ _, has_no_id) 1 (new_thread <$> others)) < 2 ^ 31). lia.
Qed.

(** * Theorems *)

(** Which threads have an event changes at two statements only. *)
Lemma exec_dom k c s p t p' t' : exec k c s p t = Ret (p', t') -> s <> NewEvent -> s <> DeleteEvent ->
  dom (ThreadEventMap p') = dom (ThreadEventMap p).
Proof.
  assert (forall tid b x, event_of p tid = Ret b -> dom (<[tid := x]> (ThreadEventMap p)) = dom (ThreadEventMap p)) as Hdom.
  { intros tid b x Hb. unfold event_of in Hb. destruct (ThreadEventMap p !! tid) as [z|] eqn:Ez; [|done].
    assert (tid ∈ dom (ThreadEventMap p)) by (apply elem_of_dom; by exists z). rewrite dom_insert_L. set_solver. }
  assert (forall f p1, with_lock f p = Ret p1 -> ThreadEventMap p1 = ThreadEventMap p) as Hlock.
  { intros f p1 H. unfold with_lock in H. destruct (thread_lock p); [|done]. by apply bind_Ret_inv in H as (l & _ & [= <-]). }
  intros He H1 H2. destruct s; cbn in He; try done; try (injection He as <- <-; done); try (destruct (memc t); [|done]);
    apply bind_Ret_inv in He as (r & Hr & He); try (injection He as <- <-; first [done|by eapply Hdom|by rewrite (Hlock _ _ Hr)]).
  - destruct r; [|done]. by injection He as <- <-.
  - apply bind_Ret_inv in He as ([p1 m] & Hm & [= <- <-]). unfold init_memcached_this_thread in Hm. repeat case_match; simplify_eq; try done.
    by apply bind_Ret_inv in Hm as (? & _ & [= <- <-]).
  - apply bind_Ret_inv in He as (p1 & Hm & [= <- <-]). unfold destroy_memcached_this_thread in Hm. repeat case_match; simplify_eq; try done.
    by apply bind_Ret_inv in Hm as (? & _ & [= <-]).
Qed.

Section process.
Context (backty : BackendType) (cachety : CacheType) (ports : list Z) (node_id fresh : Z) (isMaster : bool) (listens : Z -> bool).

(** A state that the threads of a process can reach once [InitStorage] has returned in the
    main thread, which is number 0. *)
Definition env_reachable (main_calls : list call) (others : list (list call)) (st : env_state) : Prop :=
  exists p t, InitStorage backty cachety ports node_id isMaster listens fresh new_process (new_thread main_calls) = Ret (p, t) /\
    rtc env_step (EnvState p (t :: (new_thread <$> others))) st.

Lemma env_reachable_inv main_calls others st : disciplined true main_calls -> Forall (disciplined false) others -> zlen others < 2 ^ 31 - 2 ->
  env_reachable main_calls others st -> exists fl, env_inv fl (proc st) (threads st).
Proof.
  intros Hm Ho Hl (p & t & Hi & Hr). apply (env_steps_inv (λ k, Flags false false (first_client (is_main k))) (EnvState p (t :: (new_thread <$> others))) st); [|done].
  by eapply env_start_inv.
Qed.

(** C12. A process whose threads call [InitCurrentThread] before anything else, and
    [DestroyCurrentThread] at most at their end and not in the main thread: whatever the
    interleaving, no statement of a thread fails, but for setting the event of a thread that
    is not there; its event and its client exist whenever it needs them, and it leaves the
    lock only when it holds it. No two threads have one id, and none uses the client of
    another. *)
Theorem thread_env_safe main_calls others st : disciplined true main_calls -> Forall (disciplined false) others ->
  zlen others < 2 ^ 31 - 2 -> env_reachable main_calls others st ->
  (forall k t s rest c, threads st !! k = Some t -> todo t = s :: rest -> c ∉ clients (proc st) ->
    (forall tid, s <> SetEvent tid) -> exec k c s (proc st) (at_stmt t rest) <> Abort) /\
  (forall j k t u, j <> k -> threads st !! j = Some t -> threads st !! k = Some u ->
    (current_thread_id t <> 0 -> current_thread_id u <> 0 -> current_thread_id t <> current_thread_id u) /\
    (todo t = [UseClient] -> todo u = [UseClient] -> memc t <> memc u)).
Proof.
  intros Hm Ho Hl Hr. destruct (env_reachable_inv _ _ _ Hm Ho Hl Hr) as [fl HI]. split.
  - intros k t s rest c Hk Et Hc Hs. destruct (exec_fine fl _ _ k t HI Hk s rest Et c Hc) as [[H|[tid ->]] _]; [done|]. by destruct (Hs tid).
  - intros j k t u Hjk Ht Hu. destruct (ei_apart _ _ _ HI j k t u Hjk Ht Hu) as [A1 A2].
    assert (forall i v, threads st !! i = Some v -> (current_thread_id v <> 0 -> f_id (fl i) = true) /\ (todo v = [UseClient] -> f_client (fl i) = Own)) as Hf.
    { intros i v Hv. destruct (ei_local _ _ _ HI i v Hv) as [V1 V2 _ _]. split; [by destruct (f_id (fl i))|].
      intros E. rewrite E in V1. by inversion V1. }
    split; intros ? ?; [apply A1|apply A2]; by eapply Hf.
Qed.

Lemma waiting_step fl st st' k t rest : env_inv fl (proc st) (threads st) -> threads st !! k = Some t -> todo t = WaitForEvent :: rest ->
  ThreadEventMap (proc st) !! current_thread_id t = Some false -> env_step st st' ->
  threads st' !! k = Some t /\ dom (ThreadEventMap (proc st')) = dom (ThreadEventMap (proc st)).
Proof.
  intros HI Hk Et Ee Hs. destruct (ei_lock _ _ _ HI) as (l & El & [L1 L2 L3]).
  assert (lock_writer l = None) as Hw.
  { destruct (lock_writer l) eqn:E; [|done]. assert (k ∈ lock_readers l) as Hin by (apply L1; exists t; by rewrite Et). rewrite L3 in Hin by done. set_solver. }
  destruct Hs as [p ts j u c cs Hj Eu Ec|p ts j u s r c p' u' Hj Eu Hf He]; cbn in *.
  - split; [|done]. rewrite list_lookup_insert_ne; [done|]. intros ->. congruence.
  - assert (j <> k) as Hjk.
    { intros ->. rewrite Hk in Hj. injection Hj as <-. rewrite Et in Eu. injection Eu as <- <-. cbn in He. unfold event_of in He. by rewrite Ee in He. }
    split; [by rewrite list_lookup_insert_ne|].
    assert (holds_write (todo u) = false) as Hhw.
    { destruct (holds_write (todo u)) eqn:E; [|done]. assert (lock_writer l = Some j) as Hl2 by (apply L2; by exists u). congruence. }
    rewrite Eu in Hhw. apply (exec_dom _ _ _ _ _ _ _ He); by intros ->.
Qed.
End process.

(** * Schedules *)

(** The next step of thread [k]; a clone is client [c]. *)
Definition next_step (k : nat) (c : Z) (st : env_state) : outcome env_state :=
  match threads st !! k with
  | Some t =>
      match todo t, calls t with
      | [], c :: cs => Ret (EnvState (proc st) (<[k := begin_call t c cs]> (threads st)))
      | [], [] => NoFuel
      | s :: rest, _ =>
          if decide (c ∈ clients (proc st)) then NoFuel
          else '(p, t) ← exec k c s (proc st) (at_stmt t rest); Ret (EnvState p (<[k := t]> (threads st)))
      end
  | None => NoFuel
  end.

Fixpoint run_schedule (sched : list (nat * Z)) (st : env_state) : outcome env_state :=
  match sched with
  | [] => Ret st
  | (k, c) :: sched => st ← next_step k c st; run_schedule sched st
  end.

Lemma next_step_sound k c st st' : next_step k c st = Ret st' -> env_step st st'.
Proof.
  unfold next_step. destruct st as [p ts]. cbn [threads proc]. destruct (ts !! k) as [t|] eqn:Hk; [|done].
  destruct (todo t) as [|s rest] eqn:Et; [destruct (calls t) as [|c' cs] eqn:Ec; [done|]; intros [= <-]; by apply es_call|].
  case_decide as Hc; [done|]. intros ([p' t'] & He & [= <-])%bind_Ret_inv. by eapply es_exec.
Qed.

Lemma run_schedule_sound sched st st' : run_schedule sched st = Ret st' -> rtc env_step st st'.
Proof.
  revert st. induction sched as [|[k c] sched IH]; intros st; cbn; [intros [= <-]; constructor|].
  intros (st1 & H1%next_step_sound & H2)%bind_Ret_inv. eapply rtc_l; [done|]. by apply IH.
Qed.

(** The main thread waits for its event; thread 1 would set it as soon as it has started. *)
Definition waiter_calls : list call := [CallInit; CallWait].
Definition starter_calls : list call := [CallInit; CallSet 1].
Definition two_threads : outcome env_state :=
  '(p, t) ← InitStorage SoBackendMemcached SoNoCache [] 0 true (λ _, true) 7 new_process (new_thread waiter_calls);
  Ret (EnvState p [t; new_thread starter_calls]).

(** Thread 0 starts and waits, then thread 1 gets an id. *)
Definition waiter_first : list (nat * Z) := replicate 8 (0%nat, 8) ++ replicate 2 (1%nat, 8).
Definition deadlock : outcome env_state := st ← two_threads; run_schedule waiter_first st.

(** Thread 0 holds the lock and its event is not set; thread 1 waits for the lock. *)
Definition is_deadlock (st : env_state) : bool :=
  match threads st with
  | [t; u] =>
      bool_decide (todo t = [WaitForEvent; LeaveRead]) && bool_decide (ThreadEventMap (proc st) !! current_thread_id t = Some false) &&
      bool_decide (todo u = [EnterWrite; NewEvent; LeaveWrite; InitStorageThread]) &&
      match thread_lock (proc st) with Some l => bool_decide (0%nat ∈ lock_readers l) | None => false end
  | _ => false
  end.

Lemma deadlock_stuck st : is_deadlock st = true -> forall st', ~ env_step st st'.
Proof.
  unfold is_deadlock. destruct st as [p ts]. cbn [threads proc]. destruct ts as [|t [|u [|]]]; try done.
  intros H st' Hs. apply andb_true_iff in H as [[[H1%bool_decide_eq_true_1 H2%bool_decide_eq_true_1]%andb_true_iff H3%bool_decide_eq_true_1]%andb_true_iff H4].
  destruct (thread_lock p) as [l|] eqn:El; [|done]. apply bool_decide_eq_true_1 in H4.
  assert (forall k v, [t; u] !! k = Some v -> k = 0%nat /\ v = t \/ k = 1%nat /\ v = u) as Hlook.
  { intros [|[|k]] v; [intros [= <-]; by left|intros [= <-]; by right|done]. }
  inversion Hs as [p' ts' k v c cs Hk Ev Ec|p' ts' k v s rest c p1 v1 Hk Ev Hc He]; subst.
  - apply Hlook in Hk as [[_ ->]|[_ ->]]; congruence.
  - apply Hlook in Hk as [[-> ->]|[-> ->]].
    + rewrite H1 in Ev. injection Ev as <- <-. cbn in He. unfold event_of in He. by rewrite H2 in He.
    + rewrite H3 in Ev. injection Ev as <- <-. cbn in He. unfold with_lock, enter_write in He. rewrite El in He.
      destruct (lock_writer l); [done|]. case_decide as Hn; [|done]. rewrite Hn in H4. set_solver.
Qed.

Lemma deadlock_reached : exists st0 st, two_threads = Ret st0 /\ run_schedule waiter_first st0 = Ret st /\ is_deadlock st = true.
Proof.
  assert (match two_threads with Ret st0 => match run_schedule waiter_first st0 with Ret st => is_deadlock st | _ => false end | _ => false end = true) as H
    by (vm_compute; reflexivity).
  destruct two_threads as [st0| |]; [|done..]. destruct (run_schedule waiter_first st0) as [st| |] eqn:E; [|done..]. by exists st0, st.
Qed.

Lemma starters_disciplined : disciplined true waiter_calls /\ Forall (disciplined false) [starter_calls].
Proof.
  assert (forall main c, ordinary c -> disciplined main [CallInit; c]) as H.
  { intros main c Hc. exists [c]. split; [done|]. exists [c], []. split; [done|]. split; [by constructor|by left]. }
  split; [by apply H|]. constructor; [by apply H|done].
Qed.

(** C27. While a thread waits for its event, no other thread of its process can start or end:
    [RcWaitForRemoteEvent] holds the lock that [RcPrepareNewThread] and [RcDeleteThread]
    need. So the main thread and one other, which would set the event, can stop for ever. *)
Theorem wait_stops_threads :
  (forall backty cachety ports node_id fresh isMaster listens main_calls others st st' k t,
    disciplined true main_calls -> Forall (disciplined false) others -> zlen others < 2 ^ 31 - 2 ->
    env_reachable backty cachety ports node_id fresh isMaster listens main_calls others st ->
    threads st !! k = Some t -> todo t = [WaitForEvent; LeaveRead] -> ThreadEventMap (proc st) !! current_thread_id t = Some false ->
    env_step st st' ->
    threads st' !! k = Some t /\ dom (ThreadEventMap (proc st')) = dom (ThreadEventMap (proc st))) /\
  (disciplined true waiter_calls /\ Forall (disciplined false) [starter_calls] /\
   exists st t u, env_reachable SoBackendMemcached SoNoCache [] 0 7 true (λ _, true) waiter_calls [starter_calls] st /\
     threads st = [t; u] /\ todo t = [WaitForEvent; LeaveRead] /\ todo u = RcPrepareNewThread ++ [InitStorageThread] /\
     forall st', ~ env_step st st').
Proof.
  split.
  - intros backty cachety ports node_id fresh isMaster listens main_calls others st st' k t Hm Ho Hl Hr Hk Et Ee Hs.
    destruct (env_reachable_inv _ _ _ _ _ _ _ _ _ _ Hm Ho Hl Hr) as [fl HI]. by eapply waiting_step.
  - split; [apply starters_disciplined|]. split; [apply starters_disciplined|].
    destruct deadlock_reached as (st0 & st & H0 & H1 & H2). pose proof (deadlock_stuck st H2) as Hstuck.
    unfold two_threads in H0. apply bind_Ret_inv in H0 as ([p t0] & Hi & [= <-]).
    unfold is_deadlock in H2. destruct (threads st) as [|t [|u [|]]] eqn:Ets; try done.
    apply andb_true_iff in H2 as [[[D1%bool_decide_eq_true_1 _]%andb_true_iff D3%bool_decide_eq_true_1]%andb_true_iff _].
    exists st, t, u. split; [|done]. exists p, t0. split; [done|]. by eapply run_schedule_sound.
Qed.

Lemma thread_env_safe_witness : exists st t u, threads st = [t; u] /\ todo t = [WaitForEvent; LeaveRead] /\
  todo u = RcPrepareNewThread ++ [InitStorageThread] /\
  (forall c, c ∉ clients (proc st) -> exec 0 c WaitForEvent (proc st) (at_stmt t [LeaveRead]) <> Abort) /\
  (current_thread_id t <> 0 -> current_thread_id u <> 0 -> current_thread_id t <> current_thread_id u).
Proof.
  destruct deadlock_reached as (st0 & st & H0 & H1 & H2).
  unfold two_threads in H0. apply bind_Ret_inv in H0 as ([p t0] & Hi & [= <-]).
  unfold is_deadlock in H2. destruct (threads st) as [|t [|u [|]]] eqn:Ets; try done.
  apply andb_true_iff in H2 as [[[D1%bool_decide_eq_true_1 _]%andb_true_iff D3%bool_decide_eq_true_1]%andb_true_iff _].
  destruct (thread_env_safe SoBackendMemcached SoNoCache [] 0 7 true (λ _, true) waiter_calls [starter_calls] st) as [Hsafe Hapart].
  - apply starters_disciplined.
  - apply starters_disciplined.
  - done.
  - exists p, t0. split; [done|]. by eapply run_schedule_sound.
  - exists st, t, u. split; [done|]. split; [done|]. split; [done|]. split.
    + intros c Hc. apply Hsafe; [by rewrite Ets|done|done|done].
    + apply (Hapart 0%nat 1%nat t u); [done|by rewrite Ets|by rewrite Ets].
Defined.

(** Thread 0 waits, and thread 1 begins. *)
Definition is_waiting (st : env_state) : bool :=
  match threads st with
  | [t; u] => bool_decide (todo t = [WaitForEvent; LeaveRead]) && bool_decide (ThreadEventMap (proc st) !! current_thread_id t = Some false)
  | _ => false
  end.

Lemma waiting_reached : exists st0 st st', two_threads = Ret st0 /\ run_schedule (replicate 8 (0%nat, 8)) st0 = Ret st /\
  next_step 1 8 st = Ret st' /\ is_waiting st = true.
Proof.
  assert (match two_threads with Ret st0 => match run_schedule (replicate 8 (0%nat, 8)) st0 with
    Ret st => match next_step 1 8 st with Ret _ => is_waiting st | _ => false end | _ => false end | _ => false end = true) as H
    by (vm_compute; reflexivity).
  destruct two_threads as [st0| |]; [|done..]. destruct (run_schedule _ st0) as [st| |] eqn:E1; [|done..].
  destruct (next_step 1 8 st) as [st'| |] eqn:E2; [|done..]. by exists st0, st, st'.
Qed.

Lemma wait_stops_threads_witness : exists st st' t, env_step st st' /\ threads st !! 0%nat = Some t /\ todo t = [WaitForEvent; LeaveRead] /\
  threads st' !! 0%nat = Some t /\ dom (ThreadEventMap (proc st')) = dom (ThreadEventMap (proc st)).
Proof.
  destruct waiting_reached as (st0 & st & st' & H0 & H1 & H2%next_step_sound & H3).
  unfold two_threads in H0. apply bind_Ret_inv in H0 as ([p t0] & Hi & [= <-]).
  unfold is_waiting in H3. destruct (threads st) as [|t [|u [|]]] eqn:Ets; try done.
  apply andb_true_iff in H3 as [D1%bool_decide_eq_true_1 D2%bool_decide_eq_true_1].
  exists st, st', t. split; [done|]. split; [by rewrite Ets|]. split; [done|].
  apply (proj1 wait_stops_threads SoBackendMemcached SoNoCache [] 0 7 true (λ _, true) waiter_calls [starter_calls] st st' 0%nat t);
    [apply starters_disciplined|apply starters_disciplined|done| |by rewrite Ets|done|done|done].
  exists p, t0. split; [done|]. by eapply run_schedule_sound.
Defined.

(** * Failures

    A thread of [LThreadPool] never calls [InitCurrentThread], so that it has no client. *)
Lemma pool_thread_no_client k fresh p cs rest : exec k fresh UseClient p (at_stmt (new_thread cs) rest) = Abort.
Proof. done. Qed.

(** With a cache, [makecache] starts threads that call [InitCurrentThread] before
    [RcInitThreadSystem] has initialised the lock. *)
Lemma early_thread_no_lock k fresh p t rest : thread_lock p = None -> exec k fresh EnterWrite p (at_stmt t rest) = Abort.
Proof. intros E. cbn. unfold with_lock. by rewrite E. Qed.


(** After [DestroyCurrentThread] the thread's variable still names the client that was freed,
    which a second [InitCurrentThread] keeps and the next access uses. *)
Lemma second_init_freed_client : exists st0 st, two_threads = Ret st0 /\
  run_schedule (replicate 6 (1%nat, 8) ++ replicate 13 (1%nat, 9))
    (EnvState (proc st0) [new_thread []; new_thread [CallInit; CallDestroy; CallInit; UseStorage]]) = Ret st /\
  next_step 1 9 st = Abort.
Proof.
  assert (match two_threads with Ret st0 => match run_schedule (replicate 6 (1%nat, 8) ++ replicate 13 (1%nat, 9))
    (EnvState (proc st0) [new_thread []; new_thread [CallInit; CallDestroy; CallInit; UseStorage]]) with
    Ret st => match next_step 1 9 st with Abort => true | _ => false end | _ => false end | _ => false end = true) as H
    by (vm_compute; reflexivity).
  destruct two_threads as [st0| |]; [|done..]. destruct (run_schedule _ _) as [st| |] eqn:E1; [|done..].
  exists st0, st. split; [done|]. split; [done|]. by destruct (next_step 1 9 st).
Qed.
