(* ===== verification/Threading.v ===== *)
(** Remote threads, [include/DogeeThreading.h] and [Dogee/DogeeThreading.cpp]: the tables
    of thread functions, the classes [DEvent], [DThread], [DBarrier] and [DSemaphore] over
    the calls of Sync.v, the entries of threads on their nodes; a step relation of the
    cluster with its threads. The shared memory is the memory of words that the caches
    implement. What a thread takes and releases in its own process before it runs
    ([thread_lock], its event, its client) is the subject of ThreadSystem.v. *)
From S2P Require Import Prelude Storage Sync ObjectModel.

(** * Thread functions *)

(** [AutoRegisterThreadProcClass::id], [GetIDProcMap()] and [GetProcIDMap()]; functions
    are numbers. *)
Record thread_procs := Procs { reg_id : Z; id_proc : list Z; proc_id : gmap Z Z }.
Definition no_procs : thread_procs := Procs 0 [] ∅.

Definition ThRegisterThreadFunction (t : thread_procs) (func id : Z) : thread_procs :=
  Procs (reg_id t) (id_proc t ++ [func]) (<[func := id]> (proc_id t)).
Definition Register (t : thread_procs) (func : Z) : thread_procs * Z :=
  let t := ThRegisterThreadFunction t func (reg_id t) in
  (Procs (reg_id t + 1) (id_proc t) (proc_id t), reg_id t).

(** [GetProcIDMap()[func]], which inserts 0 for a function that is not registered. *)
Definition find_proc (t : thread_procs) (func : Z) : thread_procs * Z :=
  match proc_id t !! func with
  | Some id => (t, id)
  | None => (Procs (reg_id t) (id_proc t) (<[func := 0]> (proc_id t)), 0)
  end.

(** * The classes *)

Notation memory := (Z * Z -> Z).
Definition put_word (mem : memory) (o f v : Z) : memory := fun k => if decide (k = (o, f)) then v else mem k.

(** The fields of [DEvent], and those that [DThread] adds; [count] of a [DBarrier] or
    [DSemaphore]. *)
Definition f_auto_reset : Z := Def 0 0.
Definition f_is_signal : Z := Def 0 1.
Definition f_state : Z := Def (DefEnd 0 2) 0.
Definition f_node_id : Z := Def (DefEnd 0 2) 1.
Definition f_count : Z := Def 0 0.

Definition ThreadCreating : Z := 1.
Definition ThreadRunning : Z := 2.
Definition ThreadStoped : Z := 3.

Definition new_DEvent (mem : memory) (okey : Z) (auto_reset is_signal : bool) : memory :=
  let mem := put_word mem okey f_auto_reset (if auto_reset then 1 else 0) in
  put_word mem okey f_is_signal (if is_signal then 1 else 0).
(** [DThread(obj_id)], which every [Ref<DThread>] runs too. *)
Definition ref_DThread (mem : memory) (okey : Z) : memory := new_DEvent mem okey false false.
Definition new_DBarrier (mem : memory) (okey count : Z) : memory := put_word mem okey f_count (u32 count).
Definition new_DSemaphore (mem : memory) (okey count : Z) : memory := put_word mem okey f_count (u32 count).
Definition GetState (mem : memory) (okey : Z) : Z := mem (okey, f_state).

(** The constructors of [DThread] that create a thread, called on node [self]; the second
    sends the function object. *)
Definition new_DThread (self : Z) (c : cluster) (mem : memory) (okey nd_id idx param : Z) (obj : option (list Z)) :
    outcome (cluster * memory) :=
  let mem := new_DEvent mem okey false false in
  let mem := put_word mem okey f_state ThreadCreating in
  let mem := put_word mem okey f_node_id (u32 nd_id) in
  c ← match obj with
      | None => RcCreateThread c self nd_id idx param okey
      | Some data => RcCreateThreadObject c self nd_id idx param okey data
      end;
  Ret (c, mem).
Definition new_DThread_func (t : thread_procs) (self : Z) (c : cluster) (mem : memory) (okey nd_id func param : Z) :
    outcome (thread_procs * cluster * memory) :=
  let '(t, idx) := find_proc t func in
  '(c, mem) ← new_DThread self c mem okey nd_id idx param None;
  Ret (t, c, mem).

(** * Entries *)

(** The statements of [ThThreadEntry] and [ThThreadEntryObject]. *)
Inductive entry_pc := EntryInit | EntryRunning | EntryCall | EntryStopped | EntrySet | EntryDestroy | EntryDone.

#[export] Instance entry_pc_eq_dec : EqDecision entry_pc.
Proof. solve_decision. Defined.

Record entry := Entry {
  e_node : Z;
  e_index : Z;
  e_param : Z;
  e_okey : Z;
  e_data : option (list Z);
  e_pc : entry_pc;
  e_tid : Z;
}.
Definition at_pc (e : entry) (pc : entry_pc) (tid : Z) : entry :=
  Entry (e_node e) (e_index e) (e_param e) (e_okey e) (e_data e) pc tid.

(** A call of a thread function: the node, the function, the parameter, the object. *)
Record thread_call := Call { call_node : Z; call_func : Z; call_param : Z; call_data : option (list Z) }.

(** What the nodes share: the cluster of Sync.v with its blocked threads, the memory, the
    entries that were started, the calls made; and, for the statements, the object each
    blocked thread waits for and the threads created, by object. *)
Record world := World {
  sys : system;
  mem : memory;
  entries : list entry;
  calls : list thread_call;
  target : gmap SyncThreadNode Z;
  created : gmap Z thread_call;
}.

Definition net (w : world) : cluster := shared (sys w).
Definition with_net (w : world) (c : cluster) : world :=
  World {| shared := c; blocked := blocked (sys w) |} (mem w) (entries w) (calls w) (target w) (created w).
Definition with_mem (w : world) (m : memory) : world := World (sys w) m (entries w) (calls w) (target w) (created w).
Definition set_entry (w : world) (k : nat) (e : entry) : world :=
  World (sys w) (mem w) (<[k := e]> (entries w)) (calls w) (target w) (created w).

(** [DogeeEnv::cache->get] of the master. *)
Definition cache_get (mem : memory) (o f : Z) : outcome Z := Ret (mem (o, f)).

(** One statement of the entry [k]; [tid] is what [AllocThreadId] returns, [procs] the
    table of the node's process. *)
Definition entry_step (procs : list Z) (w : world) (k : nat) (e : entry) (tid : Z) : outcome world :=
  let okey := e_okey e in
  match e_pc e with
  | EntryInit =>
      Ret (set_entry (with_net w (RcPrepareNewThread (net w) (e_node e) tid)) k (at_pc e EntryRunning tid))
  | EntryRunning =>
      Ret (set_entry (with_mem w (put_word (ref_DThread (mem w) okey) okey f_state ThreadRunning)) k (at_pc e EntryCall (e_tid e)))
  | EntryCall =>
      func ← rd procs (e_index e);
      Ret (set_entry (World (sys w) (mem w) (entries w)
        (calls w ++ [Call (e_node e) func (e_param e) (e_data e)]) (target w) (created w)) k (at_pc e EntryStopped (e_tid e)))
  | EntryStopped =>
      Ret (set_entry (with_mem w (put_word (mem w) okey f_state ThreadStoped)) k (at_pc e EntrySet (e_tid e)))
  | EntrySet =>
      c ← RcSetEvent (cache_get (mem w)) (net w) (e_node e) okey;
      Ret (set_entry (with_net w c) k (at_pc e EntryDestroy (e_tid e)))
  | EntryDestroy =>
      Ret (set_entry (with_net w (RcDeleteThread (net w) (e_node e) (e_tid e))) k (at_pc e EntryDone (e_tid e)))
  | EntryDone => Abort
  end.

(** The entry that a command of the master starts. *)
Definition started (i : Z) (a : slave_action) : list entry :=
  match a with
  | SlaveThread index param okey => [Entry i index param okey None EntryInit 0]
  | SlaveThreadObject index param okey data => [Entry i index param okey (Some data) EntryInit 0]
  | _ => []
  end.

(** * Runs

    [objs] are the ids of the [DThread] objects: they are written, signalled and reset by
    nobody but their thread (a [Ref] of another thread writes the same two zeros). The
    table of functions [procs] is the same on every node. *)
Section runs.
Context (objs : gset Z) (procs : list Z).

Definition wait_call (okey : Z) (call : cluster -> Z -> Z -> Z -> outcome cluster) (cg : Z -> Z -> outcome Z) : Prop :=
  call = RcWaitForEvent cg \/ okey ∉ objs /\ (call = RcEnterBarrier cg \/ call = RcEnterSemaphore cg).

Inductive thread_step : world -> world -> Prop :=
| ts_start w n tid :
    events (net w) !! Thread n tid = None -> thread_step w (with_net w (RcPrepareNewThread (net w) n tid))
| ts_exit w n tid :
    Thread n tid ∉ blocked (sys w) -> thread_step w (with_net w (RcDeleteThread (net w) n tid))
| ts_enter w n tid okey c' call :
    wait_call okey call (cache_get (mem w)) -> Thread n tid ∉ blocked (sys w) -> is_u32 okey ->
    (okey ∈ objs -> is_Some (created w !! okey)) ->
    call (net w) n okey tid = Ret c' ->
    thread_step w (World {| shared := c'; blocked := {[Thread n tid]} ∪ blocked (sys w) |} (mem w) (entries w) (calls w)
      (<[Thread n tid := okey]> (target w)) (created w))
| ts_resume w n tid :
    Thread n tid ∈ blocked (sys w) -> RcWaitForRemoteEvent (net w) n tid = true ->
    thread_step w (World {| shared := net w; blocked := blocked (sys w) ∖ {[Thread n tid]} |} (mem w) (entries w) (calls w)
      (target w) (created w))
| ts_post w n tid okey c' :
    is_u32 okey -> okey ∉ objs ->
    RcLeaveSemaphore (cache_get (mem w)) (net w) n okey tid = Ret c' \/ RcSetEvent (cache_get (mem w)) (net w) n okey = Ret c' \/
    RcResetEvent (cache_get (mem w)) (net w) n okey = Ret c' ->
    thread_step w (with_net w c')
| ts_put w o f v : o ∉ objs -> thread_step w (with_mem w (put_word (mem w) o f v))
| ts_ref w o : o ∈ objs -> is_Some (created w !! o) -> thread_step w (with_mem w (ref_DThread (mem w) o))
| ts_master w i now p q c' :
    i <> 0 -> queue_of (to_master (net w)) i = p :: q ->
    RcMasterListen_cmd (cache_get (mem w)) (with_to_master (net w) (<[i := q]> (to_master (net w)))) i now p = Ret c' ->
    thread_step w (with_net w c')
| ts_slave w i p q c' a :
    i <> 0 -> queue_of (to_slave (net w)) i = p :: q ->
    RcSlaveMainLoop_cmd (with_to_slave (net w) (<[i := q]> (to_slave (net w)))) i p = Ret (c', a) ->
    thread_step w (World {| shared := c'; blocked := blocked (sys w) |} (mem w) (entries w ++ started i a) (calls w)
      (target w) (created w))
| ts_alive w num_nodes now c' ex :
    RcMasterAliveListen_round (net w) num_nodes now = Ret (c', ex) -> thread_step w (with_net w c')
| ts_create w nd_id idx param okey obj c' mem' func :
    okey ∈ objs -> is_u32 okey -> created w !! okey = None -> is_u32 param -> 0 <= idx < 2 ^ 31 ->
    procs.[idx] = Some func -> obj <> Some [] ->
    new_DThread 0 (net w) (mem w) okey nd_id idx param obj = Ret (c', mem') ->
    thread_step w (World {| shared := c'; blocked := blocked (sys w) |} mem' (entries w) (calls w) (target w)
      (<[okey := Call nd_id func param obj]> (created w)))
| ts_entry w k e tid w' :
    entries w !! k = Some e -> (e_pc e = EntryInit -> events (net w) !! Thread (e_node e) tid = None) ->
    (e_pc e <> EntryInit -> Thread (e_node e) (e_tid e) ∉ blocked (sys w)) ->
    entry_step procs w k e tid = Ret w' -> thread_step w w'.

(** No threads, no objects; any memory. *)
Definition first_world (n_nodes now : Z) (m : memory) : world := World (initial n_nodes now) m [] [] ∅ ∅.

Definition world_reachable (n_nodes now : Z) (m : memory) : world -> Prop := rtc thread_step (first_world n_nodes now m).
End runs.
