(* ===== verification/ThreadingFacts.v ===== *)
(** Remote threads: a thread that waits for a [DThread] goes on only after its function
    was called and its object says that it has stopped. *)
From S2P Require Import Prelude Storage Sync SyncFacts ObjectModel Threading.

(** * Registration *)

(** What registering functions keeps: ids are places in the table, and a function's id is
    the place of that function. *)
Definition procs_ok (t : thread_procs) : Prop :=
  reg_id t = zlen (id_proc t) /\ forall func id, proc_id t !! func = Some id -> (id_proc t).[id] = Some func.

Lemma no_procs_ok : procs_ok no_procs.
Proof. split; [done|]. intros func id. cbn. by rewrite lookup_empty. Qed.

Lemma Register_ok t func t' id : procs_ok t -> Register t func = (t', id) ->
  procs_ok t' /\ (id_proc t').[id] = Some func /\ proc_id t' !! func = Some id /\ id_proc t' = id_proc t ++ [func].
Proof.
  intros [Hn Hp] [= <- <-]. cbn. rewrite lookup_insert_eq.
  assert ((id_proc t ++ [func]).[reg_id t] = Some func) as Hnew.
  { rewrite Hn, zlook_app_r by lia. rewrite Z.sub_diag. reflexivity. }
  split; [|done]. split; cbn; [rewrite zlen_app; change (zlen [func]) with 1; lia|]. intros f id. rewrite lookup_insert_Some.
  intros [[<- <-]|[_ Hf%Hp]]; [done|]. rewrite zlook_app_l; [done|]. apply zlook_Some_range in Hf. lia.
Qed.


(** The tables that registering a list of functions in order makes. *)
Definition register_all (funcs : list Z) : thread_procs := foldl (fun t func => fst (Register t func)) no_procs funcs.

Lemma register_all_from funcs : forall t, procs_ok t ->
  let t' := foldl (fun t func => fst (Register t func)) t funcs in
  procs_ok t' /\ id_proc t' = id_proc t ++ funcs /\
  forall func, is_Some (proc_id t' !! func) <-> func ∈ funcs \/ is_Some (proc_id t !! func).
Proof.
  induction funcs as [|f funcs IH]; intros t Ht; cbn [foldl].
  - split; [done|]. split; [by rewrite app_nil_r|]. intros func. split; [by right|intros [Hf%elem_of_nil|]; done].
  - destruct (Register t f) as [t1 id] eqn:E. destruct (Register_ok t f t1 id Ht E) as (H1 & _ & _ & H4). cbn [fst].
    destruct (IH t1 H1) as (H5 & H6 & H7). split; [done|]. split; [by rewrite H6, H4, <- app_assoc|].
    intros func. rewrite H7, elem_of_cons. injection E as <- _. cbn. rewrite lookup_insert.
    case_decide as Hd; [subst func|]; [|naive_solver]. split; [by left; left|right; eauto].
Qed.

(** The function a [DThread] is created with is the function that a node calls: once
    the functions were registered in the same order in every process, the constructor
    finds a registered function by an id that is its place in every process's table, and
    leaves its own table alone. A function that was not registered is taken for the first
    one: 0 is found, and stored as its id from then on. *)
Theorem thread_function_found funcs func t id :
  find_proc (register_all funcs) func = (t, id) ->
  (func ∈ funcs -> t = register_all funcs /\ (id_proc t).[id] = Some func) /\
  (func ∉ funcs -> id = 0 /\ find_proc t func = (t, 0) /\ id_proc t = funcs).
Proof.
  destruct (register_all_from funcs no_procs no_procs_ok) as ([_ Hp] & Hlist & Hdom).
  change (foldl _ no_procs funcs) with (register_all funcs) in *. unfold find_proc.
  destruct (proc_id (register_all funcs) !! func) as [i|] eqn:E; intros [= <- <-]; split.
  - intros _. split; [done|]. by apply Hp.
  - intros Hno. assert (func ∈ funcs \/ is_Some (proc_id no_procs !! func)) as [|[x Hx]]; [apply Hdom; eauto|done|].
    cbn in Hx. by rewrite lookup_empty in Hx.
  - intros Hin. assert (is_Some (proc_id (register_all funcs) !! func)) as [x Hx] by (apply Hdom; by left). congruence.
  - intros _. cbn. rewrite lookup_insert_eq. done.
Qed.

Lemma thread_function_found_witness :
  (let t := register_all [40; 41; 42] in t = register_all [40; 41; 42] /\ (id_proc t).[1] = Some 41).
Proof.
  apply (thread_function_found [40; 41; 42] 41 _ 1); [vm_compute; reflexivity|set_solver].
Defined.

#[export] Instance RcCommandPack_eq_dec : EqDecision RcCommandPack.
Proof. solve_decision. Defined.

(** * Clusters that look the same to an object *)

(** A synchronisation request. *)
Definition sync_cmd (x : RcCommand) : bool :=
  match x with
  | RcCmdEnterBarrier | RcCmdEnterSemaphore | RcCmdLeaveSemaphore | RcCmdWaitForEvent | RcCmdSetEvent | RcCmdResetEvent => true
  | _ => false
  end.
Definition about (p : RcCommandPack) (o : Z) : Prop := sync_cmd (cmd p) = true /\ u32 (param p) = o.

Definition mild (o : Z) (c c' : cluster) : Prop :=
  sync_data (mgr c') !! o = sync_data (mgr c) !! o /\
  forall i p, about p o -> p ∈ queue_of (to_master c') i <-> p ∈ queue_of (to_master c) i.

(** The commands that create threads. *)
Definition creates_of (q : list RcCommandPack) : list RcCommandPack := filter (λ p, cmd p = RcCmdCreateThread) q.
Definition same_creates (c c' : cluster) : Prop :=
  forall i, creates_of (queue_of (to_slave c') i) = creates_of (queue_of (to_slave c) i).

Lemma mild_refl o c : mild o c c.
Proof. done. Qed.
Lemma mild_trans o c1 c2 c3 : mild o c1 c2 -> mild o c2 c3 -> mild o c1 c3.
Proof. intros [H1 H2] [H3 H4]. split; [congruence|]. intros i p Hp. by rewrite H4, H2. Qed.

Section handlers.
Context (cg : Z -> Z -> outcome Z).

(** A handler works on its own object. *)
Definition only_at (m : SyncManager) (b : Z) (h : handled) : Prop :=
  forall o, o <> b -> sync_data (fst h) !! o = sync_data m !! o.

Lemma only_at_set m b node ws : only_at m b (set_node m b node, ws).
Proof. intros o Ho. cbn. by rewrite lookup_insert_ne by done. Qed.

Ltac own_object :=
  intros H; repeat (let x := fresh in let Hx := fresh in apply bind_Ret_inv in H as (x & Hx & H));
  repeat case_test in H; repeat match type of H with context [match waiting ?n with _ => _ end] => destruct (waiting n) end;
  injection H as <-; apply only_at_set.

Lemma BarrierMsg_own m src b tid h : BarrierMsg cg m src b tid = Ret h -> only_at m b h.
Proof. unfold BarrierMsg. own_object. Qed.
Lemma SemaphoreMsg_own m src b tid h : SemaphoreMsg cg m src b tid = Ret h -> only_at m b h.
Proof. unfold SemaphoreMsg. own_object. Qed.
Lemma SemaphoreLeaveMsg_own m src b tid h : SemaphoreLeaveMsg cg m src b tid = Ret h -> only_at m b h.
Proof. unfold SemaphoreLeaveMsg. own_object. Qed.
Lemma EventWaitMsg_own m src b tid h : EventWaitMsg cg m src b tid = Ret h -> only_at m b h.
Proof. unfold EventWaitMsg. own_object. Qed.
Lemma SetEventMsg_own m src b h : SetEventMsg cg m src b = Ret h -> only_at m b h.
Proof. unfold SetEventMsg. own_object. Qed.
Lemma ResetEventMsg_own m src b h : ResetEventMsg cg m src b = Ret h -> only_at m b h.
Proof. unfold ResetEventMsg. own_object. Qed.
End handlers.

Lemma creates_send c i p : cmd p <> RcCmdCreateThread -> same_creates c (send_slave c i p).
Proof.
  intros Hp j. cbn. rewrite queue_of_insert. case_decide as Hj; [|done]. subst j.
  unfold creates_of. rewrite filter_app, filter_cons_False by done. by rewrite filter_nil, app_nil_r.
Qed.

Lemma wake_effect c n tid c' : RcWakeRemoteThread c n tid = Ret c' ->
  mgr c' = mgr c /\ to_master c' = to_master c /\ same_creates c c'.
Proof.
  unfold RcWakeRemoteThread, RcSetRemoteEvent. destruct (n =? 0).
  - intros [_ ->]%put_event_spec. done.
  - intros [= <-]. split; [done|]. split; [done|]. by apply creates_send.
Qed.

Lemma handled_effect c h c' : apply_handled c h = Ret c' ->
  mgr c' = fst h /\ to_master c' = to_master c /\ same_creates c c'.
Proof.
  unfold apply_handled. assert (forall ws c1, for_each ws (fun th c => RcWakeRemoteThread c (machine th) (thread_id th)) c1 = Ret c' ->
    mgr c' = mgr c1 /\ to_master c' = to_master c1 /\ same_creates c1 c') as H.
  { intros ws. induction ws as [|th ws IH]; intros c1; cbn [for_each]; [by intros [= <-]|].
    intros (c2 & (E1 & E2 & E3)%wake_effect & (E4 & E5 & E6)%IH)%bind_Ret_inv.
    split; [congruence|]. split; [congruence|]. intros i. by rewrite E6. }
  intros (E1 & E2 & E3)%H. done.
Qed.

(** A request about [b], as any other object sees it. *)
Lemma request_mild c n b direct p c' : (forall h, n = 0 -> direct = Ret h -> only_at (mgr c) b h) -> u32 (param p) = b ->
  request c n direct p = Ret c' -> same_creates c c' /\ forall o, o <> b -> mild o c c'.
Proof.
  intros Hd Hp. unfold request. destruct (Z.eqb_spec n 0) as [->|].
  - intros (h & Hh & (E1 & E2 & E3)%handled_effect)%bind_Ret_inv. split; [done|]. intros o Ho. split; [|by rewrite E2].
    rewrite E1. by apply (Hd h).
  - intros [= <-]. split; [done|]. intros o Ho. split; [done|]. intros i q [_ Hq]. cbn. rewrite queue_of_insert.
    case_decide as Hi; [|done]. subst i. rewrite elem_of_app, list_elem_of_singleton. split; [intros [|Heq]|by left]; [done|].
    subst q. congruence.
Qed.

Lemma put_event_mild c n tid b c' : put_event c n tid b = Ret c' -> same_creates c c' /\ mgr c' = mgr c /\
  to_master c' = to_master c /\ forall o, mild o c c'.
Proof. intros [_ ->]%put_event_spec. done. Qed.

(** * Objects that were not signalled *)

(** Before it is signalled the event of an object is not set and only waited for. *)
Definition quiet (c : cluster) (known : Prop) (o : Z) : Prop :=
  (forall node, sync_data (mgr c) !! o = Some node -> Kind node = Event /\ val node = 0 /\ data node = 0) /\
  forall i p, p ∈ queue_of (to_master c) i -> about p o -> cmd p = RcCmdWaitForEvent /\ known.

(** A thread that waits for the object: its request is on the way, or it is queued. *)
Definition located (c : cluster) (T : SyncThreadNode) (o : Z) : Prop :=
  (exists p, p ∈ queue_of (to_master c) (machine T) /\ about p o /\ cmd p = RcCmdWaitForEvent /\ param2 p = thread_id T) \/
  T ∈ old_waiting (mgr c) o.

Lemma quiet_mild o c c' known : mild o c c' -> quiet c known o -> quiet c' known o.
Proof. intros [H1 H2] [Q1 Q2]. split; [by rewrite H1|]. intros i p Hin Hp. apply (Q2 i); [by apply H2|done]. Qed.

Lemma quiet_known o c (known known' : Prop) : (known -> known') -> quiet c known o -> quiet c known' o.
Proof. intros H [Q1 Q2]. split; [done|]. intros i p Hin Hp. destruct (Q2 i p Hin Hp). auto. Qed.

Lemma located_mild o c c' T : mild o c c' -> located c T o -> located c' T o.
Proof.
  intros [H1 H2] [(p & Hin & Hp & Hc & Ht)|Hw]; [left; exists p; split; [by apply H2|done]|right].
  unfold old_waiting in *. by rewrite H1.
Qed.

Lemma located_not_flagged c B T o : inv_with [] c B -> T ∈ B -> located c T o -> RcWaitForRemoteEvent c (machine T) (thread_id T) = false.
Proof.
  intros HI HB Hl. destruct (HI T) as [Hin _]. destruct (Hin HB) as [_ Hsum]. unfold flag in Hsum.
  destruct (RcWaitForRemoteEvent _ _ _); [|done]. unfold tokens in Hsum. cbn [occ] in Hsum.
  destruct Hl as [(p & Hp & _ & Hc & Ht)|Hw].
  - assert (thread_id T ∈ omap enter_of (queue_of (to_master c) (machine T))) as Ho%occ_pos; [|unfold req_count in Hsum; lia].
    apply list_elem_of_omap. exists p. split; [done|]. unfold enter_of. by rewrite Hc, Ht.
  - assert (0 < wait_count (mgr c) T)%nat; [|lia]. unfold wait_count, old_waiting in *.
    destruct (sync_data (mgr c) !! o) as [node|] eqn:E; [|by apply elem_of_nil in Hw].
    pose proof (map_sum_insert_Some (fun node => occ T (waiting node)) (sync_data (mgr c)) o node
      {| Kind := Event; val := 0; data := 0; waiting := [] |} E) as Hs. cbn in Hs. apply occ_pos in Hw. lia.
Qed.

(** Waiting for an object that was not signalled queues the thread. *)
Lemma EventWaitMsg_quiet (m : SyncManager) mem src o tid h : mem (o, f_auto_reset) = 0 -> mem (o, f_is_signal) = 0 ->
  (forall node, sync_data m !! o = Some node -> Kind node = Event /\ val node = 0 /\ data node = 0) ->
  EventWaitMsg (cache_get mem) m src o tid = Ret h ->
  (forall node, sync_data (fst h) !! o = Some node -> Kind node = Event /\ val node = 0 /\ data node = 0) /\
  old_waiting (fst h) o = old_waiting m o ++ [Thread src tid].
Proof.
  intros Ha Hs Hq. unfold EventWaitMsg, CreateEventNode, cache_get, old_waiting.
  change (o, 0) with (o, f_auto_reset). change (o, 2) with (o, f_is_signal).
  destruct (sync_data m !! o) as [node|] eqn:E.
  - destruct (Hq node eq_refl) as (Hk & Hv & Hd). unfold check_kind. rewrite Hk, bool_decide_eq_true_2 by done. cbn [c_assert].
    rewrite !bind_ret, Hv. cbn. intros [= <-]. cbn. rewrite lookup_insert_eq. split; [|done]. intros n [= <-]. by rewrite ?Hk, ?Hv, ?Hd.
  - rewrite Ha, Hs, !bind_ret. cbn. intros [= <-]. cbn. rewrite lookup_insert_eq. split; [|done]. by intros n [= <-].
Qed.

(** ** The steps of the cluster, for a quiet object *)

Section quiet_steps.
Context (mem : memory) (o : Z) (known : Prop).
Hypothesis Hfields : known -> mem (o, f_auto_reset) = 0 /\ mem (o, f_is_signal) = 0.
#[local] Abbreviation cg := (cache_get mem).

(** A node waits: directly, or by a request. *)
Lemma wait_quiet c n tid c' : is_u32 o -> known -> quiet c known o -> RcWaitForEvent cg c n o tid = Ret c' ->
  quiet c' known o /\ located c' (Thread n tid) o /\ (forall T, located c T o -> located c' T o) /\ same_creates c c'.
Proof.
  intros Ho Hk Hq. unfold RcWaitForEvent. intros (c1 & (Hs1 & Hm1 & Ht1 & Hmild)%put_event_mild & Hr)%bind_Ret_inv.
  pose proof (quiet_mild o c c1 known (Hmild o) Hq) as Hq1. assert (forall T, located c T o -> located c1 T o) as Hl1
    by (intros T; apply located_mild, Hmild).
  unfold request in Hr. destruct (Z.eqb_spec n 0) as [->|Hn].
  - apply bind_Ret_inv in Hr as (h & Hh & (E1 & E2 & E3)%handled_effect).
    destruct (Hfields Hk) as [F1 F2]. destruct Hq1 as [Q1 Q2].
    destruct (EventWaitMsg_quiet _ mem 0 o tid h F1 F2 Q1 Hh) as [Q1' Hw]. split; [|split; [|split]].
    + split; [by rewrite E1|by rewrite E2].
    + right. rewrite E1, Hw. set_solver.
    + intros T [(p & Hp)|HT]%Hl1; [left; exists p; by rewrite E2|right]. rewrite E1, Hw. set_solver.
    + intros i. by rewrite E3.
  - injection Hr as <-. set (p := Pack RcCmdWaitForEvent (s32 o) tid 0 0 []).
    assert (about p o) as Hp by (split; [done|by apply u32_s32]).
    assert (forall i q, q ∈ queue_of (to_master (send_master c1 n p)) i <-> q ∈ queue_of (to_master c1) i \/ i = n /\ q = p) as Hin.
    { intros i q. cbn. rewrite queue_of_insert. case_decide as Hi; [subst i|].
      - rewrite elem_of_app, list_elem_of_singleton. tauto.
      - split; [by left|]. intros [|[-> _]]; done. }
    split; [|split; [|split]].
    + destruct Hq1 as [Q1 Q2]. split; [done|]. intros i q [Hq'|[_ ->]]%Hin Ha; [by apply (Q2 i)|done].
    + left. exists p. split; [apply Hin; by right|done].
    + intros T [(q & Hq' & Hrest)|HT]%Hl1; [left; exists q; split; [apply Hin; by left|done]|by right].
    + exact Hs1.
Qed.

(** The master takes a command of a node. *)
Lemma master_quiet c i now p q c' : quiet c known o -> queue_of (to_master c) i = p :: q ->
  RcMasterListen_cmd cg (with_to_master c (<[i := q]> (to_master c))) i now p = Ret c' ->
  quiet c' known o /\ (forall T, located c T o -> located c' T o).
Proof.
  intros Hq Hqueue Hc. set (c1 := with_to_master c (<[i := q]> (to_master c))) in *.
  assert (forall j, queue_of (to_master c1) j = if decide (i = j) then q else queue_of (to_master c) j) as Hq1.
  { intros j. cbn. apply queue_of_insert. }
  assert (~ about p o -> mild o c c1) as Hother.
  { intros Hp. split; [done|]. intros j r Hr. rewrite Hq1. case_decide as Hj; [subst j|done]. rewrite Hqueue, elem_of_cons.
    split; [by right|intros [->|]; done]. }
  destruct (decide (sync_cmd (cmd p) = true)) as [Hs|Hs].
  - destruct (decide (u32 (param p) = o)) as [Hp|Hp].
    + destruct Hq as [Q1 Q2]. destruct (Q2 i p) as [Hcmd Hk]; [rewrite Hqueue; left|done|].
      unfold RcMasterListen_cmd in Hc. rewrite Hcmd, Hp in Hc. apply bind_Ret_inv in Hc as (h & Hh & (E1 & E2 & _)%handled_effect).
      destruct (Hfields Hk) as [F1 F2]. destruct (EventWaitMsg_quiet (mgr c1) mem i o (param2 p) h F1 F2 Q1 Hh) as [Q1' Hw]. split; [split|].
      * by rewrite E1.
      * intros j r. rewrite E2, Hq1. intros Hr Ha. apply (Q2 j); [|done]. revert Hr. case_decide as Hj; [subst j|done].
        rewrite Hqueue. by right.
      * intros T [(r & Hr & Ha & Hcr & Ht)|HT]; [|right; rewrite E1, Hw; apply elem_of_app; by left].
        destruct (decide (r = p /\ machine T = i)) as [[-> Hm]|Hne].
        { right. rewrite E1, Hw. apply elem_of_app. right. apply list_elem_of_singleton. by rewrite Ht, <- Hm, Thread_eta. }
        { left. exists r. split; [|done]. rewrite E2, Hq1. case_decide as Hj; [|done]. rewrite <- Hj, Hqueue in Hr.
          apply elem_of_cons in Hr as [->|]; [|done]. destruct Hne. by split. }
    + assert (mild o c1 c') as Hm.
      { unfold RcMasterListen_cmd in Hc. destruct (cmd p); try discriminate Hs;
          apply bind_Ret_inv in Hc as (h & Hh & (E1 & E2 & _)%handled_effect); (split; [rewrite E1|by rewrite E2]);
          [eapply BarrierMsg_own|eapply SemaphoreMsg_own|eapply SemaphoreLeaveMsg_own|eapply EventWaitMsg_own
          |eapply SetEventMsg_own|eapply ResetEventMsg_own]; (exact Hh || congruence). }
      assert (mild o c c') as Hcc by (eapply mild_trans; [apply Hother; by intros []|exact Hm]).
      split; [by apply (quiet_mild o c)|]. intros T. by apply located_mild.
  - assert (mild o c1 c') as Hm.
    { unfold RcMasterListen_cmd in Hc. destruct (cmd p); try done; try (injection Hc as <-; apply mild_refl).
      apply bind_Ret_inv in Hc as (m & Ha & [= <-]). unfold Alive in Ha. inv_ret Ha. done. }
    assert (mild o c c') as Hcc by (eapply mild_trans; [apply Hother; by intros []|exact Hm]).
    split; [by apply (quiet_mild o c)|]. intros T. by apply located_mild.
Qed.
End quiet_steps.

(** * The invariant of the world *)

Definition rank (pc : entry_pc) : Z :=
  match pc with
  | EntryInit => 0 | EntryRunning => 1 | EntryCall => 2 | EntryStopped => 3 | EntrySet => 4 | EntryDestroy => 5 | EntryDone => 6
  end.

Section world.
Context (objs : gset Z) (procs : list Z).

(** No entry has signalled the object yet. *)
Definition unset (w : world) (o : Z) : Prop := forall e, e ∈ entries w -> e_okey e = o -> rank (e_pc e) <= 4.

Definition pk_okey (p : RcCommandPack) : Z := u32 (param3 p).
Definition packet_for (k : thread_call) (p : RcCommandPack) : Prop :=
  u32 (param2 p) = call_param k /\ procs.[param p] = Some (call_func k) /\
  match call_data k with None => param4 p = 0 | Some d => param4 p = zlen d /\ payload p = d /\ d <> [] end.
Definition entry_for (k : thread_call) (e : entry) : Prop :=
  e_node e = call_node k /\ e_param e = call_param k /\ e_data e = call_data k /\ procs.[e_index e] = Some (call_func k).

Definition zero_fields (m : memory) (o : Z) : Prop := m (o, f_auto_reset) = 0 /\ m (o, f_is_signal) = 0.

Record world_inv (w : world) : Prop := {
  wi_tokens : inv_with [] (net w) (blocked (sys w));
  wi_created : forall o k, created w !! o = Some k -> o ∈ objs /\ is_u32 o /\ zero_fields (mem w) o;
  wi_quiet : forall o, o ∈ objs -> unset w o -> quiet (net w) (is_Some (created w !! o)) o /\
    forall T, T ∈ blocked (sys w) -> target w !! T = Some o -> located (net w) T o;
  wi_packets : forall i p, p ∈ creates_of (queue_of (to_slave (net w)) i) -> exists k, created w !! pk_okey p = Some k /\
    call_node k = i /\ packet_for k p /\ pk_okey p ∉ e_okey <$> entries w;
  wi_packets_nodup : forall i, NoDup (pk_okey <$> creates_of (queue_of (to_slave (net w)) i));
  wi_entries_nodup : NoDup (e_okey <$> entries w);
  wi_entry : forall e, e ∈ entries w -> exists k, created w !! e_okey e = Some k /\ entry_for k e /\
    (3 <= rank (e_pc e) -> k ∈ calls w) /\ (4 <= rank (e_pc e) -> mem w (e_okey e, f_state) = ThreadStoped);
}.

Lemma first_world_inv n_nodes now m : world_inv (first_world n_nodes now m).
Proof.
  split; cbn.
  - exact (reachable_inv (cache_get m) n_nodes now _ (reachable_initial _ n_nodes now)).
  - intros o k. by rewrite lookup_empty.
  - intros o _ _. split; [|intros T HT; by apply elem_of_empty in HT]. split; cbn; [intros node; by rewrite lookup_empty|].
    intros i p. unfold queue_of. rewrite lookup_empty. cbn. by intros ?%elem_of_nil.
  - intros i p. unfold queue_of. rewrite lookup_empty. cbn. by intros ?%elem_of_nil.
  - intros i. unfold queue_of. rewrite lookup_empty. constructor.
  - constructor.
  - intros e He. by apply elem_of_nil in He.
Qed.

(** Only the cluster, the blocked threads and their targets change. *)
Lemma net_changes w c' B' tg' : world_inv w -> inv_with [] c' B' -> same_creates (net w) c' ->
  (forall o, o ∈ objs -> unset w o -> quiet (net w) (is_Some (created w !! o)) o ->
    (forall T, T ∈ blocked (sys w) -> target w !! T = Some o -> located (net w) T o) ->
    quiet c' (is_Some (created w !! o)) o /\ forall T, T ∈ B' -> tg' !! T = Some o -> located c' T o) ->
  world_inv (World {| shared := c'; blocked := B' |} (mem w) (entries w) (calls w) tg' (created w)).
Proof.
  intros [W1 W2 W3 W4 W5 W6 W7] Htok Hsame Hquiet. split; try done.
  - intros o Ho Hu. destruct (W3 o Ho Hu) as [Q L]. by apply Hquiet.
  - cbn. intros i p. rewrite Hsame. apply W4.
  - cbn. intros i. rewrite Hsame. apply W5.
Qed.

Lemma net_mild w c' : world_inv w -> inv_with [] c' (blocked (sys w)) -> same_creates (net w) c' ->
  (forall o, o ∈ objs -> mild o (net w) c') -> world_inv (with_net w c').
Proof.
  intros HW Htok Hsame Hm. apply (net_changes w c' (blocked (sys w)) (target w) HW Htok Hsame).
  intros o Ho _ Q L. specialize (Hm o Ho). split; [by apply (quiet_mild o (net w))|].
  intros T HT Htg. by apply (located_mild o (net w)), L.
Qed.

(** Only the memory changes, and not to what the objects rely on. *)
Lemma mem_changes w m' : world_inv w -> (forall o, is_Some (created w !! o) -> zero_fields (mem w) o -> zero_fields m' o) ->
  (forall e, e ∈ entries w -> 4 <= rank (e_pc e) -> m' (e_okey e, f_state) = mem w (e_okey e, f_state)) ->
  world_inv (with_mem w m').
Proof.
  intros [W1 W2 W3 W4 W5 W6 W7] Hz Hst. split; try done.
  - cbn. intros o k Hk. destruct (W2 o k Hk) as (H1 & H2 & H3). split; [done|]. split; [done|]. apply Hz; eauto.
  - cbn. intros e He. destruct (W7 e He) as (k & Hk & Hf & Hc & Hs). exists k. split; [done|]. split; [done|]. split; [done|].
    intros Hr. rewrite Hst by done. by apply Hs.
Qed.

Lemma put_word_other mem o f v o' f' : (o', f') <> (o, f) -> put_word mem o f v (o', f') = mem (o', f').
Proof. intros H. unfold put_word. by rewrite decide_False. Qed.
Lemma put_word_same mem o f v : put_word mem o f v (o, f) = v.
Proof. unfold put_word. by rewrite decide_True. Qed.

Lemma ref_DThread_fields mem o : zero_fields (ref_DThread mem o) o.
Proof.
  unfold zero_fields, ref_DThread, new_DEvent. rewrite put_word_other by (intros [= ?]; done).
  by rewrite !put_word_same.
Qed.
Lemma ref_DThread_other mem o o' f : o' <> o \/ f <> f_auto_reset /\ f <> f_is_signal -> ref_DThread mem o (o', f) = mem (o', f).
Proof. intros H. unfold ref_DThread, new_DEvent. rewrite !put_word_other; [done|..]; intros [= -> ->]; tauto. Qed.
Lemma ref_DThread_zero mem o o' : zero_fields mem o' -> zero_fields (ref_DThread mem o) o'.
Proof.
  destruct (decide (o' = o)) as [->|Hne]; [intros _; apply ref_DThread_fields|]. unfold zero_fields.
  by rewrite !ref_DThread_other by (left; done).
Qed.

(** One entry moves on. *)
Lemma unset_set_entry w k e e' o : entries w !! k = Some e -> e_okey e' = e_okey e -> rank (e_pc e) <= rank (e_pc e') ->
  unset (set_entry w k e') o -> unset w o.
Proof.
  intros Hk Ho Hr Hu x Hx Hxo. apply list_elem_of_lookup in Hx as [j Hj]. destruct (decide (j = k)) as [->|Hne].
  - rewrite Hk in Hj. injection Hj as <-. assert (rank (e_pc e') <= 4); [|lia]. apply Hu; [|congruence].
    cbn. apply list_elem_of_lookup. exists k. apply list_lookup_insert_eq. by apply lookup_lt_Some in Hk.
  - apply Hu; [|done]. cbn. apply list_elem_of_lookup. exists j. by rewrite list_lookup_insert_ne.
Qed.

Lemma okeys_set_entry w k e e' : entries w !! k = Some e -> e_okey e' = e_okey e ->
  e_okey <$> <[k := e']> (entries w) = e_okey <$> entries w.
Proof.
  intros Hk Ho. rewrite list_fmap_insert, Ho. apply list_insert_id. by rewrite list_lookup_fmap, Hk.
Qed.

Lemma entry_moves w k e e' : world_inv w -> entries w !! k = Some e -> e_okey e' = e_okey e ->
  rank (e_pc e) <= rank (e_pc e') -> (forall x, entry_for x e -> entry_for x e') ->
  (3 <= rank (e_pc e') -> 3 <= rank (e_pc e) \/ exists x, created w !! e_okey e = Some x /\ x ∈ calls w) ->
  (4 <= rank (e_pc e') -> 4 <= rank (e_pc e) \/ mem w (e_okey e, f_state) = ThreadStoped) ->
  world_inv (set_entry w k e').
Proof.
  intros [W1 W2 W3 W4 W5 W6 W7] Hk Ho Hr Hf Hc Hs. split; cbn [sys mem entries calls target created set_entry net] in *; try done.
  - intros o Hobj Hu%(unset_set_entry w k e e' o Hk Ho Hr). by apply W3.
  - rewrite (okeys_set_entry w k e e' Hk Ho). done.
  - by rewrite (okeys_set_entry w k e e' Hk Ho).
  - intros x Hx. apply list_elem_of_lookup in Hx as [j Hj]. destruct (decide (j = k)) as [->|Hne].
    + rewrite list_lookup_insert_eq in Hj by (by apply lookup_lt_Some in Hk). injection Hj as <-.
      destruct (W7 e) as (x & Hx & Hef & Hcx & Hsx); [by apply list_elem_of_lookup_2 in Hk|]. exists x. rewrite Ho. split; [done|].
      split; [by apply Hf|]. split.
      * intros [H3|(y & Hy & Hin)]%Hc; [by apply Hcx|]. by rewrite Hx in Hy; injection Hy as <-.
      * intros [H4|]%Hs; [by apply Hsx|done].
    + rewrite list_lookup_insert_ne in Hj by done. apply W7. by apply list_elem_of_lookup_2 in Hj.
Qed.

(** * Every step keeps it *)

Lemma same_creates_trans c1 c2 c3 : same_creates c1 c2 -> same_creates c2 c3 -> same_creates c1 c3.
Proof. intros H1 H2 i. by rewrite H2, H1. Qed.

Lemma enter_effect cg c n tid okey c' call : call = RcEnterBarrier cg \/ call = RcEnterSemaphore cg \/ call = RcWaitForEvent cg ->
  is_u32 okey -> call c n okey tid = Ret c' -> same_creates c c' /\ forall o, o <> okey -> mild o c c'.
Proof.
  intros Hcall Ho Hc. destruct Hcall as [->|[->| ->]]; apply bind_Ret_inv in Hc as (c1 & (H1 & E & _ & H2)%put_event_mild & Hr);
    (eapply (request_mild c1 n okey) in Hr as [H3 H4]; [|intros h _ Hh|by apply u32_s32]);
    try (split; [by eapply same_creates_trans|intros o Hne; eapply mild_trans; [apply H2|by apply H4]]).
  - by eapply BarrierMsg_own.
  - by eapply SemaphoreMsg_own.
  - by eapply EventWaitMsg_own.
Qed.

Lemma post_effect cg c n tid okey c' : RcLeaveSemaphore cg c n okey tid = Ret c' \/ RcSetEvent cg c n okey = Ret c' \/
  RcResetEvent cg c n okey = Ret c' -> is_u32 okey -> same_creates c c' /\ forall o, o <> okey -> mild o c c'.
Proof.
  intros Hc Ho. destruct Hc as [Hc|[Hc|Hc]]; (eapply (request_mild c n okey) in Hc; [exact Hc|intros h _ Hh|by apply u32_s32]).
  - by eapply SemaphoreLeaveMsg_own.
  - by eapply SetEventMsg_own.
  - by eapply ResetEventMsg_own.
Qed.

Lemma master_creates cg c i now p c' : RcMasterListen_cmd cg c i now p = Ret c' -> same_creates c c'.
Proof.
  unfold RcMasterListen_cmd. destruct (cmd p); try (by intros [= <-]);
    intros (h & Hh & Hc)%bind_Ret_inv; try (by apply handled_effect in Hc as (_ & _ & ?)). by injection Hc as <-.
Qed.

Lemma alive_effect c num_nodes now c' ex : RcMasterAliveListen_round c num_nodes now = Ret (c', ex) ->
  same_creates c c' /\ mgr c' = mgr c /\ to_master c' = to_master c.
Proof.
  unfold RcMasterAliveListen_round, for_range. set (body := fun i '(c, ex) => _).
  assert (forall n i c ex0, count_loop n i body (c, ex0) = Ret (c', ex) ->
    same_creates c c' /\ mgr c' = mgr c /\ to_master c' = to_master c) as Hloop; [|by apply Hloop].
  clear c. induction n as [|n IH]; intros i c ex0 Hl; cbn [count_loop] in Hl; [by injection Hl as <- _|].
  apply bind_Ret_inv in Hl as ([c2 ex2] & Hb & Hl). apply bind_Ret_inv in Hb as (t & _ & Hb). injection Hb as <- <-.
  destruct (IH _ _ _ Hl) as (H1 & H2 & H3). split; [|done]. intros j. rewrite (H1 j). by apply creates_send.
Qed.

Lemma slave_effect c i p c' a : RcSlaveMainLoop_cmd c i p = Ret (c', a) ->
  same_creates c c' /\ (forall o, mild o c c') /\ (cmd p <> RcCmdCreateThread -> started i a = []) /\
  (cmd p = RcCmdCreateThread -> c' = c /\ ((param4 p = 0 /\ a = SlaveThread (param p) (u32 (param2 p)) (pk_okey p)) \/
    (param4 p <> 0 /\ a = SlaveThreadObject (param p) (u32 (param2 p)) (pk_okey p) (payload p)))).
Proof.
  unfold RcSlaveMainLoop_cmd. destruct (cmd p) eqn:Ep; try (by intros [= <- <-]).
  - destruct (Z.eqb_spec (param4 p) 0) as [E|E]; cbn [negb]; [|case_test; [done|]]; intros [= <- <-]; (split; [done|]);
      (split; [done|]); (split; [done|]); intros _; (split; [done|]); [by left|by right].
  - intros (c1 & (H1 & _ & _ & H2)%put_event_mild & [= <- <-])%bind_Ret_inv. done.
  - intros [= <- <-]. split; [done|]. split; [|done]. intros o. split; [done|]. intros j q [Hq _]. cbn. rewrite queue_of_insert.
    case_decide as Hj; [|done]. subst j. rewrite elem_of_app, list_elem_of_singleton. split; [intros [|Heq]|by left]; [done|].
    subst q. by rewrite Ep in Hq.
Qed.

(** The step of the cluster behind a step of the world. *)
Lemma tokens_step w cg s' : world_inv w -> step cg (sys w) s' -> inv_with [] (shared s') (blocked s').
Proof. intros HW Hs. eapply step_preserves; [exact Hs|apply HW]. Qed.

(** The tokens after a step of the world, from the step of the cluster. *)
Ltac by_cluster HW rule :=
  match type of HW with
  | world_inv ?w => match goal with |- inv_with [] ?c ?B =>
      refine (tokens_step w (cache_get (mem w)) {| shared := c; blocked := B |} HW _)
    end;
    unfold net in *; cbn [sys set_entry] in *; destruct (sys w); eapply rule; eauto
  end.

Lemma state_not_zero_field : f_state <> f_auto_reset /\ f_state <> f_is_signal.
Proof. by split. Qed.
Lemma node_not_zero_field : f_node_id <> f_auto_reset /\ f_node_id <> f_is_signal.
Proof. by split. Qed.

Lemma put_zero mem o f v o' : f <> f_auto_reset /\ f <> f_is_signal -> zero_fields mem o' -> zero_fields (put_word mem o f v) o'.
Proof. intros [H1 H2] [Z1 Z2]. split; (rewrite put_word_other; [done|intros [= _ ?]; congruence]). Qed.

Lemma enter_inv w n tid okey c' call : world_inv w -> wait_call objs okey call (cache_get (mem w)) ->
  Thread n tid ∉ blocked (sys w) -> is_u32 okey -> (okey ∈ objs -> is_Some (created w !! okey)) -> call (net w) n okey tid = Ret c' ->
  world_inv (World {| shared := c'; blocked := {[Thread n tid]} ∪ blocked (sys w) |} (mem w) (entries w) (calls w)
    (<[Thread n tid := okey]> (target w)) (created w)).
Proof.
  intros HW Hcall HB Ho Hcr Hc.
  assert (call = RcEnterBarrier (cache_get (mem w)) \/ call = RcEnterSemaphore (cache_get (mem w)) \/
    call = RcWaitForEvent (cache_get (mem w))) as Hcalls by (destruct Hcall as [|[_ []]]; tauto).
  destruct (enter_effect _ _ n tid okey c' call Hcalls Ho Hc) as [Hsame Hmild].
  apply net_changes; [done| |done|].
  - by_cluster HW step_enter.
  - intros o Hobj Hu Q L. destruct (decide (o = okey)) as [->|Hne].
    + destruct Hcall as [->|[Hno _]]; [|done]. destruct (wait_quiet (mem w) okey (is_Some (created w !! okey))) with
        (c := net w) (n := n) (tid := tid) (c' := c') as (Q' & Lnew & Lold & _); [|done|by apply Hcr|done|done|].
      { intros [k Hk]. apply (wi_created _ HW okey k Hk). }
      split; [done|]. intros T HT%elem_of_union Htg. destruct (decide (T = Thread n tid)) as [->|HTne]; [done|].
      rewrite lookup_insert_ne in Htg by done. apply Lold, L; [|done]. destruct HT as [HT%elem_of_singleton|]; done.
    + split; [by apply (quiet_mild o (net w)); [apply Hmild|]|]. intros T HT%elem_of_union Htg.
      apply (located_mild o (net w)); [by apply Hmild|]. destruct (decide (T = Thread n tid)) as [->|HTne].
      * rewrite lookup_insert_eq in Htg. by injection Htg as ->.
      * rewrite lookup_insert_ne in Htg by done. apply L; [|done]. destruct HT as [HT%elem_of_singleton|]; done.
Qed.

Lemma slave_inv w i p q c' a : world_inv w -> i <> 0 -> queue_of (to_slave (net w)) i = p :: q ->
  RcSlaveMainLoop_cmd (with_to_slave (net w) (<[i := q]> (to_slave (net w)))) i p = Ret (c', a) ->
  world_inv (World {| shared := c'; blocked := blocked (sys w) |} (mem w) (entries w ++ started i a) (calls w) (target w) (created w)).
Proof.
  intros HW Hi Hq Hc. pose proof HW as [W1 W2 W3 W4 W5 W6 W7]. set (c1 := with_to_slave _ _) in Hc.
  assert (inv_with [] c' (blocked (sys w))) as Htok.
  { by_cluster HW step_slave. }
  destruct (slave_effect c1 i p c' a Hc) as (Hsame & Hmild & Hnone & Hcreate).
  assert (forall o, mild o (net w) c') as Hm by (intros o; eapply mild_trans; [|apply Hmild]; done).
  assert (forall j, queue_of (to_slave c1) j = if decide (i = j) then q else queue_of (to_slave (net w)) j) as Hq1.
  { intros j. cbn. apply queue_of_insert. }
  destruct (decide (cmd p = RcCmdCreateThread)) as [Hp|Hp].
  - destruct (Hcreate Hp) as [-> Ha].
    assert (creates_of (queue_of (to_slave (net w)) i) = p :: creates_of q) as Hcr by (rewrite Hq; by apply filter_cons_True).
    destruct (W4 i p) as (k & Hk & Hn & Hf & Hnew); [rewrite Hcr; left|].
    assert (exists e, started i a = [e] /\ e_okey e = pk_okey p /\ e_pc e = EntryInit /\ entry_for k e) as (e & -> & Heo & Hpc & Hef).
    { destruct Hf as (F1 & F2 & F3). destruct Ha as [[E ->]|[E ->]]; (eexists; split; [done|]; split; [done|]; split; [done|]);
        (split; [by cbn|]); (split; [by cbn|]); (split; [|done]); cbn.
      - destruct (call_data k) as [d|] eqn:Ed; [|done]. destruct F3 as (F3 & F4 & F5). rewrite E in F3. destruct d; [done|].
        rewrite zlen_cons in F3. pose proof (zlen_nonneg d). lia.
      - destruct (call_data k) as [d|] eqn:Ed; [|done]. destruct F3 as (_ & -> & _). done. }
    split; cbn [sys mem entries calls target created net shared blocked] in *; try done.
    + intros o Hobj Hu. assert (unset w o) as Hu' by (intros x Hx; apply Hu, elem_of_app; by left).
      destruct (W3 o Hobj Hu') as [Q L]. split; [by apply (quiet_mild o (net w))|].
      intros T HT Htg. apply (located_mild o (net w)); [done|by apply L].
    + intros j r Hr. assert (r ∈ creates_of (queue_of (to_slave (net w)) j)) as Hr0.
      { rewrite Hq1 in Hr. case_decide as Hj; [subst j|done]. rewrite Hcr. by right. }
      destruct (W4 j r Hr0) as (k' & Hk' & Hn' & Hf' & Hnew'). exists k'. split; [done|]. split; [done|]. split; [done|].
      rewrite fmap_app, elem_of_app. intros [|Hin]; [done|]. cbn in Hin. apply list_elem_of_singleton in Hin. rewrite Heo in Hin.
      rewrite Hin in Hk'. rewrite Hk in Hk'. injection Hk' as <-. assert (j = i) as -> by congruence.
      specialize (W5 i). rewrite Hcr in W5. cbn in W5. apply NoDup_cons in W5 as [W5 _]. apply W5. rewrite <- Hin.
      apply list_elem_of_fmap. exists r. split; [done|]. rewrite Hq1, decide_True in Hr by done. done.
    + intros j. rewrite Hq1. case_decide as Hj; [subst j|apply W5]. specialize (W5 i). rewrite Hcr in W5. by apply NoDup_cons in W5 as [_ W5].
    + rewrite fmap_app. apply NoDup_app. split; [done|]. split; [|apply NoDup_singleton].
      intros x Hx. cbn. rewrite list_elem_of_singleton. intros ->. rewrite Heo in Hx. done.
    + intros x [Hx|Hx%list_elem_of_singleton]%elem_of_app; [by apply W7|]. subst x. exists k. rewrite Heo. split; [done|]. split; [done|].
      rewrite Hpc. cbn. split; lia.
  - rewrite (Hnone Hp), app_nil_r. apply (net_mild w c'); [done|done| |intros o _; apply Hm].
    eapply same_creates_trans; [|exact Hsame]. intros j. rewrite Hq1. case_decide as Hj; [subst j|done].
    rewrite Hq. unfold creates_of. by rewrite filter_cons_False.
Qed.

Lemma create_effect c nd_id idx param okey obj mem c' mem' : is_u32 okey -> is_u32 param -> 0 <= idx < 2 ^ 31 ->
  obj <> Some [] -> new_DThread 0 c mem okey nd_id idx param obj = Ret (c', mem') ->
  exists p, c' = send_slave c nd_id p /\ cmd p = RcCmdCreateThread /\ pk_okey p = okey /\
    (forall k, call_param k = param -> call_data k = obj -> procs.[idx] = Some (call_func k) -> packet_for k p) /\
    zero_fields mem' okey /\ forall o f, o <> okey -> mem' (o, f) = mem (o, f).
Proof.
  intros Ho Hp Hi Hobj. unfold new_DThread. intros (c1 & Hc & [= <- <-])%bind_Ret_inv.
  assert (forall mem, zero_fields (put_word (put_word (new_DEvent mem okey false false) okey f_state ThreadCreating) okey f_node_id (u32 nd_id)) okey) as Hz.
  { intros m. apply put_zero; [exact node_not_zero_field|]. apply put_zero; [exact state_not_zero_field|]. apply ref_DThread_fields. }
  assert (forall o f, o <> okey -> put_word (put_word (new_DEvent mem okey false false) okey f_state ThreadCreating) okey f_node_id (u32 nd_id) (o, f) = mem (o, f)) as Hm.
  { intros o f Hne. rewrite !put_word_other by congruence. apply ref_DThread_other. by left. }
  assert (s32 idx = idx) as Hidx by (apply s32_small; lia).
  destruct obj as [d|]; unfold RcCreateThread, RcCreateThreadObject in Hc; inv_ret Hc; (eexists; split; [done|]; split; [done|]);
    (split; [by apply u32_s32|]); (split; [|split; [apply Hz|exact Hm]]); intros k E1 E2 E3; unfold packet_for; cbn;
    rewrite u32_s32, E1, E2, Hidx by done; (split; [done|]); (split; [done|]); [|done].
  split; [done|]. split; [done|]. congruence.
Qed.

Lemma create_inv w nd_id idx param okey obj c' mem' func : world_inv w -> okey ∈ objs -> is_u32 okey -> created w !! okey = None ->
  is_u32 param -> 0 <= idx < 2 ^ 31 -> procs.[idx] = Some func -> obj <> Some [] ->
  new_DThread 0 (net w) (mem w) okey nd_id idx param obj = Ret (c', mem') ->
  world_inv (World {| shared := c'; blocked := blocked (sys w) |} mem' (entries w) (calls w) (target w)
    (<[okey := Call nd_id func param obj]> (created w))).
Proof.
  intros HW Hobj Ho Hnone Hp Hi Hf Hne Hc. pose proof HW as [W1 W2 W3 W4 W5 W6 W7].
  destruct (create_effect _ _ _ _ _ _ _ _ _ Ho Hp Hi Hne Hc) as (p & -> & Hcmd & Hpk & Hfor & Hz & Hm).
  assert (forall j, creates_of (queue_of (to_slave (send_slave (net w) nd_id p)) j) =
    if decide (nd_id = j) then creates_of (queue_of (to_slave (net w)) nd_id) ++ [p] else creates_of (queue_of (to_slave (net w)) j)) as Hq.
  { intros j. cbn. rewrite queue_of_insert. case_decide as Hj; [|done]. unfold creates_of. rewrite filter_app. f_equal.
    rewrite filter_cons_True by done. by rewrite filter_nil. }
  assert (forall o k, created w !! o = Some k -> o <> okey) as Hold by (intros o k Hk ->; congruence).
  assert (forall e, e ∈ entries w -> e_okey e <> okey) as Hent by (intros e He; destruct (W7 e He) as (k & Hk & _); by eapply Hold).
  assert (forall j r, r ∈ creates_of (queue_of (to_slave (net w)) j) -> pk_okey r <> okey) as Hpks
    by (intros j r Hr; destruct (W4 j r Hr) as (k & Hk & _); by eapply Hold).
  split; cbn [sys mem entries calls target created net shared blocked] in *.
  - by apply inv_send_slave; [unfold wake_of; rewrite Hcmd|].
  - intros o k. rewrite lookup_insert_Some. intros [[<- _]|[_ Hk]]; [done|]. destruct (W2 o k Hk) as (H1 & H2 & H3).
    split; [done|]. split; [done|]. unfold zero_fields. by rewrite !Hm by (by eapply Hold).
  - intros o Ho' Hu. destruct (W3 o Ho' Hu) as [Q L]. split; [|intros T HT Htg; by apply (located_mild o (net w)); [|apply L]].
    apply (quiet_known o _ (is_Some (created w !! o))); [|by apply (quiet_mild o (net w))].
    intros [k Hk]. rewrite lookup_insert_ne by (intros ->; congruence). eauto.
  - intros j r. rewrite Hq. intros Hr. assert (r ∈ creates_of (queue_of (to_slave (net w)) j) \/ j = nd_id /\ r = p) as [Hr'|[-> ->]].
    { case_decide as Hj; [subst j|by left]. rewrite elem_of_app, list_elem_of_singleton in Hr. tauto. }
    + destruct (W4 j r Hr') as (k & Hk & Hrest). exists k. rewrite lookup_insert_ne by (apply not_eq_sym; by eapply Hpks). done.
    + eexists. rewrite Hpk, lookup_insert_eq. split; [done|]. split; [done|]. split; [by apply Hfor|].
      intros (e & He & Hin)%list_elem_of_fmap. by apply (Hent e).
  - intros j. rewrite Hq. case_decide as Hj; [subst j|apply W5]. rewrite fmap_app. apply NoDup_app. split; [apply W5|].
    split; [|apply NoDup_singleton]. intros x (r & -> & Hr)%list_elem_of_fmap. cbn. rewrite list_elem_of_singleton, Hpk. by eapply Hpks.
  - done.
  - intros e He. destruct (W7 e He) as (k & Hk & Hfe & Hce & Hse). exists k. rewrite lookup_insert_ne by (apply not_eq_sym, Hent; done).
    split; [done|]. split; [done|]. split; [done|]. by rewrite Hm by (by apply Hent).
Qed.

(** ** Entries *)

Lemma set_entry_net w c' k e' : set_entry (with_net w c') k e' = with_net (set_entry w k e') c'.
Proof. done. Qed.
Lemma set_entry_mem w m k e' : set_entry (with_mem w m) k e' = with_mem (set_entry w k e') m.
Proof. done. Qed.

(** Entries of other objects do not see what an entry writes. *)
Lemma other_entry w k e x : world_inv w -> entries w !! k = Some e -> x ∈ entries w -> e_okey x = e_okey e -> x = e.
Proof.
  intros HW Hk Hx Ho. apply list_elem_of_lookup in Hx as [j Hj]. pose proof (wi_entries_nodup _ HW) as Hnd.
  rewrite NoDup_alt in Hnd. assert (j = k) as -> by (apply (Hnd j k (e_okey e)); rewrite list_lookup_fmap, ?Hj, ?Hk; cbn; congruence).
  congruence.
Qed.

Lemma entry_alone w k e e' y : world_inv w -> entries w !! k = Some e -> e_okey e' = e_okey e ->
  y ∈ <[k := e']> (entries w) -> e_okey y = e_okey e -> y = e'.
Proof.
  intros HW Hk Ho Hy Hyo. apply list_elem_of_lookup in Hy as [j Hj]. destruct (decide (j = k)) as [->|Hne].
  - rewrite list_lookup_insert_eq in Hj by (by apply lookup_lt_Some in Hk). congruence.
  - rewrite list_lookup_insert_ne in Hj by done. pose proof (wi_entries_nodup _ HW) as Hnd. rewrite NoDup_alt in Hnd.
    destruct Hne. apply (Hnd j k (e_okey e)); rewrite list_lookup_fmap, ?Hj, ?Hk; cbn; congruence.
Qed.

Definition more_calls (w : world) (x : thread_call) : world :=
  World (sys w) (mem w) (entries w) (calls w ++ [x]) (target w) (created w).
Lemma more_calls_inv w x : world_inv w -> world_inv (more_calls w x).
Proof.
  intros [W1 W2 W3 W4 W5 W6 W7]. split; try done. intros e He. destruct (W7 e He) as (k & Hk & Hf & Hc & Hs).
  exists k. split; [done|]. split; [done|]. split; [|done]. intros Hr%Hc. cbn. apply elem_of_app. by left.
Qed.

Lemma with_mem_set w m k e : set_entry (with_mem w m) k e = with_mem (set_entry w k e) m.
Proof. done. Qed.

(** An entry signals its object: the object is no longer unset. *)
Lemma entry_set_inv w k e c : world_inv w -> entries w !! k = Some e -> e_pc e = EntrySet -> is_u32 (e_okey e) ->
  RcSetEvent (cache_get (mem w)) (net w) (e_node e) (e_okey e) = Ret c ->
  world_inv (set_entry (with_net w c) k (at_pc e EntryDestroy (e_tid e))).
Proof.
  intros HW Hk Epc Hu Hcall.
  assert (RcLeaveSemaphore (cache_get (mem w)) (net w) (e_node e) (e_okey e) (e_tid e) = Ret c \/
    RcSetEvent (cache_get (mem w)) (net w) (e_node e) (e_okey e) = Ret c \/
    RcResetEvent (cache_get (mem w)) (net w) (e_node e) (e_okey e) = Ret c) as Hpost by tauto.
  destruct (post_effect _ _ _ _ _ _ Hpost Hu) as [Hsame Hmild]. rewrite set_entry_net.
  apply (net_changes (set_entry w k _)); [|by_cluster HW step_post|done|].
  - apply (entry_moves w k e); cbn [at_pc e_pc e_okey]; rewrite ?Epc; cbn [rank]; (done || lia || auto with lia).
  - intros o Ho Hun Q L. destruct (decide (o = e_okey e)) as [->|Hne].
    + exfalso. assert (rank (e_pc (at_pc e EntryDestroy (e_tid e))) <= 4); [|done]. apply Hun; [|done].
      cbn. apply list_elem_of_lookup. exists k. apply list_lookup_insert_eq. by apply lookup_lt_Some in Hk.
    + split; [by apply (quiet_mild o (net w)); [apply Hmild|]|]. intros T HT Htg.
      apply (located_mild o (net w)); [by apply Hmild|by apply L].
Qed.

Lemma entry_inv w k e tid w' : world_inv w -> entries w !! k = Some e ->
  (e_pc e = EntryInit -> events (net w) !! Thread (e_node e) tid = None) ->
  (e_pc e <> EntryInit -> Thread (e_node e) (e_tid e) ∉ blocked (sys w)) ->
  entry_step procs w k e tid = Ret w' -> world_inv w'.
Proof.
  intros HW Hk Hinit HB Hstep. pose proof (list_elem_of_lookup_2 _ _ _ Hk) as Hin.
  destruct (wi_entry _ HW e Hin) as (x & Hx & Hf & Hc & Hs). destruct (wi_created _ HW _ _ Hx) as (Hobj & Hu & Hz).
  assert (forall pc t, rank (e_pc e) <= rank pc -> (3 <= rank pc -> 3 <= rank (e_pc e)) -> (4 <= rank pc -> 4 <= rank (e_pc e)) ->
    world_inv (set_entry w k (at_pc e pc t))) as Hmove.
  { intros pc t H1 H3 H4. apply (entry_moves w k e); (done || auto). }
  unfold entry_step in Hstep. destruct (e_pc e) eqn:Epc; cbn [rank] in *.
  - injection Hstep as <-. rewrite set_entry_net. apply (net_mild (set_entry w k _)); [apply Hmove; cbn; lia| |done|done].
    by_cluster HW step_start.
  - injection Hstep as <-. rewrite set_entry_mem. apply (mem_changes (set_entry w k _)); [apply Hmove; cbn; lia| |].
    + intros o _ Ho. apply put_zero; [exact state_not_zero_field|]. by apply ref_DThread_zero.
    + intros y Hy Hr. rewrite put_word_other, ref_DThread_other; [done|right; exact state_not_zero_field|].
      intros [= Hyo]. apply (entry_alone w k e (at_pc e EntryCall (e_tid e)) y) in Hy; [|done..]. subst y. done.
  - apply bind_Ret_inv in Hstep as (func & Hfunc%rd_Ret & [= <-]). set (y := Call _ func _ _).
    assert (y = x) as Hy.
    { destruct Hf as (E1 & E2 & E3 & E4). destruct x as [xn xf xp xd]. unfold y. cbn in *. congruence. }
    apply (entry_moves (more_calls w y) k e); cbn [at_pc e_pc e_okey]; rewrite ?Epc; cbn [rank]; try (done || lia).
    + by apply more_calls_inv.
    + intros _. right. exists x. split; [done|]. cbn. rewrite Hy. set_solver.
  - injection Hstep as <-. rewrite set_entry_mem, <- with_mem_set. apply (entry_moves (with_mem w _) k e); cbn [at_pc e_pc e_okey]; rewrite ?Epc; cbn [rank]; try (done || lia).
    + apply mem_changes; [done|intros o _; apply put_zero, state_not_zero_field|]. intros y Hy Hr.
      rewrite put_word_other; [done|]. intros [= Hyo]. apply (other_entry w k e) in Hyo; [|done..]. subst y. by rewrite Epc in Hr.
    + intros _. right. apply put_word_same.
  - apply bind_Ret_inv in Hstep as (c & Hcall & [= <-]). by apply entry_set_inv.
  - injection Hstep as <-. rewrite set_entry_net. apply (net_mild (set_entry w k _)); [apply Hmove; cbn; lia| |done|done].
    by_cluster HW step_exit.
  - done.
Qed.

(** ** Every step of a run *)

(** A post leaves the objects of threads alone. *)
Lemma post_inv w n tid okey c' : world_inv w -> is_u32 okey -> okey ∉ objs ->
  RcLeaveSemaphore (cache_get (mem w)) (net w) n okey tid = Ret c' \/ RcSetEvent (cache_get (mem w)) (net w) n okey = Ret c' \/
    RcResetEvent (cache_get (mem w)) (net w) n okey = Ret c' ->
  world_inv (with_net w c').
Proof.
  intros HW Hu Hno Hpost. destruct (post_effect _ _ _ _ _ _ Hpost Hu) as [Hsame Hmild].
  apply net_mild; [done| |done|intros o Ho; apply Hmild; by intros ->].
  by_cluster HW step_post.
Qed.

Lemma resume_inv w n tid : world_inv w -> Thread n tid ∈ blocked (sys w) -> RcWaitForRemoteEvent (net w) n tid = true ->
  world_inv (World {| shared := net w; blocked := blocked (sys w) ∖ {[Thread n tid]} |} (mem w) (entries w) (calls w) (target w) (created w)).
Proof.
  intros HW HB Hw. apply net_changes; [done| |done|].
  - by_cluster HW step_resume.
  - intros o Ho Hu Q L. split; [done|]. intros T HT. apply L. set_solver.
Qed.

Lemma master_inv w i now p q c' : world_inv w -> i <> 0 -> queue_of (to_master (net w)) i = p :: q ->
  RcMasterListen_cmd (cache_get (mem w)) (with_to_master (net w) (<[i := q]> (to_master (net w)))) i now p = Ret c' ->
  world_inv (with_net w c').
Proof.
  intros HW Hi Hq Hc. apply (net_changes w c' (blocked (sys w)) (target w)); [done| | |].
  - by_cluster HW step_master.
  - eapply same_creates_trans; [|by eapply master_creates]. done.
  - intros o Ho Hu Q L. destruct (master_quiet (mem w) o (is_Some (created w !! o))) with (c := net w) (i := i) (now := now)
      (p := p) (q := q) (c' := c') as [Q' L']; [|done..|].
    + intros [k Hk]. apply (wi_created _ HW o k Hk).
    + split; [done|]. intros T HT Htg. by apply L', L.
Qed.

Lemma thread_step_inv w w' : world_inv w -> thread_step objs procs w w' -> world_inv w'.
Proof.
  intros HW Hstep. destruct Hstep as [w n tid Hn|w n tid Hn|w n tid okey c' call|w n tid HB Hw|w n tid okey c' Hu Hno Hpost
    |w o f v Hno|w o Ho Hcr|w i now p q c' Hi Hq Hc|w i p q c' a|w num_nodes now c' ex Hc|w nd_id idx param okey obj c' mem' func|w k e tid w'].
  - apply net_mild; [done| |done|done].
    by_cluster HW step_start.
  - apply net_mild; [done| |done|done].
    by_cluster HW step_exit.
  - by eapply enter_inv.
  - by apply resume_inv.
  - by eapply post_inv.
  - apply mem_changes; [done| |].
    + intros o' [k Hk] Hz. destruct (wi_created _ HW _ _ Hk) as (Ho' & _).
      destruct Hz as [Z1 Z2]. split; (rewrite put_word_other; [done|]); intros [= ->]; done.
    + intros e He _. apply put_word_other. intros [= <-]. destruct (wi_entry _ HW e He) as (k & Hk & _).
      by destruct (wi_created _ HW _ _ Hk) as (Ho' & _).
  - apply mem_changes; [done|intros o' _; apply ref_DThread_zero|]. intros e _ _. apply ref_DThread_other. right. exact state_not_zero_field.
  - by eapply master_inv.
  - by eapply slave_inv.
  - destruct (alive_effect _ _ _ _ _ Hc) as (Hsame & Hm & Ht).
    apply net_mild; [done| |done|intros o _; split; [by rewrite Hm|by rewrite Ht]].
    by_cluster HW step_alive.
  - by eapply create_inv.
  - by eapply entry_inv.
Qed.

Lemma world_reachable_inv n_nodes now m w : world_reachable objs procs n_nodes now m w -> world_inv w.
Proof.
  unfold world_reachable. generalize (first_world_inv n_nodes now m). generalize (first_world n_nodes now m).
  intros w0 H0 Hr. induction Hr as [|x y z Hxy _ IH]; [done|]. apply IH. by eapply thread_step_inv.
Qed.
End world.

(** C11. A thread that waits for a [DThread] is let go on only after the function the [DThread]
    was created with ran, with its parameter and object and on the node it was created for,
    and when it is let go the object's state is [ThreadStoped]: in every run, with every
    interleaving of the other threads, events, barriers, semaphores and messages. *)
Theorem join_after_run objs procs n_nodes now m w T o :
  world_reachable objs procs n_nodes now m w -> T ∈ blocked (sys w) -> target w !! T = Some o -> o ∈ objs ->
  RcWaitForRemoteEvent (net w) (machine T) (thread_id T) = true ->
  exists k, created w !! o = Some k /\ k ∈ calls w /\ GetState (mem w) o = ThreadStoped.
Proof.
  intros HW%world_reachable_inv HB Htg Ho Hflag.
  destruct (decide (Exists (fun e => e_okey e = o /\ 4 < rank (e_pc e)) (entries w))) as [Hex|Hall].
  - apply Exists_exists in Hex as (e & He & <- & Hr). destruct (wi_entry _ _ _ HW e He) as (k & Hk & _ & Hc & Hs).
    exists k. split; [done|]. split; [apply Hc; lia|apply Hs; lia].
  - exfalso. assert (unset w o) as Hu.
    { intros e He Heo. destruct (decide (rank (e_pc e) <= 4)); [done|]. destruct Hall. apply Exists_exists. exists e. split; [done|lia]. }
    destruct (wi_quiet _ _ _ HW o Ho Hu) as [_ L].
    rewrite (located_not_flagged _ _ T o (wi_tokens _ _ _ HW) HB (L T HB Htg)) in Hflag. done.
Qed.

(** * A run *)

Section witnesses.
(** The outcome of a call that returns. *)
Definition got {A} (d : A) (x : outcome A) : A := match x with Ret a => a | _ => d end.
Definition returns {A} (x : outcome A) : bool := match x with Ret _ => true | _ => false end.
Lemma got_eq {A} (d : A) x : returns x = true -> x = Ret (got d x).
Proof. by destruct x. Qed.

(** The thread 5 of the master creates the thread object 100 on node 1, with function 7 and
    parameter 11, and waits for it; 9 is the new thread. *)
#[local] Abbreviation ids := ({[100]} : gset Z).
#[local] Abbreviation goes := (thread_step ids [7]).
Definition c_none : cluster := shared (initial 2 0).
Definition w1 := let w := first_world 2 0 (fun _ => 0) in with_net w (RcPrepareNewThread (net w) 0 5).
Definition made := got (c_none, mem w1) (new_DThread 0 (net w1) (mem w1) 100 1 0 11 None).
Definition w2 := World {| shared := fst made; blocked := blocked (sys w1) |} (snd made) (entries w1) (calls w1) (target w1)
  (<[100 := Call 1 7 11 None]> (created w1)).
Definition w3 := World {| shared := got c_none (RcWaitForEvent (cache_get (mem w2)) (net w2) 0 100 5); blocked := {[Thread 0 5]} ∪ blocked (sys w2) |}
  (mem w2) (entries w2) (calls w2) (<[Thread 0 5 := 100]> (target w2)) (created w2).
Definition create_pack := Pack RcCmdCreateThread 0 11 100 0 [].
Definition w4 :=
  let r := got (c_none, SlaveNone) (RcSlaveMainLoop_cmd (with_to_slave (net w3) (<[1 := []]> (to_slave (net w3)))) 1 create_pack) in
  World {| shared := fst r; blocked := blocked (sys w3) |} (mem w3) (entries w3 ++ started 1 (snd r)) (calls w3) (target w3) (created w3).
Definition advance (w : world) : world :=
  match entries w !! 0%nat with Some e => got w (entry_step [7] w 0 e 9) | None => w end.
Definition w5 := advance w4.
Definition w6 := advance w5.
Definition w7 := advance w6.
Definition w8 := advance w7.
Definition w9 := advance w8.
Definition set_pack := Pack RcCmdSetEvent 100 0 0 0 [].
Definition w10 := with_net w9 (got c_none (RcMasterListen_cmd (cache_get (mem w9))
  (with_to_master (net w9) (<[1 := []]> (to_master (net w9)))) 1 3 set_pack)).

Lemma advance_step w e : entries w !! 0%nat = Some e -> (e_pc e = EntryInit -> events (net w) !! Thread (e_node e) 9 = None) ->
  (e_pc e <> EntryInit -> Thread (e_node e) (e_tid e) ∉ blocked (sys w)) ->
  returns (entry_step [7] w 0 e 9) = true -> goes w (advance w).
Proof.
  intros He H1 H2 H3. apply (ts_entry _ _ w 0 e 9); [done..|]. unfold advance. rewrite He. by apply got_eq.
Qed.

Lemma demo_created : goes w1 w2 /\ goes w2 w3 /\ goes w3 w4.
Proof.
  split; [|split].
  - apply (ts_create ids [7] w1 1 0 11 100 None (fst made) (snd made) 7); [set_solver|done|done|done|done|done|done|].
    rewrite <- surjective_pairing. by apply got_eq.
  - apply (ts_enter ids [7] w2 0 5 100 _ (RcWaitForEvent (cache_get (mem w2)))); [by left|set_solver|done|by intros _; eexists|by apply got_eq].
  - apply (ts_slave ids [7] w3 1 create_pack [] _ _); [done|by vm_compute|]. rewrite <- surjective_pairing. by apply got_eq.
Qed.

Lemma demo_advances : goes w4 w5 /\ goes w5 w6 /\ goes w6 w7 /\ goes w7 w8 /\ goes w8 w9.
Proof.
  split_and!; (eapply advance_step; [reflexivity| | |reflexivity]); apply (bool_decide_unpack _); vm_compute; exact I.

Qed.

Lemma demo_run : world_reachable ids [7] 2 0 (fun _ => 0) w10.
Proof.
  destruct demo_created as (H2 & H3 & H4). destruct demo_advances as (H5 & H6 & H7 & H8 & H9).
  assert (goes (first_world 2 0 (fun _ => 0)) w1) as H1 by (by apply ts_start).
  assert (goes w9 w10) as H10.
  { apply (ts_master ids [7] w9 1 3 set_pack []); [done|by vm_compute|by apply got_eq]. }
  unfold world_reachable. repeat (eapply rtc_l; [eassumption|]). reflexivity.
Qed.

Lemma join_after_run_witness : exists k, created w10 !! 100 = Some k /\ k ∈ calls w10 /\ GetState (mem w10) 100 = ThreadStoped.
Proof.
  apply (join_after_run ids [7] 2 0 (fun _ => 0) w10 (Thread 0 5) 100 demo_run).
  - vm_compute. done.
  - vm_compute. done.
  - set_solver.
  - vm_compute. done.
Defined.
End witnesses.
