(* ===== verification/Proxies.v ===== *)
(** The proxies of [include/DogeeBase.h]: [Ref], whose [operator->] leaves the object it
    refers to in [lastobject], and [Value], which takes it from there; the local objects
    behind them, and which of them a virtual reference owns. *)
From S2P Require Import Prelude Storage ObjectModel.

(** * Local objects

    A [DObject] of the program, on the stack inside a reference or on the heap, has an
    address, and is live until it is destroyed; addresses are not used again, so that an
    access to a dead object is seen. *)
Inductive pointer := Null | At (a : Z) | Uninit.

(** A thread: what it shares with its process, the [object_id] of each live object by
    address, the next address, and [lastobject]. *)
Record proxies (C : Type) := Proxies {
  px_proc : process C;
  objects : gmap Z Z;
  next_object : Z;
  lastobject : pointer;
}.
Arguments Proxies {C} _ _ _ _.
Arguments px_proc {C} _.
Arguments objects {C} _.
Arguments next_object {C} _.
Arguments lastobject {C} _.

(** [Ref<T, false>] is the address of its [obj]; [Ref<T, true>] has [pobj] and [okey]. *)
Inductive ref := NonVirtual (obj : Z) | Virtual (pobj : pointer) (okey : Z).

Section proxies.
Context {C S : Type} `{SoStorage S} `{DSMCache C S}.
#[local] Abbreviation px := (proxies C).

Definition set_last (s : px) (p : pointer) : px := Proxies (px_proc s) (objects s) (next_object s) p.
Definition set_objects (s : px) (m : gmap Z Z) : px := Proxies (px_proc s) m (next_object s) (lastobject s).
Definition set_cache (s : px) (c : C) : px := Proxies (with_env (px_proc s) c) (objects s) (next_object s) (lastobject s).

(** [DObject::GetObjectId], [DObject::SetObjectId]. *)
Definition GetObjectId (s : px) (p : pointer) : outcome Z :=
  match p with
  | At a => match objects s !! a with Some k => Ret k | None => Abort end
  | _ => Abort
  end.
Definition SetObjectId (s : px) (p : pointer) (ok : Z) : outcome px :=
  _ ← GetObjectId s p;
  match p with At a => Ret (set_objects s (<[a := ok]> (objects s))) | _ => Abort end.

(** A new [DObject(key)]; the end of one, or [delete]. *)
Definition new_object (s : px) (key : Z) : px * Z :=
  (Proxies (px_proc s) (<[next_object s := key]> (objects s)) (next_object s + 1) (lastobject s), next_object s).
Definition delete_object (s : px) (p : pointer) : outcome px :=
  match p with
  | Null => Ret s
  | At a => match objects s !! a with Some _ => Ret (set_objects s (delete a (objects s))) | None => Abort end
  | Uninit => Abort
  end.
(** [self]. *)
Definition ReferenceObject (s : px) (a : Z) : px := set_last s (At a).

(** * References *)

Section refs.
Context (cl : classes).

(** The classes are the map of [GetClassMap]; calling an empty [std::function] throws. *)
Definition RefObj (s : px) (okey : Z) : outcome (px * pointer) :=
  if okey =? 0 then Ret (s, Null)
  else
    cls ← GetClassId (px_proc s) okey;
    match GetClassById cl cls with
    | Some createInstance => let '(s, a) := new_object s okey in Ret (s, At a)
    | None => Abort
    end.

(** [Ref(ObjectKey)], [Ref()] and [Ref(nullptr)] with key 0. *)
Definition new_ref (s : px) (isVirtual : bool) (key : Z) : px * ref :=
  if isVirtual then (s, Virtual Null key)
  else let '(s, a) := new_object s key in (s, NonVirtual a).
Definition ref_id (s : px) (r : ref) : outcome Z :=
  match r with NonVirtual a => GetObjectId s (At a) | Virtual _ okey => Ret okey end.

(** [get] and [operator->]. *)
Definition ref_get (s : px) (r : ref) : outcome (px * ref * pointer) :=
  match r with
  | NonVirtual a => Ret (set_last s (At a), r, At a)
  | Virtual p okey =>
      '(s, p) ← match p with
        | Null => RefObj s okey
        | At a => Ret (s, p)
        | Uninit => Abort
        end;
      Ret (set_last s p, Virtual p okey, p)
  end.

(** The copy constructor, which neither class declares, and the destructor. *)
Definition ref_copy (s : px) (r : ref) : outcome (px * ref) :=
  match r with
  | NonVirtual a => key ← GetObjectId s (At a); Ret (new_ref s false key)
  | Virtual p okey => Ret (s, r)
  end.
Definition ref_end (s : px) (r : ref) : outcome px :=
  match r with
  | NonVirtual a => delete_object s (At a)
  | Virtual p okey => delete_object s p
  end.

(** The constructors from a reference of another type. *)
Definition ref_from (s : px) (isVirtual : bool) (x : ref) : outcome (px * ref) :=
  if isVirtual then
    '(s, x) ← ref_copy s x;
    s ← delete_object s Uninit;
    key ← ref_id s x;
    s ← ref_end s x;
    Ret (s, Virtual Null key)
  else key ← ref_id s x; Ret (new_ref s false key).

(** The body of [operator=] of [Ref<T, false>], and both [operator=] with the copy of the
    argument and its end. *)
Definition assign_from (s : px) (a : Z) (x : ref) : outcome px :=
  '(s, x, p) ← ref_get s x;
  key ← GetObjectId s p;
  s ← SetObjectId s (At a) key;
  ref_end s x.
Definition ref_assign (s : px) (r x : ref) : outcome (px * ref) :=
  '(s, x) ← ref_copy s x;
  match r with
  | NonVirtual a => s ← assign_from s a x; Ret (s, r)
  | Virtual p _ =>
      key ← ref_id s x;
      s ← delete_object s p;
      s ← ref_end s x;
      Ret (s, Virtual Null key)
  end.
(** The assignment of a [Ref<T, true>] to one of the same type, which is not declared. *)
Definition virtual_copy_assign (s : px) (r x : ref) : outcome (px * ref) :=
  match r, x with Virtual _ _, Virtual _ _ => Ret (s, x) | _, _ => Abort end.

Definition ref_null (s : px) (a : Z) : outcome px := SetObjectId s (At a) 0.
Definition ref_is_null (s : px) (r : ref) : outcome bool := key ← ref_id s r; Ret (key =? 0).
Definition ref_eq (s : px) (r x : ref) : outcome (px * bool) :=
  '(s, x) ← ref_copy s x;
  a ← ref_id s r;
  b ← ref_id s x;
  s ← ref_end s x;
  Ret (s, a =? b).
Definition ref_ne (s : px) (r x : ref) : outcome (px * bool) := '(s, b) ← ref_eq s r x; Ret (s, negb b).
End refs.

(** * Fields

    A [Value] of [sz] bytes with field id [fid], as [DOGEE_DBG] has it, which
    [include/Dogee.h] defines. *)
Definition Value_object (s : px) : outcome Z :=
  match lastobject s with Null => Abort | p => GetObjectId s p end.
Definition Value_get (sz : Z) (s : px) (fid : Z) : outcome (px * Z) :=
  key ← Value_object s;
  '(c, ret) ← get_value sz (env (px_proc s)) key fid;
  Ret (set_last (set_cache s c) Null, ret).
Definition Value_set (sz : Z) (s : px) (fid x : Z) : outcome px :=
  key ← Value_object s;
  c ← set_value sz (env (px_proc s)) key fid x;
  Ret (set_last (set_cache s c) Null).
Definition Value_eq (sz : Z) (s : px) (fid other : Z) : outcome (px * bool) :=
  '(s, v) ← Value_get sz s fid; Ret (s, v =? other).
Definition Value_ne (sz : Z) (s : px) (fid other : Z) : outcome (px * bool) :=
  '(s, v) ← Value_get sz s fid; Ret (s, negb (v =? other)).
(** [operator[]] of a [Value<Array<T>>], elements of [sz] bytes. *)
Definition Value_index (sz : Z) (s : px) (fid k : Z) : outcome (px * (Z * Z)) :=
  '(s, arr) ← Value_get 4 s fid; Ret (s, ArrayAccess sz arr k).

(** [operator[]] of an element that is an array. *)
Definition element_index (sz : Z) (c : C) (e : Z * Z) (k : Z) : outcome (C * (Z * Z)) :=
  '(c, arr) ← element_get 4 c e; Ret (c, ArrayAccess sz arr k).

(** [Ref] with a [Value] and with an element that is a reference. *)
Definition ref_eq_value (s : px) (r : ref) (fid : Z) : outcome (px * bool) :=
  '(s, b) ← Value_get 4 s fid; a ← ref_id s r; Ret (s, a =? b).
Definition ref_assign_element (s : px) (a : Z) (e : Z * Z) : outcome px :=
  '(c, key) ← element_get 4 (env (px_proc s)) e;
  SetObjectId (set_cache s c) (At a) key.
(** [BaseValue<Ref<T>>::operator=]: the argument and that of [set_value] are copies. *)
Definition Value_set_ref (s : px) (fid : Z) (y : ref) : outcome px :=
  '(s, x) ← ref_copy s y;
  key ← Value_object s;
  '(s, val) ← ref_copy s x;
  v ← ref_id s val;
  c ← c_put (env (px_proc s)) key fid v;
  s ← ref_end (set_cache s c) val;
  ref_end (set_last s Null) x.

(** * A program with references

    Its statements over local variables, and what it reads and compares. *)
Inductive stmt :=
| SNew (x : Z) (isVirtual : bool) (key : Z)   (* Ref<T, isVirtual> x(key) *)
| SFrom (x y : Z)                             (* Ref<T, false> x(y) *)
| SAssign (x y : Z)                           (* x = y, of different types if x is virtual *)
| SCopy (x y : Z)                             (* x = y, virtual and of the same type *)
| SNull (x : Z)                               (* x = nullptr *)
| SEq (x y : Z)                               (* x == y *)
| SIsNull (x : Z)                             (* x == nullptr *)
| SRead (x f : Z)                             (* x->f *)
| SWrite (x f v : Z)                          (* x->f = v *)
| SLoad (x y f : Z)                           (* x = y->f *)
| SStore (x f y : Z)                          (* x->f = y *)
| SEnd (x : Z).                               (* the end of the scope of x *)

#[local] Abbreviation world := (px * gmap Z ref)%type.
Definition var (vars : gmap Z ref) (x : Z) : outcome ref := match vars !! x with Some r => Ret r | None => Abort end.
(** [x->]. *)
Definition deref (cl : classes) (x : Z) (w : world) : outcome world :=
  r ← var (snd w) x; '(s, r, _) ← ref_get cl (fst w) r; Ret (s, <[x := r]> (snd w)).

Definition run_stmt (cl : classes) (st : stmt) (w : world) : outcome (world * list Z) :=
  let '(s, vars) := w in
  match st with
  | SNew x isVirtual key =>
      if decide (vars !! x = None) then
        let '(s, r) := new_ref s isVirtual key in Ret (s, <[x := r]> vars, [])
      else Abort
  | SFrom x y =>
      if decide (vars !! x = None) then
        ry ← var vars y; '(s, r) ← ref_from s false ry; Ret (s, <[x := r]> vars, [])
      else Abort
  | SAssign x y =>
      rx ← var vars x; ry ← var vars y; '(s, r) ← ref_assign cl s rx ry; Ret (s, <[x := r]> vars, [])
  | SCopy x y =>
      rx ← var vars x; ry ← var vars y; '(s, r) ← virtual_copy_assign s rx ry; Ret (s, <[x := r]> vars, [])
  | SNull x =>
      rx ← var vars x;
      match rx with NonVirtual a => s ← ref_null s a; Ret (s, vars, []) | Virtual _ _ => Abort end
  | SEq x y => rx ← var vars x; ry ← var vars y; '(s, b) ← ref_eq s rx ry; Ret (s, vars, [Z.b2z b])
  | SIsNull x => rx ← var vars x; b ← ref_is_null s rx; Ret (s, vars, [Z.b2z b])
  | SRead x f => '(s, vars) ← deref cl x w; '(s, v) ← Value_get 4 s f; Ret (s, vars, [v])
  | SWrite x f v => '(s, vars) ← deref cl x w; s ← Value_set 4 s f v; Ret (s, vars, [])
  | SLoad x y f =>
      '(s, vars) ← deref cl y w;
      '(s, v) ← Value_get 4 s f;
      rx ← var vars x;
      match rx with
      | NonVirtual a => let '(s, t) := new_ref s false v in s ← assign_from cl s a t; Ret (s, vars, [])
      | Virtual _ _ => '(s, r) ← virtual_copy_assign s rx (Virtual Null v); Ret (s, <[x := r]> vars, [])
      end
  | SStore x f y =>
      '(s, vars) ← deref cl x w; ry ← var vars y; s ← Value_set_ref s f ry; Ret (s, vars, [])
  | SEnd x => rx ← var vars x; s ← ref_end s rx; Ret (s, delete x vars, [])
  end.

Fixpoint run (cl : classes) (prog : list stmt) (w : world) : outcome (world * list Z) :=
  match prog with
  | [] => Ret (w, [])
  | st :: prog =>
      '(w, out) ← run_stmt cl st w;
      '(w, out') ← run cl prog w;
      Ret (w, out ++ out')
  end.

(** [a->x = b->y + 0]: which operand is first is not specified before C++17. *)
Definition copy_field (cl : classes) (right_first : bool) (a fa b fb : Z) (w : world) : outcome world :=
  if right_first then
    w ← deref cl b w;
    '(s, v) ← Value_get 4 (fst w) fb;
    w ← deref cl a (s, snd w);
    s ← Value_set 4 (fst w) fa v;
    Ret (s, snd w)
  else
    w ← deref cl a w;
    w ← deref cl b w;
    '(s, v) ← Value_get 4 (fst w) fb;
    s ← Value_set 4 s fa v;
    Ret (s, snd w).
End proxies.
