(* ===== verification/ProxiesFacts.v ===== *)
(** A program with references does with the shared objects what its statements say, as
    long as it copies no virtual reference that it has used. *)
From S2P Require Import Prelude Storage Memcached MemcachedFacts ObjectModel ObjectFacts Proxies.

(** * The class of an object *)

(** Reading and writing fields leaves the class of every object. *)
Class ClassIds (C S : Type) `{DSMCacheLaws C S} := {
  class_of : C -> Z -> option Z;
  class_law : forall (p : process C) o cls, c_ok (env p) -> is_u32 o -> class_of (env p) o = Some cls -> GetClassId p o = Ret cls;
  class_get : forall c o f c' v k, c_ok c -> is_u32 o -> 0 <= f < MAX_FIELD -> is_u32 k -> c_get c o f = Ret (c', v) -> class_of c' k = class_of c k;
  class_put : forall c o f v c' k, c_ok c -> is_u32 o -> 0 <= f < MAX_FIELD -> is_u32 v -> is_u32 k -> c_put c o f v = Ret c' -> class_of c' k = class_of c k;
}.

(** * What a program means

    A reference has an id; a virtual one is bound once it was used. Of a bound one no copy
    may be made: the copy destroys the object that both refer to. *)
Record sref := SRef { sr_virtual : bool; sr_bound : bool; sr_id : Z }.
Record spec := Spec { sp_mem : Z -> Z -> Z; sp_refs : gmap Z sref }.

Section spec.
(** The objects of which a class is registered here. *)
Context (creatable : Z -> bool).

Definition sp_var (sp : spec) (x : Z) : outcome sref := match sp_refs sp !! x with Some r => Ret r | None => Abort end.
Definition sp_set (sp : spec) (x : Z) (r : sref) : spec := Spec (sp_mem sp) (<[x := r]> (sp_refs sp)).
Definition sp_put (sp : spec) (o f v : Z) : spec :=
  Spec (fun o' f' => if (o' =? o) && (f' =? f) then v else sp_mem sp o' f') (sp_refs sp).
Definition copyable (r : sref) : bool := negb (sr_virtual r && sr_bound r).
(** A reference that can be used: a null one that is not virtual is the object of the
    global variables. *)
Definition usable (r : sref) : bool := negb (sr_virtual r) || sr_bound r || (negb (sr_id r =? 0) && creatable (sr_id r)).
Definition sp_deref (x : Z) (sp : spec) : outcome (spec * Z) :=
  r ← sp_var sp x;
  _ ← c_assert (usable r);
  Ret (sp_set sp x (SRef (sr_virtual r) (sr_virtual r) (sr_id r)), sr_id r).
Definition field_ok (f : Z) : bool := (0 <=? f) && (f <? MAX_FIELD).
Definition word_ok (v : Z) : bool := (0 <=? v) && (v <? 2 ^ 32).

Definition spec_stmt (st : stmt) (sp : spec) : outcome (spec * list Z) :=
  match st with
  | SNew x isVirtual key =>
      _ ← c_assert (word_ok key);
      if decide (sp_refs sp !! x = None) then Ret (sp_set sp x (SRef isVirtual false key), []) else Abort
  | SFrom x y =>
      if decide (sp_refs sp !! x = None) then
        ry ← sp_var sp y; Ret (sp_set sp x (SRef false false (sr_id ry)), [])
      else Abort
  | SAssign x y =>
      rx ← sp_var sp x; ry ← sp_var sp y;
      _ ← c_assert (copyable ry && (sr_virtual rx || usable ry));
      Ret (sp_set sp x (SRef (sr_virtual rx) false (sr_id ry)), [])
  | SCopy x y =>
      rx ← sp_var sp x; ry ← sp_var sp y;
      _ ← c_assert (sr_virtual rx && sr_virtual ry && copyable ry);
      Ret (sp_set sp x (SRef true false (sr_id ry)), [])
  | SNull x =>
      rx ← sp_var sp x;
      _ ← c_assert (negb (sr_virtual rx));
      Ret (sp_set sp x (SRef false false 0), [])
  | SEq x y =>
      rx ← sp_var sp x; ry ← sp_var sp y;
      _ ← c_assert (copyable ry);
      Ret (sp, [Z.b2z (sr_id rx =? sr_id ry)])
  | SIsNull x => rx ← sp_var sp x; Ret (sp, [Z.b2z (sr_id rx =? 0)])
  | SRead x f => '(sp, o) ← sp_deref x sp; _ ← c_assert (field_ok f); Ret (sp, [sp_mem sp o f])
  | SWrite x f v =>
      '(sp, o) ← sp_deref x sp; _ ← c_assert (field_ok f && word_ok v); Ret (sp_put sp o f v, [])
  | SLoad x y f =>
      '(sp, o) ← sp_deref y sp;
      _ ← c_assert (field_ok f);
      rx ← sp_var sp x;
      Ret (sp_set sp x (SRef (sr_virtual rx) false (sp_mem sp o f)), [])
  | SStore x f y =>
      '(sp, o) ← sp_deref x sp;
      ry ← sp_var sp y;
      _ ← c_assert (field_ok f && copyable ry);
      Ret (sp_put sp o f (sr_id ry), [])
  | SEnd x => _ ← sp_var sp x; Ret (Spec (sp_mem sp) (delete x (sp_refs sp)), [])
  end.

Fixpoint spec_run (prog : list stmt) (sp : spec) : outcome (spec * list Z) :=
  match prog with
  | [] => Ret (sp, [])
  | st :: prog =>
      '(sp, out) ← spec_stmt st sp;
      '(sp, out') ← spec_run prog sp;
      Ret (sp, out ++ out')
  end.
End spec.

(** The steps of a statement's meaning, one after the other. *)
Ltac spec_steps H :=
  repeat match type of H with
    | (_ ≫= _) = Ret _ => let a := fresh "a" in let E := fresh "E" in apply bind_Ret_inv in H as (a & E & H); cbn beta in H
    | (let '(_, _) := ?p in _) = Ret _ => let q := fresh "q" in let o := fresh "o" in destruct p as [q o]
    | (if decide ?P then _ else _) = Ret _ => destruct (decide P); [|discriminate H]
    end.

(** * The objects behind the references *)

Definition addr (r : ref) : option Z :=
  match r with NonVirtual a | Virtual (At a) _ => Some a | _ => None end.
Definition ref_rel (m : gmap Z Z) (r : ref) (sr : sref) : Prop :=
  match r with
  | NonVirtual a => sr_virtual sr = false /\ sr_bound sr = false /\ m !! a = Some (sr_id sr)
  | Virtual Null k => sr_virtual sr = true /\ sr_bound sr = false /\ k = sr_id sr
  | Virtual (At a) k => sr_virtual sr = true /\ sr_bound sr = true /\ k = sr_id sr /\ m !! a = Some k
  | Virtual Uninit _ => False
  end.

(** Every variable stands for its reference, has its object to itself, and what lives is
    below the next address. *)
Record heap_sim (refs : gmap Z sref) (m : gmap Z Z) (next : Z) (vars : gmap Z ref) : Prop := {
  hs_dom : forall x, vars !! x = None <-> refs !! x = None;
  hs_rel : forall x r sr, vars !! x = Some r -> refs !! x = Some sr -> ref_rel m r sr /\ is_u32 (sr_id sr);
  hs_own : forall x y rx ry a, vars !! x = Some rx -> vars !! y = Some ry -> addr rx = Some a -> addr ry = Some a -> x = y;
  hs_fresh : forall a k, m !! a = Some k -> a < next;
}.

Lemma addr_live m r sr a : ref_rel m r sr -> addr r = Some a -> m !! a = Some (sr_id sr).
Proof. destruct r as [b|[|b|] k]; cbn; intros H; [|done| |done]; intros [= ->]; [by destruct H as (_ & _ & ?)|by destruct H as (_ & _ & <- & ?)]. Qed.

Lemma ref_rel_agree m m' r sr : (forall a, addr r = Some a -> m' !! a = m !! a) -> ref_rel m r sr -> ref_rel m' r sr.
Proof. destruct r as [b|[|b|] k]; cbn; intros H; try done; by rewrite (H b). Qed.

(** Variable [x] gets a reference of its own, and the others keep their objects. *)
Lemma heap_set refs m next vars m' next' x r sr : heap_sim refs m next vars ->
  (forall y ry a, y <> x -> vars !! y = Some ry -> addr ry = Some a -> m' !! a = m !! a /\ addr r <> Some a) ->
  (forall a k, m' !! a = Some k -> a < next') -> ref_rel m' r sr -> is_u32 (sr_id sr) ->
  heap_sim (<[x := sr]> refs) m' next' (<[x := r]> vars).
Proof.
  intros [H1 H2 H3 H4] Hk Hf Hr Hu. split.
  - intros y. destruct (decide (y = x)) as [->|Hy]; [by rewrite !lookup_insert_eq|]. by rewrite !lookup_insert_ne.
  - intros y ry sy. destruct (decide (y = x)) as [->|Hy]; [rewrite !lookup_insert_eq; by intros [= <-] [= <-]|].
    rewrite !lookup_insert_ne by done. intros Hy1 Hy2. destruct (H2 y ry sy Hy1 Hy2) as [Hry Hyu]. split; [|done].
    apply (ref_rel_agree m); [|done]. intros a Ha. by apply (Hk y ry a).
  - intros y z ry rz a Hy1 Hz1 Ha Hb. destruct (decide (y = x)) as [->|Hy], (decide (z = x)) as [->|Hz]; [done|..].
    + rewrite lookup_insert_eq in Hy1. injection Hy1 as <-. rewrite lookup_insert_ne in Hz1 by done. by destruct (Hk z rz a Hz Hz1 Hb).
    + rewrite lookup_insert_eq in Hz1. injection Hz1 as <-. rewrite lookup_insert_ne in Hy1 by done. by destruct (Hk y ry a Hy Hy1 Ha).
    + rewrite lookup_insert_ne in Hy1, Hz1 by done. by apply (H3 y z ry rz a).
  - done.
Qed.

(** Only objects that no variable has are touched. *)
Lemma heap_keep refs m next vars m' next' : heap_sim refs m next vars ->
  (forall y ry a, vars !! y = Some ry -> addr ry = Some a -> m' !! a = m !! a) -> (forall a k, m' !! a = Some k -> a < next') ->
  heap_sim refs m' next' vars.
Proof.
  intros [H1 H2 H3 H4] Hk Hf. split; [done| |done|done].
  intros x r sr Hx Hs. destruct (H2 x r sr Hx Hs) as [Hr Hu]. split; [|done]. apply (ref_rel_agree m); [|done].
  intros a Ha. by eapply Hk.
Qed.

Lemma heap_end refs m next vars m' x : heap_sim refs m next vars ->
  (forall y ry a, y <> x -> vars !! y = Some ry -> addr ry = Some a -> m' !! a = m !! a) ->
  (forall a k, m' !! a = Some k -> a < next) -> heap_sim (delete x refs) m' next (delete x vars).
Proof.
  intros [H1 H2 H3 H4] Hk Hf. split.
  - intros y. destruct (decide (y = x)) as [->|Hy]; [by rewrite !lookup_delete_eq|]. by rewrite !lookup_delete_ne.
  - intros y ry sy. destruct (decide (y = x)) as [->|Hy]; [by rewrite lookup_delete_eq|].
    rewrite !lookup_delete_ne by done. intros Hy1 Hy2. destruct (H2 y ry sy Hy1 Hy2) as [Hry Hyu]. split; [|done].
    apply (ref_rel_agree m); [|done]. intros a Ha. by apply (Hk y ry a).
  - intros y z ry rz a Hy Hz. apply lookup_delete_Some in Hy as [_ Hy]. apply lookup_delete_Some in Hz as [_ Hz]. by apply (H3 y z ry rz a).
  - done.
Qed.

(** * Statements *)

Section sim.
Context {C S : Type} `{ClassIds C S}.
Context (cl : classes) (creatable : Z -> bool).

Record sim (sp : spec) (s : proxies C) (vars : gmap Z ref) : Prop := {
  sim_ok : c_ok (env (px_proc s));
  sim_mem : forall o f, is_u32 o -> 0 <= f < MAX_FIELD -> c_mem (env (px_proc s)) o f = sp_mem sp o f;
  sim_class : forall k, is_u32 k -> creatable k = true -> exists cls, class_of (env (px_proc s)) k = Some cls /\ is_Some (GetClassById cl cls);
  sim_heap : heap_sim (sp_refs sp) (objects s) (next_object s) vars;
}.

(** The same memory, and other references or objects. *)
Lemma sim_heap_to sp s vars refs' s' vars' : sim sp s vars -> px_proc s' = px_proc s ->
  heap_sim refs' (objects s') (next_object s') vars' -> sim (Spec (sp_mem sp) refs') s' vars'.
Proof. intros [K1 K2 K3 K4] E Hh. by split; rewrite ?E. Qed.

Lemma sim_var sp s vars x sr : sim sp s vars -> sp_var sp x = Ret sr ->
  exists r, vars !! x = Some r /\ var vars x = Ret r /\ ref_rel (objects s) r sr /\ is_u32 (sr_id sr).
Proof.
  intros [_ _ _ [Hd Hr _ _]] Hx. unfold sp_var in Hx. destruct (sp_refs sp !! x) as [sr'|] eqn:E; [|done]. injection Hx as ->.
  unfold var. destruct (vars !! x) as [r|] eqn:Ev; [|by rewrite (proj1 (Hd x) Ev) in E].
  exists r. split; [done|]. split; [done|]. by eapply Hr.
Qed.

Lemma assert_inv b (u : unit) : c_assert b = Ret u -> b = true.
Proof. unfold c_assert. by destruct b. Qed.

Lemma field_ok_spec f : field_ok f = true -> 0 <= f < MAX_FIELD.
Proof. unfold field_ok. intros [? ?]%andb_true_iff. lia. Qed.
Lemma word_ok_spec v : word_ok v = true -> is_u32 v.
Proof. unfold word_ok. intros [? ?]%andb_true_iff. ranges. Qed.

(** The objects of other variables are not those of [x]. *)
Lemma others_apart sp s vars x r a : sim sp s vars -> vars !! x = Some r -> addr r = Some a ->
  forall y ry b, y <> x -> vars !! y = Some ry -> addr ry = Some b -> a <> b.
Proof. intros Hs Hx Ha y ry b Hy Hyv Hb ->. apply Hy. by eapply (hs_own _ _ _ _ (sim_heap _ _ _ Hs)). Qed.

Lemma others_live sp s vars y ry b : sim sp s vars -> vars !! y = Some ry -> addr ry = Some b -> b < next_object s /\ is_Some (objects s !! b).
Proof.
  intros Hs Hy Hb. destruct (sp_refs sp !! y) as [sr|] eqn:E; [|by rewrite (proj2 (hs_dom _ _ _ _ (sim_heap _ _ _ Hs) y) E) in Hy].
  destruct (hs_rel _ _ _ _ (sim_heap _ _ _ Hs) y ry sr Hy E) as [Hr _]. pose proof (addr_live _ _ _ _ Hr Hb) as Hl.
  split; [by eapply (hs_fresh _ _ _ _ (sim_heap _ _ _ Hs))|by rewrite Hl].
Qed.

Lemma fresh_insert (m : gmap Z Z) next k : (forall a x, m !! a = Some x -> a < next) -> forall a x, <[next := k]> m !! a = Some x -> a < next + 1.
Proof. intros Hf a x. rewrite lookup_insert_Some. intros [[<- _]|[_ Ha]]; [lia|]. apply Hf in Ha. lia. Qed.

(** A reference gets an object of its own. *)
Lemma new_object_sim sp s vars x r sr k : sim sp s vars -> addr r = Some (next_object s) ->
  ref_rel (<[next_object s := k]> (objects s)) r sr -> is_u32 (sr_id sr) ->
  sim (sp_set sp x sr) (fst (new_object s k)) (<[x := r]> vars).
Proof.
  intros Hs Ha Hr Hu. apply (sim_heap_to sp s vars); [done|done|]. cbn.
  apply (heap_set _ (objects s) (next_object s)); [by apply Hs| | |done|done].
  - intros y ry b Hy Hyv Hb. destruct (others_live sp s vars y ry b Hs Hyv Hb). rewrite lookup_insert_ne by lia. split; [done|]. rewrite Ha. intros [= <-]. lia.
  - apply fresh_insert. apply Hs.
Qed.

(** A virtual reference without an object. *)
Lemma unbound_sim sp s vars x k : sim sp s vars -> is_u32 k -> sim (sp_set sp x (SRef true false k)) s (<[x := Virtual Null k]> vars).
Proof.
  intros Hs Hu. apply (sim_heap_to sp s vars); [done|done|].
  apply (heap_set _ (objects s) (next_object s)); [by apply Hs|done|by apply Hs|done|done].
Qed.

Lemma GetObjectId_live (s : proxies C) a k : objects s !! a = Some k -> GetObjectId s (At a) = Ret k.
Proof. intros E. cbn. by rewrite E. Qed.

Lemma ref_id_rel (s : proxies C) r sr : ref_rel (objects s) r sr -> ref_id s r = Ret (sr_id sr).
Proof. destruct r as [a|[|a|] k]; cbn; [|by intros (_ & _ & ->)|by intros (_ & _ & -> & _)|done]. intros (_ & _ & E). by rewrite E. Qed.

(** [RefObj] finds the class and makes the object. *)
Lemma RefObj_sim sp s vars k : sim sp s vars -> is_u32 k -> k <> 0 -> creatable k = true ->
  RefObj cl s k = Ret (fst (new_object s k), At (next_object s)).
Proof.
  intros Hs Hu Hk Hc. unfold RefObj. rewrite (proj2 (Z.eqb_neq _ _) Hk).
  destruct (sim_class _ _ _ Hs k Hu Hc) as (cls & Hcls & [f Hf]). rewrite (class_law (px_proc s) k cls (sim_ok _ _ _ Hs) Hu Hcls).
  cbn [mbind outcome_bind]. by rewrite Hf.
Qed.

Lemma set_last_sim sp s vars p : sim sp s vars -> sim sp (set_last s p) vars.
Proof. intros Hs. destruct sp as [mem refs]. by apply (sim_heap_to (Spec mem refs) s vars); [..|apply Hs]. Qed.

Lemma sp_set_same sp x r : sp_refs sp !! x = Some r -> sp_set sp x r = sp.
Proof. intros E. unfold sp_set. rewrite insert_id by done. by destruct sp. Qed.

(** [x->] makes the object of [x] the last one. *)
Lemma deref_sim sp s vars x sp' o : sim sp s vars -> sp_deref creatable x sp = Ret (sp', o) ->
  exists s' vars' a, deref cl x (s, vars) = Ret (s', vars') /\ sim sp' s' vars' /\ lastobject s' = At a /\
    objects s' !! a = Some o /\ a < next_object s' /\ is_u32 o.
Proof.
  intros Hs Hd. unfold sp_deref in Hd. destruct (sp_var sp x) as [sr| |] eqn:Hx; [|done..]. rewrite bind_ret in Hd.
  destruct (c_assert (usable creatable sr)) as [u| |] eqn:Hu; [|done..]. injection Hd as <- <-. apply assert_inv in Hu.
  destruct (sim_var sp s vars x sr Hs Hx) as (r & Hv & Hvr & Hr & Hu32).
  assert (sp_refs sp !! x = Some sr) as Hsr by (unfold sp_var in Hx; destruct (sp_refs sp !! x); by inversion Hx).
  unfold deref. cbn [fst snd]. rewrite Hvr, bind_ret. destruct sr as [vi bo k]. cbn [sr_virtual sr_bound sr_id] in *.
  destruct r as [a|[|a|] k']; cbn [ref_rel sr_virtual sr_bound sr_id] in Hr; [| | |done].
  - destruct Hr as (-> & -> & Ha). cbn. eexists _, _, a. split; [done|]. cbn. rewrite (sp_set_same _ _ _ Hsr).
    rewrite insert_id by done. split; [by apply set_last_sim|]. split; [done|]. split; [done|]. split; [|done].
    eapply (hs_fresh _ _ _ _ (sim_heap _ _ _ Hs)); done.
  - destruct Hr as (-> & -> & ->). unfold usable in Hu. cbn in Hu. apply andb_true_iff in Hu as [Hk Hc].
    apply negb_true_iff, Z.eqb_neq in Hk. cbn [ref_get]. rewrite (RefObj_sim sp s vars k Hs Hu32 Hk Hc). cbn.
    eexists _, _, (next_object s). split; [done|]. cbn. rewrite lookup_insert_eq. split; [|split; [done|split; [done|split; [lia|done]]]].
    apply (set_last_sim _ (fst (new_object s k))). apply new_object_sim; [done|done| |done].
    cbn. by rewrite lookup_insert_eq.
  - destruct Hr as (-> & -> & -> & Ha). cbn. eexists _, _, a. split; [done|]. cbn. rewrite (sp_set_same _ _ _ Hsr).
    rewrite insert_id by done. split; [by apply set_last_sim|]. split; [done|]. split; [done|]. split; [|done].
    eapply (hs_fresh _ _ _ _ (sim_heap _ _ _ Hs)); done.
Qed.

(** Fields of the last object. *)
Lemma Value_get_sim sp s vars a o f : sim sp s vars -> lastobject s = At a -> objects s !! a = Some o -> is_u32 o -> 0 <= f < MAX_FIELD ->
  exists s', Value_get 4 s f = Ret (s', sp_mem sp o f) /\ sim sp s' vars /\ is_u32 (sp_mem sp o f).
Proof.
  intros Hs Hl Ha Ho Hf. unfold Value_get, Value_object. rewrite Hl, (GetObjectId_live s a o Ha), bind_ret. unfold get_value. cbn match.
  change (4 =? 4) with true. cbn match.
  destruct (c_get_law (env (px_proc s)) o f (sim_ok _ _ _ Hs) Ho Hf) as (c' & E & Hok & Hm). rewrite E, bind_ret.
  rewrite <- (sim_mem _ _ _ Hs o f Ho Hf). eexists. split; [done|]. split; [|by apply c_mem_u32; [apply Hs|..]].
  destruct Hs as [K1 K2 K3 K4]. split; cbn; [done| | |done].
  - intros o' f' Ho' Hf'. rewrite Hm by done. by apply K2.
  - intros k Hk Hc. destruct (K3 k Hk Hc) as (cls & Hcls & ?). exists cls. split; [|done]. by rewrite (class_get _ o f c' _ k K1 Ho Hf Hk E).
Qed.

Lemma put_sim sp s vars o f v : sim sp s vars -> is_u32 o -> 0 <= f < MAX_FIELD -> is_u32 v ->
  exists c', c_put (env (px_proc s)) o f v = Ret c' /\ sim (sp_put sp o f v) (set_cache s c') vars.
Proof.
  intros Hs Ho Hf Hv. destruct (c_put_law (env (px_proc s)) o f v (sim_ok _ _ _ Hs) Ho Hf Hv) as (c' & E & Hok & Hm).
  exists c'. split; [done|]. destruct Hs as [K1 K2 K3 K4]. split; cbn; [done| | |done].
  - intros o' f' Ho' Hf'. specialize (Hm o' f' Ho' Hf'). specialize (K2 o' f' Ho' Hf'). rewrite <- K2.
    destruct (Z.eqb_spec o' o) as [->|]; [|done]. cbn [andb] in *. destruct (Z.eqb_spec f' f) as [->|Hne].
    + rewrite (proj2 (Z.leb_le f f)), (proj2 (Z.ltb_lt f (f + 1))), Z.sub_diag in Hm by lia. cbn in Hm. by injection Hm as <-.
    + case_test in Hm; [lia|done].
  - intros k Hk Hc. destruct (K3 k Hk Hc) as (cls & Hcls & ?). exists cls. split; [|done]. by rewrite (class_put _ o f v c' k K1 Ho Hf Hv Hk E).
Qed.

Lemma Value_set_sim sp s vars a o f v : sim sp s vars -> lastobject s = At a -> objects s !! a = Some o -> is_u32 o -> 0 <= f < MAX_FIELD -> is_u32 v ->
  exists s', Value_set 4 s f v = Ret s' /\ sim (sp_put sp o f v) s' vars.
Proof.
  intros Hs Hl Ha Ho Hf Hv. unfold Value_set, Value_object. rewrite Hl, (GetObjectId_live s a o Ha), bind_ret.
  destruct (put_sim sp s vars o f v Hs Ho Hf Hv) as (c' & E & Hs'). unfold set_value. change (4 =? 4) with true. cbn match.
  rewrite E, bind_ret. eexists. split; [done|]. by apply set_last_sim.
Qed.

(** ** Copies

    A reference that no variable is. *)
Definition unowned (vars : gmap Z ref) (t : ref) : Prop :=
  forall a y ry, addr t = Some a -> vars !! y = Some ry -> addr ry <> Some a.

Lemma next_unowned sp s vars t : sim sp s vars -> addr t = Some (next_object s) -> unowned vars t.
Proof. intros Hs Ht a y ry Ha Hy Hr. rewrite Ht in Ha. injection Ha as <-. destruct (others_live sp s vars y ry _ Hs Hy Hr). lia. Qed.

(** What happens to objects that no variable has does not matter. *)
Lemma sim_keep sp s s' vars : sim sp s vars -> px_proc s' = px_proc s ->
  (forall y ry a, vars !! y = Some ry -> addr ry = Some a -> objects s' !! a = objects s !! a) ->
  (forall a k, objects s' !! a = Some k -> a < next_object s') -> sim sp s' vars.
Proof.
  intros Hs E Hk Hf. destruct sp as [mem refs]. apply (sim_heap_to (Spec mem refs) s vars); [done|done|].
  by apply (heap_keep _ (objects s) (next_object s)); [apply Hs|..].
Qed.

Lemma new_temp_sim sp s vars k : sim sp s vars -> sim sp (fst (new_object s k)) vars.
Proof.
  intros Hs. apply (sim_keep sp s); [done|done| |apply fresh_insert; apply Hs].
  intros y ry a Hy Ha. destruct (others_live sp s vars y ry a Hs Hy Ha). cbn. rewrite lookup_insert_ne by lia. done.
Qed.

Lemma copy_sim sp s vars r sr : sim sp s vars -> ref_rel (objects s) r sr -> copyable sr = true ->
  exists s1 t, ref_copy s r = Ret (s1, t) /\ sim sp s1 vars /\ ref_rel (objects s1) t sr /\ unowned vars t /\
    lastobject s1 = lastobject s /\ px_proc s1 = px_proc s /\ (forall a k, objects s !! a = Some k -> objects s1 !! a = Some k).
Proof.
  intros Hs Hr Hc. destruct sr as [vi bo k]. unfold copyable in Hc. cbn in Hc. destruct r as [a|[|a|] k']; cbn in Hr; [| | |done].
  - destruct Hr as (-> & -> & Ha). unfold ref_copy. rewrite (GetObjectId_live s a k Ha), bind_ret. eexists _, _. split; [done|].
    split; [by apply new_temp_sim|]. cbn. rewrite lookup_insert_eq. split; [done|]. split; [by apply (next_unowned sp s)|].
    split; [done|]. split; [done|]. intros b x Hb. rewrite lookup_insert_ne; [done|]. apply (hs_fresh _ _ _ _ (sim_heap _ _ _ Hs)) in Hb. lia.
  - destruct Hr as (-> & -> & ->). eexists _, _. split; [done|]. split; [done|]. done.
  - by destruct Hr as (-> & -> & _).
Qed.

Lemma end_sim sp s vars t sr : sim sp s vars -> ref_rel (objects s) t sr -> unowned vars t ->
  exists s', ref_end s t = Ret s' /\ sim sp s' vars /\ lastobject s' = lastobject s /\ px_proc s' = px_proc s /\
    (forall a k, addr t <> Some a -> objects s !! a = Some k -> objects s' !! a = Some k).
Proof.
  intros Hs Hr Hu. assert (forall a, addr t = Some a -> exists s', delete_object s (At a) = Ret s' /\ sim sp s' vars /\
    lastobject s' = lastobject s /\ px_proc s' = px_proc s /\ (forall b k, addr t <> Some b -> objects s !! b = Some k -> objects s' !! b = Some k)) as Hd.
  { intros a Ha. cbn. rewrite (addr_live _ _ _ _ Hr Ha). eexists. split; [done|]. split; [|split; [done|split; [done|]]].
    - apply (sim_keep sp s); [done|done| |].
      + intros y ry b Hy Hb. cbn. rewrite lookup_delete_ne; [done|]. intros <-. by apply (Hu a y ry Ha Hy).
      + intros b k. cbn. intros [_ Hb]%lookup_delete_Some. by eapply (hs_fresh _ _ _ _ (sim_heap _ _ _ Hs)).
    - intros b k Hne Hb. cbn. rewrite lookup_delete_ne; [done|]. congruence. }
  destruct t as [a|[|a|] k]; cbn [ref_end]; [by apply Hd| |by apply Hd|done]. eexists. done.
Qed.

Lemma set_id_sim sp s vars x a k sr : sim sp s vars -> vars !! x = Some (NonVirtual a) -> ref_rel (objects s) (NonVirtual a) sr -> is_u32 k ->
  exists s', SetObjectId s (At a) k = Ret s' /\ sim (sp_set sp x (SRef false false k)) s' vars /\
    lastobject s' = lastobject s /\ px_proc s' = px_proc s /\ objects s' = <[a := k]> (objects s) /\ next_object s' = next_object s.
Proof.
  intros Hs Hx (_ & _ & Ha) Hk. unfold SetObjectId. rewrite (GetObjectId_live s a _ Ha), bind_ret. eexists. split; [done|]. split; [|done].
  rewrite <- (insert_id vars x (NonVirtual a) Hx). apply (sim_heap_to sp s vars); [done|done|]. cbn.
  apply (heap_set _ (objects s) (next_object s)); [by apply Hs| | |by cbn; rewrite lookup_insert_eq|done].
  - intros y ry b Hy Hyv Hb. pose proof (others_apart sp s vars x _ a Hs Hx eq_refl y ry b Hy Hyv Hb).
    rewrite lookup_insert_ne by done. cbn. split; [done|congruence].
  - intros b z. rewrite lookup_insert_Some. intros [[<- _]|[_ Hb]]; by eapply (hs_fresh _ _ _ _ (sim_heap _ _ _ Hs)).
Qed.

(** [get] of a reference that no variable is. *)
Lemma get_sim sp s vars t sr : sim sp s vars -> ref_rel (objects s) t sr -> unowned vars t -> is_u32 (sr_id sr) -> usable creatable sr = true ->
  exists s1 t1 p, ref_get cl s t = Ret (s1, t1, At p) /\ sim sp s1 vars /\ unowned vars t1 /\ addr t1 = Some p /\
    ref_rel (objects s1) t1 (SRef (sr_virtual sr) (sr_virtual sr) (sr_id sr)) /\ objects s1 !! p = Some (sr_id sr) /\
    (forall a k, objects s !! a = Some k -> objects s1 !! a = Some k).
Proof.
  intros Hs Hr Hu Hk Hus. destruct sr as [vi bo k]. cbn [sr_virtual sr_id] in *. destruct t as [a|[|a|] k']; cbn in Hr; [| | |done].
  - destruct Hr as (-> & -> & Ha). eexists _, _, a. split; [done|]. split; [by apply set_last_sim|]. cbn. done.
  - destruct Hr as (-> & -> & ->). unfold usable in Hus. cbn in Hus. apply andb_true_iff in Hus as [Hk0 Hc].
    apply negb_true_iff, Z.eqb_neq in Hk0. cbn [ref_get]. rewrite (RefObj_sim sp s vars k Hs Hk Hk0 Hc). cbn.
    eexists _, _, _. split; [done|]. cbn. rewrite lookup_insert_eq. split; [by apply set_last_sim, (new_temp_sim sp s)|].
    split; [by apply (next_unowned sp s)|]. split; [done|]. split; [done|]. split; [done|].
    intros b z Hb. rewrite lookup_insert_ne; [done|]. apply (hs_fresh _ _ _ _ (sim_heap _ _ _ Hs)) in Hb. lia.
  - destruct Hr as (-> & -> & -> & Ha). eexists _, _, a. split; [done|]. split; [by apply set_last_sim|]. cbn. done.
Qed.

(** The assignment to a reference that is not virtual. *)
Lemma assign_from_sim sp s vars x a srx t sr : sim sp s vars -> vars !! x = Some (NonVirtual a) -> ref_rel (objects s) (NonVirtual a) srx ->
  ref_rel (objects s) t sr -> unowned vars t -> is_u32 (sr_id sr) -> usable creatable sr = true ->
  exists s', assign_from cl s a t = Ret s' /\ sim (sp_set sp x (SRef false false (sr_id sr))) s' vars.
Proof.
  intros Hs Hx Hrx Hr Hu Hk Hus. destruct (get_sim sp s vars t sr Hs Hr Hu Hk Hus) as (s1 & t1 & p & E & Hs1 & Hu1 & Hp & Hr1 & Hpk & Hkeep).
  unfold assign_from. rewrite E, bind_ret, (GetObjectId_live s1 p _ Hpk), bind_ret.
  assert (ref_rel (objects s1) (NonVirtual a) srx) as Hrx1.
  { destruct Hrx as (? & ? & ?). split; [done|]. split; [done|]. by apply Hkeep. }
  destruct (set_id_sim sp s1 vars x a (sr_id sr) srx Hs1 Hx Hrx1 Hk) as (s2 & -> & Hs2 & _ & _ & Eo & _). rewrite bind_ret.
  destruct (end_sim _ s2 vars t1 (SRef (sr_virtual sr) (sr_virtual sr) (sr_id sr)) Hs2) as (s3 & -> & Hs3 & _); [|done|eauto].
  apply (ref_rel_agree (objects s1)); [|done]. intros b Hb. rewrite Eo, lookup_insert_ne; [done|]. intros <-. by apply (Hu1 a x _ Hb Hx).
Qed.

(** ** Each kind of statement *)

Lemma drop_sim sp s vars x r k sr : sim sp s vars -> vars !! x = Some r -> ref_rel (objects s) r sr -> sr_virtual sr = true -> is_u32 k ->
  exists s', (match r with Virtual p _ => delete_object s p | NonVirtual _ => Abort end) = Ret s' /\
    sim (sp_set sp x (SRef true false k)) s' (<[x := Virtual Null k]> vars) /\
    (forall a z, addr r <> Some a -> objects s !! a = Some z -> objects s' !! a = Some z).
Proof.
  intros Hs Hx Hr Hv Hk. destruct r as [a|[|a|] k']; [by destruct Hr; congruence| | |done]; cbn [ref_rel] in Hr.
  - eexists. split; [done|]. split; [by apply unbound_sim|done].
  - destruct Hr as (_ & _ & _ & Ha). cbn [delete_object]. rewrite Ha. eexists. split; [done|]. split.
    + apply (sim_heap_to sp s vars); [done|done|]. apply (heap_set _ (objects s) (next_object s)); [by apply Hs| | |done|done].
      * intros y ry b Hy Hyv Hb. pose proof (others_apart sp s vars x _ a Hs Hx eq_refl y ry b Hy Hyv Hb). cbn.
        by rewrite lookup_delete_ne.
      * intros b z. cbn. intros [_ Hb]%lookup_delete_Some. by eapply (hs_fresh _ _ _ _ (sim_heap _ _ _ Hs)).
    + intros b z Hne Hb. cbn. rewrite lookup_delete_ne; [done|]. cbn in Hne. congruence.
Qed.

Lemma unowned_insert vars t x k : unowned vars t -> unowned (<[x := Virtual Null k]> vars) t.
Proof.
  intros Hu a y ry Ha Hy. destruct (decide (y = x)) as [->|Hne]; [rewrite lookup_insert_eq in Hy; by injection Hy as <-|].
  rewrite lookup_insert_ne in Hy by done. by apply (Hu a y ry).
Qed.

Lemma assign_sim sp s vars x y rx ry sx sy : sim sp s vars -> vars !! x = Some rx -> ref_rel (objects s) rx sx ->
  vars !! y = Some ry -> ref_rel (objects s) ry sy -> is_u32 (sr_id sy) -> copyable sy = true -> sr_virtual sx || usable creatable sy = true ->
  exists s' r, ref_assign cl s rx ry = Ret (s', r) /\ sim (sp_set sp x (SRef (sr_virtual sx) false (sr_id sy))) s' (<[x := r]> vars).
Proof.
  intros Hs Hx Hrx Hy Hry Hk Hc Hor. destruct (copy_sim sp s vars ry sy Hs Hry Hc) as (s1 & t & E & Hs1 & Ht & Hu & _ & _ & Hkeep).
  unfold ref_assign. rewrite E, bind_ret.
  assert (ref_rel (objects s1) rx sx) as Hrx1.
  { apply (ref_rel_agree (objects s)); [|done]. intros a Ha. rewrite (addr_live _ _ _ _ Hrx Ha). apply Hkeep. by apply (addr_live _ rx). }
  destruct (sr_virtual sx) eqn:Hvx; cbn [orb] in Hor.
  - destruct (drop_sim sp s1 vars x rx (sr_id sy) sx Hs1 Hx Hrx1 Hvx Hk) as (s2 & E2 & Hs2 & Hkeep2).
    destruct rx as [a|p k]; [done|]. rewrite (ref_id_rel s1 t sy Ht), bind_ret, E2, bind_ret.
    destruct (end_sim _ s2 _ t sy Hs2) as (s3 & -> & Hs3 & _); [|by apply unowned_insert|rewrite bind_ret; eauto].
    apply (ref_rel_agree (objects s1)); [|done]. intros b Hb. rewrite (addr_live _ _ _ _ Ht Hb). apply Hkeep2; [|by apply (addr_live _ t)].
    intros Hpb. by apply (Hu b x _ Hb Hx).
  - assert (exists a, rx = NonVirtual a) as [a ->].
    { destruct rx as [a|[|a|] k]; cbn in Hrx; [eauto|by destruct Hrx; congruence|by destruct Hrx; congruence|done]. }
    destruct (assign_from_sim sp s1 vars x a sx t sy Hs1 Hx Hrx1 Ht Hu Hk Hor) as (s2 & -> & Hs2). rewrite bind_ret.
    exists s2, (NonVirtual a). split; [done|]. by rewrite insert_id.
Qed.

Lemma eq_sim sp s vars rx ry sx sy : sim sp s vars -> ref_rel (objects s) rx sx -> ref_rel (objects s) ry sy -> copyable sy = true ->
  exists s', ref_eq s rx ry = Ret (s', sr_id sx =? sr_id sy) /\ sim sp s' vars.
Proof.
  intros Hs Hrx Hry Hc. destruct (copy_sim sp s vars ry sy Hs Hry Hc) as (s1 & t & E & Hs1 & Ht & Hu & _ & _ & Hkeep).
  unfold ref_eq. rewrite E, bind_ret. assert (ref_rel (objects s1) rx sx) as Hrx1.
  { apply (ref_rel_agree (objects s)); [|done]. intros a Ha. rewrite (addr_live _ _ _ _ Hrx Ha). apply Hkeep. by apply (addr_live _ rx). }
  rewrite (ref_id_rel _ _ _ Hrx1), (ref_id_rel _ _ _ Ht), !bind_ret.
  destruct (end_sim sp s1 vars t sy Hs1 Ht Hu) as (s2 & -> & Hs2 & _). eauto.
Qed.

Lemma set_ref_sim sp s vars a o f ry sy : sim sp s vars -> lastobject s = At a -> objects s !! a = Some o -> is_u32 o ->
  0 <= f < MAX_FIELD -> ref_rel (objects s) ry sy -> is_u32 (sr_id sy) -> copyable sy = true ->
  exists s', Value_set_ref s f ry = Ret s' /\ sim (sp_put sp o f (sr_id sy)) s' vars.
Proof.
  intros Hs Hl Ha Ho Hf Hry Hk Hc. unfold Value_set_ref.
  destruct (copy_sim sp s vars ry sy Hs Hry Hc) as (s1 & t & -> & Hs1 & Ht & Hu & El & _ & Hkeep). rewrite bind_ret.
  unfold Value_object. rewrite El, Hl, (GetObjectId_live s1 a o (Hkeep a o Ha)), bind_ret.
  destruct (copy_sim sp s1 vars t sy Hs1 Ht Hc) as (s2 & val & E2 & Hs2 & Hval & Hu2 & _ & _ & Hkeep2). rewrite E2, bind_ret.
  rewrite (ref_id_rel _ _ _ Hval), bind_ret. destruct (put_sim sp s2 vars o f (sr_id sy) Hs2 Ho Hf Hk) as (c' & -> & Hs3). rewrite bind_ret.
  destruct (end_sim _ (set_cache s2 c') vars val sy Hs3 Hval Hu2) as (s4 & -> & Hs4 & _ & _ & Hkeep4). rewrite bind_ret.
  apply (set_last_sim _ s4 vars Null) in Hs4.
  destruct (end_sim _ (set_last s4 Null) vars t sy Hs4) as (s5 & -> & Hs5 & _); [|done|eauto].
  apply (ref_rel_agree (objects s1)); [|done]. intros b Hb. pose proof (addr_live _ _ _ _ Ht Hb) as Hlb. rewrite Hlb.
  apply Hkeep4; [|by apply Hkeep2]. intros Hvb. destruct t as [b'|[|b'|] k']; [|done| |done].
  - cbn in E2, Hb. cbn in Hlb. injection Hb as ->. rewrite Hlb in E2. cbn in E2. injection E2 as <- <-. cbn in Hvb. injection Hvb as <-.
    apply (hs_fresh _ _ _ _ (sim_heap _ _ _ Hs1)) in Hlb. lia.
  - destruct Ht as (Hv & Hbo & _). unfold copyable in Hc. by rewrite Hv, Hbo in Hc.
Qed.

(** ** The program *)

Lemma virtual_shape m r sr : ref_rel m r sr -> sr_virtual sr = true ->
  exists p k, r = Virtual p k /\ (sr_bound sr = false -> p = Null /\ k = sr_id sr).
Proof.
  destruct r as [a|[|a|] k]; cbn; [intros (E & _); congruence| | |done].
  - intros (_ & _ & ->) _. by exists Null, (sr_id sr).
  - intros (_ & E & _) _. exists (At a), k. split; [done|]. congruence.
Qed.

Lemma object_shape m r sr : ref_rel m r sr -> sr_virtual sr = false -> exists a, r = NonVirtual a.
Proof. destruct r as [a|[|a|] k]; cbn; [eauto|intros (E & _); congruence..|done]. Qed.

Lemma sp_var_sim sp s vars x : sim sp s vars -> sp_refs sp !! x = None -> vars !! x = None.
Proof. intros Hs Hx. by apply (hs_dom _ _ _ _ (sim_heap _ _ _ Hs)). Qed.

Lemma new_ref_sim sp s vars x vi key : sim sp s vars -> is_u32 key ->
  exists s' r, new_ref s vi key = (s', r) /\ sim (sp_set sp x (SRef vi false key)) s' (<[x := r]> vars).
Proof.
  intros Hs Hk. destruct vi; cbn [new_ref].
  - eexists _, _. split; [done|]. by apply unbound_sim.
  - eexists _, _. split; [done|]. apply (new_object_sim sp s vars x (NonVirtual (next_object s)) (SRef false false key) key); [done|done| |done]. cbn. by rewrite lookup_insert_eq.
Qed.

Lemma end_var_sim sp s vars x r sr : sim sp s vars -> vars !! x = Some r -> ref_rel (objects s) r sr ->
  exists s', ref_end s r = Ret s' /\ sim (Spec (sp_mem sp) (delete x (sp_refs sp))) s' (delete x vars).
Proof.
  intros Hs Hx Hr. assert (forall a, addr r = Some a -> exists s', delete_object s (At a) = Ret s' /\
    sim (Spec (sp_mem sp) (delete x (sp_refs sp))) s' (delete x vars)) as Hd.
  { intros a Ha. cbn. rewrite (addr_live _ _ _ _ Hr Ha). eexists. split; [done|]. apply (sim_heap_to sp s vars); [done|done|]. cbn.
    apply (heap_end _ (objects s)); [by apply Hs| |].
    - intros y ry b Hy Hyv Hb. rewrite lookup_delete_ne; [done|]. by apply (others_apart sp s vars x r a Hs Hx Ha y ry).
    - intros b z [_ Hb]%lookup_delete_Some. by eapply (hs_fresh _ _ _ _ (sim_heap _ _ _ Hs)). }
  destruct r as [a|[|a|] k]; cbn [ref_end]; [by apply Hd| |by apply Hd|done]. eexists. split; [done|].
  apply (sim_heap_to sp s vars); [done|done|]. apply (heap_end _ (objects s)); [by apply Hs|done|by apply Hs].
Qed.

(** Statements that do not use an object. *)
Lemma ref_step_sim sp s vars st sp' out : sim sp s vars -> spec_stmt creatable st sp = Ret (sp', out) ->
  match st with SRead _ _ | SWrite _ _ _ | SLoad _ _ _ | SStore _ _ _ => False | _ => True end ->
  exists s' vars', run_stmt cl st (s, vars) = Ret (s', vars', out) /\ sim sp' s' vars'.
Proof.
  intros Hs Hst Hno. destruct st as [x vi key|x y|x y|x y|x|x y|x| | | | |x]; try done; clear Hno; cbn [spec_stmt] in Hst; spec_steps Hst;
    injection Hst as <- <-; cbn [run_stmt];
    repeat match goal with E : c_assert _ = Ret _ |- _ => apply assert_inv in E end;
    repeat match goal with E : sp_var sp ?z = Ret ?sr |- _ =>
      let r := fresh "r" in let Hv := fresh "Hv" in let Hr := fresh "Hr" in let Hu := fresh "Hu" in
      destruct (sim_var sp s vars z sr Hs E) as (r & Hv & -> & Hr & Hu); clear E end.
  - rewrite decide_True by by eapply sp_var_sim. destruct (new_ref_sim sp s vars x vi key Hs) as (s' & r & -> & Hs'); [by apply word_ok_spec|]. eauto.
  - rewrite decide_True by by eapply sp_var_sim. rewrite bind_ret. unfold ref_from. rewrite (ref_id_rel _ _ _ Hr), bind_ret.
    destruct (new_ref_sim sp s vars x false (sr_id a) Hs Hu) as (s' & r' & -> & Hs'). cbn. eauto.
  - apply andb_true_iff in E1 as [Hc Hor]. rewrite !bind_ret.
    match goal with |- context [ref_assign cl s ?rx ?ry] => destruct (assign_sim sp s vars x y rx ry a a0 Hs) as (s' & r' & -> & Hs'); try done end.
    cbn. eauto.
  - apply andb_true_iff in E1 as [[Hvx Hvy]%andb_true_iff Hc]. rewrite !bind_ret.
    destruct (virtual_shape _ _ _ Hr Hvy) as (p & k & -> & Hunb). destruct (virtual_shape _ _ _ Hr0 Hvx) as (p' & k' & -> & _).
    unfold copyable in Hc. rewrite Hvy in Hc. destruct (Hunb (proj1 (negb_true_iff _) Hc)) as [-> ->].
    eexists _, _. split; [done|]. by apply unbound_sim.
  - rewrite bind_ret. apply negb_true_iff in E0. destruct (object_shape _ _ _ Hr E0) as [b ->].
    destruct (set_id_sim sp s vars x b 0 a Hs Hv Hr ltac:(ranges)) as (s' & E' & Hs' & _). unfold ref_null. rewrite E', bind_ret. eauto.
  - rewrite !bind_ret. match goal with |- context [ref_eq s ?rx ?ry] => destruct (eq_sim sp s vars rx ry a a0 Hs) as (s' & -> & Hs'); try done end. cbn. eauto.
  - rewrite bind_ret. unfold ref_is_null. rewrite (ref_id_rel _ _ _ Hr), !bind_ret. eauto.
  - rewrite bind_ret. destruct (end_var_sim sp s vars x r a Hs Hv Hr) as (s' & -> & Hs'). rewrite bind_ret. eauto.
Qed.

(** [x = y->f], the value read. *)
Lemma load_sim sp s vars x r sr v : sim sp s vars -> vars !! x = Some r -> ref_rel (objects s) r sr -> is_u32 v ->
  exists s' vars',
    match r with
    | NonVirtual a => let '(s, t) := new_ref s false v in s ← assign_from cl s a t; Ret (s, vars, [])
    | Virtual _ _ => '(s, r) ← virtual_copy_assign s r (Virtual Null v); Ret (s, <[x := r]> vars, [])
    end = Ret (s', vars', [] : list Z) /\ sim (sp_set sp x (SRef (sr_virtual sr) false v)) s' vars'.
Proof.
  intros Hs Hx Hr Hv. destruct (sr_virtual sr) eqn:Hvi.
  - destruct (virtual_shape _ _ _ Hr Hvi) as (p & k & -> & _). eexists _, _. split; [done|]. by apply unbound_sim.
  - destruct (object_shape _ _ _ Hr Hvi) as [a ->]. cbn [new_ref].
    pose proof (new_temp_sim sp s vars v Hs) as Hs1. change (new_object s v) with (fst (new_object s v), next_object s).
    destruct (assign_from_sim sp (fst (new_object s v)) vars x a sr (NonVirtual (next_object s)) (SRef false false v) Hs1 Hx) as (s2 & E & Hs2); [| |by apply (next_unowned sp s)|done|done|].
    + destruct Hr as (? & ? & Ha). split; [done|]. split; [done|]. cbn. rewrite lookup_insert_ne; [done|].
      apply (hs_fresh _ _ _ _ (sim_heap _ _ _ Hs)) in Ha. lia.
    + cbn. by rewrite lookup_insert_eq.
    + cbn beta iota. rewrite E, bind_ret. eauto.
Qed.

(** Statements that do. *)
Lemma field_step_sim sp s vars st sp' out : sim sp s vars -> spec_stmt creatable st sp = Ret (sp', out) ->
  match st with SRead _ _ | SWrite _ _ _ | SLoad _ _ _ | SStore _ _ _ => True | _ => False end ->
  exists s' vars', run_stmt cl st (s, vars) = Ret (s', vars', out) /\ sim sp' s' vars'.
Proof.
  intros Hs Hst Hno. destruct st as [| | | | | | |x f|x f v|x y f|x f y|]; try done; clear Hno; cbn [spec_stmt] in Hst; spec_steps Hst;
    injection Hst as <- <-; cbn [run_stmt];
    repeat match goal with E : c_assert _ = Ret _ |- _ => apply assert_inv in E end;
    match goal with E : sp_deref creatable ?z sp = Ret (?sp1, ?o) |- _ =>
      destruct (deref_sim sp s vars z sp1 o Hs E) as (s1 & vars1 & b & Ed & Hs1 & Hl & Hb & Hbn & Ho) end;
    rewrite Ed, bind_ret; clear Ed.
  - destruct (Value_get_sim _ s1 vars1 b _ f Hs1 Hl Hb Ho) as (s2 & -> & Hs2 & _); [by apply field_ok_spec|]. cbn. eauto.
  - apply andb_true_iff in E0 as [Hf Hv]. destruct (Value_set_sim _ s1 vars1 b _ f v Hs1 Hl Hb Ho) as (s2 & -> & Hs2);
      [by apply field_ok_spec|by apply word_ok_spec|]. cbn. eauto.
  - destruct (Value_get_sim q s1 vars1 b o f Hs1 Hl Hb Ho (field_ok_spec f E0)) as (s2 & -> & Hs2 & Hv). rewrite bind_ret.
    destruct (sim_var q s2 vars1 x a0 Hs2 E1) as (r & Hx & -> & Hr & Hu). rewrite bind_ret. by apply (load_sim q s2 vars1 x r a0).
  - destruct (sim_var q s1 vars1 y a Hs1 E0) as (r & Hy & -> & Hr & Hu). rewrite bind_ret. apply andb_true_iff in E1 as [Hf Hc].
    destruct (set_ref_sim q s1 vars1 b o f r a Hs1 Hl Hb Ho (field_ok_spec f Hf) Hr Hu Hc) as (s2 & -> & Hs2). cbn. eauto.
Qed.

Lemma step_sim sp s vars st sp' out : sim sp s vars -> spec_stmt creatable st sp = Ret (sp', out) ->
  exists s' vars', run_stmt cl st (s, vars) = Ret (s', vars', out) /\ sim sp' s' vars'.
Proof.
  intros Hs Hst. destruct st; first [by eapply ref_step_sim; [..|exact Logic.I]|by eapply field_step_sim; [..|exact Logic.I]].
Qed.

(** C15. A program with references means what its statements say: whatever it does with
    its references, of virtual classes or not, as long as it makes no copy of a virtual
    reference that was used (an assignment, a comparison and a store copy their right-hand
    side), every field it reads has the value last written to that object, every comparison
    and null test is that of the object ids, no access goes through a reference that is not
    the right one, and no local object is used or deleted after its end. *)
Theorem references_refine prog sp s vars sp' out : sim sp s vars -> spec_run creatable prog sp = Ret (sp', out) ->
  exists s' vars', run cl prog (s, vars) = Ret (s', vars', out) /\ sim sp' s' vars'.
Proof.
  revert sp s vars sp' out. induction prog as [|st prog IH]; intros sp s vars sp' out Hs Hr; cbn [spec_run run] in *.
  - injection Hr as <- <-. eauto.
  - spec_steps Hr. injection Hr as <- <-.
    destruct (step_sim sp s vars st _ _ Hs E) as (s1 & vars1 & -> & Hs1). rewrite bind_ret.
    destruct (IH _ s1 vars1 _ _ Hs1 E0) as (s2 & vars2 & -> & Hs2). rewrite bind_ret. eauto.
Qed.
End sim.

(** * The pass-through cache of the back end with one word per key *)

Section memcached.
Context {M : Type} `{MemcachedLaws M} `{!SoReliable (word_store M)}.

Definition class_in (m : M) (o : Z) : option Z :=
  match mc_view m !! info_key o with
  | Some v => match word_at v 0, word_at v 1 with Ret fl, Ret _ => Some fl | _, _ => None end
  | None => None
  end.

Lemma class_in_getinfo m o cls : class_in m o = Some cls -> exists sz, SoStorageMemcached.getinfo m o (0, 0) = Ret (SoOK, (cls, sz)).
Proof.
  intros Hc. unfold class_in in Hc. destruct (mc_view m !! info_key o) as [v|] eqn:E; [|done].
  unfold SoStorageMemcached.getinfo. pose proof (mc_get_law m (MAKE64 o 0xFFFFFFFF)) as Hg. unfold info_key in E. rewrite E in Hg.
  rewrite Hg, decide_True by done. destruct (word_at v 0) as [fl| |]; try done. destruct (word_at v 1) as [sz| |]; try done.
  injection Hc as <-. by exists sz.
Qed.

Lemma class_in_put m o f v m' st k : is_u32 o -> 0 <= f < MAX_FIELD -> is_u32 k ->
  SoStorageMemcached.put m o f v = Ret (m', st) -> class_in m' k = class_in m k.
Proof.
  intros Ho Hf Hk. unfold SoStorageMemcached.put, SoStorageMemcached.memcached_put.
  destruct (memcached_set m (MAKE64 o f) (bytes_of_word v)) as [m1 rc] eqn:E. intros [= <- _]. apply mc_set_law in E.
  unfold class_in. rewrite E. case_decide; [|done]. rewrite lookup_insert_ne; [done|]. by apply info_key_other.
Qed.

#[export] Program Instance word_class_ids : ClassIds (word_store M) (word_store M) := {|
  class_of c o := class_in (word_client c) o;
|}.
Next Obligation.
  intros p o cls _ _ Hc. apply class_in_getinfo in Hc as [sz Hc]. unfold GetClassId. cbn. by rewrite Hc.
Qed.
Next Obligation. intros c o f c' v k _ _ _ _. cbn. unfold DSMNoCache.get. cbn. by destruct (SoStorageMemcached.get (word_client c) o f); intros [= <- _]. Qed.
Next Obligation.
  intros [m] o f v c' k _ Ho Hf _ Hk. cbn. unfold DSMNoCache.put. cbn.
  destruct (SoStorageMemcached.put m o f v) as [[m' st]| |] eqn:E; intros [= <-]. by apply (class_in_put m o f v m' st).
Qed.
End memcached.

(** * What the copies do *)

Section copies.
Context {C S : Type} `{ClassIds C S}.
Context (cl : classes).

(** A comparison with a virtual reference that was used ends its object, and the program
    cannot leave its scope. *)
Lemma copied_reference_dies s vars x y rx a k : vars !! x = Some rx -> (exists kx, ref_id s rx = Ret kx) ->
  vars !! y = Some (Virtual (At a) k) -> is_Some (objects s !! a) -> run cl [SEq x y; SEnd y] (s, vars) = Abort.
Proof.
  intros Hx [kx Hkx] Hy [z Ha]. cbn. unfold var. rewrite Hx, Hy, !bind_ret. unfold ref_eq. cbn [ref_copy]. rewrite !bind_ret.
  rewrite Hkx, !bind_ret. cbn. rewrite Ha. cbn. unfold var. rewrite Hy. cbn. by rewrite lookup_delete_eq.
Qed.

(** [a->x = b->y + 0] is right when its right-hand side is evaluated first, and stops the
    process when it is not. *)
Lemma copy_field_spec creatable sp s vars a fa b fb sp1 sp2 oa ob : sim cl creatable sp s vars ->
  sp_deref creatable b sp = Ret (sp1, ob) -> sp_deref creatable a sp1 = Ret (sp2, oa) -> 0 <= fa < MAX_FIELD -> 0 <= fb < MAX_FIELD ->
  exists s' vars', copy_field cl true a fa b fb (s, vars) = Ret (s', vars') /\
    sim cl creatable (sp_put sp2 oa fa (sp_mem sp ob fb)) s' vars'.
Proof.
  intros Hs Hb Ha Hfa Hfb. unfold copy_field. destruct (deref_sim cl creatable sp s vars b sp1 ob Hs Hb) as (s1 & vars1 & pb & -> & Hs1 & Hl1 & Ho1 & _ & Hu1).
  rewrite bind_ret. cbn [fst snd].
  destruct (Value_get_sim cl creatable sp1 s1 vars1 pb ob fb Hs1 Hl1 Ho1 Hu1 Hfb) as (s2 & -> & Hs2 & Hv). rewrite bind_ret.
  destruct (deref_sim cl creatable sp1 s2 vars1 a sp2 oa Hs2 Ha) as (s3 & vars3 & pa & -> & Hs3 & Hl3 & Ho3 & _ & Hu3). rewrite bind_ret. cbn [fst snd].
  assert (sp_mem sp1 ob fb = sp_mem sp ob fb) as Em.
  { unfold sp_deref in Hb. spec_steps Hb. by injection Hb as <- _. }
  rewrite Em in Hv |- *. destruct (Value_set_sim cl creatable sp2 s3 vars3 pa oa fa _ Hs3 Hl3 Ho3 Hu3 Hfa Hv) as (s4 & -> & Hs4). rewrite bind_ret. eauto.
Qed.

Lemma copy_field_wrong creatable sp s vars a fa b fb sp1 sp2 oa ob : sim cl creatable sp s vars ->
  sp_deref creatable a sp = Ret (sp1, oa) -> sp_deref creatable b sp1 = Ret (sp2, ob) -> 0 <= fb < MAX_FIELD ->
  copy_field cl false a fa b fb (s, vars) = Abort.
Proof.
  intros Hs Ha Hb Hfb. unfold copy_field. destruct (deref_sim cl creatable sp s vars a sp1 oa Hs Ha) as (s1 & vars1 & pa & -> & Hs1 & _).
  rewrite bind_ret. destruct (deref_sim cl creatable sp1 s1 vars1 b sp2 ob Hs1 Hb) as (s2 & vars2 & pb & -> & Hs2 & Hl2 & Ho2 & _ & Hu2). rewrite bind_ret. cbn [fst snd].
  unfold Value_get, Value_object. rewrite Hl2, (GetObjectId_live s2 pb ob Ho2), bind_ret. unfold get_value. change (4 =? 4) with true. cbn match.
  destruct (c_get_law (env (px_proc s2)) ob fb (sim_ok _ _ _ _ _ Hs2) Hu2 Hfb) as (c' & -> & _). by rewrite bind_ret.
Qed.
End copies.

(** * Witness *)

Section witness.
Import MapServer MapServerFacts.

(** Object 5, of the class with id 100. *)
Definition one_object : word_store server := fst (so_newobj (WordStore (∅ : server)) 5 100 4).
Definition one_class : classes := RegisterClass no_classes 100 0.

Definition some_program : list stmt :=
  [SNew 1 false 5; SNew 2 true 5; SWrite 1 4 42; SStore 1 6 2; SRead 2 4; SNew 3 false 0; SIsNull 3; SLoad 3 2 6; SEq 3 1;
   SAssign 2 3; SRead 2 4; SEnd 2; SEnd 1; SRead 3 4].

(** References to it of both kinds: a write through one is read through the other, after
    a copy through a field. *)
Lemma references_refine_witness : exists s' vars',
  run one_class some_program
    (Proxies (Process one_object ∅ []) ∅ 1 Null, ∅) = Ret (s', vars', [42; 1; 1; 42; 42]) /\ vars' !! 1 = None.
Proof.
  assert (sim one_class (fun k => k =? 5) (Spec (c_mem one_object) ∅) (Proxies (Process one_object ∅ []) ∅ 1 Null) ∅) as Hs.
  { split; [|done| |split; done].
    - cbn. unfold one_object. destruct (so_newobj _ 5 100 4) as [s st] eqn:E. cbn.
      destruct (c_newobj_law (WordStore (∅ : server)) 5 100 4 s st) as [Hok _]; [exact empty_word_ok|ranges|exact E|exact Hok].
    - intros k _ ->%Z.eqb_eq. exists 100. split; [by vm_compute|]. exists 0. by vm_compute. }
  assert (forall mem, exists sp', spec_run (fun k => k =? 5) some_program (Spec mem ∅) = Ret (sp', [42; 1; 1; 42; 42]) /\ sp_refs sp' !! 1 = None) as Hspec.
  { intros mem. eexists. split; [vm_compute; reflexivity|]. by vm_compute. }
  destruct (Hspec (c_mem one_object)) as (sp' & Hsp & Hx).
  destruct (references_refine one_class (fun k => k =? 5) some_program _ _ _ sp' _ Hs Hsp) as (s' & vars' & Hrun & Hs').
  exists s', vars'. split; [exact Hrun|].
  by apply (hs_dom _ _ _ _ (sim_heap _ _ _ _ _ Hs') 1), Hx.
Defined.
End witness.
