(* ===== verification/LocalSync.v ===== *)
(** Synchronisation of the threads of one process, [include/DogeeLocalSync.h]: events,
    barriers and semaphores on a mutex and a condition variable, and a spinning barrier.
    A section under the mutex is one step; a thread inside an operation is awake or
    asleep on the condition variable, and may wake for no reason. *)
From S2P Require Import Prelude.

(** * Condition variables *)

(** [notify_one] and [notify_all] on threads with statuses [W]; [awake] gives the status
    of a sleeping thread once it is woken. *)
Definition notify_one {W} (awake : W -> option W) (ws ws' : list W) : Prop :=
  (exists i w w', ws !! i = Some w /\ awake w = Some w' /\ ws' = <[i := w']> ws) \/
  (Forall (fun w => awake w = None) ws /\ ws' = ws).
Definition notify_all {W} (awake : W -> option W) (ws : list W) : list W :=
  (fun w => default w (awake w)) <$> ws.

(** * Event *)

Module Event.
(** A waiting thread has its timeout in milliseconds; [Expired] is a thread whose
    [wait_for] has timed out and that has not yet the mutex. *)
Inductive status :=
| Out (result : bool)
| Awake (timeout : Z)
| Asleep (timeout : Z)
| Expired.
Definition awake (w : status) : option status :=
  match w with Asleep t => Some (Awake t) | _ => None end.
Record state := State { ready : bool; threads : list status }.
Definition SetEvent (s : state) : state := State true (notify_all awake (threads s)).
Definition ResetEvent (s : state) : state := State false (threads s).
(** The test of the loop in [WaitForEvent]. *)
Definition check_ready (s : state) (timeout : Z) : status := if ready s then Out true else Asleep timeout.

Definition set (s : state) (i : nat) (w : status) : state := State (ready s) (<[i := w]> (threads s)).
Inductive step : state -> state -> Prop :=
| step_set s : step s (SetEvent s)
| step_reset s : step s (ResetEvent s)
| step_enter s i b timeout : threads s !! i = Some (Out b) -> step s (set s i (check_ready s timeout))
| step_check s i timeout : threads s !! i = Some (Awake timeout) -> step s (set s i (check_ready s timeout))
| step_wake s i timeout : threads s !! i = Some (Asleep timeout) -> step s (set s i (Awake timeout))
| step_timeout s i timeout : threads s !! i = Some (Asleep timeout) -> 0 <= timeout -> step s (set s i Expired)
| step_expired s i : threads s !! i = Some Expired -> step s (set s i (Out false)).
End Event.

(** * Barrier *)

Module LBarrier.
(** The local [gen] of a thread inside [count_down_and_wait]. *)
Inductive status := Out | Awake (gen : Z) | Asleep (gen : Z).
Definition awake (w : status) : option status :=
  match w with Asleep gen => Some (Awake gen) | _ => None end.
(** A thread's status and how often it has called the barrier. *)
Record thread := Thread { st : status; calls : nat }.
Definition awake_thread (t : thread) : option thread :=
  match awake (st t) with Some w => Some (Thread w (calls t)) | None => None end.
Record state := State {
  m_count : Z;
  m_generation : Z;
  m_count_reset_value : Z;
  threads : list thread;
}.
Definition init (count : Z) : state := State count 0 count (replicate (Z.to_nat count) (Thread Out 0)).

Definition set (s : state) (i : nat) (t : thread) : state :=
  State (m_count s) (m_generation s) (m_count_reset_value s) (<[i := t]> (threads s)).

(** The call of thread [i] up to its first wait, and the loop's test after it. *)
Definition arrive (s : state) (i : nat) (calls : nat) : state :=
  let gen := m_generation s in
  let c := u32 (m_count s - 1) in
  if c =? 0 then
    State (m_count_reset_value s) (u32 (gen + 1)) (m_count_reset_value s)
      (<[i := Thread Out calls]> (notify_all awake_thread (threads s)))
  else
    State c gen (m_count_reset_value s) (<[i := Thread (Asleep gen) calls]> (threads s)).
Definition recheck (s : state) (i : nat) (gen : Z) (calls : nat) : state :=
  set s i (Thread (if gen =? m_generation s then Asleep gen else Out) calls).

Inductive step : state -> state -> Prop :=
| step_arrive s i n : threads s !! i = Some (Thread Out n) -> step s (arrive s i (S n))
| step_recheck s i gen n : threads s !! i = Some (Thread (Awake gen) n) -> step s (recheck s i gen n)
| step_wake s i gen n : threads s !! i = Some (Thread (Asleep gen) n) ->
    step s (set s i (Thread (Awake gen) n)).
End LBarrier.

(** * Spinning barrier *)

Module LSpinBarrier.
(** [gen] is loaded; this thread was the last; it has moved the generation on; it tests
    the generation, and then the count. *)
Inductive status := Out | Loaded (gen : Z) | Last (gen : Z) | Moved | Spin (gen : Z) | Spin2 (gen : Z).
Record thread := Thread { st : status; calls : nat; passed : nat }.
Record state := State {
  m_count : Z;
  m_generation : Z;
  m_count_reset_value : Z;
  threads : list thread;
}.
Definition init (count : Z) : state := State count 0 count (replicate (Z.to_nat count) (Thread Out 0 0)).

(** The next access of a thread to the two atomics; [cas] says whether a
    [compare_exchange_weak] that may succeed does. *)
Definition access (s : state) (cas : bool) (t : thread) : Z * Z * thread :=
  let c := m_count s in
  let g := m_generation s in
  let out := Thread Out (calls t) (S (passed t)) in
  let go w := Thread w (calls t) (passed t) in
  match st t with
  | Out => (c, g, Thread (Loaded g) (S (calls t)) (passed t))
  | Loaded gen => let c := u32 (c - 1) in (c, g, go (if c =? 0 then Last gen else Spin gen))
  | Last gen => if cas && (gen =? g) then (c, u32 (gen + 1), go Moved) else (c, g, out)
  | Moved => (m_count_reset_value s, g, out)
  | Spin gen => (c, g, if gen =? g then go (Spin2 gen) else out)
  | Spin2 gen => (c, g, if negb (c =? 0) then go (Spin gen) else out)
  end.
Definition run_thread (cas : bool) (i : nat) (s : state) : state :=
  match threads s !! i with
  | None => s
  | Some t =>
      let '(c, g, t) := access s cas t in
      State c g (m_count_reset_value s) (<[i := t]> (threads s))
  end.
Inductive step : state -> state -> Prop := step_access cas i s : step s (run_thread cas i s).
End LSpinBarrier.

(** * Semaphore *)

Module LSemaphore.
(** The count that [notify] leaves; what [wait] does with it: sleep, or leave it one
    smaller. *)
Definition notify (count : Z) : Z := s32 (count + 1).
Definition wait (count : Z) : option Z := if count =? 0 then None else Some (s32 (count - 1)).
End LSemaphore.
