(* ===== verification/LocalSyncFacts.v ===== *)
(** The barrier of LocalSync.v lets its threads go together and forgets none; the spinning
    barrier does not keep them together; no thread sleeps on a signalled event. *)
From S2P Require Import Prelude LocalSync.

(** * Event *)

(** No thread sleeps on a signalled event. *)
Lemma event_no_sleeper s s' : rtc Event.step s s' ->
  (Event.ready s = true -> Forall (fun w => Event.awake w = None) (Event.threads s)) ->
  Event.ready s' = true -> Forall (fun w => Event.awake w = None) (Event.threads s').
Proof.
  intros Hrun Hs. assert (Event.ready s' = true -> Forall (fun w => Event.awake w = None) (Event.threads s')) as Hinv; [|done].
  induction Hrun as [|s1 s2 s3 Hstep _ IH]; [done|]. apply IH. clear IH.
  assert (forall s i w, (Event.ready s = true -> Forall (fun w => Event.awake w = None) (Event.threads s)) ->
    (Event.ready s = true -> Event.awake w = None) ->
    Event.ready (Event.set s i w) = true -> Forall (fun w => Event.awake w = None) (Event.threads (Event.set s i w))) as Hset.
  { intros s0 i w Hok Hw Hr. cbn in *. apply Forall_insert; auto. }
  destruct Hstep; try (apply Hset; [done|]; unfold Event.check_ready; cbn; try done; by intros ->).
  - intros _. cbn. unfold notify_all. apply Forall_fmap, Forall_true. by intros [].
  - done.
Qed.

(** * Barrier *)

Section barrier.
Import LBarrier.

Definition thread_ok (r : nat) (t : thread) : Prop :=
  (calls t = r /\ (st t = Out \/ exists r', r = S r' /\ st t = Awake (u32 (Z.of_nat r')))) \/
  (calls t = S r /\ (st t = Asleep (u32 (Z.of_nat r)) \/ st t = Awake (u32 (Z.of_nat r)))).

(** The threads that have called the barrier in round [r]. *)
Definition arrived (r : nat) (l : list thread) : nat := length (filter (fun t => calls t = S r) l).

Definition barrier_inv (n : Z) (s : state) : Prop := exists r,
  m_generation s = u32 (Z.of_nat r) /\ m_count_reset_value s = n /\ zlen (threads s) = n /\
  Forall (thread_ok r) (threads s) /\ m_count s = n - Z.of_nat (arrived r (threads s)) /\ 1 <= m_count s.

Lemma u32_succ_ne x : 0 <= x -> u32 x <> u32 (x + 1).
Proof.
  intros Hx E. assert ((x + 1 - x) mod 2 ^ 32 = 0) as Hz.
  { rewrite Zminus_mod. change ((x + 1) mod 2 ^ 32) with (u32 (x + 1)). change (x mod 2 ^ 32) with (u32 x).
    by rewrite E, Z.sub_diag. }
  replace (x + 1 - x) with 1 in Hz by lia. done.
Qed.

Lemma arrived_cons r x l : arrived r (x :: l) = ((if decide (calls x = S r) then 1 else 0) + arrived r l)%nat.
Proof. unfold arrived. rewrite filter_cons. by case_decide. Qed.

Lemma arrived_insert r l i t t' : l !! i = Some t ->
  (Z.of_nat (arrived r (<[i := t']> l)) = Z.of_nat (arrived r l)
    - (if decide (calls t = S r) then 1 else 0) + (if decide (calls t' = S r) then 1 else 0)).
Proof.
  revert i. induction l as [|x l IH]; intros [|i] Hi; [done|done| |].
  - injection Hi as ->. change (<[0%nat := t']> (t :: l)) with (t' :: l). rewrite !arrived_cons. repeat case_decide; lia.
  - specialize (IH i Hi). change (<[S i := t']> (x :: l)) with (x :: <[i := t']> l). rewrite !arrived_cons.
    repeat case_decide; lia.
Qed.

Lemma arrived_max r l : (arrived r l <= length l)%nat.
Proof. unfold arrived. apply length_filter. Qed.

Lemma arrived_all r l : arrived r l = length l -> Forall (fun t => calls t = S r) l.
Proof.
  induction l as [|x l IH]; [constructor|]. rewrite arrived_cons, length_cons. pose proof (arrived_max r l).
  case_decide; intros E; [|lia]. constructor; [done|]. apply IH. lia.
Qed.

Lemma arrived_none r l : Forall (fun t => calls t <> S r) l -> arrived r l = 0%nat.
Proof. induction 1 as [|x l Hx _ IH]; [done|]. by rewrite arrived_cons, decide_False. Qed.

Lemma set_ok r s i t t' n : barrier_inv n s -> threads s !! i = Some t ->
  calls t' = calls t -> (forall r, m_generation s = u32 (Z.of_nat r) -> thread_ok r t -> thread_ok r t') ->
  m_generation s = u32 (Z.of_nat r) -> barrier_inv n (set s i t').
Proof.
  intros (r' & Hg & Hn & Hlen & Hall & Hc & H1) Hi Hcalls Hok Hr. exists r'. unfold set. cbn [m_generation m_count_reset_value threads m_count]. split; [done|]. split; [done|].
  split; [by rewrite zlen_insert|]. split.
  - apply Forall_insert; [done|]. apply (Hok r' Hg). exact (Forall_lookup_1 _ _ _ _ Hall Hi).
  - rewrite (arrived_insert r' _ _ _ _ Hi), Hcalls. case_decide; lia.
Qed.

Lemma arrive_ok n s i k : n < 2 ^ 32 -> barrier_inv n s -> threads s !! i = Some (Thread Out k) ->
  barrier_inv n (arrive s i (S k)).
Proof.
  intros Hmax (r & Hg & Hn & Hlen & Hall & Hc & H1) Hi. pose proof (Forall_lookup_1 _ _ _ _ Hall Hi) as Hok.
  destruct Hok as [[Hk _]|[_ [Hk|Hk]]]; [|done..]. cbn in Hk. subst k.
  pose proof (arrived_insert r _ i _ (Thread (Asleep (m_generation s)) (S r)) Hi) as Hins. cbn in Hins.
  rewrite decide_False, decide_True in Hins by (done || lia).
  pose proof (arrived_max r (<[i:=Thread (Asleep (m_generation s)) (S r)]> (threads s))) as Hle. rewrite length_insert in Hle.
  unfold zlen in Hlen. unfold arrive. rewrite u32_small by ranges. destruct (Z.eqb_spec (m_count s - 1) 0) as [E0|Hne].
  - assert (Forall (fun t => calls t = S r) (<[i:=Thread (Asleep (m_generation s)) (S r)]> (threads s))) as Hfull.
    { apply arrived_all. rewrite length_insert. lia. }
    assert (Forall (fun t => calls t = S r /\ thread_ok (S r) t) (<[i:=Thread Out (S r)]> (notify_all awake_thread (threads s)))) as Hnew.
    { apply Forall_lookup_2. intros j t Hj. rewrite list_lookup_insert in Hj.
      case_decide as Hij; [injection Hj as <-; split; [done|left; auto]|]. unfold notify_all in Hj. rewrite list_lookup_fmap in Hj.
      destruct (threads s !! j) as [t0|] eqn:Et; [|done]. injection Hj as <-.
      assert (calls t0 = S r) as Hc0.
      { apply (Forall_lookup_1 _ _ j _ Hfull). rewrite list_lookup_insert_ne; [done|]. intros ->.
        apply Hij. split; [done|]. unfold notify_all. rewrite length_fmap. by eapply lookup_lt_Some. }
      pose proof (Forall_lookup_1 _ _ _ _ Hall Et) as [[? _]|[_ Ht]]; [lia|].
      destruct t0 as [w c]. cbn in *. subst c. unfold awake_thread. cbn.
      destruct Ht as [->| ->]; cbn; (split; [done|]); left; (split; [done|]); right; eauto. }
    exists (S r). cbn [m_generation m_count_reset_value threads m_count]. split; [rewrite Hg; unfold u32; rewrite Zplus_mod_idemp_l; f_equal; lia|]. split; [done|].
    split; [unfold zlen, notify_all; by rewrite length_insert, length_fmap|].
    split; [eapply Forall_impl; [exact Hnew|by intros t [_ ?]]|].
    rewrite arrived_none; [lia|]. eapply Forall_impl; [exact Hnew|]. intros t [-> _]. lia.
  - exists r. cbn [m_generation m_count_reset_value threads m_count]. split; [done|]. split; [done|]. split; [unfold zlen; by rewrite length_insert|]. split.
    + apply Forall_insert; [done|]. right. cbn. rewrite Hg. auto.
    + rewrite Hg in Hins. rewrite Hg. lia.
Qed.

Lemma barrier_step_ok n s s' : n < 2 ^ 32 -> step s s' -> barrier_inv n s -> barrier_inv n s'.
Proof.
  intros Hmax Hstep Hinv. pose proof Hinv as (r & Hg & _). destruct Hstep as [s i k Hi|s i gen k Hi|s i gen k Hi].
  - by apply arrive_ok.
  - apply (set_ok r s i _ _ n Hinv Hi); [done| |done]. clear r Hg. intros r Hg. unfold thread_ok. cbn.
    intros [[-> [|(r' & -> & [= ->])]]|[-> [|[= ->]]]]; [done| |done|].
    + rewrite Hg. rewrite (proj2 (Z.eqb_neq _ _)); [auto|]. rewrite Nat2Z.inj_succ. apply u32_succ_ne. lia.
    + rewrite Hg, Z.eqb_refl. auto.
  - apply (set_ok r s i _ _ n Hinv Hi); [done| |done]. clear r Hg. intros r Hg. unfold thread_ok. cbn.
    intros [[-> [|(r' & -> & [=])]]|[-> [[= ->]|]]]; [done|auto|done].
Qed.

(** C24. The threads of an [LBarrier] go through it together: a thread that is out has
    called it no more often than any other thread; it keeps none back: a thread sleeps
    in it only while another has not come yet, and one that is awake leaves at its next
    test when all have come, whatever wakes them up and however often the generation
    wraps around. *)
Theorem barrier_rounds n s : 1 <= n < 2 ^ 32 -> rtc step (init n) s ->
  forall i t, threads s !! i = Some t ->
  (st t = Out -> Forall (fun u => (calls t <= calls u)%nat) (threads s)) /\
  (forall gen, st t = Asleep gen -> Exists (fun u => (calls u < calls t)%nat) (threads s)) /\
  (forall gen, st t = Awake gen -> Forall (fun u => (calls t <= calls u)%nat) (threads s) ->
     threads (recheck s i gen (calls t)) !! i = Some (Thread Out (calls t))).
Proof.
  intros Hn Hrun. assert (barrier_inv n s) as (r & Hg & Hrv & Hlen & Hall & Hc & H1).
  { assert (barrier_inv n (init n)) as Hinit.
    { exists O. unfold init. cbn [m_generation m_count_reset_value threads m_count]. split; [done|]. split; [done|]. split; [apply zlen_replicate; lia|].
      assert (Forall (thread_ok 0) (replicate (Z.to_nat n) (Thread Out 0))) as Hok by (apply Forall_replicate; left; auto).
      split; [done|]. rewrite arrived_none; [lia|]. by apply Forall_replicate. }
    clear -Hinit Hrun Hn. induction Hrun as [|? ? ? Hs _ IH]; [done|]. apply IH. eapply barrier_step_ok; [lia|done..]. }
  assert (Forall (fun u => (r <= calls u)%nat) (threads s)) as Hmin.
  { eapply Forall_impl; [exact Hall|]. intros u [[-> _]|[-> _]]; lia. }
  assert (Exists (fun u => calls u = r) (threads s)) as Hlate.
  { destruct (decide (Exists (fun u => calls u = r) (threads s))) as [|Hno]; [done|exfalso].
    apply not_Exists_Forall in Hno as Hf; [|solve_decision]. assert (Forall (fun u => calls u = S r) (threads s)) as Hf'.
    { apply Forall_lookup_2. intros i u Hu. pose proof (Forall_lookup_1 _ _ _ _ Hall Hu) as [[E _]|[E _]]; [|done].
      by destruct (Forall_lookup_1 _ _ _ _ Hf Hu). }
    assert (arrived r (threads s) = length (threads s)); [|unfold zlen in Hlen; lia].
    clear -Hf'. induction Hf' as [|u l Hu _ IH]; [done|]. by rewrite arrived_cons, decide_True, length_cons, IH. }
  intros i t Hi. pose proof (Forall_lookup_1 _ _ _ _ Hall Hi) as Hok. split; [|split].
  - intros Hout. destruct Hok as [[-> _]|[_ [E|E]]]; [done|congruence..].
  - intros gen Hgen. destruct Hok as [[_ [E|(r' & _ & E)]]|[-> _]]; [congruence..|].
    eapply Exists_impl; [exact Hlate|]. cbn. lia.
  - intros gen Hgen Hle. cbn. rewrite list_lookup_insert, decide_True by (split; [done|by eapply lookup_lt_Some]).
    destruct Hok as [[_ [E|(r' & -> & E)]]|[Hc' _]]; [congruence| |].
    + rewrite Hgen in E. injection E as ->. rewrite Hg, (proj2 (Z.eqb_neq _ _)); [done|].
      rewrite Nat2Z.inj_succ. apply u32_succ_ne. lia.
    + apply Exists_exists in Hlate as (u & Hu & <-). rewrite Forall_forall in Hle. specialize (Hle u Hu). lia.
Qed.
End barrier.

Lemma barrier_rounds_witness : exists s, rtc LBarrier.step (LBarrier.init 2) s /\
  LBarrier.threads s = [LBarrier.Thread (LBarrier.Asleep 0) 1; LBarrier.Thread LBarrier.Out 0] /\
  Exists (fun u => (LBarrier.calls u < 1)%nat) (LBarrier.threads s).
Proof.
  exists (LBarrier.arrive (LBarrier.init 2) 0 1).
  assert (rtc LBarrier.step (LBarrier.init 2) (LBarrier.arrive (LBarrier.init 2) 0 1)) as Hrun.
  { eapply rtc_l; [|apply rtc_refl]. by apply LBarrier.step_arrive. }
  split; [exact Hrun|]. split; [reflexivity|].
  destruct (barrier_rounds 2 _ ltac:(lia) Hrun 0 _ eq_refl) as (_ & Hsleep & _). exact (Hsleep 0 eq_refl).
Defined.

(** * Spinning barrier *)

(** What the threads of a spinning barrier of two do: thread 0 sees the count at 0 and
    leaves before thread 1 has moved the generation on, comes back, and leaves again when
    it does. *)
Definition overtaking_run : list nat := [0; 1; 0; 1; 0; 0; 0; 0; 1; 0]%nat.

(** The spinning barrier lets a thread go through twice while the other has come once. *)
Lemma spin_barrier_overtakes : exists s, rtc LSpinBarrier.step (LSpinBarrier.init 2) s /\
  LSpinBarrier.passed <$> LSpinBarrier.threads s = [2; 0]%nat /\
  LSpinBarrier.calls <$> LSpinBarrier.threads s = [2; 1]%nat.
Proof.
  assert (forall l s, rtc LSpinBarrier.step s (foldl (fun s i => LSpinBarrier.run_thread true i s) s l)) as Hrun.
  { intros l. induction l as [|i l IH]; intros s; [apply rtc_refl|]. cbn. eapply rtc_l; [|apply IH]. constructor. }
  exists (foldl (fun s i => LSpinBarrier.run_thread true i s) (LSpinBarrier.init 2) overtaking_run).
  split; [apply Hrun|]. vm_compute. done.
Qed.
