(* ===== verification/ThreadPool.v ===== *)
(** The thread pools: [LThreadPool] of [include/DogeeThreadPool.h], whose workers take
    functions from a queue that a semaphore guards, and the choice of node and event of
    [DThreadPool], [include/DogeeDThreadPool.h] and [Dogee/DogeeThreadPool.cpp]. *)
From S2P Require Import Prelude LocalSync.

(** * The pool of a node *)

Module LThreadPool.
(** A worker in [dequeue]: before or awake in [sem.wait], asleep in it, after it, in a
    function, returned. Functions are numbers. *)
Inductive worker := Waiting | Asleep | Passed | Running (func : nat) | Returned.
#[export] Instance worker_eq_dec : EqDecision worker.
Proof. solve_decision. Defined.
Definition awake (w : worker) : option worker := match w with Asleep => Some Waiting | _ => None end.

(** [notifies] are the calls of [enqueue] (and turns of the loop of the destructor)
    between their critical section and [sem.notify]; [submitted] and [ran] record all
    functions, in the order of the queue and of their ends. *)
Record state := State {
  q : list nat;
  sem : Z;
  threads : list worker;
  stop : bool;
  notifies : nat;
  submitted : list nat;
  ran : list nat;
}.
Definition new_pool (num_threads : nat) : state :=
  State [] 0 (replicate num_threads Waiting) false 0 [] [].

Definition set_worker (s : state) (i : nat) (w : worker) : state :=
  State (q s) (sem s) (<[i := w]> (threads s)) (stop s) (notifies s) (submitted s) (ran s).
Definition enqueue_push (s : state) (func : nat) : state :=
  State (q s ++ [func]) (sem s) (threads s) (stop s) (S (notifies s)) (submitted s ++ [func]) (ran s).
Definition enqueue_notify (s : state) (n : nat) (ws : list worker) : state :=
  State (q s) (LSemaphore.notify (sem s)) ws (stop s) n (submitted s) (ran s).
(** [sem.wait()] as far as it gets. *)
Definition dequeue_wait (s : state) (i : nat) : state :=
  match LSemaphore.wait (sem s) with
  | None => set_worker s i Asleep
  | Some c => State (q s) c (<[i := Passed]> (threads s)) (stop s) (notifies s) (submitted s) (ran s)
  end.
(** From there to the call of the function; [q.front()] of an empty queue is undefined. *)
Definition dequeue_pop (s : state) (i : nat) : outcome state :=
  if stop s then Ret (set_worker s i Returned)
  else
    match q s with
    | [] => Abort
    | func :: q' =>
        Ret (State q' (sem s) (<[i := Running func]> (threads s)) (stop s) (notifies s) (submitted s) (ran s))
    end.
Definition dequeue_ret (s : state) (i : nat) (func : nat) : state :=
  State (q s) (sem s) (<[i := Waiting]> (threads s)) (stop s) (notifies s) (submitted s) (ran s ++ [func]).
(** The destructor up to [join]. *)
Definition destroy (s : state) : state :=
  State (q s) (sem s) (threads s) true (notifies s + length (threads s)) (submitted s) (ran s).

(** What the threads do on their own ... *)
Inductive work_step : state -> state -> Prop :=
| work_notify s n ws : notifies s = S n -> notify_one awake (threads s) ws ->
    work_step s (enqueue_notify s n ws)
| work_wait s i : threads s !! i = Some Waiting -> work_step s (dequeue_wait s i)
| work_pop s i s' : threads s !! i = Some Passed -> dequeue_pop s i = Ret s' -> work_step s s'
| work_ret s i func : threads s !! i = Some (Running func) -> work_step s (dequeue_ret s i func).
(** ... and what else can happen, but the end of the pool. *)
Inductive step : state -> state -> Prop :=
| step_work s s' : work_step s s' -> step s s'
| step_submit s func : step s (enqueue_push s func)
| step_wake s i : threads s !! i = Some Asleep -> step s (set_worker s i Waiting).
End LThreadPool.

(** * The distributed pool *)

(** [DDefaultTheadPoolScheduler::schedule]: the new counter and the node. With one node
    the remainder is taken by 0. *)
Definition schedule (num_nodes cnt : Z) : outcome (Z * Z) :=
  let cnt := u64 (cnt + 1) in
  _ ← c_assert (negb (num_nodes - 1 =? 0));
  Ret (cnt, s32 (cnt mod u64 (num_nodes - 1)) + 1).

(** [DThreadPool]: the events it has made, those that are free, the count of the
    semaphore; events are object ids. *)
Record dpool := DPool { events : list Z; event_queue : list Z; sem_lock : Z; max_wait_events : Z }.

(** The [Ref<DEvent>&] that [FindEvent] returns, with the event it names: the last element
    of [events], or what was the front of [event_queue] and has been popped. *)
Inductive event_ref := EventsBack (eve : Z) | QueuePopped (eve : Z).

(** The use of the reference; a popped element is gone. *)
Definition deref (r : event_ref) : outcome Z :=
  match r with EventsBack eve => Ret eve | QueuePopped _ => Abort end.

(** [FindEvent]: the pool makes an event ([fresh] is what [NewObj] would return), or
    waits for a free one ([None] while there is none). *)
Definition FindEvent (p : dpool) (fresh : Z) : option (dpool * event_ref) :=
  if (zlen (event_queue p) =? 0) && (zlen (events p) <? u32 (max_wait_events p)) then
    Some (DPool (events p ++ [fresh]) (event_queue p) (sem_lock p) (max_wait_events p), EventsBack fresh)
  else
    match LSemaphore.wait (sem_lock p), event_queue p with
    | Some c, eve :: free => Some (DPool (events p) free c (max_wait_events p), QueuePopped eve)
    | _, _ => None
    end.
(** [DThreadPoolEvent::Wait] after the event. *)
Definition give_back (p : dpool) (eve : Z) : dpool :=
  DPool (events p) (event_queue p ++ [eve]) (LSemaphore.notify (sem_lock p)) (max_wait_events p).

(** [InitLocalThreadPool]: the number of threads, if there is to be a pool. *)
Definition InitLocalThreadPool (is_master : bool) (core_count thread_pool_count : Z) : option Z :=
  if is_master then None
  else if 0 <? thread_pool_count then Some thread_pool_count
  else if thread_pool_count <? 0 then Some (s32 (u32 (core_count * 2 + 1)))
  else None.

(** [SendClosureToThreadPool]: run here, or send to the node. *)
Inductive closure_dest := LocalPool | RemotePool (nodeid : Z).
Definition SendClosureToThreadPool (self_node_id nodeid : Z) : closure_dest :=
  if nodeid =? self_node_id then LocalPool else RemotePool nodeid.

(** * Mapping an array *)

(** [DData::Map], [include/DogeeFunctional.h]: the length of a chunk, for elements of
    [dsm_size_of] words; one node is a division by 0. *)
Definition map_avg (len num_nodes dsm_size_of : Z) : outcome Z :=
  _ ← c_assert (negb (num_nodes - 1 =? 0));
  let avg := len / u32 (num_nodes - 1) in
  Ret (if 1024 <=? u32 (avg * dsm_size_of) then 1024 / dsm_size_of else avg).

(** The chunks that are submitted: the first index and the number of elements. *)
Fixpoint map_chunks (fuel : nat) (len avg i : Z) (chunks : list (Z * Z)) : outcome (list (Z * Z)) :=
  if i <? len then
    match fuel with
    | O => NoFuel
    | S fuel =>
        let step := if u32 (i + avg) <? len then avg else u32 (len - i) in
        map_chunks fuel len avg (u32 (i + avg)) (chunks ++ [(i, step)])
    end
  else Ret chunks.
