(* ===== verification/ThreadPoolFacts.v ===== *)
(** Every function given to a pool of ThreadPool.v is run, once. *)
From S2P Require Import Prelude LocalSync ThreadPool.

(** * Sums over the workers *)

Section workers.
Import LThreadPool.
Implicit Types (l : list worker) (s : state).

Definition total (f : worker -> nat) l : nat := foldr (fun w n => (f w + n)%nat) 0%nat l.

Lemma total_cons f w l : total f (w :: l) = (f w + total f l)%nat.
Proof. done. Qed.

Lemma total_insert f l i w w' : l !! i = Some w -> (total f (<[i := w']> l) + f w = total f l + f w')%nat.
Proof.
  revert i. induction l as [|x l IH]; intros [|i] Hi; [done|done| |].
  - injection Hi as ->. change (<[0%nat := w']> (w :: l)) with (w' :: l). rewrite !total_cons. lia.
  - specialize (IH i Hi). change (<[S i := w']> (x :: l)) with (x :: <[i := w']> l). rewrite !total_cons. lia.
Qed.

Lemma total_zero f l : total f l = 0%nat <-> Forall (fun w => f w = 0%nat) l.
Proof. induction l as [|x l IH]; [by split|]. rewrite Forall_cons, <- IH, total_cons. lia. Qed.

Definition waiting (w : worker) : nat := match w with Waiting => 1 | _ => 0 end.
Definition asleep (w : worker) : nat := match w with Asleep => 1 | _ => 0 end.
Definition passed (w : worker) : nat := match w with Passed => 1 | _ => 0 end.
Definition weight (w : worker) : nat := match w with Waiting => 1 | Passed => 3 | Running _ => 2 | _ => 0 end.
Definition running (w : worker) : list nat := match w with Running f => [f] | _ => [] end.
Definition all_running l : list nat := l ≫= running.

Lemma running_insert l i w w' : l !! i = Some w ->
  running w ++ all_running (<[i := w']> l) ≡ₚ running w' ++ all_running l.
Proof.
  unfold all_running. revert i. induction l as [|x l IH]; intros [|i] Hi; [done|done| |].
  - injection Hi as ->. change (<[0%nat := w']> (w :: l)) with (w' :: l). rewrite !bind_cons. solve_Permutation.
  - specialize (IH i Hi). change (<[S i := w']> (x :: l)) with (x :: <[i := w']> l). rewrite !bind_cons.
    rewrite !(Permutation_app_swap_app _ (running x)). by rewrite IH.
Qed.

(** What a pool that is not being destroyed satisfies. *)
Definition pool_inv (n : nat) s : Prop :=
  stop s = false /\ length (threads s) = n /\ Forall (fun w => w <> Returned) (threads s) /\ 0 <= sem s /\
  sem s + Z.of_nat (total passed (threads s) + notifies s) = zlen (q s) /\
  (total asleep (threads s) = 0%nat \/ sem s <= Z.of_nat (total waiting (threads s))) /\
  submitted s ≡ₚ ran s ++ all_running (threads s) ++ q s.

Definition pool_mu s : nat := (5 * notifies s + 3 * Z.to_nat (sem s) + total weight (threads s))%nat.

Lemma queue_bound n s : pool_inv n s -> zlen (q s) <= zlen (submitted s).
Proof. intros (_ & _ & _ & _ & _ & _ & E). rewrite E, !zlen_app. pose proof (zlen_nonneg (ran s)). pose proof (zlen_nonneg (all_running (threads s))). lia. Qed.

Ltac totals Hi w' :=
  pose proof (total_insert passed _ _ _ w' Hi); pose proof (total_insert waiting _ _ _ w' Hi);
  pose proof (total_insert asleep _ _ _ w' Hi); pose proof (total_insert weight _ _ _ w' Hi);
  pose proof (running_insert _ _ _ w' Hi) as Hwork; cbn [passed waiting asleep weight running app] in *.

Lemma work_step_ok n s s' : zlen (submitted s) < 2 ^ 31 -> work_step s s' -> pool_inv n s ->
  pool_inv n s' /\ (pool_mu s' < pool_mu s)%nat /\ submitted s' = submitted s.
Proof.
  intros Hmax Hstep Hinv. pose proof (queue_bound n s Hinv) as Hq.
  destruct Hinv as (Hstop & Hlen & Hret & Hsem & Hcount & Hawake & Hperm). destruct Hstep as [s k ws Hk Hws|s i Hi|s i s' Hi Hpop|s i f Hi].
  - unfold LThreadPool.enqueue_notify, pool_inv, pool_mu. cbn [q sem threads stop notifies submitted ran].
    unfold LSemaphore.notify. rewrite s32_small by lia. destruct Hws as [(i & w & w' & Hi & Hw & ->)|[Hall ->]].
    + destruct w; try discriminate. injection Hw as <-. totals Hi Waiting.
      rewrite length_insert. split; [|split; [lia|done]]. split; [done|]. split; [done|]. split; [by apply Forall_insert|].
      split; [lia|]. split; [lia|]. split; [lia|]. by rewrite Hwork.
    + split; [|split; [lia|done]]. split; [done|]. split; [done|]. split; [done|]. split; [lia|]. split; [lia|]. split; [|done].
      left. apply total_zero. eapply Forall_impl; [exact Hall|]. by intros [].
  - unfold dequeue_wait, LSemaphore.wait. destruct (Z.eqb_spec (sem s) 0) as [E0|Hne].
    + totals Hi Asleep. unfold set_worker, pool_inv, pool_mu. cbn [q sem threads stop notifies submitted ran].
      rewrite length_insert. split; [|split; [lia|done]]. split; [done|]. split; [done|]. split; [by apply Forall_insert|].
      split; [lia|]. split; [lia|]. split; [lia|]. by rewrite Hwork.
    + totals Hi Passed. unfold pool_inv, pool_mu. cbn [q sem threads stop notifies submitted ran]. rewrite s32_small by lia.
      rewrite length_insert. split; [|split; [lia|done]]. split; [done|]. split; [done|]. split; [by apply Forall_insert|].
      split; [lia|]. split; [lia|]. split; [lia|]. by rewrite Hwork.
  - unfold dequeue_pop in Hpop. rewrite Hstop in Hpop. destruct (q s) as [|f q'] eqn:Eq; [discriminate|].
    injection Hpop as <-. totals Hi (Running f). unfold pool_inv, pool_mu. cbn [q sem threads stop notifies submitted ran].
    assert (zlen (f :: q') = 1 + zlen q') as Hz by (unfold zlen; rewrite length_cons; lia).
    rewrite length_insert. split; [|split; [lia|done]]. split; [done|]. split; [done|]. split; [by apply Forall_insert|].
    split; [lia|]. split; [lia|]. split; [lia|]. rewrite Hperm, Hwork. solve_Permutation.
  - totals Hi Waiting. unfold dequeue_ret, pool_inv, pool_mu. cbn [q sem threads stop notifies submitted ran].
    rewrite length_insert. split; [|split; [lia|done]]. split; [done|]. split; [done|]. split; [by apply Forall_insert|].
    split; [lia|]. split; [lia|]. split; [lia|]. rewrite Hperm, <- Hwork. solve_Permutation.
Qed.

Lemma submitted_grows s s' : step s s' -> zlen (submitted s) <= zlen (submitted s').
Proof.
  intros [s1 s2 Hw|s1 f|s1 i Hi]; [|cbn; rewrite zlen_app; pose proof (zlen_nonneg [f]); lia|done].
  destruct Hw as [| |? ? ? ? Hpop|]; try done.
  - unfold dequeue_wait. by destruct (LSemaphore.wait _).
  - unfold dequeue_pop in Hpop. destruct (stop _); [by injection Hpop as <-|]. destruct (q _); [done|]. by injection Hpop as <-.
Qed.

Lemma pool_reachable n s : rtc step (new_pool n) s -> zlen (submitted s) < 2 ^ 31 -> pool_inv n s.
Proof.
  revert s. apply (rtc_ind_r (fun s => zlen (submitted s) < 2 ^ 31 -> pool_inv n s) (new_pool n)).
  - intros _. unfold pool_inv, new_pool. cbn [q sem threads stop notifies submitted ran]. rewrite length_replicate.
    assert (forall f : worker -> nat, f Waiting = 0%nat -> total f (replicate n Waiting) = 0%nat) as Hz.
    { intros f Hf. apply total_zero. by apply Forall_replicate. }
    rewrite !Hz by done. split; [done|]. split; [done|]. split; [by apply Forall_replicate|].
    split; [done|]. split; [done|]. split; [by left|]. clear Hz. by induction n.
  - intros s s' _ Hstep IH Hmax. pose proof (submitted_grows _ _ Hstep). specialize (IH ltac:(lia)).
    destruct Hstep as [s s' Hw|s f|s i Hi].
    + eapply work_step_ok; [|exact Hw|exact IH]. lia.
    + destruct IH as (Hstop & Hlen & Hret & Hsem & Hcount & Hawake & Hperm). unfold pool_inv, enqueue_push.
      cbn [q sem threads stop notifies submitted ran]. rewrite zlen_app. change (zlen [f]) with 1.
      do 4 (split; [done|]). split; [lia|]. split; [done|]. rewrite Hperm. by rewrite <- !app_assoc.
    + destruct IH as (Hstop & Hlen & Hret & Hsem & Hcount & Hawake & Hperm). unfold pool_inv, set_worker.
      cbn [q sem threads stop notifies submitted ran]. totals Hi Waiting. rewrite length_insert.
      do 2 (split; [done|]). split; [by apply Forall_insert|]. split; [lia|]. split; [lia|]. split; [lia|]. by rewrite Hwork.
Qed.

(** A state where the threads have nothing left to do. *)
Lemma idle_pool n s : (1 <= n)%nat -> pool_inv n s -> nf work_step s -> ran s ≡ₚ submitted s.
Proof.
  intros Hn Hinv Hnf. destruct Hinv as (Hstop & Hlen & Hret & Hsem & Hcount & Hawake & Hperm).
  assert (notifies s = 0%nat) as Hnot.
  { destruct (notifies s) as [|k] eqn:Ek; [done|]. exfalso. apply Hnf.
    destruct (decide (Exists (fun w => w = Asleep) (threads s))) as [He|He].
    - apply Exists_exists in He as (w & (i & Hi)%list_elem_of_lookup_1 & ->).
      eexists. eapply work_notify; [exact Ek|]. left. by exists i, Asleep, Waiting.
    - eexists. eapply work_notify; [exact Ek|]. right. split; [|done]. apply not_Exists_Forall in He; [|intros w; apply worker_eq_dec].
      eapply Forall_impl; [exact He|]. intros [] Hw; try done. by destruct Hw. }
  assert (forall i w, threads s !! i = Some w -> w = Asleep) as Hall.
  { intros i w Hi. destruct w as [| | |f|]; [|done|..]; exfalso.
    - apply Hnf. eexists. by eapply work_wait.
    - apply Hnf. assert (exists f q', q s = f :: q') as (f & q' & Eq).
      { pose proof (total_insert passed _ _ _ Waiting Hi) as Ht. cbn [passed] in Ht.
        destruct (q s) as [|f q']; [|eauto]. change (zlen []) with 0 in Hcount. lia. }
      eexists. eapply work_pop; [exact Hi|]. unfold dequeue_pop. by rewrite Hstop, Eq.
    - apply Hnf. eexists. by eapply work_ret.
    - by apply (Forall_lookup_1 _ _ _ _ Hret Hi). }
  assert (forall f : worker -> nat, f Asleep = 0%nat -> total f (threads s) = 0%nat) as Hz.
  { intros f Hf. apply total_zero, Forall_lookup_2. intros i w Hi. by rewrite (Hall i w Hi). }
  rewrite Hnot, (Hz passed) in Hcount by done. rewrite (Hz waiting) in Hawake by done.
  destruct (threads s) as [|w l] eqn:Et; [cbn in Hlen; lia|].
  destruct Hawake as [Ha|Ha].
  { pose proof (Hall 0%nat w eq_refl) as ->. rewrite total_cons in Ha. cbn in Ha. lia. }
  assert (q s = []) as Eq.
  { destruct (q s) as [|f q']; [done|]. unfold zlen in Hcount. rewrite length_cons in Hcount. lia. }
  assert (all_running (w :: l) = []) as Er.
  { unfold all_running.
    assert (forall l, (forall i w, l !! i = Some w -> w = Asleep) -> l ≫= running = []) as Hgen.
    { clear. intros l Hl. induction l as [|x l IH]; [done|]. rewrite bind_cons, (Hl 0%nat x eq_refl). cbn [running app].
      apply IH. intros i w Hi. by apply (Hl (S i)). }
    by apply Hgen. }
  rewrite Hperm, Eq, Er. by rewrite !app_nil_r.
Qed.

(** C19. From every state that a pool of some workers can reach, whatever was submitted and
    whatever woke them up, the workers' own steps come to an end, and when they do every
    function submitted so far has been run exactly once; on the way no worker takes from an
    empty queue. *)
Theorem pool_runs_all n s : (1 <= n)%nat -> rtc step (new_pool n) s -> zlen (submitted s) < 2 ^ 31 ->
  sn work_step s /\
  (forall s', rtc work_step s s' -> nf work_step s' -> ran s' ≡ₚ submitted s) /\
  (forall i, threads s !! i = Some Passed -> exists s', dequeue_pop s i = Ret s').
Proof.
  intros Hn Hrun Hmax. pose proof (pool_reachable n s Hrun Hmax) as Hinv. split; [|split].
  - apply (sn_measure work_step (fun s => pool_inv n s /\ zlen (submitted s) < 2 ^ 31) pool_mu); [|done].
    intros x y [Hx Hm] Hxy. destruct (work_step_ok n x y Hm Hxy Hx) as (Hy & Hlt & E). by rewrite E.
  - intros s' Hwork Hnf. assert (pool_inv n s' /\ submitted s' = submitted s) as [Hinv' <-].
    { clear Hrun Hnf. induction Hwork as [|x y z Hxy _ IH]; [done|].
      destruct (work_step_ok n x y Hmax Hxy Hinv) as (Hy & _ & E). rewrite <- E. apply IH; [by rewrite E|done]. }
    by apply (idle_pool n).
  - intros i Hi. destruct Hinv as (Hstop & _ & _ & Hsem & Hcount & _). unfold dequeue_pop. rewrite Hstop.
    pose proof (total_insert passed _ _ _ Waiting Hi) as Ht. cbn [passed] in Ht.
    destruct (q s) as [|f q']; [|eauto]. change (zlen []) with 0 in Hcount. lia.
Qed.

Lemma pool_runs_all_witness : sn work_step (enqueue_push (new_pool 2) 7) /\ forall s', rtc work_step (enqueue_push (new_pool 2) 7) s' -> nf work_step s' -> ran s' ≡ₚ [7%nat].
Proof.
  destruct (pool_runs_all 2 (enqueue_push (new_pool 2) 7)) as (Hsn & Hran & _);
    [lia| |done|split; [exact Hsn|exact Hran]].
  eapply rtc_l; [|apply rtc_refl]. apply step_submit.
Defined.
End workers.

(** * Chunks *)

(** The chunks of [Map] cover the array, without overlap, when a chunk is not empty; when
    it is, as with fewer elements than slaves, the loop never ends. *)
Lemma map_chunks_cover len avg : 0 <= len -> 0 <= avg -> len + avg < 2 ^ 32 ->
  (0 < avg -> exists chunks, map_chunks (Z.to_nat len) len avg 0 [] = Ret chunks /\
     (chunks ≫= fun c => seqZ (fst c) (snd c)) = seqZ 0 len) /\
  (avg = 0 -> 0 < len -> forall fuel, map_chunks fuel len avg 0 [] = NoFuel).
Proof.
  intros Hlen Havg Hmax. split.
  - intros Hpos. assert (forall fuel i chunks, 0 <= i -> len - i <= Z.of_nat fuel -> i < len + avg ->
      (chunks ≫= fun c => seqZ (fst c) (snd c)) = seqZ 0 (Z.min i len) -> exists chunks',
      map_chunks fuel len avg i chunks = Ret chunks' /\ (chunks' ≫= fun c => seqZ (fst c) (snd c)) = seqZ 0 len) as Hgen.
    { induction fuel as [|fuel IH]; intros i chunks Hi Hf Hia Hc; cbn [map_chunks].
      - rewrite (proj2 (Z.ltb_ge i len)) by lia. exists chunks. split; [done|]. by rewrite Hc, Z.min_r by lia.
      - destruct (Z.ltb_spec i len); [|exists chunks; split; [done|]; by rewrite Hc, Z.min_r by lia].
        rewrite (u32_small (i + avg)), (u32_small (len - i)) by ranges. apply IH; [lia|lia|lia|].
        rewrite bind_app, bind_cons, Hc. cbn [fst snd]. rewrite Z.min_l by lia. cbn. rewrite app_nil_r.
        destruct (Z.ltb_spec (i + avg) len).
        + rewrite Z.min_l by lia. by rewrite (seqZ_app 0 i avg) by lia.
        + rewrite Z.min_r by lia. replace len with (i + (len - i)) at 2 by lia. by rewrite (seqZ_app 0 i (len - i)) by lia. }
    apply Hgen; [lia|lia|lia|]. by rewrite Z.min_l by lia.
  - intros -> Hl fuel. generalize (@nil (Z * Z)). induction fuel as [|fuel IH]; intros chunks; cbn [map_chunks];
      rewrite (proj2 (Z.ltb_lt 0 len)) by lia; [done|]. rewrite Z.add_0_r. apply IH.
Qed.
