(* ===== verification/Shutdown.v ===== *)
(** How a node makes and ends what lives outside the shared memory: [CloseCluster] and the
    end of [RcSlave] in [Dogee/DogeeRemote.cpp], [AcInit] and [AcClose] in
    [Dogee/DogeeAccumulator.cpp], the thread pools of [Dogee/DogeeThreadPool.cpp] and
    [include/DogeeDThreadPool.h], the checkpoint object of [include/DogeeCheckpoint.h]. *)
From S2P Require Import Prelude Sync ThreadPool.

(** * Pointers *)

(** A pointer variable: null, to an object, or to one that was deleted. *)
Inductive pointer (A : Type) :=
| Null
| Alive (a : A)
| Dangling.
Arguments Null {A}.
Arguments Alive {A} _.
Arguments Dangling {A}.

Definition is_null {A} (p : pointer A) : bool := match p with Null => true | _ => false end.

(** [p->f()], and [delete p] of a class without a destructor that matters here. *)
Definition deref {A} (p : pointer A) : outcome A := match p with Alive a => Ret a | _ => Abort end.
Definition delete_ptr {A} (p : pointer A) : outcome (pointer A) :=
  match p with Null => Ret Null | Alive _ => Ret Dangling | Dangling => Abort end.

(** * A node *)

(** [AcConnectionManager]: the ids of the accumulators in its map, its connections. *)
Record ac_manager := AcManager { ac_nodes : list Z; ac_connections : list Z }.

(** [DThreadPool]: its events' object ids, its scheduler. *)
Record pool_object := PoolObject { pool_events : list Z; pool_scheduler : pointer unit; pool_max_wait : Z }.

Record resources := Resources {
  closing : bool;
  sent : list (Z * RcCommand);
  closed : list Z;
  checkboject : pointer unit;
  delete_checkpoint : bool;
  checkpoint_cnt : Z;
  files : gset Z;
  master_file : bool;
  syncmanager : pointer (gset Z);
  accu_manager : pointer ac_manager;
  cache : pointer unit;
  backend : pointer unit;
  thread_lock : bool;
  object_list : gset Z;
  deleted : list Z;
  thread_pool : pointer pool_object;
  config_scheduler : pointer unit;
  instance_count : Z;
  local_thread_pool : pointer Z;
}.

Section node.
Context (is_master : bool) (num_nodes core_count thread_pool_count thread_pool_max_wait : Z).

Definition set_checkpoint (r : resources) (o : pointer unit) (d : bool) (fs : gset Z) (m : bool) : resources :=
  Resources (closing r) (sent r) (closed r) o d (checkpoint_cnt r) fs m (syncmanager r) (accu_manager r) (cache r) (backend r)
    (thread_lock r) (object_list r) (deleted r) (thread_pool r) (config_scheduler r) (instance_count r) (local_thread_pool r).
Definition set_links (r : resources) (b : bool) (s : list (Z * RcCommand)) (c : list Z) (m : pointer (gset Z)) (a : pointer ac_manager) : resources :=
  Resources b s c (checkboject r) (delete_checkpoint r) (checkpoint_cnt r) (files r) (master_file r) m a (cache r) (backend r)
    (thread_lock r) (object_list r) (deleted r) (thread_pool r) (config_scheduler r) (instance_count r) (local_thread_pool r).
Definition set_storage (r : resources) (c b : pointer unit) (l : bool) (o : gset Z) (d : list Z) : resources :=
  Resources (closing r) (sent r) (closed r) (checkboject r) (delete_checkpoint r) (checkpoint_cnt r) (files r) (master_file r)
    (syncmanager r) (accu_manager r) c b l o d (thread_pool r) (config_scheduler r) (instance_count r) (local_thread_pool r).
Definition set_pool (r : resources) (p : pointer pool_object) (s : pointer unit) (n : Z) (l : pointer Z) : resources :=
  Resources (closing r) (sent r) (closed r) (checkboject r) (delete_checkpoint r) (checkpoint_cnt r) (files r) (master_file r)
    (syncmanager r) (accu_manager r) (cache r) (backend r) (thread_lock r) (object_list r) (deleted r) p s n l.

(** * Checkpoint object *)

Definition remove_files (r : resources) : resources :=
  set_checkpoint r (checkboject r) (delete_checkpoint r) (files r ∖ {[checkpoint_cnt r - 1; checkpoint_cnt r - 2]}) false.
Definition InitCheckPoint (r : resources) : resources := set_checkpoint r (Alive tt) true (files r) (master_file r).
Definition DeleteCheckPoint (r : resources) : outcome resources :=
  if is_null (checkboject r) then Ret r
  else
    _ ← delete_ptr (checkboject r);
    let r := remove_files (set_checkpoint r Null (delete_checkpoint r) (files r) (master_file r)) in
    Ret (set_checkpoint r (checkboject r) false (files r) (master_file r)).

(** * Connections *)

Definition AcInit (r : resources) : outcome resources :=
  _ ← c_assert (is_null (accu_manager r));
  Ret (set_links r (closing r) (sent r) (closed r) (syncmanager r)
         (Alive (AcManager [] (replicate (Z.to_nat (num_nodes - 1)) 0)))).
(** With [~AcConnectionManager]. *)
Definition AcClose (r : resources) : outcome resources :=
  match accu_manager r with
  | Null => Ret r
  | Alive m => Ret (set_links r (closing r) (sent r) (closed r ++ ac_connections m) (syncmanager r) Null)
  | Dangling => Abort
  end.

(** * Thread pools *)

(** The constructor of [DThreadPool]. *)
Definition new_DThreadPool (r : resources) (scheduler : pointer unit) (max_wait : Z) : resources :=
  let local :=
    if instance_count r =? 0 then
      match InitLocalThreadPool is_master core_count thread_pool_count with
      | Some n => Alive n
      | None => if is_master then local_thread_pool r else Null
      end
    else local_thread_pool r in
  set_pool r (Alive (PoolObject [] scheduler max_wait)) (config_scheduler r) (instance_count r + 1) local.

Definition InitDThreadPool (r : resources) : resources :=
  let '(sche, config) := if is_null (config_scheduler r) then (Alive tt, Null) else (config_scheduler r, Null) in
  new_DThreadPool (set_pool r (thread_pool r) config (instance_count r) (local_thread_pool r)) sche thread_pool_max_wait.

Definition DeleteLocalThreadPool (r : resources) : outcome resources :=
  l ← delete_ptr (local_thread_pool r);
  Ret (set_pool r (thread_pool r) (config_scheduler r) (instance_count r) l).

(** [DelObj(e)]; [Destroy] of an event does nothing. *)
Definition DelEvent (e : Z) (r : resources) : outcome resources :=
  let r := set_storage r (cache r) (backend r) (thread_lock r) (object_list r ∖ {[e]}) (deleted r) in
  _ ← deref (backend r);
  Ret (set_storage r (cache r) (backend r) (thread_lock r) (object_list r) (deleted r ++ [e])).

(** [~DThreadPool]. *)
Definition destroy_DThreadPool (p : pool_object) (r : resources) : outcome resources :=
  r ← for_each (pool_events p) DelEvent r;
  _ ← delete_ptr (pool_scheduler p);
  let n := instance_count r - 1 in
  let r := set_pool r (thread_pool r) (config_scheduler r) n (local_thread_pool r) in
  if n =? 0 then DeleteLocalThreadPool r else Ret r.
(** The variable keeps its value. *)
Definition DeleteDThreadPool (r : resources) : outcome resources :=
  if is_null (thread_pool r) then Ret r
  else
    p ← deref (thread_pool r);
    r ← destroy_DThreadPool p r;
    Ret (set_pool r Dangling (config_scheduler r) (instance_count r) (local_thread_pool r)).

(** * The end *)

Definition CloseStorage (r : resources) : outcome resources :=
  c ← delete_ptr (cache r);
  b ← delete_ptr (backend r);
  Ret (set_storage r c b false (object_list r) (deleted r)).

(** [connections] are the sockets of [remote_nodes]. *)
Definition CloseCluster (connections : list Z) (r : resources) : outcome resources :=
  let r := set_links r true (sent r) (closed r) (syncmanager r) (accu_manager r) in
  r ← for_range 1 num_nodes (fun i r =>
    s ← rd connections i;
    Ret (set_links r (closing r) (sent r ++ [(s, RcCmdClose)]) (closed r) (syncmanager r) (accu_manager r))) r;
  r ← (if delete_checkpoint r then DeleteCheckPoint r else Ret r);
  m ← delete_ptr (syncmanager r);
  r ← AcClose (set_links r (closing r) (sent r) (closed r) m (accu_manager r));
  r ← CloseStorage r;
  DeleteDThreadPool r.

(** The end of [RcSlave], after its main loop or an error; [s] is the master's socket. *)
Definition RcSlave_end (s : Z) (r : resources) : outcome resources :=
  r ← CloseStorage r;
  let r := set_links r (closing r) (sent r) (closed r ++ [s]) (syncmanager r) (accu_manager r) in
  r ← AcClose r;
  DeleteDThreadPool r.
End node.
