(* ===== verification/ShutdownFacts.v ===== *)
(** [CloseCluster] tells every slave to close and releases what the node made, once; but
    not when the distributed pool has ever made an event. *)
From S2P Require Import Prelude Sync ThreadPool Shutdown.

(** A node at work, with the pool [p] and the data connections [m]. *)
Record working (r : resources) (p : pool_object) (m : ac_manager) : Prop := {
  wk_storage : cache r = Alive tt /\ backend r = Alive tt;
  wk_accu : accu_manager r = Alive m;
  wk_pool : thread_pool r = Alive p /\ pool_scheduler p <> Dangling /\ instance_count r = 1;
  wk_local : local_thread_pool r <> Dangling;
  wk_sync : syncmanager r <> Dangling;
  wk_check : checkboject r <> Dangling;
}.

(** Nothing that was deleted is left as it was. *)
Definition released {A} (p : pointer A) : Prop := match p with Alive _ => False | _ => True end.

Lemma delete_ptr_ok {A} (p : pointer A) : p <> Dangling -> exists q, delete_ptr p = Ret q /\ released q.
Proof. destruct p; [by exists Null|by exists Dangling|done]. Qed.

Section node.
Context (is_master : bool) (num_nodes core_count thread_pool_count thread_pool_max_wait : Z).

(** What [InitStorage], [AcInit] and [InitDThreadPool] of a new node leave. *)
Definition new_node : resources :=
  Resources false [] [] Null false 0 ∅ false Null Null Null Null false ∅ [] Null Null 0 Null.

Lemma new_node_working r : AcInit num_nodes (set_storage new_node (Alive tt) (Alive tt) true ∅ []) = Ret r ->
  working (InitDThreadPool is_master core_count thread_pool_count thread_pool_max_wait r)
    (PoolObject [] (Alive tt) thread_pool_max_wait) (AcManager [] (replicate (Z.to_nat (num_nodes - 1)) 0)).
Proof.
  intros [= <-]. split; cbn; try done. unfold InitLocalThreadPool. by destruct is_master, (0 <? thread_pool_count), (thread_pool_count <? 0).
Qed.

(** The pool is deleted after the storage: without events that is all right. *)
Lemma delete_pool_none r p m : thread_pool r = Alive p -> pool_events p = [] -> pool_scheduler p <> Dangling ->
  instance_count r = 1 -> local_thread_pool r <> Dangling -> accu_manager r = m -> exists l,
  DeleteDThreadPool r = Ret (set_pool r Dangling (config_scheduler r) 0 l) /\ released l.
Proof.
  intros Ep Ee Es Ei El Em. unfold DeleteDThreadPool. rewrite Ep. cbn [is_null deref]. unfold destroy_DThreadPool. rewrite bind_ret, Ee. cbn [for_each].
  rewrite bind_ret. destruct (delete_ptr_ok (pool_scheduler p) Es) as (q & -> & _). rewrite bind_ret, Ei.
  change (1 - 1 =? 0) with true. cbv iota. unfold DeleteLocalThreadPool. cbn [local_thread_pool set_pool].
  destruct (delete_ptr_ok (local_thread_pool r) El) as (l & -> & Hl). exists l. done.
Qed.

Lemma delete_pool_some r p : thread_pool r = Alive p -> pool_events p <> [] -> backend r = Dangling -> DeleteDThreadPool r = Abort.
Proof.
  intros Ep Ee Eb. unfold DeleteDThreadPool. rewrite Ep. cbn [is_null deref]. unfold destroy_DThreadPool. rewrite bind_ret.
  destruct (pool_events p) as [|e es]; [done|]. cbn [for_each]. unfold DelEvent. cbn [backend set_storage]. by rewrite Eb.
Qed.

Lemma close_storage_ok r : cache r = Alive tt -> backend r = Alive tt ->
  CloseStorage r = Ret (set_storage r Dangling Dangling false (object_list r) (deleted r)).
Proof. intros Ec Eb. unfold CloseStorage. by rewrite Ec, Eb. Qed.

Lemma ac_close_ok r m : accu_manager r = Alive m ->
  AcClose r = Ret (set_links r (closing r) (sent r) (closed r ++ ac_connections m) (syncmanager r) Null).
Proof. intros E. unfold AcClose. by rewrite E. Qed.

(** The commands to the slaves. *)
Lemma send_close_all connections r : num_nodes <= zlen connections -> 1 <= num_nodes -> exists cmds,
  for_range 1 num_nodes (fun i r =>
    s ← rd connections i;
    Ret (set_links r (closing r) (sent r ++ [(s, RcCmdClose)]) (closed r) (syncmanager r) (accu_manager r))) r =
  Ret (set_links r (closing r) (sent r ++ cmds) (closed r) (syncmanager r) (accu_manager r)) /\
  zlen cmds = num_nodes - 1 /\
  forall i, 1 <= i < num_nodes -> exists s, connections.[i] = Some s /\ cmds.[i - 1] = Some (s, RcCmdClose).
Proof.
  intros Hlen Hn.
  destruct (for_range_rule (fun i r' => exists cmds,
    r' = set_links r (closing r) (sent r ++ cmds) (closed r) (syncmanager r) (accu_manager r) /\ zlen cmds = i - 1 /\
    forall j, 1 <= j < i -> exists s, connections.[j] = Some s /\ cmds.[j - 1] = Some (s, RcCmdClose)) 1 num_nodes
    (fun i r => s ← rd connections i;
      Ret (set_links r (closing r) (sent r ++ [(s, RcCmdClose)]) (closed r) (syncmanager r) (accu_manager r))) r)
    as (r' & E & cmds & -> & Hl & Hc).
  - lia.
  - intros i r' Hi (cmds & -> & Hl & Hc). destruct (zlook_is_Some connections i) as [s Es]; [lia|].
    rewrite (rd_ok _ _ _ Es), bind_ret. eexists. split; [done|]. exists (cmds ++ [(s, RcCmdClose)]).
    cbn. rewrite app_assoc. split; [done|]. rewrite zlen_app. change (zlen [(s, RcCmdClose)]) with 1. split; [lia|].
    intros j Hj. destruct (decide (j = i)) as [->|].
    + exists s. split; [done|]. rewrite zlook_app_r by lia. by replace (i - 1 - zlen cmds) with 0 by lia.
    + destruct (Hc j) as (s' & E1 & E2); [lia|]. exists s'. split; [done|]. rewrite zlook_app_l by lia. done.
  - exists []. rewrite app_nil_r. split; [by destruct r|]. split; [done|]. intros j Hj. lia.
  - exists cmds. done.
Qed.

Lemma delete_checkpoint_ok r : checkboject r <> Dangling -> exists d fs f,
  (if delete_checkpoint r then DeleteCheckPoint r else Ret r) =
    Ret (set_checkpoint r (if delete_checkpoint r then Null else checkboject r) d fs f) /\
  (delete_checkpoint r = true -> checkboject r <> Null -> d = false /\ f = false /\
    fs = files r ∖ {[checkpoint_cnt r - 1; checkpoint_cnt r - 2]}).
Proof.
  intros Hd. destruct (delete_checkpoint r) eqn:Eh; [|exists (delete_checkpoint r), (files r), (master_file r); split; [by destruct r|done]].
  unfold DeleteCheckPoint. destruct (checkboject r) as [|[]|] eqn:Ec; [|eexists _, _, _; split; [reflexivity|done]|done].
  exists (delete_checkpoint r), (files r), (master_file r). split; [|done]. cbn. f_equal. destruct r; cbn in *; by subst.
Qed.

(** C33. [CloseCluster] of a node at work sends every slave one close command, closes the data
    connections, removes the checkpoint object with its files, and deletes every object once;
    but when the distributed pool has made an event, which any [submit] with an event does,
    it uses the back end that it has deleted. So does the end of a slave. *)
Theorem close_cluster connections r p m : working r p m -> 1 <= num_nodes <= zlen connections ->
  (pool_events p = [] -> exists r' cmds, CloseCluster num_nodes connections r = Ret r' /\
    closing r' = true /\ sent r' = sent r ++ cmds /\ zlen cmds = num_nodes - 1 /\
    (forall i, 1 <= i < num_nodes -> exists s, connections.[i] = Some s /\ cmds.[i - 1] = Some (s, RcCmdClose)) /\
    closed r' = closed r ++ ac_connections m /\
    released (syncmanager r') /\ released (accu_manager r') /\ released (cache r') /\ released (backend r') /\
    released (thread_pool r') /\ released (local_thread_pool r') /\ thread_lock r' = false /\
    (delete_checkpoint r = true -> released (checkboject r') /\
      (checkboject r <> Null -> master_file r' = false /\ files r' = files r ∖ {[checkpoint_cnt r - 1; checkpoint_cnt r - 2]}))) /\
  (pool_events p <> [] -> CloseCluster num_nodes connections r = Abort) /\
  (forall s, (pool_events p = [] -> exists r', RcSlave_end s r = Ret r' /\ closed r' = closed r ++ s :: ac_connections m /\
      released (backend r') /\ released (thread_pool r') /\ released (local_thread_pool r') /\ files r' = files r) /\
    (pool_events p <> [] -> RcSlave_end s r = Abort)).
Proof.
  intros [[W1 W2] W3 (W4 & W5 & W6) W7 W8 W9] [Hn Hl].
  assert (exists cmds d fs f q, zlen cmds = num_nodes - 1 /\
    (forall i, 1 <= i < num_nodes -> exists s, connections.[i] = Some s /\ cmds.[i - 1] = Some (s, RcCmdClose)) /\ released q /\
    (delete_checkpoint r = true -> checkboject r <> Null -> d = false /\ f = false /\ fs = files r ∖ {[checkpoint_cnt r - 1; checkpoint_cnt r - 2]}) /\
    CloseCluster num_nodes connections r = DeleteDThreadPool (set_storage (set_links
      (set_checkpoint r (if delete_checkpoint r then Null else checkboject r) d fs f) true (sent r ++ cmds) (closed r ++ ac_connections m) q Null)
      Dangling Dangling false (object_list r) (deleted r))) as (cmds & d & fs & f & q & C1 & C2 & C3 & C4 & E).
  { unfold CloseCluster. set (r1 := set_links r true _ _ _ _).
    destruct (send_close_all connections r1 Hl Hn) as (cmds & -> & C1 & C2). rewrite bind_ret.
    set (r2 := set_links r1 _ _ _ _ _). destruct (delete_checkpoint_ok r2 W9) as (d & fs & f & -> & C4). rewrite bind_ret.
    destruct (delete_ptr_ok (syncmanager r) W8) as (q & Eq & Hq). exists cmds, d, fs, f, q. do 4 (split; [done|]).
    cbn [syncmanager set_checkpoint r2 r1 set_links]. rewrite Eq, bind_ret.
    rewrite (ac_close_ok _ m) by done. rewrite bind_ret. rewrite close_storage_ok by done. by rewrite bind_ret. }
  rewrite E. split; [|split].
  - intros Hev. match goal with |- context [DeleteDThreadPool ?x] => destruct (delete_pool_none x p Null) as (l & -> & Hl'); try done end.
    eexists _, cmds. split; [done|]. cbn. do 5 (split; [done|]). do 7 (split; [done|]). intros Hd. rewrite Hd. split; [done|]. intros Hc. by destruct (C4 Hd Hc).
  - intros Hev. by apply (delete_pool_some _ p).
  - intros s. unfold RcSlave_end. rewrite close_storage_ok, bind_ret by done. set (r1 := set_links _ _ _ _ _ _).
    rewrite (ac_close_ok r1 m) by done. rewrite bind_ret. split.
    + intros Hev. match goal with |- context [DeleteDThreadPool ?x] => destruct (delete_pool_none x p Null) as (l & -> & Hl'); try done end.
      eexists. split; [done|]. cbn. split; [by rewrite <- app_assoc|done].
    + intros Hev. by apply (delete_pool_some _ p).
Qed.
End node.

(** A master with two nodes that never used its pool, and one that did. *)
Definition idle_master : resources :=
  InitDThreadPool true 4 0 256 (match AcInit 2 (set_storage new_node (Alive tt) (Alive tt) true ∅ []) with Ret r => r | _ => new_node end).
Definition busy_master : resources :=
  set_pool idle_master (Alive (PoolObject [17] (Alive tt) 256)) (config_scheduler idle_master) 1 (local_thread_pool idle_master).

Lemma close_cluster_witness : (exists r', CloseCluster 2 [0; 9] idle_master = Ret r' /\ released (thread_pool r')) /\
  CloseCluster 2 [0; 9] busy_master = Abort.
Proof.
  assert (working idle_master (PoolObject [] (Alive tt) 256) (AcManager [] [0])) as H1 by (by apply (new_node_working true 2 4 0 256)).
  assert (working busy_master (PoolObject [17] (Alive tt) 256) (AcManager [] [0])) as H2 by (by split).
  split.
  - destruct (close_cluster 2 [0; 9] idle_master _ _ H1 ltac:(done)) as [Hc _]. destruct (Hc eq_refl) as (r' & cmds & E & H).
    exists r'. split; [exact E|]. apply H.
  - destruct (close_cluster 2 [0; 9] busy_master _ _ H2 ltac:(done)) as [_ [Hc _]]. by apply Hc.
Defined.
