(* ===== verification/ArrayMap.v ===== *)
(** Mapping an array over the thread pools of the cluster: [DData::Map] of
    [include/DogeeFunctional.h] with [submit] and [DThreadPoolEvent] of
    [include/DogeeDThreadPool.h], the closures on the nodes, and their events.

    The closures get and put words of the shared memory on the workers of the pools. A
    thread needs a client of its own for that, which [LThreadPool] does not make for its
    workers: only a closure that itself calls [InitCurrentThread], as those of
    [include/DogeeMR.h] do, gives one to the worker that runs it. On a worker without a
    client the first access to the memory fails. *)
From S2P Require Import Prelude Storage LocalSync ThreadPool ObjectModel.

(** * Tasks

    A closure that was submitted, for the elements from [t_start], on node [t_node], with
    the event to set: not begun, with its results in [outbuf], and with these written. *)
Inductive phase := Queued | Computed (outbuf : list Z) | Written.
Record task := Task { t_start : Z; t_step : Z; t_event : Z; t_node : Z; t_phase : phase }.
Definition set_phase (t : task) (ph : phase) : task := Task (t_start t) (t_step t) (t_event t) (t_node t) ph.

(** The caller of [Map]: at index [i] of its loop with the events it has not waited for,
    in a loop that waits, which is the [last] one or not, or out of [Map]. *)
Inductive map_pc :=
| Submitting (i : Z) (events : list Z)
| WaitingFor (last : bool) (i : Z) (events : list Z)
| Mapped.

(** The shared memory, the pool of the caller, the counter of its scheduler, the tasks,
    the events that are set, and the caller. *)
Record map_world (C : Type) := MapWorld {
  mw_env : C;
  mw_pool : dpool;
  mw_cnt : Z;
  tasks : list task;
  signalled : gset Z;
  mw_pc : map_pc;
}.
Arguments MapWorld {C} _ _ _ _ _ _.
Arguments mw_env {C} _.
Arguments mw_pool {C} _.
Arguments mw_cnt {C} _.
Arguments tasks {C} _.
Arguments signalled {C} _.
Arguments mw_pc {C} _.

Section map.
Context {C S : Type} `{SoStorage S} `{DSMCache C S}.
(** [arr] and [out_arr] have elements of 4 bytes, and [func] is [_Fnarg]; the number of
    nodes and [thread_pool_max_wait]. [has_client] says on which nodes the workers of the
    pool have a client. *)
Context (arr out_arr len : Z) (func : Z -> Z) (num_nodes max_wait : Z) (has_client : Z -> bool).
#[local] Abbreviation world := (map_world C).

(** The memory through the client of a worker of [node]. *)
Definition worker_env (node : Z) (c : C) : outcome C := if has_client node then Ret c else Abort.

(** The lambda of [Map] on a worker of [node], in two steps: what it reads and computes,
    and what it writes. *)
Definition buffer_size : Z := 32 * DSM_CACHE_BLOCK_SIZE.
Definition lambda_compute (node : Z) (c : C) (start step : Z) : outcome (C * list Z) :=
  c ← worker_env node c;
  '(c, buf) ← CopyTo 4 c arr (replicate (Z.to_nat buffer_size) 0) start step;
  outbuf ← for_range 0 step (fun j outbuf => v ← rd buf j; wr outbuf j (func v)) (replicate (Z.to_nat buffer_size) 0);
  Ret (c, outbuf).
Definition lambda_write (node : Z) (c : C) (start step : Z) (outbuf : list Z) : outcome C :=
  c ← worker_env node c;
  CopyFrom 4 c out_arr outbuf start step.

(** [submit] of the task for index [i]; [None] while there is no free event. *)
Definition submit (w : world) (fresh i avg : Z) : outcome (option (dpool * Z * task)) :=
  '(cnt, node) ← schedule num_nodes (mw_cnt w);
  match FindEvent (mw_pool w) fresh with
  | None => Ret None
  | Some (p, r) =>
      eve ← deref r;
      let step := if u32 (i + avg) <? len then avg else u32 (len - i) in
      Ret (Some (p, cnt, Task i step eve node Queued))
  end.
(** The test after it. *)
Definition wait_now (events : list Z) : bool := (max_wait - 20 <=? 0) || (zlen events =? max_wait - 20).

Definition with_caller (w : world) (p : dpool) (sig : gset Z) (pc : map_pc) : world :=
  MapWorld (mw_env w) p (mw_cnt w) (tasks w) sig pc.

Inductive map_step : world -> world -> Prop :=
| map_submit w i events avg fresh p cnt t :
    mw_pc w = Submitting i events -> i < len -> map_avg len num_nodes 1 = Ret avg ->
    fresh ∉ ThreadPool.events (mw_pool w) -> submit w fresh i avg = Ret (Some (p, cnt, t)) ->
    map_step w (MapWorld (mw_env w) p cnt (tasks w ++ [t]) (signalled w)
      (if wait_now (events ++ [t_event t]) then WaitingFor false (u32 (i + avg)) (events ++ [t_event t])
       else Submitting (u32 (i + avg)) (events ++ [t_event t])))
| map_loop_end w i events :
    mw_pc w = Submitting i events -> len <= i ->
    map_step w (with_caller w (mw_pool w) (signalled w) (WaitingFor true i events))
| map_wait w last i e events :
    mw_pc w = WaitingFor last i (e :: events) -> e ∈ signalled w ->
    map_step w (with_caller w (give_back (mw_pool w) e) (signalled w ∖ {[e]}) (WaitingFor last i events))
| map_waited w last i :
    mw_pc w = WaitingFor last i [] ->
    map_step w (with_caller w (mw_pool w) (signalled w) (if last then Mapped else Submitting i []))
| map_compute w pre t post c outbuf :
    tasks w = pre ++ t :: post -> t_phase t = Queued -> lambda_compute (t_node t) (mw_env w) (t_start t) (t_step t) = Ret (c, outbuf) ->
    map_step w (MapWorld c (mw_pool w) (mw_cnt w) (pre ++ set_phase t (Computed outbuf) :: post) (signalled w) (mw_pc w))
| map_write w pre t post c outbuf :
    tasks w = pre ++ t :: post -> t_phase t = Computed outbuf -> lambda_write (t_node t) (mw_env w) (t_start t) (t_step t) outbuf = Ret c ->
    map_step w (MapWorld c (mw_pool w) (mw_cnt w) (pre ++ set_phase t Written :: post) (signalled w) (mw_pc w))
| map_set w pre t post :
    tasks w = pre ++ t :: post -> t_phase t = Written ->
    map_step w (MapWorld (mw_env w) (mw_pool w) (mw_cnt w) (pre ++ post) ({[t_event t]} ∪ signalled w) (mw_pc w)).

(** [Map] is called: the pool is new. *)
Definition map_start (c : C) (cnt : Z) : world := MapWorld c (DPool [] [] 0 max_wait) cnt [] ∅ (Submitting 0 []).
End map.
