(* ===== verification/ArrayMapFacts.v ===== *)
(** [DData::Map] ends, whatever the order in which the nodes run its closures, and the
    output array is then the input under the function. *)
From S2P Require Import Prelude Storage Memcached MemcachedFacts LocalSync ThreadPool ObjectModel ObjectFacts ArrayMap.

#[local] Arguments zlen : simpl never.

Lemma map_avg_spec len num_nodes : 2 <= num_nodes < 2 ^ 31 -> num_nodes - 1 <= len < 2 ^ 32 ->
  exists avg, map_avg len num_nodes 1 = Ret avg /\ 0 < avg <= 1024.
Proof.
  intros Hn Hl. unfold map_avg. rewrite (proj2 (Z.eqb_neq _ _)) by lia. cbn [negb c_assert mbind outcome_bind].
  rewrite (u32_small (num_nodes - 1)) by ranges. set (avg := len / (num_nodes - 1)). eexists. split; [done|].
  assert (0 < avg) by (apply Z.div_str_pos; lia). assert (avg <= len) by (apply Z.div_le_upper_bound; nia).
  rewrite Z.mul_1_r, (u32_small avg) by ranges. destruct (Z.leb_spec 1024 avg); [|lia]. rewrite Z.div_1_r. lia.
Qed.

(** * The elements of the tasks *)

(** The indices that a task has still to write. *)
Definition todo (t : task) : list Z := match t_phase t with Written => [] | _ => seqZ (t_start t) (t_step t) end.

Definition weight (t : task) : Z := match t_phase t with Queued => 3 | Computed _ => 2 | Written => 1 end.
Definition task_weight (l : list task) : Z := foldr (fun t n => weight t + n) 0 l.
Lemma task_weight_app l1 l2 : task_weight (l1 ++ l2) = task_weight l1 + task_weight l2.
Proof. induction l1 as [|t l1 IH]; [done|]. cbn. unfold task_weight in IH. rewrite IH. unfold task_weight. lia. Qed.
Lemma task_weight_nonneg l : 0 <= task_weight l.
Proof. induction l as [|t l IH]; cbn; [lia|]. unfold task_weight, weight in *. destruct (t_phase t); lia. Qed.

(** How far the loop has come, and the events it holds. *)
Definition reach (len : Z) (pc : map_pc) : Z :=
  match pc with Submitting i _ | WaitingFor _ i _ => Z.min i len | Mapped => len end.
Definition outstanding (pc : map_pc) : list Z :=
  match pc with Submitting _ evs | WaitingFor _ _ evs => evs | Mapped => [] end.
Definition pc_weight (pc : map_pc) : Z :=
  match pc with Submitting _ _ => 2 | WaitingFor false _ _ => 3 | WaitingFor true _ _ => 1 | Mapped => 0 end.

Section map.
Context {C S : Type} `{DSMCacheLaws C S}.
Context (arr out_arr len : Z) (func : Z -> Z) (num_nodes max_wait : Z) (has_client : Z -> bool).
Context (Harr : range_ok arr 0 len) (Hout : range_ok out_arr 0 len) (Hnodes : 2 <= num_nodes < 2 ^ 31)
  (Hlen : num_nodes - 1 <= len) (Hfunc : forall x, is_u32 x -> is_u32 (func x)) (Hwait : 1 <= max_wait < 2 ^ 31).
(** The workers have clients, and the chunks are submitted before any is waited for. *)
Context (Hclient : forall j, 1 <= j < num_nodes -> has_client j = true).
Context (avg : Z) (Havg : map_avg len num_nodes 1 = Ret avg) (Hfew : len <= avg * Z.max 1 (max_wait - 20)).
(** The memory when [Map] is called. *)
Context (mem0 : Z -> Z -> Z).
#[local] Abbreviation step := (map_step arr out_arr len func num_nodes max_wait has_client).

(** A task has elements before [r]; once computed, its buffer has their images. *)
Definition computed_ok (t : task) (outbuf : list Z) : Prop :=
  zlen outbuf = 1024 /\ Forall is_u32 outbuf /\ forall j, 0 <= j < t_step t -> outbuf.[j] = Some (func (mem0 arr (t_start t + j))).
Definition task_ok (r : Z) (t : task) : Prop :=
  0 <= t_start t /\ 0 < t_step t <= 1024 /\ t_start t + t_step t <= r /\
  match t_phase t with Computed outbuf => computed_ok t outbuf | _ => True end.

Definition mapped_mem (r : Z) (cells : list Z) (o x : Z) : Z :=
  if decide (o = out_arr /\ 0 <= x < r /\ x ∉ cells) then func (mem0 arr x) else mem0 o x.

Record pool_inv (p : dpool) (evs : list Z) : Prop := {
  pi_events : events p ≡ₚ evs ++ event_queue p;
  pi_nodup : NoDup (events p);
  pi_sem : sem_lock p = zlen (event_queue p);
  pi_max : max_wait_events p = max_wait;
  pi_bound : zlen (events p) <= max_wait;
}.

(** How many events the caller holds before it waits, and where it is. *)
Definition pc_ok (pc : map_pc) : Prop :=
  match pc with
  | Submitting i evs => 0 <= i < len + 1024 /\
      (max_wait - 20 <= 0 -> evs = []) /\ (0 < max_wait - 20 -> zlen evs < max_wait - 20)
  | WaitingFor last i evs => 0 <= i < len + 1024 /\ (last = true -> len <= i)
  | Mapped => True
  end.

Record map_inv (w : map_world C) : Prop := {
  mi_ok : c_ok (mw_env w);
  mi_mem : forall o x, is_u32 o -> 0 <= x < MAX_FIELD -> c_mem (mw_env w) o x = mapped_mem (reach len (mw_pc w)) (tasks w ≫= todo) o x;
  mi_cells : NoDup (tasks w ≫= todo);
  mi_tasks : Forall (task_ok (reach len (mw_pc w))) (tasks w);
  mi_set : (t_event <$> tasks w) ++ elements (signalled w) ≡ₚ outstanding (mw_pc w);
  mi_pool : pool_inv (mw_pool w) (outstanding (mw_pc w));
  mi_pc : pc_ok (mw_pc w);
  mi_first : match mw_pc w with
             | Submitting i evs => i < len -> event_queue (mw_pool w) = [] /\ i = avg * zlen evs
             | WaitingFor _ i _ => len <= i
             | Mapped => True
             end;
  mi_nodes : Forall (fun t => has_client (t_node t) = true) (tasks w);
}.

Definition map_left (w : map_world C) : Z :=
  8 * (len - reach len (mw_pc w)) + task_weight (tasks w) + 2 * zlen (outstanding (mw_pc w)) + pc_weight (mw_pc w).

Lemma len_bounds : 1 <= len <= MAX_FIELD.
Proof. destruct Harr as (_ & _ & ? & ?). lia. Qed.

Lemma reach_bounds pc : pc_ok pc -> 0 <= reach len pc <= len.
Proof. pose proof len_bounds. destruct pc; cbn; lia. Qed.

Lemma map_left_nonneg w : map_inv w -> 0 <= map_left w.
Proof.
  intros HI. pose proof (reach_bounds _ (mi_pc _ HI)). pose proof (task_weight_nonneg (tasks w)). pose proof (zlen_nonneg (outstanding (mw_pc w))).
  unfold map_left, pc_weight. destruct (mw_pc w) as [| [] |]; lia.
Qed.

(** ** The pool *)

(** While no event is free the pool makes one. *)
Lemma FindEvent_spec p evs fresh : pool_inv p evs -> fresh ∉ events p -> zlen evs < max_wait -> event_queue p = [] ->
  let p' := DPool (events p ++ [fresh]) [] (sem_lock p) (max_wait_events p) in
  FindEvent p fresh = Some (p', EventsBack fresh) /\ pool_inv p' (evs ++ [fresh]).
Proof.
  intros [P1 P2 P3 P4 P5] Hfr Hb Hq p'. rewrite Hq, app_nil_r in P1. rewrite Hq in P3.
  assert (zlen (events p) = zlen evs) as Hz by (unfold zlen; by rewrite P1). split.
  - unfold FindEvent. rewrite Hq, P4, (u32_small max_wait) by ranges. change (zlen (@nil Z)) with 0.
    rewrite (proj2 (Z.ltb_lt _ _)) by lia. unfold p'. by rewrite P4.
  - split; cbn; [| |done..|].
    + rewrite app_nil_r. by apply Permutation_app_tail.
    + apply NoDup_app. split; [done|]. split; [|apply NoDup_singleton]. intros x Hx Hx'. apply list_elem_of_singleton in Hx' as ->. done.
    + rewrite zlen_app. change (zlen [fresh]) with 1. lia.
Qed.

Lemma schedule_node cnt : exists cnt' node, schedule num_nodes cnt = Ret (cnt', node) /\ 1 <= node < num_nodes.
Proof.
  unfold schedule. rewrite (proj2 (Z.eqb_neq (num_nodes - 1) 0)) by lia. cbn [negb c_assert mbind outcome_bind].
  eexists _, _. split; [done|]. rewrite (u64_small (num_nodes - 1)) by ranges.
  pose proof (Z.mod_pos_bound (u64 (cnt + 1)) (num_nodes - 1) ltac:(lia)). rewrite s32_small by lia. lia.
Qed.

Lemma give_back_spec p e evs : pool_inv p (e :: evs) -> pool_inv (give_back p e) evs.
Proof.
  intros [P1 P2 P3 P4 P5]. pose proof (Permutation_length P1) as Hpl. rewrite length_app in Hpl. cbn in Hpl.
  split; cbn; [|done| |done|done].
  - rewrite P1. cbn. rewrite app_assoc. apply Permutation_cons_append.
  - unfold LSemaphore.notify. rewrite P3, zlen_app. change (zlen [e]) with 1. rewrite s32_small; [done|]. unfold zlen in *. lia.
Qed.

(** ** The closures *)

Lemma task_range r t : task_ok r t -> r <= len -> range_ok arr (t_start t) (t_step t) /\ range_ok out_arr (t_start t) (t_step t).
Proof. intros (H1' & H2' & H3' & _) Hr. destruct Harr as (A1 & _ & _ & A2), Hout as (O1 & _ & _ & O2). unfold range_ok. ranges. Qed.

Lemma buffer_1024 : zlen (replicate (Z.to_nat buffer_size) 0) = 1024.
Proof. reflexivity. Qed.

(** A closure that has not begun finds the input as it was. *)
Lemma compute_spec c r cells t : c_ok c -> (forall o x, is_u32 o -> 0 <= x < MAX_FIELD -> c_mem c o x = mapped_mem r cells o x) ->
  task_ok r t -> r <= len -> (forall x, t_start t <= x < t_start t + t_step t -> x ∈ cells) ->
  has_client (t_node t) = true ->
  exists c' outbuf, lambda_compute arr func has_client (t_node t) c (t_start t) (t_step t) = Ret (c', outbuf) /\ c_ok c' /\
    same_words (c_mem c) (c_mem c') /\ computed_ok t outbuf.
Proof.
  intros Hok Hm Ht Hr Hcells Hcl. destruct (task_range r t Ht Hr) as [Ra _]. destruct Ht as (T1 & T2 & T3 & _).
  unfold lambda_compute, worker_env. rewrite Hcl, bind_ret. unfold CopyTo. change (4 =? 4) with true. cbn match.
  destruct (c_getchunk_law c arr (t_start t) (t_step t) (replicate (Z.to_nat buffer_size) 0) Hok Ra) as (c' & buf & -> & Hok' & Hsame & Hl & Hbuf);
    [lia|rewrite buffer_1024; lia|]. rewrite bind_ret. rewrite buffer_1024 in Hl.
  assert (forall j, 0 <= j < t_step t -> buf.[j] = Some (mem0 arr (t_start t + j))) as Hin.
  { intros j Hj. rewrite Hbuf, (proj2 (andb_true_iff _ _)) by lia. destruct Ra as (Ra1 & Ra2 & Ra3 & Ra4). rewrite Hm by lia || done.
    unfold mapped_mem. case_decide as E; [|done]. destruct E as (_ & _ & E). exfalso. apply E, Hcells. lia. }
  destruct (for_range_rule (fun i ob => zlen ob = 1024 /\ Forall is_u32 ob /\ forall j, 0 <= j < i -> ob.[j] = Some (func (mem0 arr (t_start t + j)))) 0 (t_step t)
    (fun j ob => v ← rd buf j; wr ob j (func v)) (replicate (Z.to_nat buffer_size) 0)) as (ob & -> & Hob); [lia| | |].
  - intros i ob Hi (O1 & O2 & O3). rewrite (rd_ok buf i _ (Hin i Hi)), bind_ret.
    destruct (wr_ok ob i (func (mem0 arr (t_start t + i)))) as (ob' & -> & Hl' & Hb'); [lia|]. exists ob'. split; [done|].
    assert (is_u32 (func (mem0 arr (t_start t + i)))) as Hu.
    { apply Hfunc. specialize (Hin i Hi). rewrite Hbuf, (proj2 (andb_true_iff _ _)) in Hin by lia. injection Hin as <-.
      destruct Ra as (? & ? & ? & ?). apply c_mem_u32; [done|done|lia]. }
    split; [lia|]. split.
    + apply Forall_zlook. intros j x. rewrite Hb'. case_test; [by intros [= <-]|]. intros Hx. by refine (zlook_Forall is_u32 _ _ _ O2 Hx).
    + intros j Hj. rewrite Hb'. destruct (Z.eqb_spec j i) as [->|Hne]; [done|]. apply O3. lia.
  - split; [done|]. split; [apply Forall_replicate; ranges|]. lia.
  - rewrite bind_ret. eauto 10.
Qed.

(** What a closure writes. *)
Lemma write_spec c r pre t post outbuf : c_ok c ->
  (forall o x, is_u32 o -> 0 <= x < MAX_FIELD -> c_mem c o x = mapped_mem r (pre ++ seqZ (t_start t) (t_step t) ++ post) o x) ->
  NoDup (pre ++ seqZ (t_start t) (t_step t) ++ post) -> task_ok r t -> r <= len -> computed_ok t outbuf -> has_client (t_node t) = true ->
  exists c', lambda_write out_arr has_client (t_node t) c (t_start t) (t_step t) outbuf = Ret c' /\ c_ok c' /\
    forall o x, is_u32 o -> 0 <= x < MAX_FIELD -> c_mem c' o x = mapped_mem r (pre ++ post) o x.
Proof.
  intros Hok Hm Hnd Ht Hr (B1 & B2 & B3) Hcl. destruct (task_range r t Ht Hr) as [_ Ro]. destruct Ht as (T1 & T2 & T3 & _).
  unfold lambda_write, worker_env. rewrite Hcl, bind_ret. unfold CopyFrom. change (4 =? 4) with true. cbn match.
  destruct (c_putchunk_law c out_arr (t_start t) (t_step t) outbuf Hok Ro) as (c' & -> & Hok' & Hst); [lia|done|].
  exists c'. split; [done|]. split; [done|]. intros o x Ho Hx. specialize (Hst o x Ho Hx). specialize (Hm o x Ho Hx).
  apply NoDup_app in Hnd as (_ & N1 & (_ & N2 & _)%NoDup_app).
  destruct (Z.eqb_spec o out_arr) as [->|Hne]; cbn [andb] in Hst.
  - case_test in Hst.
    + rewrite B3 in Hst by lia. injection Hst as <-. unfold mapped_mem. rewrite decide_True; [by rewrite Zplus_minus|].
      assert (x ∈ seqZ (t_start t) (t_step t)) as Hin by (apply elem_of_seqZ; lia). split; [done|]. split; [lia|].
      rewrite elem_of_app. intros [Hp|Hp]; [|by eapply N2]. apply (N1 x Hp). apply elem_of_app. by left.
    + rewrite Hst, Hm. unfold mapped_mem. apply decide_ext. rewrite !elem_of_app, elem_of_seqZ. split; intros (? & ? & Hn); (split; [done|split; [done|]]); intros Hn'; apply Hn; [destruct Hn'; auto|destruct Hn' as [?|[?|?]]; [auto|lia|auto]].
  - rewrite Hst, Hm. unfold mapped_mem. by rewrite !decide_False by (by intros [? _]).
Qed.

Lemma pool_outstanding p evs : pool_inv p evs -> NoDup evs.
Proof. intros [P1 P2 _ _ _]. rewrite P1 in P2. by apply NoDup_app in P2 as [? _]. Qed.

Lemma cells_at l1 t l2 : ((l1 ++ t :: l2) ≫= todo) = (l1 ≫= todo) ++ todo t ++ (l2 ≫= todo).
Proof. by rewrite bind_app, bind_cons. Qed.

(** ** The steps *)

Lemma submit_inv w i evs avg1 fresh p cnt t : map_inv w -> mw_pc w = Submitting i evs -> i < len ->
  map_avg len num_nodes 1 = Ret avg1 -> fresh ∉ events (mw_pool w) -> submit len num_nodes w fresh i avg1 = Ret (Some (p, cnt, t)) ->
  let w' := MapWorld (mw_env w) p cnt (tasks w ++ [t]) (signalled w)
    (if wait_now max_wait (evs ++ [t_event t]) then WaitingFor false (u32 (i + avg1)) (evs ++ [t_event t])
     else Submitting (u32 (i + avg1)) (evs ++ [t_event t])) in
  map_inv w' /\ map_left w' < map_left w.
Proof.
  intros HI Hpc Hi Havg1 Hfr Hsub w'. rewrite Havg in Havg1. injection Havg1 as <-. pose proof len_bounds as Hlb.
  destruct (map_avg_spec len num_nodes) as (avg' & Ea & Hav); [done|unfold MAX_FIELD in *; lia|].
  rewrite Havg in Ea. injection Ea as <-. destruct HI as [I1 I2 I3 I4 I5 I6 I7 I8 I9]. rewrite Hpc in *. cbn in I2, I4, I5, I6, I7.
  destruct (I8 Hi) as [Hq Hiev].
  destruct I7 as ((I7a & I7b) & I7c & I7d). assert (zlen evs < max_wait) as Hev.
  { destruct (Z.le_gt_cases (max_wait - 20) 0) as [Hw|Hw]; [rewrite (I7c Hw); change (zlen (@nil Z)) with 0; lia|specialize (I7d Hw); lia]. }
  destruct (FindEvent_spec (mw_pool w) evs fresh I6 Hfr Hev Hq) as [Ef Hp]. set (e := fresh) in *.
  unfold submit in Hsub. destruct (schedule_node (mw_cnt w)) as (cnt' & node & Es & Hnode). rewrite Es, bind_ret, Ef in Hsub.
  cbn [deref mbind outcome_bind] in Hsub. injection Hsub as <- <- <-.
  set (st := if u32 (i + avg) <? len then avg else u32 (len - i)) in *.
  assert (u32 (i + avg) = i + avg) as Eu by (apply u32_small; unfold MAX_FIELD in *; ranges).
  assert (st = Z.min (i + avg) len - i) as Est.
  { unfold st. rewrite Eu, (u32_small (len - i)) by (unfold MAX_FIELD in *; ranges). destruct (Z.ltb_spec (i + avg) len); lia. }
  assert (reach len (mw_pc w') = i + st) as Er by (unfold w'; cbn; case_match; cbn; lia).
  assert (outstanding (mw_pc w') = evs ++ [e]) as Eo by (unfold w'; cbn; by case_match).
  assert (tasks w' ≫= todo = (tasks w ≫= todo) ++ seqZ i st) as Et by (unfold w'; cbn; rewrite bind_app, bind_cons; cbn; by rewrite app_nil_r).
  assert (forall x, x ∈ (tasks w ≫= todo) -> x < i) as Hcells.
  { intros x (t & Hx & Ht)%list_elem_of_bind. rewrite Forall_forall in I4. destruct (I4 t Ht) as (T1 & T2 & T3 & _).
    unfold todo in Hx. destruct (t_phase t); [apply elem_of_seqZ in Hx; lia..|by apply elem_of_nil in Hx]. }
  split; [split|].
  - done.
  - intros o x Ho Hx. rewrite Er, Et. cbn. rewrite I2 by done. unfold mapped_mem. apply decide_ext. rewrite elem_of_app, elem_of_seqZ.
    split; intros (? & ? & Hn); (split; [done|]).
    + split; [lia|]. intros [?|?]; [done|lia].
    + assert (~ (i <= x < i + st)) by tauto. split; [lia|tauto].
  - rewrite Et. apply NoDup_app. split; [done|]. split; [|apply NoDup_seqZ]. intros x Hx Hx'. apply Hcells in Hx. apply elem_of_seqZ in Hx'. lia.
  - rewrite Er. unfold w'. cbn. apply Forall_app. split.
    + eapply Forall_impl; [exact I4|]. intros t (T1 & T2 & T3 & T4). split; [done|]. split; [done|]. split; [lia|done].
    + apply Forall_singleton. split; [done|]. cbn. lia.
  - rewrite Eo. unfold w'. cbn. rewrite fmap_app, <- I5. cbn. rewrite <- !app_assoc. apply Permutation_app_head, Permutation_app_comm.
  - rewrite Eo. exact Hp.
  - unfold w'. cbn. unfold wait_now. destruct (Z.leb_spec (max_wait - 20) 0); cbn [orb]; [cbn; lia|].
    rewrite zlen_app. change (zlen [e]) with 1. destruct (Z.eqb_spec (zlen evs + 1) (max_wait - 20)); cbn; [lia|].
    split; [lia|]. split; [lia|]. intros _. rewrite zlen_app. change (zlen [e]) with 1. lia.
  - unfold w'. cbn. unfold wait_now. rewrite Eu, zlen_app. change (zlen [e]) with 1. pose proof (zlen_nonneg evs).
    destruct (Z.leb_spec (max_wait - 20) 0); cbn [orb]; [nia|]. destruct (Z.eqb_spec (zlen evs + 1) (max_wait - 20)); [nia|].
    intros _. rewrite zlen_app. change (zlen [e]) with 1. split; [done|]. lia.
  - unfold w'. cbn. apply Forall_app. split; [done|]. apply Forall_singleton. by apply Hclient.
  - unfold map_left. rewrite Er, Eo. unfold w'. cbn [tasks mw_pc]. rewrite task_weight_app, zlen_app, Hpc. cbn [outstanding reach pc_weight].
    change (zlen [e]) with 1. change (task_weight [Task i st e _ Queued]) with 3. case_match; cbn [pc_weight]; lia.
Qed.

(** The tasks' own steps change neither the caller nor its pool. *)
Lemma task_step_inv w pre t t' post c sig : map_inv w -> tasks w = pre ++ t :: post -> t_event t' = t_event t -> weight t' < weight t ->
  c_ok c -> (forall o x, is_u32 o -> 0 <= x < MAX_FIELD -> c_mem c o x = mapped_mem (reach len (mw_pc w)) ((pre ≫= todo) ++ todo t' ++ (post ≫= todo)) o x) ->
  (todo t' = todo t \/ todo t' = []) -> task_ok (reach len (mw_pc w)) t' -> sig = signalled w -> t_node t' = t_node t ->
  let w' := MapWorld c (mw_pool w) (mw_cnt w) (pre ++ t' :: post) sig (mw_pc w) in map_inv w' /\ map_left w' < map_left w.
Proof.
  intros HI Ht He Hwt Hok Hm Htd Htok -> Hnode w'. destruct HI as [I1 I2 I3 I4 I5 I6 I7 I8 I9]. rewrite Ht in *. rewrite cells_at in I3. split; [split|].
  - done.
  - intros o x Ho Hx. unfold w'. cbn. rewrite cells_at. by apply Hm.
  - unfold w'. cbn. rewrite cells_at. destruct Htd as [->| ->]; [done|]. cbn. apply NoDup_app in I3 as (N1 & N2 & (_ & _ & N3)%NoDup_app).
    apply NoDup_app. split; [done|]. split; [|done]. intros x Hx Hx'. apply (N2 x Hx). apply elem_of_app. by right.
  - unfold w'. cbn. apply Forall_app in I4 as [F1 F2]. apply Forall_cons in F2 as [_ F2]. apply Forall_app. split; [done|]. by apply Forall_cons.
  - unfold w'. cbn. rewrite <- I5, !fmap_app, !fmap_cons. by rewrite He.
  - done.
  - done.
  - done.
  - unfold w'. cbn. rewrite Forall_app, Forall_cons in I9 |- *. by rewrite Hnode.
  - unfold map_left, w'. cbn [tasks mw_pc]. rewrite Ht, !task_weight_app. cbn. unfold task_weight. lia.
Qed.

Lemma task_client w pre t post : map_inv w -> tasks w = pre ++ t :: post -> has_client (t_node t) = true.
Proof. intros HI Ht. pose proof (mi_nodes _ HI) as Hn. rewrite Ht, Forall_app, Forall_cons in Hn. by destruct Hn as (_ & Hn & _). Qed.

Lemma compute_inv w pre t post c outbuf : map_inv w -> tasks w = pre ++ t :: post -> t_phase t = Queued ->
  lambda_compute arr func has_client (t_node t) (mw_env w) (t_start t) (t_step t) = Ret (c, outbuf) ->
  let w' := MapWorld c (mw_pool w) (mw_cnt w) (pre ++ set_phase t (Computed outbuf) :: post) (signalled w) (mw_pc w) in
  map_inv w' /\ map_left w' < map_left w.
Proof.
  intros HI Ht Hph Hc. pose proof (reach_bounds _ (mi_pc _ HI)) as Hr. pose proof (mi_tasks _ HI) as Hts. rewrite Ht in Hts.
  apply Forall_app in Hts as [_ Hts]. apply Forall_cons in Hts as [Htok _].
  assert (todo t = seqZ (t_start t) (t_step t)) as Htd by (unfold todo; by rewrite Hph).
  destruct (compute_spec (mw_env w) (reach len (mw_pc w)) (tasks w ≫= todo) t) as (c' & ob & E & Hok & Hs & Hco);
    [apply HI|apply HI|done|lia| |by eapply task_client|].
  { intros x Hx. rewrite Ht, cells_at, Htd, !elem_of_app. right. left. apply elem_of_seqZ. lia. }
  rewrite E in Hc. injection Hc as -> ->. apply (task_step_inv w pre t); try done.
  - unfold weight. by rewrite Hph.
  - intros o x Ho Hx. rewrite Hs by done. rewrite (mi_mem _ HI) by done. by rewrite Ht, cells_at, Htd.
  - left. by rewrite Htd.
  - destruct Htok as (T1 & T2 & T3 & _). done.
Qed.

Lemma write_inv w pre t post c outbuf : map_inv w -> tasks w = pre ++ t :: post -> t_phase t = Computed outbuf ->
  lambda_write out_arr has_client (t_node t) (mw_env w) (t_start t) (t_step t) outbuf = Ret c ->
  let w' := MapWorld c (mw_pool w) (mw_cnt w) (pre ++ set_phase t Written :: post) (signalled w) (mw_pc w) in
  map_inv w' /\ map_left w' < map_left w.
Proof.
  intros HI Ht Hph Hc. pose proof (reach_bounds _ (mi_pc _ HI)) as Hr. pose proof (mi_tasks _ HI) as Hts. rewrite Ht in Hts.
  apply Forall_app in Hts as [_ Hts]. apply Forall_cons in Hts as [Htok _].
  assert (todo t = seqZ (t_start t) (t_step t)) as Htd by (unfold todo; by rewrite Hph).
  pose proof (mi_cells _ HI) as Hnd. pose proof (mi_mem _ HI) as Hmem. rewrite Ht, cells_at, Htd in Hnd.
  assert (computed_ok t outbuf) as Hco by (destruct Htok as (_ & _ & _ & Hco); by rewrite Hph in Hco).
  destruct (write_spec (mw_env w) (reach len (mw_pc w)) (pre ≫= todo) t (post ≫= todo) outbuf) as (c' & E & Hok & Hm); try done; [apply HI| |lia|by eapply task_client|].
  { intros o x Ho Hx. rewrite Hmem by done. by rewrite Ht, cells_at, Htd. }
  rewrite E in Hc. injection Hc as ->. apply (task_step_inv w pre t); try done.
  - unfold weight. by rewrite Hph.
  - by right.
  - destruct Htok as (T1 & T2 & T3 & _). done.
Qed.

Lemma set_inv w pre t post : map_inv w -> tasks w = pre ++ t :: post -> t_phase t = Written ->
  let w' := MapWorld (mw_env w) (mw_pool w) (mw_cnt w) (pre ++ post) ({[t_event t]} ∪ signalled w) (mw_pc w) in
  map_inv w' /\ map_left w' < map_left w.
Proof.
  intros HI Ht Hph w'. pose proof (pool_outstanding _ _ (mi_pool _ HI)) as Hnd. destruct HI as [I1 I2 I3 I4 I5 I6 I7 I8 I9]. rewrite Ht in *.
  assert (todo t = []) as Htd by (unfold todo; by rewrite Hph). rewrite cells_at, Htd in I3. rewrite <- I5, fmap_app, fmap_cons in Hnd. split; [split|].
  - done.
  - intros o x Ho Hx. unfold w'. cbn. rewrite I2 by done. by rewrite cells_at, Htd, bind_app.
  - unfold w'. cbn. by rewrite bind_app.
  - unfold w'. cbn. apply Forall_app in I4 as [F1 F2]. apply Forall_cons in F2 as [_ F2]. by apply Forall_app.
  - unfold w'. cbn. rewrite <- I5, !fmap_app, fmap_cons.
    assert (t_event t ∉ signalled w) as Hns.
    { intros Hin. apply NoDup_app in Hnd as (_ & Hn & _). apply (Hn (t_event t)); [|by apply elem_of_elements].
      apply elem_of_app. right. by left. }
    rewrite elements_union_singleton by done. rewrite <- !app_assoc. apply Permutation_app_head. cbn. symmetry. apply Permutation_middle.
  - done.
  - done.
  - done.
  - unfold w'. cbn. rewrite Forall_app, Forall_cons in I9. destruct I9 as (? & _ & ?). by apply Forall_app.
  - unfold map_left, w'. cbn [tasks mw_pc]. rewrite Ht, !task_weight_app. cbn. unfold task_weight, weight. rewrite Hph. lia.
Qed.

(** ** The caller's waiting *)

Lemma wait_inv w last i e evs : map_inv w -> mw_pc w = WaitingFor last i (e :: evs) -> e ∈ signalled w ->
  let w' := with_caller w (give_back (mw_pool w) e) (signalled w ∖ {[e]}) (WaitingFor last i evs) in map_inv w' /\ map_left w' < map_left w.
Proof.
  intros HI Hpc He w'. destruct HI as [I1 I2 I3 I4 I5 I6 I7 I8 I9]. rewrite Hpc in *. cbn in *. split; [split|]; try done.
  - unfold w'. cbn. rewrite (union_difference_singleton_L e (signalled w) He), elements_union_singleton in I5 by set_solver.
    symmetry in I5. apply Permutation_cons_app_inv in I5. symmetry. exact I5.
  - by apply give_back_spec.
  - unfold map_left, w'. cbn [tasks mw_pc with_caller]. rewrite Hpc. cbn [outstanding reach pc_weight]. rewrite zlen_cons. lia.
Qed.

Lemma pc_inv w pc : map_inv w -> outstanding pc = outstanding (mw_pc w) -> reach len pc = reach len (mw_pc w) -> pc_ok pc ->
  pc_weight pc < pc_weight (mw_pc w) ->
  (match pc with Submitting i evs => len <= i | WaitingFor _ i _ => len <= i | Mapped => True end) ->
  let w' := with_caller w (mw_pool w) (signalled w) pc in map_inv w' /\ map_left w' < map_left w.
Proof.
  intros [I1 I2 I3 I4 I5 I6 I7 I8 I9] Ho Hr Hpc Hlt Hfirst w'.
  split; [split; unfold w'; cbn; rewrite ?Ho, ?Hr; try done; destruct pc; try done; intros ?; lia|].
  unfold map_left, w'. cbn [tasks mw_pc with_caller]. rewrite Ho, Hr. lia.
Qed.

Lemma map_step_inv w w' : map_inv w -> step w w' -> map_inv w' /\ map_left w' < map_left w.
Proof.
  intros HI Hs. destruct Hs as [w i evs avg1 fresh p cnt t Hpc Hi Ha Hf Hs|w i evs Hpc Hi|w last i e evs Hpc He|w last i Hpc|w pre t post c ob Ht Hph Hc
    |w pre t post c ob Ht Hph Hc|w pre t post Ht Hph].
  - by apply (submit_inv w i evs avg1 fresh).
  - pose proof (mi_pc _ HI) as Hok. rewrite Hpc in Hok. cbn in Hok. apply pc_inv; rewrite ?Hpc; cbn; try done. lia.
  - by apply wait_inv.
  - pose proof (mi_pc _ HI) as Hok. pose proof (mi_first _ HI) as H1st. rewrite Hpc in Hok, H1st. cbn in Hok.
    destruct last; apply pc_inv; rewrite ?Hpc; cbn; try done; [lia|]. split; [lia|]. done.
  - by apply (compute_inv w pre t post c ob).
  - by apply (write_inv w pre t post c ob).
  - by apply set_inv.
Qed.

(** Until [Map] is left, something can be done. *)
Lemma map_progress w : map_inv w -> mw_pc w <> Mapped -> exists w', step w w'.
Proof.
  intros HI Hne. pose proof (reach_bounds _ (mi_pc _ HI)) as Hr. destruct (tasks w) as [|t post] eqn:Et.
  - destruct (mw_pc w) as [i evs|last i [|e evs]|] eqn:Hpc; [| | |done].
    + destruct (Z.lt_ge_cases i len) as [Hi|Hi]; [|eexists; by eapply map_loop_end].
      pose proof (mi_pool _ HI) as Hp. pose proof (mi_pc _ HI) as Hok. rewrite Hpc in Hp, Hok. cbn in Hp, Hok. destruct Hok as (_ & Ho1 & Ho2).
      assert (zlen evs < max_wait) as Hev.
      { destruct (Z.le_gt_cases (max_wait - 20) 0) as [Hw|Hw]; [rewrite (Ho1 Hw); change (zlen (@nil Z)) with 0; lia|specialize (Ho2 Hw); lia]. }
      pose proof (mi_first _ HI) as Hq0. rewrite Hpc in Hq0. destruct (Hq0 Hi) as [Hq _].
      set (new := fresh (list_to_set (events (mw_pool w)) : gset Z)).
      assert (new ∉ events (mw_pool w)) as Hf.
      { pose proof (is_fresh (list_to_set (events (mw_pool w)) : gset Z)) as Hf. by rewrite elem_of_list_to_set in Hf. }
      destruct (FindEvent_spec _ _ _ Hp Hf Hev Hq) as [E _]. destruct (schedule_node (mw_cnt w)) as (cnt' & node & Es & _).
      eexists. eapply (map_submit _ _ _ _ _ _ _ w i evs avg new); [done|done|done|done|].
      unfold submit. rewrite Es, bind_ret, E. reflexivity.
    + eexists. by eapply map_waited.
    + eexists. eapply map_wait; [done|]. pose proof (mi_set _ HI) as Hset. rewrite Et, Hpc in Hset. cbn in Hset.
      apply elem_of_elements. rewrite Hset. by left.
  - pose proof (mi_tasks _ HI) as Hts. rewrite Et in Hts. apply Forall_cons in Hts as [Htok _]. destruct (t_phase t) as [|ob|] eqn:Hph.
    + destruct (compute_spec (mw_env w) (reach len (mw_pc w)) (tasks w ≫= todo) t) as (c' & ob & E & _); [apply HI|apply HI|done|lia| |by apply (task_client w [] t post)|].
      { intros x Hx. rewrite Et. cbn. unfold todo at 1. rewrite Hph. apply elem_of_app. left. apply elem_of_seqZ. lia. }
      eexists. by eapply (map_compute _ _ _ _ _ _ _ w [] t post).
    + pose proof (mi_mem _ HI) as Hm. pose proof (mi_cells _ HI) as Hc. rewrite Et in Hm, Hc. assert (todo t = seqZ (t_start t) (t_step t)) as Htd by (unfold todo; by rewrite Hph).
      rewrite bind_cons, Htd in Hm, Hc.
      destruct (write_spec (mw_env w) (reach len (mw_pc w)) [] t (post ≫= todo) ob) as (c' & E & _); try done; [apply HI|lia| |by apply (task_client w [] t post)|].
      { destruct Htok as (_ & _ & _ & Hco). by rewrite Hph in Hco. }
      eexists. by eapply (map_write _ _ _ _ _ _ _ w [] t post).
    + eexists. by eapply (map_set _ _ _ _ _ _ _ w [] t post).
Qed.
End map.

Lemma map_start_inv {C S : Type} `{DSMCacheLaws C S} arr out_arr len func max_wait has_client avg (c : C) cnt :
  range_ok arr 0 len -> 1 <= max_wait < 2 ^ 31 ->
  c_ok c -> map_inv arr out_arr len func max_wait has_client avg (c_mem c) (map_start max_wait c cnt).
Proof.
  intros (_ & _ & Hl & _) Hw Hc. split; cbn; try done.
  - intros o x Ho Hx. unfold mapped_mem. rewrite decide_False; [done|]. lia.
  - apply NoDup_nil_2.
  - split; cbn; try done; [apply NoDup_nil_2|change (zlen (@nil Z)) with 0; lia].
  - split; [lia|]. split; [done|]. change (zlen (@nil Z)) with 0. lia.
  - intros _. change (zlen (@nil Z)) with 0. split; [done|lia].
Qed.

(** ** Workers without clients *)

(** No closure is begun, and the caller waits for one. *)
Definition stuck_inv {C} (len : Z) (w : map_world C) : Prop :=
  Forall (fun t => t_phase t = Queued) (tasks w) /\ signalled w = ∅ /\
  match mw_pc w with
  | Submitting i evs => i < len \/ evs <> []
  | WaitingFor _ _ evs => evs <> []
  | Mapped => False
  end.

Lemma stuck_step {C S : Type} `{SoStorage S} `{DSMCache C S} arr out_arr len func num_nodes max_wait has_client (w w' : map_world C) :
  (forall j, has_client j = false) -> stuck_inv len w ->
  map_step arr out_arr len func num_nodes max_wait has_client w w' -> stuck_inv len w'.
Proof.
  intros Hno (Hq & Hs & Hpc) Hstep.
  assert (forall pre t post, tasks w = pre ++ t :: post -> t_phase t = Queued) as Ht.
  { intros pre t post Et. rewrite Et, Forall_app, Forall_cons in Hq. apply Hq. }
  destruct Hstep as [w i evs avg fresh p cnt t E Hi Ha Hf E2|w i evs E Hi|w last i e evs E He|w last i E|w pre t post c ob Et Hph Hc
    |w pre t post c ob Et Hph Hc|w pre t post Et Hph]; unfold stuck_inv, with_caller; cbn [tasks signalled mw_pc].
  - split; [|split; [done|]].
    + apply Forall_app. split; [done|]. apply Forall_singleton. unfold submit in E2. apply bind_Ret_inv in E2 as ([cnt' node] & _ & E2).
      destruct (FindEvent (mw_pool w) fresh) as [[p' r]|]; [|done]. apply bind_Ret_inv in E2 as (eve & _ & E2). by injection E2 as _ _ <-.
    + destruct (wait_now max_wait (evs ++ [t_event t])); [|right]; by destruct evs.
  - rewrite E in Hpc. split; [done|]. split; [done|]. destruct Hpc; [lia|done].
  - rewrite Hs in He. by apply not_elem_of_empty in He.
  - by rewrite E in Hpc.
  - unfold lambda_compute, worker_env in Hc. by rewrite Hno in Hc.
  - rewrite (Ht pre t post Et) in Hph. done.
  - rewrite (Ht pre t post Et) in Hph. done.
Qed.

Lemma stuck_run {C S : Type} `{SoStorage S} `{DSMCache C S} arr out_arr len func num_nodes max_wait has_client (w w' : map_world C) :
  (forall j, has_client j = false) -> stuck_inv len w ->
  rtc (map_step arr out_arr len func num_nodes max_wait has_client) w w' -> stuck_inv len w'.
Proof. intros Hno Hw Hrun. induction Hrun as [|w w1 w' Hs _ IH]; [done|]. apply IH. by eapply stuck_step. Qed.


Section witness.
Import MapServer MapServerFacts.

End witness.
