(* ===== verification/Checkpoint.v ===== *)
(** Checkpoints, [Dogee/DogeeCheckpoint.cpp] and [include/DogeeCheckpoint.h]: a node
    writes its globals, its objects and its checkpoint object to a file and reads them
    back after a restart. *)
From S2P Require Import Prelude Storage DirectoryCache ObjectModel.

(** * Streams *)

(** A binary file is its bytes; [os.write] of a [uint32_t] appends four. *)
Definition write_word (os : list Z) (w : Z) : list Z := os ++ bytes_of_word w.
(** [is.read] of four bytes; at the end of the file the variable stays uninitialised. *)
Definition read_word (inp : list Z) : outcome (Z * list Z) :=
  match inp with
  | b0 :: b1 :: b2 :: b3 :: inp => Ret (b0 + 256 * b1 + 65536 * b2 + 16777216 * b3, inp)
  | _ => Abort
  end.
Definition read_bytes (n : Z) (inp : list Z) : outcome (list Z * list Z) :=
  if n <=? zlen inp then Ret (take (Z.to_nat n) inp, drop (Z.to_nat n) inp) else Abort.

(** * Members *)

(** [ClassSerializer<T>]: the sizes of the members that [RegMember] registered, in
    order; the members are their bytes. *)
Definition RegMember (members : list Z) (size : Z) : list Z * Z := (members ++ [size], zlen members + 1).
Definition ClassSerialize (os : list Z) (obj : list (list Z)) : list Z := foldl app os obj.
Definition ClassDeserialize (members : list Z) (inp : list Z) : outcome (list (list Z) * list Z) :=
  for_each members (fun size '(obj, inp) =>
    '(m, inp) ← read_bytes size inp;
    Ret (obj ++ [m], inp)) ([], inp).

(** * Objects *)

Section checkpoint.
Context {S : Type} `{SoStorage S}.

Definition fetch_size : Z := DSM_CACHE_BLOCK_SIZE * 256.
Definition MIN (a b : Z) : Z := if a <? b then a else b.
(** The iterations that [size] words take, and one. *)
Definition fetch_fuel (size : Z) : nat := Z.to_nat (size / fetch_size) + 2.

Definition DumpSharedMemory (s : S) (okey size flag : Z) (os : list Z) : outcome (list Z) :=
  let os := write_word (write_word (write_word os okey) size) flag in
  '(_, _, os) ← while (fetch_fuel size) (fun '(i, _, _) => i <? size)
    (fun '(i, buf, os) =>
       let the_size := MIN fetch_size (u32 (size - i)) in
       '(_, buf) ← so_getchunk s okey i the_size buf;
       os ← for_range 0 the_size (fun j os => w ← rd buf j; Ret (write_word os w)) os;
       Ret (u32 (i + fetch_size), buf, os))
    (0, replicate (Z.to_nat fetch_size) 0, os);
  Ret os.

Definition RestoreSharedMemory (p : process S) (inp : list Z) : outcome (process S * list Z * Z) :=
  '(okey, inp) ← read_word inp;
  '(size, inp) ← read_word inp;
  '(flag, inp) ← read_word inp;
  '(_, _, inp, s) ← while (fetch_fuel size) (fun '(i, _, _, _) => i <? size)
    (fun '(i, buf, inp, s) =>
       let the_size := MIN fetch_size (u32 (size - i)) in
       '(buf, inp) ← for_range 0 the_size (fun j '(buf, inp) =>
         '(w, inp) ← read_word inp;
         buf ← wr buf j w;
         Ret (buf, inp)) (buf, inp);
       '(s, _) ← so_putchunk s okey i the_size buf;
       Ret (u32 (i + fetch_size), buf, inp, s))
    (0, replicate (Z.to_nat fetch_size) 0, inp, env p);
  let '(s, _) := so_newobj s okey flag size in
  Ret (PushObject (with_env p s) okey, inp, okey).

(** * Nodes *)

(** What a node has for checkpoints: its process, [gloabl_fid], the checkpoint object's
    members with [DogeeEnv::checkboject], [checkpoint_cnt], [checkpointlock], the files
    [name.node.cnt.checkpoint] and [name.master]. *)
Record ckpt_node := CkptNode {
  proc : process S;
  global_size : Z;
  members : list Z;
  checkobject : option (list (list Z));
  checkpoint_cnt : Z;
  checkpointlock : bool;
  files : gmap Z (list Z);
  master_file : option Z;
}.

Definition with_files (n : ckpt_node) (cnt : Z) (fs : gmap Z (list Z)) (mf : option Z) : ckpt_node :=
  CkptNode (proc n) (global_size n) (members n) (checkobject n) cnt (checkpointlock n) fs mf.

(** What [funcCheckPoint] and [funcRestart] do is the application's. *)
Context (is_master : bool) (funcCheckPoint funcRestart : ckpt_node -> outcome ckpt_node).

(** [remove_checkpoint_files]. *)
Definition remove_checkpoint_files (n : ckpt_node) : ckpt_node :=
  with_files n (checkpoint_cnt n)
    (delete (checkpoint_cnt n - 2) (delete (checkpoint_cnt n - 1) (files n))) None.

(** The part of the file before the checkpoint object. *)
Definition dump_objects (n : ckpt_node) : outcome (list Z) :=
  let s := env (proc n) in
  f ← (if is_master then DumpSharedMemory s 0 (global_size n) 0xFFFFFFFF [] else Ret []);
  let f := write_word f (u32 (GetObjectNumber (proc n))) in
  ForEachObject (proc n) (fun key f =>
    '(_, (flag, size)) ← so_getinfo s key (0, 0);
    DumpSharedMemory s key size flag f) f.

(** [DoCheckPoint]; the result is whether the caller has to release the lock. *)
Definition DoCheckPoint (n : ckpt_node) : outcome (ckpt_node * bool) :=
  match checkobject n with
  | None => Ret (n, false)
  | Some _ =>
      if checkpointlock n then Ret (n, false)
      else
        let n := CkptNode (proc n) (global_size n) (members n) (checkobject n) (checkpoint_cnt n) true
                   (files n) (master_file n) in
        let path := checkpoint_cnt n in
        f ← dump_objects n;
        n ← funcCheckPoint n;
        let f := ClassSerialize f (default [] (checkobject n)) in
        let cnt := checkpoint_cnt n in
        let fs := delete (cnt - 2) (<[path := f]> (files n)) in
        Ret (with_files n (s32 (cnt + 1)) fs (if is_master then Some cnt else master_file n), true)
  end.

Definition ResetCheckpointLock (n : ckpt_node) : ckpt_node :=
  CkptNode (proc n) (global_size n) (members n) (checkobject n) (checkpoint_cnt n) false
    (files n) (master_file n).

(** [InitSharedConst] has no effect on the shared memory. *)
Definition DoRestart (n : ckpt_node) : outcome ckpt_node :=
  match checkobject n with
  | None => Ret n
  | Some _ =>
      match files n !! checkpoint_cnt n with
      | None => Abort
      | Some f =>
          let p := proc n in
          '(p, f) ← (if is_master then
                       '(p, f, modulekey) ← RestoreSharedMemory p f;
                       _ ← c_assert (modulekey =? 0);
                       Ret (p, f)
                     else Ret (p, f));
          '(numobj, f) ← read_word f;
          '(p, f) ← for_range 0 (s32 numobj)
            (fun _ '(p, f) => '(p, f, _) ← RestoreSharedMemory p f; Ret (p, f)) (p, f);
          '(obj, f) ← ClassDeserialize (members n) f;
          funcRestart (CkptNode p (global_size n) (members n) (Some obj) (s32 (checkpoint_cnt n + 1))
                         (checkpointlock n) (files n) (master_file n))
      end
  end.

(** [MasterCheckCheckPoint]: the number of the last checkpoint, -1 without one. *)
Definition MasterCheckCheckPoint (n : ckpt_node) : ckpt_node * Z :=
  match master_file n with
  | None => (n, -1)
  | Some cnt => (with_files n cnt (files n) (master_file n), cnt)
  end.

(** [DCheckpointBarrier::Enter] around the two passages of the barrier: what the node
    does before the first and between the two. *)
Definition barrier_before (n : ckpt_node) : outcome (ckpt_node * bool) :=
  if is_master then Ret (n, false) else DoCheckPoint n.
Definition barrier_between (n : ckpt_node) (needrelease : bool) : outcome ckpt_node :=
  if is_master then
    '(n, needrelease) ← DoCheckPoint n;
    Ret (if needrelease : bool then ResetCheckpointLock n else n)
  else Ret (if needrelease then ResetCheckpointLock n else n).
End checkpoint.
Arguments ckpt_node S : clear implicits.

(** * A round of the barrier *)

Section barrier.
Context {S : Type} `{SoStorage S}.
(** Where a node's thread is in [Enter]: outside, in the first passage of the barrier,
    between the two, in the second. *)
Inductive passage := Outside | First | Between | Second.
Record party := Party { node : ckpt_node S; at_passage : passage; needrelease : bool }.
Definition move (w : passage) (p : party) : party := Party (node p) w (needrelease p).

(** The parties are the nodes, the master first; the barrier opens when all are in it. *)
Inductive enter_step (func : nat -> ckpt_node S -> outcome (ckpt_node S)) : list party -> list party -> Prop :=
| enter_first i ps p n r : ps !! i = Some p -> at_passage p = Outside ->
    barrier_before (i =? 0)%nat (func i) (node p) = Ret (n, r) ->
    enter_step func ps (<[i := Party n First r]> ps)
| pass_first ps : Forall (fun p => at_passage p = First) ps ->
    enter_step func ps (move Between <$> ps)
| enter_second i ps p n : ps !! i = Some p -> at_passage p = Between ->
    barrier_between (i =? 0)%nat (func i) (node p) (needrelease p) = Ret n ->
    enter_step func ps (<[i := Party n Second (needrelease p)]> ps)
| pass_second ps : Forall (fun p => at_passage p = Second) ps ->
    enter_step func ps (move Outside <$> ps).
End barrier.
Arguments party S : clear implicits.
