(* ===== verification/CheckpointFacts.v ===== *)
(** A checkpoint, restored, gives back what the node had: the words of its objects, its
    checkpoint object, and on the master all globals but the last. *)
From stdpp Require Import sorting.
From S2P Require Import Prelude Storage Memcached MemcachedFacts DirectoryCache ObjectModel ObjectFacts Checkpoint.

(** * Streams *)

Lemma read_word_bytes w rest : is_u32 w -> read_word (bytes_of_word w ++ rest) = Ret (w, rest).
Proof. intros Hw. unfold bytes_of_word. cbn. f_equal. f_equal. by apply word_of_bytes. Qed.

Lemma bytes_of_words_app ws ws' : bytes_of_words (ws ++ ws') = bytes_of_words ws ++ bytes_of_words ws'.
Proof. apply flat_map_app. Qed.

(** The words [f] of an object from 0 on. *)
Definition words_of (f : Z -> Z) (n : Z) : list Z := f <$> seqZ 0 n.

Lemma zlen_words_of f n : 0 <= n -> zlen (words_of f n) = n.
Proof. intros Hn. unfold words_of, zlen. rewrite length_fmap, length_seqZ. lia. Qed.

Lemma zlook_words_of f n j : 0 <= j < n -> (words_of f n).[j] = Some (f j).
Proof.
  intros Hj. rewrite zlook_lookup by lia. unfold words_of. rewrite list_lookup_fmap, lookup_seqZ_lt by lia.
  cbn. by rewrite Z2Nat.id by lia.
Qed.

Lemma words_of_snoc f n : 0 <= n -> words_of f (n + 1) = words_of f n ++ [f n].
Proof.
  intros Hn. unfold words_of. rewrite seqZ_app by lia. by rewrite fmap_app.
Qed.

Lemma words_of_ext f g n : (forall j, 0 <= j < n -> f j = g j) -> words_of f n = words_of g n.
Proof.
  intros Hfg. unfold words_of. apply list_fmap_ext. intros i x Hx%list_elem_of_lookup_2%elem_of_seqZ. apply Hfg. lia.
Qed.

Section dump.
Context {S : Type} `{SoReliable S} `{!SoNewObj S}.

Lemma fetch_size_val : fetch_size = 8192.
Proof. reflexivity. Qed.

(** The loop over the fetches of an object of [size] words. *)
Lemma fetch_loop {T} (idx : T -> Z) (I : Z -> T -> Prop) (cond : T -> bool) (body : T -> outcome T) size (t0 : T) :
  0 <= size < 2 ^ 32 - 8192 ->
  (forall t, cond t = (idx t <? size)) ->
  (forall t, 0 <= idx t < size -> I (idx t) t -> exists t', body t = Ret t' /\
     idx t' = u32 (idx t + fetch_size) /\ I (Z.min size (idx t + fetch_size)) t') ->
  idx t0 = 0 -> I 0 t0 -> exists t', while (fetch_fuel size) cond body t0 = Ret t' /\ I size t'.
Proof.
  intros Hsize Hcond Hbody Hidx0 HI. rewrite fetch_size_val in *.
  destruct (while_rule (fun t => 0 <= idx t < size + 8192 /\ I (Z.min size (idx t)) t)
    (fun t => Z.to_nat ((size + 8191 - idx t) / 8192)) cond body (fetch_fuel size) t0) as (t' & E & (Hi & HI') & Hc).
  - intros t (Hi & HI') Hc. rewrite Hcond in Hc. apply Z.ltb_lt in Hc. rewrite Z.min_r in HI' by lia.
    destruct (Hbody t) as (t' & -> & Hidx & HI2); [lia|done|]. exists t'. split; [done|].
    rewrite u32_small in Hidx by (unfold is_u32; lia). rewrite Hidx. split; [split; [lia|done]|].
    replace (size + 8191 - idx t) with (size + 8191 - (idx t + 8192) + 1 * 8192) by lia. rewrite Z.div_add by lia.
    assert (0 <= (size + 8191 - (idx t + 8192)) / 8192) by (apply Z.div_pos; lia). lia.
  - rewrite Hidx0, Z.min_r by lia. split; [lia|done].
  - unfold fetch_fuel. rewrite fetch_size_val, Hidx0, Z.sub_0_r. replace (size + 8191) with (size - 1 + 1 * 8192) by lia.
    rewrite Z.div_add by lia. assert ((size - 1) / 8192 <= size / 8192) by (apply Z.div_le_mono; lia).
    assert (0 <= size / 8192) by (apply Z.div_pos; lia). lia.
  - exists t'. split; [done|]. rewrite Hcond in Hc. apply Z.ltb_ge in Hc. by rewrite Z.min_l in HI' by lia.
Qed.

Lemma the_size_val size i : 0 <= i < size -> size < 2 ^ 32 ->
  i + MIN fetch_size (u32 (size - i)) = Z.min size (i + fetch_size) /\ 0 < MIN fetch_size (u32 (size - i)) <= 8192.
Proof.
  intros Hi Hs. rewrite u32_small by (unfold is_u32; lia). unfold MIN. rewrite fetch_size_val. case_test; lia.
Qed.

(** The file that [DumpSharedMemory] appends for an object whose words are [f]. *)
Definition object_bytes (okey size flag : Z) (f : Z -> Z) : list Z :=
  bytes_of_words ([okey; size; flag] ++ words_of f size).

Lemma dump_spec (s : S) okey size flag os : so_ok s -> is_u32 okey -> 0 <= size <= MAX_FIELD ->
  DumpSharedMemory s okey size flag os = Ret (os ++ object_bytes okey size flag (so_mem s okey)).
Proof.
  intros Hs Hk Hsize. unfold MAX_FIELD in Hsize. unfold DumpSharedMemory, write_word.
  set (os1 := ((os ++ bytes_of_word okey) ++ bytes_of_word size) ++ bytes_of_word flag).
  match goal with |- context [while ?fu ?c ?b ?st] =>
    destruct (fetch_loop (T := Z * list Z * list Z) (fun t => fst (fst t))
      (fun i t => zlen (snd (fst t)) = 8192 /\ snd t = os1 ++ bytes_of_words (words_of (so_mem s okey) i)) c b size st)
      as ([[i buf] os2] & -> & _ & E) end.
  - lia.
  - by intros [[i buf] os2].
  - intros [[i buf] os2]. cbn [fst snd]. intros Hi (Hl & ->).
    destruct (the_size_val size i Hi) as [Hend Hn]; [lia|]. set (n := MIN fetch_size (u32 (size - i))) in *.
    destruct (so_getchunk_law s okey i n buf) as (buf' & -> & Hl' & Hb');
      [done|unfold range_ok, MAX_FIELD; split; [done|lia]|lia|lia|]. cbn [mbind outcome_bind].
    destruct (for_range_rule (fun j os => os = os1 ++ bytes_of_words (words_of (so_mem s okey) (i + j))) 0 n
      (fun j os => w ← rd buf' j; Ret (os ++ bytes_of_word w))
      (os1 ++ bytes_of_words (words_of (so_mem s okey) i))) as (os2 & -> & ->).
    + lia.
    + intros j os2 Hj ->. rewrite (rd_ok buf' j (so_mem s okey (i + j))).
      2: { rewrite Hb'. by rewrite (proj2 (andb_true_iff _ _)) by lia. }
      eexists. split; [done|]. rewrite Z.add_assoc, words_of_snoc by lia. rewrite bytes_of_words_app, app_assoc.
      by rewrite bytes_of_words_one.
    + by rewrite Z.add_0_r.
    + cbn [mbind outcome_bind]. eexists. split; [done|]. cbn [fst snd]. split; [done|]. split; [lia|]. by rewrite Hend.
  - done.
  - cbn [fst snd]. split; [by rewrite zlen_replicate|]. change (words_of (so_mem s okey) 0) with (@nil Z).
    change (bytes_of_words []) with (@nil Z). by rewrite app_nil_r.
  - cbn [mbind outcome_bind fst snd] in *. rewrite E. unfold object_bytes, os1. rewrite bytes_of_words_app.
    cbn [bytes_of_words flat_map]. by rewrite <- !app_assoc.
Qed.
End dump.

Lemma words_of_cons f n : 0 < n -> words_of f n = f 0 :: words_of (fun j => f (1 + j)) (n - 1).
Proof.
  intros Hn. unfold words_of. rewrite seqZ_cons by lia. cbn [fmap list_fmap]. f_equal.
  rewrite <- (fmap_add_seqZ 1 0), <- list_fmap_compose. by replace (Z.pred n) with (n - 1) by lia.
Qed.

Section restore.
Context {S : Type} `{SoReliable S} `{!SoNewObj S}.

(** The words of an object from [i] on, in the file. *)
Definition bytes_from (f : Z -> Z) (i size : Z) : list Z := bytes_of_words (words_of (fun j => f (i + j)) (size - i)).

Lemma read_next f i size rest : 0 <= i < size -> is_u32 (f i) ->
  read_word (bytes_from f i size ++ rest) = Ret (f i, bytes_from f (i + 1) size ++ rest).
Proof.
  intros Hi Hf. unfold bytes_from. rewrite words_of_cons by lia. rewrite bytes_of_words_cons, <- app_assoc, Z.add_0_r.
  rewrite read_word_bytes by done. do 3 f_equal. replace (size - i - 1) with (size - (i + 1)) by lia.
  f_equal. apply words_of_ext. intros j _. f_equal. lia.
Qed.

Definition restored (mem mem' : Z -> Z -> Z) (okey n : Z) (f : Z -> Z) : Prop :=
  forall o f', is_u32 o -> 0 <= f' < MAX_FIELD ->
    mem' o f' = if (o =? okey) && (f' <? n) then f f' else mem o f'.

Lemma restore_spec (p : process S) okey size flag f rest : so_ok (env p) -> is_u32 okey -> is_u32 flag ->
  0 <= size <= MAX_FIELD -> (forall j, 0 <= j < size -> is_u32 (f j)) -> exists s',
  RestoreSharedMemory p (object_bytes okey size flag f ++ rest) = Ret (PushObject (with_env p s') okey, rest, okey) /\
  so_ok s' /\ restored (so_mem (env p)) (so_mem s') okey size f.
Proof.
  intros Hs Hk Hfl Hsize Hf. pose proof Hsize as Hsz. unfold MAX_FIELD in Hsz.
  unfold RestoreSharedMemory, object_bytes. cbn [app]. rewrite !bytes_of_words_cons, <- !app_assoc.
  rewrite read_word_bytes by done. cbn [mbind outcome_bind]. rewrite read_word_bytes by (unfold is_u32; lia).
  cbn [mbind outcome_bind]. rewrite read_word_bytes by done. cbn [mbind outcome_bind].
  match goal with |- context [while ?fu ?c ?b ?st] =>
    destruct (fetch_loop (T := Z * list Z * list Z * S) (fun t => fst (fst (fst t)))
      (fun i t => zlen (snd (fst (fst t))) = 8192 /\ Forall is_u32 (snd (fst (fst t))) /\
         snd (fst t) = bytes_from f i size ++ rest /\ so_ok (snd t) /\
         restored (so_mem (env p)) (so_mem (snd t)) okey i f) c b size st)
      as ([[[i buf] inp] s'] & -> & _ & _ & E & Hs' & Hm) end.
  - lia.
  - by intros [[[i buf] inp] s'].
  - intros [[[i buf] inp] s1]. cbn [fst snd]. intros Hi (Hl & Hu & -> & Hs1 & Hm1).
    destruct (the_size_val size i Hi) as [Hend Hn]; [lia|]. set (n := MIN fetch_size (u32 (size - i))) in *.
    destruct (for_range_rule (S := list Z * list Z) (fun j t => zlen (fst t) = 8192 /\ Forall is_u32 (fst t) /\
        (forall k, 0 <= k < j -> (fst t).[k] = Some (f (i + k))) /\ snd t = bytes_from f (i + j) size ++ rest) 0 n
      (fun j '(buf, inp) => '(w, inp) ← read_word inp; buf ← wr buf j w; Ret (buf, inp))
      (buf, bytes_from f i size ++ rest)) as ([buf2 inp2] & -> & Hl2 & Hu2 & Hb2 & E2).
    + lia.
    + intros j [b inp] Hj. cbn [fst snd]. intros (Hl1 & Hu1 & Hb1 & ->). rewrite read_next by (lia || (apply Hf; lia)).
      cbn [mbind outcome_bind]. destruct (wr_ok b j (f (i + j))) as (b' & -> & Hl' & Hb'); [lia|]. cbn [mbind outcome_bind].
      eexists. split; [done|]. cbn [fst snd]. split; [lia|]. split.
      { apply Forall_zlook. intros k x. rewrite Hb'. case_test; [intros [= <-]; apply Hf; lia|].
        intros Hx. exact (zlook_Forall is_u32 _ _ _ Hu1 Hx). }
      split; [|by rewrite Z.add_assoc]. intros k Hk'. rewrite Hb'. destruct (Z.eqb_spec k j) as [->|]; [done|]. apply Hb1. lia.
    + cbn [fst snd]. split; [done|]. split; [done|]. split; [intros; lia|]. by rewrite Z.add_0_r.
    + cbn [fst snd] in *. subst inp2. cbn [mbind outcome_bind]. destruct (so_putchunk_law s1 okey i n buf2) as (s2 & st & Ep & Hs2 & Hw);
        [done|unfold range_ok; split; [done|lia]|lia|done|]. rewrite Ep. cbn [mbind outcome_bind].
      rewrite (so_reliable s1 okey i n buf2 s2 st Hs1) in Hw; [|unfold range_ok; split; [done|lia]|exact Ep].
      eexists. split; [done|]. cbn [fst snd]. split; [done|]. split; [done|]. split; [done|].
      split; [by rewrite Hend|]. split; [done|]. rewrite <- Hend. intros o f' Ho Hf'. specialize (Hw o f' Ho Hf').
      specialize (Hm1 o f' Ho Hf'). destruct (Z.eqb_spec o okey) as [->|]; cbn [andb] in *; [|congruence].
      destruct (Z.leb_spec i f'), (Z.ltb_spec f' (i + n)), (Z.ltb_spec f' i); cbn [andb] in *; try lia; try congruence.
      destruct Hw as [Hw _]. specialize (Hw eq_refl). rewrite Hb2 in Hw by lia. injection Hw as <-. f_equal. lia.
  - done.
  - cbn [fst snd]. split; [done|]. split; [apply Forall_replicate; ranges|]. split.
    { unfold bytes_from. rewrite Z.sub_0_r. done. }
    split; [done|]. intros o f' _ Hf'. destruct (Z.ltb_spec f' 0); [lia|]. by rewrite andb_false_r.
  - cbn [mbind outcome_bind fst snd] in *. destruct (so_newobj s' okey flag size) as [s2 st] eqn:En.
    destruct (so_newobj_law s' okey flag size s2 st Hs' Hk En) as [Hs2 Hm2]. exists s2. split; [|split; [done|]].
    + rewrite E. unfold bytes_from. rewrite Z.sub_diag. done.
    + intros o f' Ho Hf'. rewrite (Hm2 o f' Ho Hf'). by apply Hm.
Qed.
End restore.

Section objects.
Context {S : Type} `{SoReliable S} `{!SoNewObj S}.
Implicit Types (size flag : Z -> Z) (keys : list Z).

Definition objects_bytes keys size flag (mem : Z -> Z -> Z) : list Z :=
  flat_map (fun key => object_bytes key (size key) (flag key) (mem key)) keys.

Lemma objects_bytes_app keys keys' size flag mem :
  objects_bytes (keys ++ keys') size flag mem = objects_bytes keys size flag mem ++ objects_bytes keys' size flag mem.
Proof. apply flat_map_app. Qed.

Lemma objects_bytes_cons key keys size flag mem : objects_bytes (key :: keys) size flag mem =
  object_bytes key (size key) (flag key) (mem key) ++ objects_bytes keys size flag mem.
Proof. done. Qed.

(** The words of the objects [keys] taken from [mem0], the others from [mem]. *)
Definition restored_all (mem0 mem mem' : Z -> Z -> Z) keys size : Prop :=
  forall o f, is_u32 o -> 0 <= f < MAX_FIELD ->
    mem' o f = if bool_decide (o ∈ keys) && (f <? size o) then mem0 o f else mem o f.

Lemma restored_all_snoc (mem0 mem mem1 mem2 : Z -> Z -> Z) keys key size :
  restored_all mem0 mem mem1 keys size -> restored mem1 mem2 key (size key) (mem0 key) ->
  restored_all mem0 mem mem2 (keys ++ [key]) size.
Proof.
  intros H1' H2' o f Ho Hf. rewrite (H2' o f Ho Hf), (H1' o f Ho Hf).
  destruct (Z.eqb_spec o key) as [->|Hne]; cbn [andb].
  - rewrite (bool_decide_eq_true_2 (key ∈ keys ++ [key])) by set_solver. cbn [andb].
    by destruct (f <? size key); rewrite ?andb_false_r.
  - by rewrite (bool_decide_ext (o ∈ keys) (o ∈ keys ++ [key])) by set_solver.
Qed.

Lemma dump_all (p : process S) size flag f : so_ok (env p) ->
  (forall key, key ∈ object_list p -> is_u32 key /\ 0 <= size key <= MAX_FIELD /\
     exists st, so_getinfo (env p) key (0, 0) = Ret (st, (flag key, size key))) ->
  ForEachObject p (fun key f =>
    '(_, (flag, size)) ← so_getinfo (env p) key (0, 0);
    DumpSharedMemory (env p) key size flag f) f =
  Ret (f ++ objects_bytes (object_keys p) size flag (so_mem (env p))).
Proof.
  intros Hs Hinfo. unfold ForEachObject.
  assert (forall key, key ∈ object_keys p -> key ∈ object_list p) as Hin.
  { intros key Hk. apply elem_of_elements. unfold object_keys in Hk. by rewrite merge_sort_Permutation in Hk. }
  match goal with |- for_each _ ?b _ = _ => destruct (for_each_rule
    (fun done os => os = f ++ objects_bytes done size flag (so_mem (env p))) (object_keys p) b f) as (os & -> & ->) end; [| |done].
  - intros pre key post os E ->. destruct (Hinfo key) as (Hk & Hsz & st & ->); [apply Hin; rewrite E; set_solver|].
    cbn [mbind outcome_bind]. rewrite dump_spec by done. eexists. split; [done|].
    rewrite objects_bytes_app. cbn. by rewrite app_nil_r, app_assoc.
  - by rewrite app_nil_r.
Qed.

Lemma restore_all (mem0 : Z -> Z -> Z) keys size flag (p : process S) rest : so_ok (env p) ->
  (forall key, key ∈ keys -> is_u32 key /\ 0 <= size key <= MAX_FIELD /\ is_u32 (flag key)) ->
  (forall o f, is_u32 o -> 0 <= f < MAX_FIELD -> is_u32 (mem0 o f)) -> exists p',
  for_range 0 (zlen keys) (fun _ '(p, f) => '(p, f, _) ← RestoreSharedMemory p f; Ret (p, f))
    (p, objects_bytes keys size flag mem0 ++ rest) = Ret (p', rest) /\
  so_ok (env p') /\ object_list p' = list_to_set keys ∪ object_list p /\
  restored_all mem0 (so_mem (env p)) (so_mem (env p')) keys size.
Proof.
  intros Hs Hkeys Hmem. pose proof (zlen_nonneg keys) as Hpos.
  match goal with |- context [for_range 0 _ ?b ?st] => destruct (for_range_rule (S := process S * list Z) (fun i t =>
    so_ok (env t.1) /\ t.2 = objects_bytes (drop (Z.to_nat i) keys) size flag mem0 ++ rest /\
    object_list t.1 = list_to_set (take (Z.to_nat i) keys) ∪ object_list p /\
    restored_all mem0 (so_mem (env p)) (so_mem (env t.1)) (take (Z.to_nat i) keys) size)
    0 (zlen keys) b st) as ([p' f'] & -> & Hs' & Ef & Eo & Hr) end.
  - done.
  - intros i [p1 f1] Hi. cbn [fst snd]. intros (Hs1 & -> & Ho1 & Hr1).
    destruct (zlook_is_Some keys i Hi) as (key & Hkey). rewrite zlook_lookup in Hkey by lia.
    rewrite (drop_S _ _ _ Hkey), objects_bytes_cons, <- app_assoc.
    destruct (Hkeys key) as (Hk & Hsz & Hfl); [by eapply list_elem_of_lookup_2|].
    destruct (restore_spec p1 key (size key) (flag key) (mem0 key)
      (objects_bytes (drop (Datatypes.S (Z.to_nat i)) keys) size flag mem0 ++ rest)) as (s' & -> & Hs' & Hr'); [done..| |].
    { intros j Hj. apply Hmem; [done|lia]. }
    cbn [mbind outcome_bind]. eexists. split; [done|]. cbn [fst snd]. replace (Z.to_nat (i + 1)) with (Datatypes.S (Z.to_nat i)) by lia.
    split; [done|]. split; [done|]. rewrite (take_S_r _ _ _ Hkey). split.
    + cbn. rewrite Ho1. rewrite list_to_set_app_L. cbn. set_solver.
    + cbn. by eapply restored_all_snoc.
  - cbn [fst snd]. change (Z.to_nat 0) with 0%nat. split; [done|]. split; [done|]. split; [cbn; set_solver|].
    intros o f _ _. cbn. done.
  - cbn [fst snd] in *. unfold zlen in *. rewrite Nat2Z.id, drop_ge, take_ge in * by lia. cbn in Ef. subst f'. by exists p'.
Qed.
End objects.

(** * Members *)

Lemma serialize_spec os obj : ClassSerialize os obj = os ++ concat obj.
Proof.
  unfold ClassSerialize. revert os. induction obj as [|b obj IH]; intros os; cbn; [by rewrite app_nil_r|].
  by rewrite IH, app_assoc.
Qed.

Lemma read_bytes_app x rest : read_bytes (zlen x) (x ++ rest) = Ret (x, rest).
Proof.
  unfold read_bytes. rewrite (proj2 (Z.leb_le (zlen x) (zlen (x ++ rest))))
    by (rewrite zlen_app; pose proof (zlen_nonneg rest); lia).
  unfold zlen. by rewrite Nat2Z.id, take_app_length, drop_app_length.
Qed.

Lemma deserialize_spec obj : ClassDeserialize (zlen <$> obj) (concat obj) = Ret (obj, []).
Proof.
  unfold ClassDeserialize.
  match goal with |- for_each _ ?b _ = _ => assert (forall post pre,
    for_each (zlen <$> post) b (pre, concat post) = Ret (pre ++ post, [])) as Hgen end; [|exact (Hgen obj [])].
  induction post as [|x post IH]; intros pre; cbn [fmap list_fmap for_each concat]; [by rewrite app_nil_r|].
  rewrite read_bytes_app. cbn [mbind outcome_bind].
  rewrite IH. by rewrite <- app_assoc.
Qed.

(** * The round trip *)

Section roundtrip.
Context {S : Type} `{SoReliable S} `{!SoNewObj S}.

(** What the back end knows of the objects of a process. *)
Definition objects_known (p : process S) (size flag : Z -> Z) : Prop :=
  forall key, key ∈ object_list p -> is_u32 key /\ 0 <= size key <= MAX_FIELD /\ is_u32 (flag key) /\
    exists st, so_getinfo (env p) key (0, 0) = Ret (st, (flag key, size key)).

(** The words a checkpoint holds. *)
Definition saved (is_master : bool) (n : ckpt_node S) (size : Z -> Z) (o f : Z) : bool :=
  bool_decide (o ∈ object_list (proc n)) && (f <? size o) || is_master && (o =? 0) && (f <? global_size n).

Definition locked (n : ckpt_node S) : ckpt_node S :=
  CkptNode (proc n) (global_size n) (members n) (checkobject n) (checkpoint_cnt n) true (files n) (master_file n).

Lemma elem_of_object_keys (p : process S) key : key ∈ object_keys p <-> key ∈ object_list p.
Proof. unfold object_keys. by rewrite merge_sort_Permutation, elem_of_elements. Qed.

Lemma zlen_object_keys (p : process S) : zlen (object_keys p) = GetObjectNumber p.
Proof.
  unfold zlen, GetObjectNumber, object_keys, size, set_size. cbn. by rewrite merge_sort_Permutation.
Qed.

(** The bytes of the file before the members. *)
Definition ckpt_head (is_master : bool) (n : ckpt_node S) (size flag : Z -> Z) : list Z :=
  (if is_master then object_bytes 0 (global_size n) 0xFFFFFFFF (so_mem (env (proc n)) 0) else []) ++
  bytes_of_word (u32 (GetObjectNumber (proc n))) ++
  objects_bytes (object_keys (proc n)) size flag (so_mem (env (proc n))).

Lemma dump_objects_spec is_master (n : ckpt_node S) size flag : so_ok (env (proc n)) ->
  0 <= global_size n <= MAX_FIELD -> objects_known (proc n) size flag ->
  dump_objects is_master n = Ret (ckpt_head is_master n size flag).
Proof.
  intros Hs Hg Hinfo. unfold dump_objects, write_word, ckpt_head.
  assert ((if is_master then DumpSharedMemory (env (proc n)) 0 (global_size n) 0xFFFFFFFF [] else Ret []) =
    Ret (if is_master then object_bytes 0 (global_size n) 0xFFFFFFFF (so_mem (env (proc n)) 0) else [])) as ->.
  { destruct is_master; [|done]. rewrite dump_spec; [done|done|ranges|done]. }
  cbn [mbind outcome_bind]. rewrite (dump_all (proc n) size flag); [by rewrite app_assoc|done|].
  intros key Hk. by destruct (Hinfo key Hk) as (? & ? & ? & ?).
Qed.

(** The first object of the master's file is that of the globals. *)
Lemma restore_globals (is_master : bool) (p : process S) gsize mem0 rest : so_ok (env p) -> 0 <= gsize <= MAX_FIELD ->
  (forall o f, is_u32 o -> 0 <= f < MAX_FIELD -> is_u32 (mem0 o f)) -> exists p1,
  (if is_master then
     '(p, f, modulekey) ← RestoreSharedMemory p (object_bytes 0 gsize 0xFFFFFFFF (mem0 0) ++ rest);
     _ ← c_assert (modulekey =? 0); Ret (p, f)
   else Ret (p, rest)) = Ret (p1, rest) /\
  so_ok (env p1) /\ object_list p1 = (if is_master then {[0]} else ∅) ∪ object_list p /\
  forall o f, is_u32 o -> 0 <= f < MAX_FIELD ->
    so_mem (env p1) o f = if is_master && (o =? 0) && (f <? gsize) then mem0 o f else so_mem (env p) o f.
Proof.
  intros Hp Hg Hmem0. destruct is_master; [|exists p; split; [done|]; split; [done|]; split; [set_solver|done]].
  destruct (restore_spec p 0 gsize 0xFFFFFFFF (mem0 0) rest) as (s1 & -> & Hs1 & Hr1); [done|ranges|ranges|done| |].
  { intros j Hj. apply Hmem0; [ranges|lia]. }
  cbn. eexists. split; [reflexivity|]. cbn. split; [done|]. split; [done|].
  intros o f Ho Hf. rewrite (Hr1 o f Ho Hf). by destruct (Z.eqb_spec o 0) as [->|].
Qed.

(** C9. What [DoCheckPoint] writes, [DoRestart] reads back, on any node whose memory
    stores what it is given: the words of every object on the list, the list (the master
    adds object 0), the checkpoint object as it is after the application's callback, and
    on the master the globals, but not the last one registered, whose field is
    [gloabl_fid] itself. *)
Theorem checkpoint_roundtrip is_master funcCheckPoint funcRestart (n n1 : ckpt_node S) size flag obj0 obj :
  so_ok (env (proc n)) -> 0 <= global_size n <= MAX_FIELD -> objects_known (proc n) size flag ->
  GetObjectNumber (proc n) < 2 ^ 31 ->
  checkobject n = Some obj0 -> checkpointlock n = false ->
  funcCheckPoint (locked n) = Ret n1 -> checkobject n1 = Some obj -> checkpoint_cnt n1 = checkpoint_cnt n ->
  exists n2, DoCheckPoint is_master funcCheckPoint n = Ret (n2, true) /\
  (is_master = true -> master_file n2 = Some (checkpoint_cnt n1)) /\
  checkpoint_cnt n2 = s32 (checkpoint_cnt n1 + 1) /\
  forall (m : ckpt_node S) obj', so_ok (env (proc m)) -> checkobject m = Some obj' ->
    members m = zlen <$> obj -> checkpoint_cnt m = checkpoint_cnt n1 ->
    files m !! checkpoint_cnt m = files n2 !! checkpoint_cnt n1 ->
    exists m', DoRestart is_master funcRestart m = funcRestart m' /\
      checkobject m' = Some obj /\ checkpoint_cnt m' = checkpoint_cnt n2 /\
      object_list (proc m') = object_list (proc n) ∪ (if is_master then {[0]} else ∅) ∪ object_list (proc m) /\
      (forall o f, is_u32 o -> 0 <= f < MAX_FIELD ->
         so_mem (env (proc m')) o f =
           if saved is_master n size o f then so_mem (env (proc n)) o f else so_mem (env (proc m)) o f) /\
      (forall g fk, RegisterGlobalVariable g = (global_size n, fk) -> fk < MAX_FIELD ->
         0 ∉ object_list (proc n) -> so_mem (env (proc m')) 0 fk = so_mem (env (proc m)) 0 fk).
Proof.
  intros Hs Hg Hinfo Hnum Hobj0 Hlock Hfc Hobj Hcnt1. unfold DoCheckPoint. rewrite Hobj0, Hlock.
  change (dump_objects is_master (CkptNode _ _ _ _ _ _ _ _)) with (dump_objects is_master (locked n)).
  rewrite (dump_objects_spec is_master (locked n) size flag) by done. cbn [mbind outcome_bind].
  rewrite <- Hobj0. fold (locked n). rewrite Hfc. cbn [mbind outcome_bind]. rewrite Hobj. cbn [from_option]. unfold id.
  eexists. split; [reflexivity|]. cbn [with_files master_file checkpoint_cnt files].
  change (checkpoint_cnt (locked n)) with (checkpoint_cnt n). rewrite <- Hcnt1. split; [by intros ->|]. split; [done|]. intros m obj' Hm Hobj' Hmem Hcnt Hfile.
  rewrite lookup_delete_ne, lookup_insert, decide_True in Hfile by (done || lia).
  unfold DoRestart. rewrite Hobj', Hfile, serialize_spec. unfold ckpt_head. cbn [locked proc global_size].
  set (mem0 := so_mem (env (proc n))) in *.
  assert (forall o f, is_u32 o -> 0 <= f < MAX_FIELD -> is_u32 (mem0 o f)) as Hmem0 by (intros; by apply so_mem_u32).
  destruct (restore_globals is_master (proc m) (global_size n) mem0
    (bytes_of_word (u32 (GetObjectNumber (proc n))) ++ objects_bytes (object_keys (proc n)) size flag mem0 ++ concat obj))
    as (p1 & E1 & Hp1 & Hl1 & Hm1); [done..|].
  match goal with |- context [mbind _ (if is_master then ?a else ?b)] =>
    assert ((if is_master then a else b) = Ret (p1, bytes_of_word (u32 (GetObjectNumber (proc n))) ++
      objects_bytes (object_keys (proc n)) size flag mem0 ++ concat obj)) as ->
      by (rewrite <- E1, <- !app_assoc; by destruct is_master) end.
  cbn [mbind outcome_bind]. rewrite read_word_bytes by apply u32_range. cbn [mbind outcome_bind].
  assert (0 <= GetObjectNumber (proc n)) as Hn0 by (unfold GetObjectNumber; lia).
  rewrite u32_small by ranges. rewrite (s32_small (GetObjectNumber (proc n))) by lia. rewrite <- zlen_object_keys.
  destruct (restore_all mem0 (object_keys (proc n)) size flag p1 (concat obj)) as (p2 & -> & Hp2 & Hl2 & Hm2); [done| |done|].
  { intros key Hk%elem_of_object_keys. by destruct (Hinfo key Hk) as (? & ? & ? & ?). }
  cbn [mbind outcome_bind]. rewrite Hmem, deserialize_spec. cbn [mbind outcome_bind].
  eexists. split; [reflexivity|]. cbn [proc checkobject checkpoint_cnt]. split; [done|]. split; [by rewrite Hcnt|].
  assert (forall o f, is_u32 o -> 0 <= f < MAX_FIELD -> so_mem (env p2) o f =
    if saved is_master n size o f then mem0 o f else so_mem (env (proc m)) o f) as Hall.
  { intros o f Ho Hf. rewrite (Hm2 o f Ho Hf), (Hm1 o f Ho Hf). unfold saved.
    rewrite (bool_decide_ext (o ∈ object_keys (proc n)) (o ∈ object_list (proc n))) by apply elem_of_object_keys.
    by destruct (bool_decide _ && _), (is_master && _ && _). }
  split; [|split; [exact Hall|]].
  - rewrite Hl2, Hl1. apply set_eq. intros key. rewrite !elem_of_union, elem_of_list_to_set, elem_of_object_keys. tauto.
  - intros g fk [= Hfk1 Hfk2] Hfk H0n. rewrite Hall by ranges. unfold saved.
    rewrite bool_decide_eq_false_2 by done. cbn [andb orb Z.eqb]. rewrite andb_true_r.
    destruct (Z.ltb_spec fk (global_size n)); [lia|]. by rewrite andb_false_r.
Qed.
End roundtrip.

Section witnesses.
Import MapServer MapServerFacts.

(** A master with one global at field 2, one object 5 of one word, and a member of four
    bytes in its checkpoint object. *)
Definition saved_store : word_store server :=
  let '(s, _) := so_newobj (WordStore ∅) 5 100 1 in
  match so_put s 5 0 77 with Ret (s, _) => s | _ => s end.
Definition saved_node : ckpt_node (word_store server) :=
  CkptNode (Process saved_store {[5]} []) 2 [4] (Some [[1; 2; 3; 4]]) 0 false ∅ None.
Definition fresh_node (fs : gmap Z (list Z)) : ckpt_node (word_store server) :=
  CkptNode (Process (WordStore ∅) ∅ []) 2 [4] (Some [[0; 0; 0; 0]]) 0 false fs None.

Lemma checkpoint_roundtrip_witness : exists n2 m',
  DoCheckPoint true Ret saved_node = Ret (n2, true) /\
  DoRestart true Ret (fresh_node (files n2)) = Ret m' /\
  checkobject m' = Some [[1; 2; 3; 4]] /\ so_mem (env (proc m')) 5 0 = 77.
Proof.
  destruct (checkpoint_roundtrip true Ret Ret saved_node (locked saved_node) (fun _ => 1) (fun _ => 100)
    [[1; 2; 3; 4]] [[1; 2; 3; 4]]) as (n2 & E & _ & _ & Hr);
    [|cbn; unfold MAX_FIELD; lia| |vm_compute; reflexivity|reflexivity|reflexivity|reflexivity|reflexivity|reflexivity|].
  - change (so_ok saved_store). unfold saved_store.
    destruct (so_newobj (WordStore (∅ : server)) 5 100 1) as [s st] eqn:En.
    destruct (so_newobj_law (WordStore (∅ : server)) 5 100 1 s st) as [Hs _]; [exact empty_word_ok|ranges|exact En|].
    rewrite so_put_law. destruct (so_putchunk_law s 5 0 1 [77] Hs) as (s' & st' & -> & Hs' & _);
      [unfold range_ok, MAX_FIELD; ranges|done|u32s|exact Hs'].
  - intros key Hk. cbn in Hk. apply elem_of_singleton in Hk as ->. split; [ranges|]. split; [unfold MAX_FIELD; lia|].
    split; [ranges|]. exists SoOK. vm_compute. reflexivity.
  - destruct (Hr (fresh_node (files n2)) [[0; 0; 0; 0]]) as (m' & Em & Ho & _ & _ & Hm & _);
      [exact empty_word_ok|reflexivity|reflexivity|reflexivity|reflexivity|].
    exists n2, m'. split; [exact E|]. split; [exact Em|]. split; [exact Ho|].
    rewrite Hm by (ranges || (unfold MAX_FIELD; lia)). vm_compute. reflexivity.
Defined.
End witnesses.

(** * The barrier *)

Section barrier.
Context {S : Type} `{SoStorage S}.
Context (func : nat -> ckpt_node S -> outcome (ckpt_node S)).

(** The application's callback leaves the bookkeeping alone. *)
Definition keeps_bookkeeping : Prop := forall i n n', func i n = Ret n' ->
  checkpoint_cnt n' = checkpoint_cnt n /\ files n' = files n /\ master_file n' = master_file n /\
  checkpointlock n' = checkpointlock n /\ (is_Some (checkobject n) -> is_Some (checkobject n')).

Definition has_file (n : ckpt_node S) (k : Z) : Prop := is_Some (files n !! k).
Definition is_int (k : Z) : Prop := - 2 ^ 31 <= k < 2 ^ 31.

Lemma next_int k : is_int k -> is_int (s32 (k + 1)) /\ s32 (k + 1) - 2 <> k /\ s32 (k + 1) <> k.
Proof.
  unfold is_int, s32. intros Hk. destruct (Z.eq_dec k (2 ^ 31 - 1)) as [->|]; [done|].
  rewrite Z.mod_small by lia. lia.
Qed.

Lemma do_checkpoint_keeps (Hfunc : keeps_bookkeeping) i is_master n n' r : is_Some (checkobject n) ->
  checkpointlock n = false -> DoCheckPoint is_master (func i) n = Ret (n', r) ->
  r = true /\ checkpointlock n' = true /\ is_Some (checkobject n') /\ checkpoint_cnt n' = s32 (checkpoint_cnt n + 1) /\
  has_file n' (checkpoint_cnt n) /\
  (forall k, has_file n k -> checkpoint_cnt n - 2 <> k -> has_file n' k) /\
  master_file n' = if is_master then Some (checkpoint_cnt n) else master_file n.
Proof.
  intros [obj Ho] Hl. unfold DoCheckPoint. rewrite Ho, Hl.
  intros (f & _ & (n1 & (Ec & Ef & Em & El & Hc)%Hfunc & [= <- <-])%bind_Ret_inv)%bind_Ret_inv.
  cbn in Ec, Ef, Em, El. unfold has_file. cbn. rewrite Ec, Ef, Em. split; [done|]. split; [done|].
  split; [apply Hc; cbn; eauto|]. split; [done|]. split; [|split; [|by destruct is_master]].
  - rewrite lookup_delete_ne, lookup_insert, decide_True by (done || lia). eauto.
  - intros k Hk Hne. rewrite lookup_delete_ne by done. rewrite lookup_insert. by case_decide; eauto.
Qed.

(** A node that is to take checkpoint [c], the master's file naming [k]; one that has
    taken it. *)
Definition before (c : Z) (k : option Z) (n : ckpt_node S) : Prop :=
  is_Some (checkobject n) /\ checkpoint_cnt n = c /\ (forall x, k = Some x -> has_file n x).
Definition after (c : Z) (k : option Z) (n : ckpt_node S) : Prop :=
  is_Some (checkobject n) /\ checkpoint_cnt n = s32 (c + 1) /\ has_file n c /\ (forall x, k = Some x -> has_file n x).

Definition party_ok (c : Z) (k : option Z) (i : nat) (p : party S) : Prop :=
  match at_passage p, i with
  | Outside, O | First, O | Between, O => before c k (node p) /\ master_file (node p) = k /\ checkpointlock (node p) = false
  | Second, O => after c k (node p) /\ master_file (node p) = Some c /\ checkpointlock (node p) = false
  | Outside, _ => before c k (node p) /\ checkpointlock (node p) = false
  | First, _ | Between, _ => after c k (node p) /\ needrelease p = true
  | Second, _ => after c k (node p) /\ checkpointlock (node p) = false
  end.

(** The parties are all in the first half of the round, or all in the second. *)
Definition half (late : bool) (p : party S) : Prop :=
  match at_passage p with Outside | First => late = false | Between | Second => late = true end.

Definition round_ok (ps : list (party S)) : Prop := exists c k late, is_int c /\
  (forall x, k = Some x -> is_int x /\ c = s32 (x + 1)) /\
  forall i p, ps !! i = Some p -> party_ok c k i p /\ half late p.

Lemma enter_step_ok (Hfunc : keeps_bookkeeping) ps ps' : enter_step func ps ps' -> round_ok ps -> round_ok ps'.
Proof.
  intros Hstep (c & k & late & Hc & Hk & Hps). destruct Hstep as [i ps p n r Hp Hat E|ps Hall|i ps p n Hp Hat E|ps Hall].
  - exists c, k, late. split; [done|]. split; [done|]. intros j q Hq.
    apply list_lookup_insert_Some in Hq as [(<- & <- & _)|[_ Hq]]; [|by apply Hps].
    destruct (Hps _ _ Hp) as [Hok Hh]. split; [|unfold half in *; by rewrite Hat in Hh].
    unfold party_ok in *. rewrite Hat in Hok. unfold barrier_before in E. destruct i as [|i]; cbn in *.
    + injection E as <- <-. done.
    + destruct Hok as [(Ho & <- & Hf) Hl]. destruct (do_checkpoint_keeps Hfunc _ _ _ _ _ Ho Hl E)
        as (-> & _ & Ho' & Ec & Hf1 & Hf2 & _). split; [|done]. split; [done|]. split; [done|]. split; [done|].
      intros x ->. apply Hf2; [by apply Hf|]. destruct (Hk x eq_refl) as [Hx ->]. by apply next_int.
  - exists c, k, true. split; [done|]. split; [done|]. intros j q Hq. apply list_lookup_fmap_Some in Hq as (p & -> & Hp).
    destruct (Hps _ _ Hp) as [Hok _]. rewrite Forall_lookup in Hall. specialize (Hall _ _ Hp).
    split; [|done]. unfold party_ok in *. rewrite Hall in Hok. by destruct j.
  - exists c, k, late. split; [done|]. split; [done|]. intros j q Hq.
    apply list_lookup_insert_Some in Hq as [(<- & <- & _)|[_ Hq]]; [|by apply Hps].
    destruct (Hps _ _ Hp) as [Hok Hh]. split; [|unfold half in *; by rewrite Hat in Hh].
    unfold party_ok in *. rewrite Hat in Hok. unfold barrier_between in E. destruct i as [|i]; cbn in *.
    + destruct Hok as ((Ho & <- & Hf) & Hm & Hl). apply bind_Ret_inv in E as ([n1 r] & E & [= <-]).
      destruct (do_checkpoint_keeps Hfunc _ _ _ _ _ Ho Hl E) as (-> & _ & Ho' & Ec & Hf1 & Hf2 & Em).
      split; [|done]. split; [done|]. split; [done|]. split; [done|].
      intros x ->. apply Hf2; [by apply Hf|]. destruct (Hk x eq_refl) as [Hx ->]. by apply next_int.
    + destruct Hok as [Hok Hr]. rewrite Hr in E. injection E as <-. done.
  - exists (s32 (c + 1)), (Some c), false. split; [by apply next_int|]. split; [by intros x [= <-]|].
    intros j q Hq. apply list_lookup_fmap_Some in Hq as (p & -> & Hp).
    destruct (Hps _ _ Hp) as [Hok _]. rewrite Forall_lookup in Hall. specialize (Hall _ _ Hp).
    split; [|done]. unfold party_ok in *. rewrite Hall in Hok. cbn.
    destruct j; destruct Hok as [(Ho & Ec & Hf & _) Hl]; (split; [|done]); (split; [done|]); (split; [done|]);
      by intros x [= <-].
Qed.

(** C22. Whatever the order in which the nodes enter the checkpoint barrier and leave it,
    a checkpoint that the master's file names is complete: every node has its file of
    that number, and the master finds the number after a crash. *)
Theorem checkpoint_complete (ps0 ps : list (party S)) c k0 : keeps_bookkeeping -> is_int c ->
  (forall x, k0 = Some x -> is_int x /\ c = s32 (x + 1)) ->
  (forall i p, ps0 !! i = Some p -> at_passage p = Outside /\ checkpointlock (node p) = false /\
     before c k0 (node p) /\ (i = 0%nat -> master_file (node p) = k0)) ->
  rtc (enter_step func) ps0 ps ->
  forall master k, ps !! 0%nat = Some master -> master_file (node master) = Some k ->
    snd (MasterCheckCheckPoint (node master)) = k /\
    forall i p, ps !! i = Some p -> has_file (node p) k.
Proof.
  intros Hfunc Hc Hk0 Hinit Hrun. assert (round_ok ps) as (c' & k & late & _ & _ & Hps).
  { assert (round_ok ps0) as Hok.
    - exists c, k0, false. split; [done|]. split; [done|]. intros i p Hp.
      destruct (Hinit _ _ Hp) as (Hat & Hl & Hb & Hm). unfold party_ok, half. rewrite Hat. destruct i; [by rewrite Hm|done].
    - clear Hinit. induction Hrun as [|? ? ? Hs _ IH]; [done|]. apply IH. by eapply enter_step_ok. }
  intros master x Hm Hx. split; [unfold MasterCheckCheckPoint; by rewrite Hx|].
  destruct (Hps _ _ Hm) as [Hok Hh]. intros i p Hp. destruct (Hps _ _ Hp) as [Hoki Hhi].
  unfold party_ok, half, before, after in *.
  destruct (at_passage master), (at_passage p), i; naive_solver.
Qed.
End barrier.

Section barrier_witness.
Import MapServer MapServerFacts.

Definition two : list (party (word_store server)) :=
  [Party (fresh_node ∅) Outside false; Party (fresh_node ∅) Outside false].
Definition no_callback : nat -> ckpt_node (word_store server) -> outcome (ckpt_node (word_store server)) := fun _ => Ret.

(** Both enter, the barrier opens, and the master takes its checkpoint. *)
Lemma two_run : exists ps m, rtc (enter_step no_callback) two ps /\ ps !! 0%nat = Some m /\
  is_Some (ps !! 1%nat) /\ master_file (node m) = Some 0.
Proof.
  destruct (barrier_before false Ret (fresh_node ∅)) as [[n1 r1]| |] eqn:E1; [|vm_compute in E1; discriminate..].
  destruct (barrier_between true Ret (fresh_node ∅) false) as [n0| |] eqn:E0; [|vm_compute in E0; discriminate..].
  exists [Party n0 Second false; Party n1 Between r1], (Party n0 Second false). split; [|split; [done|split; [by eexists|]]].
  - eapply rtc_l; [eapply (enter_first no_callback 1); [reflexivity|reflexivity|exact E1]|].
    eapply rtc_l; [eapply (enter_first no_callback 0); reflexivity|].
    eapply rtc_l; [apply pass_first; repeat constructor|].
    eapply rtc_l; [eapply (enter_second no_callback 0); [reflexivity|reflexivity|exact E0]|]. apply rtc_refl.
  - vm_compute in E0. injection E0 as <-. reflexivity.
Qed.

Lemma checkpoint_complete_witness : exists ps m p, rtc (enter_step no_callback) two ps /\
  ps !! 0%nat = Some m /\ ps !! 1%nat = Some p /\ master_file (node m) = Some 0 /\ has_file (node p) 0.
Proof.
  destruct two_run as (ps & m & Hrun & Hm & (p & Hp) & Hf).
  destruct (checkpoint_complete no_callback two ps 0 None) with (master := m) (k := 0) as [_ Hall];
    [|unfold is_int; lia|done| |exact Hrun|exact Hm|exact Hf|].
  - intros i n n' [= <-]. repeat split; try done. 
  - intros i q Hq. destruct i as [|[|i]]; [..|done]; injection Hq as <-; repeat split; try done; by eexists.
  - exists ps, m, p. split; [exact Hrun|]. split; [exact Hm|]. split; [exact Hp|]. split; [exact Hf|exact (Hall _ _ Hp)].
Defined.
End barrier_witness.
