(* ===== verification/DirectoryCacheFacts.v ===== *)
(** The coherence of the directory cache of DirectoryCache.v: while a node writes or
    fetches a block only when no renewal of it is under way to that node, every
    cached copy, with the renewals under way to it, is what the back end stores, so
    reads return the last write; without that rule a copy can stay stale for ever. *)
From S2P Require Import Prelude Storage DirectoryCache.

(** * Addresses *)

(** The addresses of the fields an object may have; the blocks of valid addresses are
    valid throughout. *)
Definition valid (a : Z) : Prop := is_u64 a /\ a mod 2 ^ 32 < MAX_FIELD.
Definition valid_block (k : Z) : Prop := valid k /\ k mod 32 = 0.

Lemma high_eq a : is_u64 a -> high a = 32 * (a / 32).
Proof. apply land_high_mask_64. Qed.

Lemma low_eq a : low a = a mod 32.
Proof. apply land_low_mask_64. Qed.

Ltac Zify.zify_post_hook ::= Z.to_euclidean_division_equations.

Lemma low_range a : 0 <= low a < 32.
Proof. rewrite low_eq. lia. Qed.

Lemma addr_split a : is_u64 a -> a = high a + low a.
Proof. intros Ha. rewrite high_eq, low_eq by done. lia. Qed.

Lemma high_valid a : valid a -> valid_block (high a).
Proof.
  intros [Ha Hm]. unfold valid_block, valid. rewrite high_eq by done. unfold MAX_FIELD, is_u64 in *. lia.
Qed.

Lemma high_block k : valid_block k -> high k = k.
Proof. intros [[Hk _] H32]. rewrite high_eq by done. lia. Qed.

Lemma low_block k : valid_block k -> low k = 0.
Proof. intros [_ H32]. by rewrite low_eq. Qed.

Lemma valid_in_block k j : valid_block k -> 0 <= j < 32 -> valid (k + j).
Proof. unfold valid_block, valid, is_u64, MAX_FIELD. lia. Qed.

Lemma high_in_block k j : valid_block k -> 0 <= j < 32 -> high (k + j) = k.
Proof.
  intros Hk Hj. destruct (valid_in_block k j Hk Hj) as [Hu _]. rewrite high_eq by done.
  destruct Hk as [_ Hk]. lia.
Qed.

Lemma block_eq k k' j j' : valid_block k -> valid_block k' -> 0 <= j < 32 -> 0 <= j' < 32 ->
  k + j = k' + j' -> k = k' /\ j = j'.
Proof. intros [_ H1] [_ H2] Hj Hj'. lia. Qed.

Lemma valid_not_bad k : valid_block k -> k <> DSM_CACHE_BAD_KEY.
Proof. intros [_ Hk] ->. by vm_compute in Hk. Qed.

Lemma MAKE64_valid o f : is_u32 o -> 0 <= f < MAX_FIELD -> valid (MAKE64 o f) /\
  MAKE64 o f / 2 ^ 32 = o /\ MAKE64 o f mod 2 ^ 32 = f.
Proof.
  intros Ho Hf. unfold MAX_FIELD in *. rewrite MAKE64_add by ranges.
  unfold valid, is_u64, is_u32, MAX_FIELD in *. lia.
Qed.

Lemma addr_fields a : is_u64 a -> Z.shiftr a 32 = a / 2 ^ 32 /\ Z.land a 0xffffffff = a mod 2 ^ 32.
Proof.
  intros Ha. split; [by apply Z.shiftr_div_pow2|].
  change 0xffffffff with (Z.ones 32). by rewrite Z.land_ones by lia.
Qed.

Ltac Zify.zify_post_hook ::= idtac.

(** * Nodes *)

(** The words a node has for block [k], if the block is there and ready. *)
Definition view (n : cache_node) (k : Z) : option (list Z) :=
  match cache n !! k with
  | Some b =>
      match (block_cache n).[b] with
      | Some blk => if (bkey blk =? k) && negb (locked blk) then Some (words blk) else None
      | None => None
      end
  | None => None
  end.

(** A node whose table and blocks agree, but for the pair [(k, b)] of a request under
    way. *)
Record node_wf (pend : option (Z * Z)) (n : cache_node) : Prop := {
  w_len : zlen (block_cache n) = 1024;
  w_words : forall b blk, (block_cache n).[b] = Some blk -> zlen (words blk) = 32;
  w_cache : forall k b, cache n !! k = Some b -> k <> DSM_CACHE_BAD_KEY /\
    exists blk, (block_cache n).[b] = Some blk /\
      if decide (pend = Some (k, b)) then bkey blk = DSM_CACHE_BAD_KEY
      else bkey blk = k /\ locked blk = false;
  w_used : forall b blk, (block_cache n).[b] = Some blk -> bkey blk <> DSM_CACHE_BAD_KEY ->
    cache n !! bkey blk = Some b;
  w_free : forall b blk, (block_cache n).[b] = Some blk -> bkey blk = DSM_CACHE_BAD_KEY ->
    b ∈ block_queue n \/ exists k, pend = Some (k, b);
  w_queue : forall b, b ∈ block_queue n -> (forall k, pend <> Some (k, b)) /\
    exists blk, (block_cache n).[b] = Some blk /\ bkey blk = DSM_CACHE_BAD_KEY /\ locked blk = false;
  w_nodup : NoDup (block_queue n);
  w_pend : forall k b, pend = Some (k, b) -> cache n !! k = Some b /\
    exists blk, (block_cache n).[b] = Some blk /\ locked blk = true;
}.

Definition patched (ws : list Z) (at_ : Z) (src : list Z) : list Z :=
  list_inserts (Z.to_nat at_) src ws.

Lemma patched_spec ws at_ src : 0 <= at_ -> at_ + zlen src <= zlen ws ->
  zlen (patched ws at_ src) = zlen ws /\ forall j, (patched ws at_ src).[j]
    = if (at_ <=? j) && (j <? at_ + zlen src) then src.[j - at_] else ws.[j].
Proof.
  intros Ha Hl. destruct (wr_range_ok ws at_ src Ha Hl) as (l & Hw & H1 & H2).
  unfold wr_range in Hw. rewrite (proj2 (andb_true_iff _ _)) in Hw by lia. injection Hw as <-. done.
Qed.

Lemma view_ready n b blk k : node_wf None n -> cache n !! k = Some b -> (block_cache n).[b] = Some blk ->
  bkey blk = k /\ locked blk = false /\ view n k = Some (words blk).
Proof.
  intros Hw Hc Hb. destruct (w_cache _ _ Hw k b Hc) as (_ & blk' & Hb' & Hk). simplify_eq.
  destruct (decide _) as [?|_]; [done|]. destruct Hk as [Hk Hl]. split; [done|]. split; [done|].
  unfold view. by rewrite Hc, Hb, Hk, Z.eqb_refl, Hl.
Qed.

(** Changing the words and the age of a block that is ready. *)
Lemma update_block pend n b blk blk' k t : node_wf pend n -> cache n !! k = Some b ->
  (block_cache n).[b] = Some blk -> bkey blk = k -> locked blk = false ->
  bkey blk' = k -> locked blk' = false -> zlen (words blk') = 32 ->
  exists bs, wr (block_cache n) b blk' = Ret bs /\
    let n' := CacheNode bs (block_queue n) (cache n) (directory n) t in
    node_wf pend n' /\ bs.[b] = Some blk' /\
    forall k', view n' k' = if decide (k' = k) then Some (words blk') else view n k'.
Proof.
  intros Hw Hc Hb Hk Hl Hk' Hl' Hz. pose proof (zlook_Some_range _ _ _ Hb) as Hr.
  destruct (wr_ok (block_cache n) b blk') as (bs & -> & Hlen & Hbs); [lia|].
  exists bs. split; [done|]. cbv zeta. set (n' := CacheNode _ _ _ _ _).
  assert (bs.[b] = Some blk') as Hbb by (by rewrite Hbs, Z.eqb_refl).
  split; [|split; [done|]].
  - constructor; cbn [n' block_cache cache block_queue].
    + by rewrite Hlen, (w_len _ _ Hw).
    + intros b' blk0. rewrite Hbs. case_test; [by intros [= <-]|]. by apply (w_words _ _ Hw).
    + intros k' b' Hc'. destruct (w_cache _ _ Hw k' b' Hc') as (Hne & blk0 & Hb0 & Hcase).
      split; [done|]. rewrite Hbs. destruct (Z.eqb_spec b' b) as [->|]; [|eauto].
      exists blk'. split; [done|]. assert (blk0 = blk) as -> by congruence.
      revert Hcase. destruct (decide _) as [Hp|]; [|intros [? _]; split; congruence].
      destruct (w_pend _ _ Hw _ _ Hp) as (_ & blk1 & Hb1 & Hl1). congruence.
    + intros b' blk0. rewrite Hbs. destruct (Z.eqb_spec b' b) as [->|]; [|by apply (w_used _ _ Hw)].
      intros [= <-] _. by rewrite Hk'.
    + intros b' blk0. rewrite Hbs. destruct (Z.eqb_spec b' b) as [->|]; [|by apply (w_free _ _ Hw)].
      intros [= <-] Hbad. apply (w_free _ _ Hw b blk Hb). congruence.
    + intros b' Hq. destruct (w_queue _ _ Hw b' Hq) as (Hp & blk0 & Hb0 & Hbad & Hl0). split; [done|].
      rewrite Hbs. destruct (Z.eqb_spec b' b) as [->|]; [|eauto]. exists blk'.
      split; [done|]. split; [congruence|done].
    + apply (w_nodup _ _ Hw).
    + intros k' b' Hp. destruct (w_pend _ _ Hw k' b' Hp) as (Hc' & blk0 & Hb0 & Hl0). split; [done|].
      rewrite Hbs. destruct (Z.eqb_spec b' b) as [->|]; [congruence|eauto].
  - intros k'. unfold view. cbn [n' cache block_cache]. destruct (decide (k' = k)) as [->|Hne].
    + by rewrite Hc, Hbb, Hk', Z.eqb_refl, Hl'.
    + destruct (cache n !! k') as [b'|]; [|done]. rewrite Hbs. destruct (Z.eqb_spec b' b) as [->|]; [|done].
      by rewrite Hb, Hk, Hk', (proj2 (Z.eqb_neq k k')).
Qed.

Lemma rd_range_take (v : list Z) len : 0 <= len <= zlen v ->
  rd_range v 0 len = Ret (take (Z.to_nat len) v).
Proof. intros H. unfold rd_range. by rewrite (proj2 (andb_true_iff _ _)) by lia. Qed.

Lemma zlook_take (v : list Z) len j : 0 <= len -> (take (Z.to_nat len) v).[j]
  = if (0 <=? j) && (j <? len) then v.[j] else None.
Proof.
  intros H. change v with (drop (Z.to_nat 0) v) at 1.
  by rewrite zlook_take_drop, Z.add_0_l by lia.
Qed.

Lemma patch_spec blk at_ len v : 0 <= at_ -> 0 <= len <= zlen v -> at_ + len <= zlen (words blk) ->
  patch blk at_ len v
  = Ret (Block (patched (words blk) at_ (take (Z.to_nat len) v)) (lru blk) (bkey blk) (locked blk)).
Proof.
  intros Ha Hl Hw. unfold patch, wr_range. rewrite rd_range_take, bind_ret, zlen_take by done.
  by rewrite (proj2 (andb_true_iff _ _)) by lia.
Qed.

(** A renewal changes the block it is for, where it is ready. *)
Lemma ServerRenew_spec pend n addr len v : node_wf pend n -> is_u64 addr -> 0 <= len <= zlen v ->
  low addr + len <= 32 -> exists n', ServerRenew n addr len v = Ret n' /\ node_wf pend n' /\
    directory n' = directory n /\ cache n' = cache n /\
    forall k, view n' k = if decide (k = high addr)
      then (fun ws => patched ws (low addr) (take (Z.to_nat len) v)) <$> view n k else view n k.
Proof.
  intros Hw Ha Hl Hlow. pose proof (low_range addr) as Hr. unfold ServerRenew.
  assert (view n (high addr) = None -> forall k, view n k = if decide (k = high addr)
      then (fun ws => patched ws (low addr) (take (Z.to_nat len) v)) <$> view n k else view n k) as Hnone.
  { intros Hv k. case_decide as Hk; [|done]. by rewrite Hk, Hv. }
  destruct (cache n !! high addr) as [b|] eqn:Hc.
  2: { exists n. do 4 (split; [done|]). apply Hnone. unfold view. by rewrite Hc. }
  destruct (w_cache _ _ Hw _ _ Hc) as (Hne & blk & Hb & Hcase).
  rewrite (rd_ok _ _ _ Hb), bind_ret.
  destruct (locked blk) eqn:Hlk.
  { exists n. do 4 (split; [done|]). apply Hnone. unfold view. by rewrite Hc, Hb, Hlk, andb_false_r. }
  revert Hcase. destruct (decide _) as [Hp|_].
  { destruct (w_pend _ _ Hw _ _ Hp) as (_ & blk' & Hb' & Hl'). congruence. }
  intros [Hk _]. rewrite Hk, Z.eqb_refl, patch_spec, bind_ret by (rewrite ?(w_words _ _ Hw _ _ Hb); lia).
  unfold set_block. destruct (update_block pend n b blk
    (Block (patched (words blk) (low addr) (take (Z.to_nat len) v)) (lru blk) (bkey blk) (locked blk))
    (high addr) (clock n)) as (bs & -> & Hw' & _ & Hv); try done.
  { cbn [words]. destruct (patched_spec (words blk) (low addr) (take (Z.to_nat len) v)) as [-> _];
      rewrite ?zlen_take, ?(w_words _ _ Hw b blk Hb) by done; lia. }
  rewrite bind_ret. eexists. split; [done|]. do 3 (split; [done|]). intros k. rewrite Hv.
  case_decide as Hk'; [|done]. rewrite Hk'. unfold view. rewrite Hc, Hb, Hk, Z.eqb_refl, Hlk. done.
Qed.

(** The block that is swapped out has the least age of those in use. *)
Lemma oldest_spec n : node_wf None n ->
  (exists b blk, (block_cache n).[b] = Some blk /\ bkey blk <> DSM_CACHE_BAD_KEY /\ lru blk < 0xffffffff) ->
  exists mini blk, oldest n = Ret mini /\ (block_cache n).[mini] = Some blk /\
    bkey blk <> DSM_CACHE_BAD_KEY /\ forall b blk', (block_cache n).[b] = Some blk' ->
      bkey blk' <> DSM_CACHE_BAD_KEY -> lru blk <= lru blk'.
Proof.
  intros Hw (b0 & blk0 & Hb0 & Hk0 & Hl0). unfold oldest.
  change DSM_CACHE_SIZE with 1024.
  destruct (for_range_rule (fun i '(minlru, mini) =>
      (forall b blk, b < i -> (block_cache n).[b] = Some blk -> bkey blk <> DSM_CACHE_BAD_KEY ->
         minlru <= lru blk) /\
      (mini = -1 /\ minlru = 0xffffffff \/ exists blk, (block_cache n).[mini] = Some blk /\
         bkey blk <> DSM_CACHE_BAD_KEY /\ lru blk = minlru)) 0 1024 (oldest_turn n) (0xffffffff, -1))
    as ([minlru mini] & -> & Hmin & Hm); [lia| | |].
  - intros i [minlru mini] Hi [Hmin Hm]. unfold oldest_turn.
    destruct (zlook_is_Some (block_cache n) i) as [blk Hb]; [rewrite (w_len _ _ Hw); lia|].
    rewrite (rd_ok _ _ _ Hb), bind_ret.
    destruct (Z.eqb_spec (bkey blk) DSM_CACHE_BAD_KEY) as [Hbad|Hbad]; cbn [negb andb];
      [|destruct (Z.ltb_spec (lru blk) minlru)]; eexists (_, _); (split; [done|]); (split; [|eauto]);
      intros b blk' Hlt Hb' Hk'; (destruct (decide (b = i)) as [->|Hne]; [simplify_eq|]); try done; try lia;
      try (apply (Hmin b blk'); [lia|done|done]).
    assert (minlru <= lru blk'); [|lia]. apply (Hmin b); [lia|done|done].
  - split; [|by left]. intros b blk Hb Hl. apply zlook_Some_range in Hl. lia.
  - pose proof (zlook_Some_range _ _ _ Hb0) as Hr. rewrite (w_len _ _ Hw) in Hr.
    pose proof (Hmin b0 blk0 ltac:(lia) Hb0 Hk0).
    destruct Hm as [[-> ->]|(blk & Hb & Hk & <-)]; [lia|].
    pose proof (zlook_Some_range _ _ _ Hb) as Hr'. rewrite bind_ret, c_assert_true by lia.
    exists mini, blk. do 3 (split; [done|]). intros b blk' Hb' Hk'. apply (Hmin b); [|done|done].
    apply zlook_Some_range in Hb'. rewrite (w_len _ _ Hw) in Hb'. lia.
Qed.

(** Taking block [b], free or in use, for the request of block [k]. *)
Lemma alloc n k b blk t queue : node_wf None n -> k <> DSM_CACHE_BAD_KEY -> cache n !! k = None ->
  (block_cache n).[b] = Some blk ->
  (if decide (bkey blk = DSM_CACHE_BAD_KEY) then block_queue n = b :: queue
   else block_queue n = queue) ->
  exists bs, wr (block_cache n) b (Block (words blk) t DSM_CACHE_BAD_KEY true) = Ret bs /\
    let n' := CacheNode bs queue (<[k := b]> (delete (bkey blk) (cache n))) (directory n) (clock n) in
    node_wf (Some (k, b)) n' /\
    forall k', view n' k' = if decide (k' = bkey blk) then None else view n k'.
Proof.
  intros Hw Hk Hc Hb Hq. pose proof (zlook_Some_range _ _ _ Hb) as Hr. set (blk' := Block _ t _ _).
  destruct (wr_ok (block_cache n) b blk') as (bs & -> & Hlen & Hbs); [lia|].
  exists bs. split; [done|]. cbv zeta. set (n' := CacheNode _ _ _ _ _).
  assert (bs.[b] = Some blk') as Hbb by (by rewrite Hbs, Z.eqb_refl).
  assert (forall k' b', k' <> bkey blk -> cache n !! k' = Some b' -> b' <> b) as Hother.
  { intros k' b' Hne Hc' ->. by destruct (view_ready n b blk k' Hw Hc' Hb) as (<- & _). }
  assert (forall k', cache n' !! k' = if decide (k' = k) then Some b
            else if decide (k' = bkey blk) then None else cache n !! k') as Hc'.
  { intros k'. change (cache n') with (<[k := b]> (delete (bkey blk) (cache n))). destruct (decide (k' = k)) as [H1|H1];
      [by rewrite H1, lookup_insert_eq|].
    rewrite lookup_insert_ne by done. destruct (decide (k' = bkey blk)) as [H2|H2]; [by rewrite H2, lookup_delete_eq|].
    by rewrite lookup_delete_ne. }
  assert (b ∉ queue /\ NoDup queue /\ (forall b', b' ∈ queue -> b' ∈ block_queue n) /\
          (forall b', b' ∈ block_queue n -> b' <> b -> b' ∈ queue)) as (Hbq & Hnd & Hsub & Hsup).
  { pose proof (w_nodup _ _ Hw) as Hnd. revert Hq.
    destruct (decide (bkey blk = DSM_CACHE_BAD_KEY)) as [Hbad|Hbad]; intros Hq; rewrite Hq in Hnd |- *.
    - apply NoDup_cons in Hnd as [? ?]. split; [done|]. split; [done|]. split; [by right|].
      intros b' [->|?]%elem_of_cons Hne; done.
    - split; [|done]. intros Hin. rewrite <-Hq in Hin.
      destruct (w_queue _ _ Hw _ Hin) as (_ & blk0 & Hb0 & Hbad0 & _). congruence. }
  clear Hq. split.
  - constructor.
    + cbn [n' block_cache]. by rewrite Hlen, (w_len _ _ Hw).
    + intros b' blk0. cbn [n' block_cache]. rewrite Hbs.
      case_test; [intros [= <-]; exact (w_words _ _ Hw b blk Hb)|apply (w_words _ _ Hw)].
    + intros k' b'. rewrite Hc'. case_decide as H1; [intros [= <-]; rewrite H1|case_decide as H2; [done|]].
      * split; [done|]. exists blk'. split; [done|]. by rewrite decide_True.
      * intros Hb'. destruct (w_cache _ _ Hw _ _ Hb') as (Hne & blk0 & Hb0 & Hcase). split; [done|].
        exists blk0. cbn [n' block_cache]. rewrite Hbs, (proj2 (Z.eqb_neq _ _)) by (by apply (Hother k')).
        split; [done|]. by rewrite decide_False by congruence.
    + intros b' blk0. cbn [n' block_cache]. rewrite Hbs. destruct (Z.eqb_spec b' b) as [->|Hne].
      * by intros [= <-].
      * intros Hb0 Hbad. pose proof (w_used _ _ Hw _ _ Hb0 Hbad) as Hu. rewrite Hc'.
        rewrite decide_False by congruence. case_decide as H2; [|done].
        assert (bkey blk <> DSM_CACHE_BAD_KEY) as Hbb' by congruence.
        pose proof (w_used _ _ Hw _ _ Hb Hbb'). congruence.
    + intros b' blk0. cbn [n' block_cache block_queue]. rewrite Hbs.
      destruct (Z.eqb_spec b' b) as [->|Hne]; [intros _ _; right; by exists k|].
      intros Hb0 Hbad. destruct (w_free _ _ Hw _ _ Hb0 Hbad) as [Hin|[? ?]]; [left; by apply Hsup|done].
    + intros b' Hin. assert (b' <> b) as Hne by (by intros ->).
      split; [intros k' [= _ ?]; done|]. cbn [n' block_cache]. rewrite Hbs, (proj2 (Z.eqb_neq _ _)) by done.
      apply (w_queue _ _ Hw). by apply Hsub.
    + done.
    + intros k' b' [= <- <-]. rewrite Hc', decide_True by done. split; [done|]. by exists blk'.
  - intros k'. unfold view at 1. rewrite Hc'. cbn [n' block_cache].
    destruct (decide (k' = k)) as [->|Hne].
    + rewrite Hbb. cbn [blk' locked bkey]. rewrite andb_false_r. unfold view. rewrite Hc. by case_decide.
    + case_decide as H2; [done|]. unfold view. destruct (cache n !! k') as [b'|] eqn:Hb'; [|done].
      rewrite Hbs, (proj2 (Z.eqb_neq _ _)); [done|]. by apply (Hother k').
Qed.

(** Filling the block of a request and unlocking it. *)
Lemma fill n k b ws t : node_wf (Some (k, b)) n -> zlen ws = 32 ->
  exists blk bs bs', (block_cache n).[b] = Some blk /\
    wr (block_cache n) b (Block ws (lru blk) k (locked blk)) = Ret bs /\
    bs.[b] = Some (Block ws (lru blk) k (locked blk)) /\
    wr bs b (Block ws (clock n) k false) = Ret bs' /\ bs'.[b] = Some (Block ws (clock n) k false) /\
    let n' := CacheNode bs' (block_queue n) (cache n) (directory n) t in
    node_wf None n' /\ forall k', view n' k' = if decide (k' = k) then Some ws else view n k'.
Proof.
  intros Hw Hz. destruct (w_pend _ _ Hw k b eq_refl) as (Hc & blk & Hb & Hl).
  destruct (w_cache _ _ Hw k b Hc) as (Hk & blk' & Hb' & Hcase).
  assert (blk' = blk) as -> by congruence. rewrite decide_True in Hcase by done. pose proof (zlook_Some_range _ _ _ Hb) as Hr.
  set (new := Block ws (clock n) k false).
  destruct (wr_ok (block_cache n) b (Block ws (lru blk) k (locked blk))) as (bs & Hwr & Hlen & Hbs); [lia|].
  destruct (wr_ok bs b new) as (bs' & Hwr' & Hlen' & Hbs'); [lia|].
  exists blk, bs, bs'. do 2 (split; [done|]). split; [by rewrite Hbs, Z.eqb_refl|].
  split; [done|]. assert (bs'.[b] = Some new) as Hnew by (by rewrite Hbs', Z.eqb_refl). split; [done|].
  assert (forall b', bs'.[b'] = if b' =? b then Some new else (block_cache n).[b']) as Hall.
  { intros b'. rewrite Hbs', Hbs. by case_test. }
  assert (forall k' b', k' <> k -> cache n !! k' = Some b' -> b' <> b) as Hother.
  { intros k' b' Hne Hc' ->. destruct (w_cache _ _ Hw k' b Hc') as (_ & blk0 & Hb0 & Hc0).
    rewrite decide_False in Hc0 by congruence. destruct Hc0. congruence. }
  cbv zeta. split.
  - constructor; cbn [block_cache cache block_queue].
    + by rewrite Hlen', Hlen, (w_len _ _ Hw).
    + intros b' blk0. rewrite Hall. case_test; [by intros [= <-]|apply (w_words _ _ Hw)].
    + intros k' b' Hc'. destruct (w_cache _ _ Hw _ _ Hc') as (Hne & blk0 & Hb0 & Hc0). split; [done|].
      rewrite Hall. destruct (decide (k' = k)) as [->|Hk'].
      * assert (b' = b) as -> by congruence. exists new. by rewrite Z.eqb_refl.
      * rewrite (proj2 (Z.eqb_neq _ _)) by (by apply (Hother k')). exists blk0. split; [done|].
        rewrite decide_False in Hc0 by congruence. by rewrite decide_False by done.
    + intros b' blk0. rewrite Hall. destruct (Z.eqb_spec b' b) as [->|]; [by intros [= <-]|].
      apply (w_used _ _ Hw).
    + intros b' blk0. rewrite Hall. destruct (Z.eqb_spec b' b) as [->|Hne]; [by intros [= <-]|].
      intros Hb0 Hbad. destruct (w_free _ _ Hw _ _ Hb0 Hbad) as [|[k' [= _ <-]]]; [by left|done].
    + intros b' Hin. split; [done|]. destruct (w_queue _ _ Hw _ Hin) as (Hp & Hex).
      rewrite Hall, (proj2 (Z.eqb_neq _ _)); [done|]. intros ->. by apply (Hp k).
    + apply (w_nodup _ _ Hw).
    + done.
  - intros k'. unfold view. cbn [cache block_cache]. destruct (decide (k' = k)) as [->|Hne].
    + rewrite Hc, Hnew. cbn. by rewrite Z.eqb_refl.
    + destruct (cache n !! k') as [b'|] eqn:Hbk; [|done].
      by rewrite Hall, (proj2 (Z.eqb_neq _ _)) by (by apply (Hother k')).
Qed.

Lemma init_node_wf : node_wf None init_node /\ forall k, view init_node k = None.
Proof.
  split; [|done]. constructor; try done.
  - intros b blk Hb. pose proof (zlook_Some_range _ _ _ Hb) as Hr. change (zlen (block_cache init_node)) with 1024 in Hr.
    unfold init_node in Hb. cbn [block_cache] in Hb. rewrite zlook_replicate in Hb by done. by injection Hb as <-.
  - intros b blk Hb Hk. pose proof (zlook_Some_range _ _ _ Hb) as Hr.
    unfold init_node in Hb. cbn [block_cache] in Hb. rewrite zlook_replicate in Hb by done. by injection Hb as <-.
  - intros b blk Hb Hk. left. pose proof (zlook_Some_range _ _ _ Hb) as Hr.
    change (zlen (block_cache init_node)) with 1024 in Hr. apply elem_of_seqZ. unfold DSM_CACHE_SIZE. lia.
  - intros b Hq. apply elem_of_seqZ in Hq. split; [done|]. eexists.
    unfold init_node. cbn [block_cache]. rewrite zlook_replicate by lia. done.
  - apply NoDup_seqZ.
Qed.

(** * Messages under way *)

(** Renewals of block [k] for node [i]. *)
Definition renews_for (i k : Z) (m : Z * Z * DataPack) : bool :=
  (snd (fst m) =? i) && bool_decide (p_kind (snd m) = MsgRenew) && (high (p_addr (snd m)) =? k).
Definition under_way (i k : Z) (l : list (Z * Z * DataPack)) : list (Z * Z * DataPack) :=
  filter (fun m => renews_for i k m = true) l.

Definition apply_renews (l : list (Z * Z * DataPack)) (ws : list Z) : list Z :=
  foldl (fun ws m => patched ws (low (p_addr (snd m))) (p_buf (snd m))) ws l.

Lemma under_way_app i k l1 l2 : under_way i k (l1 ++ l2) = under_way i k l1 ++ under_way i k l2.
Proof. apply filter_app. Qed.

Lemma under_way_cons i k m l : under_way i k (m :: l)
  = if renews_for i k m then m :: under_way i k l else under_way i k l.
Proof. unfold under_way. rewrite filter_cons. by destruct (renews_for i k m). Qed.

Lemma under_way_nil i k l : (forall m, m ∈ l -> renews_for i k m = false) -> under_way i k l = [].
Proof.
  intros H. induction l as [|m l IH]; [done|]. rewrite under_way_cons, H by left.
  apply IH. intros m' Hm. apply H. by right.
Qed.

(** The relative order of the renewals of one block for one node is that of their
    connection: bringing a connection's messages to the front does not change it. *)
Lemma under_way_reorder i k b l (B : Z * Z * DataPack -> bool) :
  (forall m, m ∈ l -> renews_for i k m = true -> B m = b) ->
  under_way i k (filter (fun m => B m = true) l ++ filter (fun m => B m = false) l) = under_way i k l.
Proof.
  intros H. rewrite under_way_app.
  assert (forall c, under_way i k (filter (fun m => B m = c) l) = if decide (c = b) then under_way i k l else [])
    as Hc.
  { intros c. induction l as [|m l IH]; [by case_decide|]. rewrite filter_cons, (under_way_cons _ _ m l).
    assert (forall m', m' ∈ l -> renews_for i k m' = true -> B m' = b) as Hl by (intros; apply H; [by right|done]).
    destruct (renews_for i k m) eqn:Hm.
    - rewrite (H m ltac:(left) Hm). destruct (decide (b = c)) as [->|Hne].
      + rewrite under_way_cons, Hm, IH by done. by rewrite !decide_True.
      + rewrite IH by done. by rewrite !(decide_False (P := c = b)).
    - destruct (decide (B m = c)); [rewrite under_way_cons, Hm|]; by apply IH. }
  rewrite !Hc. destruct b; rewrite ?decide_True, ?decide_False by done; [by rewrite app_nil_r|done].
Qed.

(** * The invariant *)

Section coherence.
Context {S : Type} `{SoStorageLaws S}.
Context (caches : Z) (Hcaches : 0 < caches <= 64).

(** The word of the back end at an address. *)
Definition amem (s : S) (a : Z) : Z := so_mem s (a / 2 ^ 32) (a mod 2 ^ 32).

Record renew_ok (p : DataPack) : Prop := {
  r_valid : valid (p_addr p);
  r_len : 0 <= p_len p;
  r_low : low (p_addr p) + p_len p <= 32;
  r_buf : zlen (p_buf p) = p_len p;
}.

Definition msg_ok (ns : gmap Z cache_node) (m : Z * Z * DataPack) : Prop :=
  let '(src, dst, p) := m in
  0 <= src < caches /\ 0 <= dst < caches /\ src <> dst /\
  (p_kind p = MsgRenew /\ renew_ok p /\ src = home caches (p_addr p) \/
   p_kind p = MsgWriteback /\ valid_block (p_addr p) /\ dst = home caches (p_addr p) /\
     forall n, ns !! src = Some n -> view n (p_addr p) = None).

(** What holds of the caches together: the nodes are well-formed, but for the
    requests under way [pend]; who has a block is in the directory of its home; and a
    block, with the renewals under way to it, is what the back end stores, except for
    the nodes and blocks [ex]. *)
Record coherent (pend : Z -> option (Z * Z)) (ex : Z -> Z -> Prop) (d : dsm S) : Prop := {
  g_ok : so_ok (backend d);
  g_nodes : forall i, 0 <= i < caches <-> is_Some (nodes d !! i);
  g_wf : forall i n, nodes d !! i = Some n -> node_wf (pend i) n;
  g_msgs : Forall (msg_ok (nodes d)) (ctrl d);
  g_dir : forall i n k ws, nodes d !! i = Some n -> view n k = Some ws -> valid_block k /\
    exists nh, nodes d !! home caches k = Some nh /\
      Z.testbit (default 0 (directory nh !! k)) i = true;
  g_mem : forall i n k ws, nodes d !! i = Some n -> view n k = Some ws -> ~ ex i k ->
    forall j, 0 <= j < 32 ->
      (apply_renews (under_way i k (ctrl d)) ws).[j] = Some (amem (backend d) (k + j));
}.

Definition settled : Z -> option (Z * Z) := fun _ => None.
Definition nowhere : Z -> Z -> Prop := fun _ _ => False.

Lemma home_high a : is_u64 a -> home caches (high a) = home caches a.
Proof.
  intros Ha. unfold home. f_equal. rewrite high_eq, !Z.shiftr_div_pow2 by (done || lia).
  change (2 ^ DSM_CACHE_BITS) with 32. rewrite (Z.mul_comm 32), Z.div_mul by lia. done.
Qed.

Lemma home_range a : 0 <= home caches a < caches.
Proof. apply Z.mod_pos_bound. lia. Qed.

Lemma set_directory_wf pend n dir : node_wf pend n -> node_wf pend (set_directory n dir).
Proof. intros [? ? ? ? ? ? ? ?]. by constructor. Qed.

Lemma renews_for_true i k m ns : msg_ok ns m -> renews_for i k m = true ->
  valid (p_addr (snd m)) /\ p_kind (snd m) = MsgRenew /\ high (p_addr (snd m)) = k /\
  snd (fst m) = i /\ fst (fst m) = home caches k /\ fst (fst m) <> i.
Proof.
  destruct m as [[src dst] p]. intros (_ & _ & Hne & Hm). unfold renews_for. cbn [fst snd].
  rewrite !andb_true_iff, bool_decide_eq_true, !Z.eqb_eq. intros [[-> Hk] <-].
  destruct Hm as [(_ & Hr & ->)|(? & _)]; [|congruence]. destruct (r_valid _ Hr) as [Hu _].
  rewrite home_high by done. split; [apply (r_valid _ Hr)|done].
Qed.

(** No renewal is under way from a home to itself. *)
Lemma home_not_renewed pend ex d k : coherent pend ex d -> under_way (home caches k) k (ctrl d) = [].
Proof.
  intros Hg. apply under_way_nil. intros m Hm. destruct (renews_for _ _ m) eqn:Hr; [|done].
  pose proof (g_msgs _ _ _ Hg) as Hms. rewrite Forall_forall in Hms.
  destruct (renews_for_true _ _ _ _ (Hms m Hm) Hr) as (_ & _ & _ & _ & Hs & Hne). congruence.
Qed.

(** A step at node [i0] that makes no block available and keeps the directory's bits of
    the blocks that are. *)
Lemma coherent_update pend ex d pend' ex' s' i0 n n' l' :
  coherent pend ex d -> nodes d !! i0 = Some n -> so_ok s' ->
  node_wf (pend' i0) n' -> (forall i, i <> i0 -> pend' i = pend i) ->
  (forall k, view n k = None -> view n' k = None) ->
  (forall i x k, <[i0 := n']> (nodes d) !! i = Some x -> view x k <> None -> home caches k = i0 ->
     Z.testbit (default 0 (directory n !! k)) i = true ->
     Z.testbit (default 0 (directory n' !! k)) i = true) ->
  Forall (msg_ok (<[i0 := n']> (nodes d))) l' ->
  (forall i x k ws, <[i0 := n']> (nodes d) !! i = Some x -> view x k = Some ws -> ~ ex' i k ->
    forall j, 0 <= j < 32 -> (apply_renews (under_way i k l') ws).[j] = Some (amem s' (k + j))) ->
  coherent pend' ex' (Dsm s' (<[i0 := n']> (nodes d)) l').
Proof.
  intros Hg Hn Hs Hw Hp Hview Hdir Hmsgs Hmem. constructor; cbn [backend nodes ctrl]; try done.
  - intros i. rewrite (g_nodes _ _ _ Hg i).
    destruct (decide (i = i0)) as [->|Hne]; [rewrite lookup_insert_eq, Hn; by split|].
    by rewrite lookup_insert_ne.
  - intros i x Hx. destruct (decide (i = i0)) as [->|Hne].
    + rewrite lookup_insert_eq in Hx. by injection Hx as <-.
    + rewrite lookup_insert_ne in Hx by done. rewrite Hp by done. by apply (g_wf _ _ _ Hg).
  - intros i x k ws Hx Hws.
    assert (exists y ws0, nodes d !! i = Some y /\ view y k = Some ws0) as (y & ws0 & Hy & Hy0).
    { destruct (decide (i = i0)) as [->|Hne].
      - rewrite lookup_insert_eq in Hx. injection Hx as <-.
        destruct (view n k) as [ws0|] eqn:Hv; [by exists n, ws0|]. by rewrite (Hview k Hv) in Hws.
      - rewrite lookup_insert_ne in Hx by done. eauto. }
    destruct (g_dir _ _ _ Hg i y k ws0 Hy Hy0) as (Hvk & nh & Hnh & Hbit). split; [done|].
    destruct (decide (home caches k = i0)) as [He|He].
    + rewrite He in Hnh |- *. exists n'. rewrite lookup_insert_eq. split; [done|].
      apply (Hdir i x k); [done|congruence|done|congruence].
    + exists nh. by rewrite lookup_insert_ne.
Qed.

Lemma msg_ok_update ns i0 n n' m : ns !! i0 = Some n -> (forall k, view n k = None -> view n' k = None) ->
  msg_ok ns m -> msg_ok (<[i0 := n']> ns) m.
Proof.
  destruct m as [[s0 d0] q]. intros Hn Hview (? & ? & ? & Hq). do 3 (split; [done|]).
  destruct Hq as [?|(? & ? & ? & Hvn)]; [by left|right]. do 3 (split; [done|]). intros x Hx.
  destruct (decide (s0 = i0)) as [->|Hne].
  - rewrite lookup_insert_eq in Hx. injection Hx as <-. apply Hview, Hvn, Hn.
  - rewrite lookup_insert_ne in Hx by done. by apply Hvn.
Qed.

(** * Deliveries *)

Lemma under_way_deliver i k src dst p l1 l2 ns : msg_ok ns (src, dst, p) -> Forall (msg_ok ns) l1 ->
  Forall (fun m => between src dst m = false) l1 ->
  under_way i k (l1 ++ (src, dst, p) :: l2)
  = (if renews_for i k (src, dst, p) then [(src, dst, p)] else []) ++ under_way i k (l1 ++ l2).
Proof.
  intros Hm Hm1 Hl1. rewrite !under_way_app, under_way_cons.
  destruct (renews_for i k (src, dst, p)) eqn:Hr; [|done].
  destruct (renews_for_true _ _ _ _ Hm Hr) as (_ & _ & _ & H1 & H2 & _). cbn [fst snd] in H1, H2.
  rewrite (under_way_nil i k l1); [done|]. intros m Hin.
  destruct (renews_for i k m) eqn:Hrm; [|done]. exfalso. rewrite Forall_forall in Hl1, Hm1.
  destruct (renews_for_true _ _ _ _ (Hm1 m Hin) Hrm) as (_ & _ & _ & H3 & H4 & _).
  specialize (Hl1 m Hin). unfold between in Hl1. by rewrite H3, H4, H1, H2, !Z.eqb_refl in Hl1.
Qed.

Lemma deliver_renew pend ex s ns l1 l2 src dst p :
  coherent pend ex (Dsm s ns (l1 ++ (src, dst, p) :: l2)) ->
  Forall (fun m => between src dst m = false) l1 -> p_kind p = MsgRenew ->
  exists n n', ns !! dst = Some n /\ ServerRenew n (p_addr p) (p_len p) (p_buf p) = Ret n' /\
    coherent pend ex (Dsm s (<[dst := n']> ns) (l1 ++ l2)).
Proof.
  intros Hg Hl1 Hk. pose proof (g_msgs _ _ _ Hg) as Hms. cbn [ctrl nodes] in Hms.
  apply Forall_app in Hms as [Hm1 Hm2]. apply Forall_cons in Hm2 as [Hm Hm2].
  pose proof Hm as (_ & Hdst & _ & [(_ & Hr & _)|(? & _)]); [|congruence].
  destruct (proj1 (g_nodes _ _ _ Hg dst) Hdst) as [n Hn]. cbn [nodes] in Hn.
  destruct (ServerRenew_spec (pend dst) n (p_addr p) (p_len p) (p_buf p)) as (n' & Hn' & Hw & Hdir & _ & Hv).
  { by apply (g_wf _ _ _ Hg). }
  { apply (r_valid _ Hr). }
  { rewrite (r_buf _ Hr). pose proof (r_len _ Hr). lia. }
  { apply (r_low _ Hr). }
  exists n, n'. split; [done|]. split; [done|]. rewrite <-(r_buf _ Hr) in Hv.
  assert (take (Z.to_nat (zlen (p_buf p))) (p_buf p) = p_buf p) as Htake.
  { unfold zlen. rewrite Nat2Z.id. apply take_ge. lia. }
  rewrite Htake in Hv.
  assert (forall k, view n k = None -> view n' k = None) as Hnone.
  { intros k Hk'. rewrite Hv, Hk'. by case_decide. }
  apply (coherent_update pend ex _ pend ex s dst n n' (l1 ++ l2) Hg); cbn [nodes]; try done.
  - apply (g_ok _ _ _ Hg).
  - by rewrite Hdir.
  - apply Forall_app. split; (eapply Forall_impl; [eassumption|]); intros m; by apply (msg_ok_update _ _ n).
  - intros i x k ws Hx Hws Hex. pose proof (g_mem _ _ _ Hg i) as Hmem. cbn [ctrl backend nodes] in Hmem.
    setoid_rewrite (under_way_deliver i) in Hmem; [|done..].
    destruct (decide (i = dst)) as [->|Hne].
    + rewrite lookup_insert_eq in Hx. injection Hx as <-. rewrite Hv in Hws.
      unfold renews_for in Hmem. cbn [fst snd] in Hmem.
      rewrite Z.eqb_refl, bool_decide_true in Hmem by done. cbn [andb] in Hmem.
      destruct (decide (k = high (p_addr p))) as [->|Hkk].
      * apply fmap_Some in Hws as (ws0 & Hw0 & ->). specialize (Hmem n _ ws0 Hn Hw0 Hex).
        by rewrite Z.eqb_refl in Hmem.
      * specialize (Hmem n k ws Hn Hws Hex). by rewrite (proj2 (Z.eqb_neq _ _)) in Hmem.
    + rewrite lookup_insert_ne in Hx by done. specialize (Hmem x k ws Hx Hws Hex).
      unfold renews_for in Hmem. cbn [fst snd] in Hmem. by rewrite (proj2 (Z.eqb_neq dst i)) in Hmem.
Qed.

Lemma u64_bit x i : 0 <= i < 64 -> Z.testbit (u64 x) i = Z.testbit x i.
Proof. intros Hi. unfold u64. by rewrite Z.mod_pow2_bits_low by lia. Qed.

Lemma one_bit src i : 0 <= src -> Z.testbit (Z.shiftl 1 src) i = (i =? src).
Proof. intros Hs. by rewrite Z.shiftl_1_l, Z.pow2_bits_eqb, Z.eqb_sym by lia. Qed.

Lemma clear_bit old src i : 0 <= i < 64 -> 0 <= src -> i <> src ->
  Z.testbit (Z.land old (u64 (Z.lnot (Z.shiftl 1 src)))) i = Z.testbit old i.
Proof.
  intros Hi Hs Hne. rewrite Z.land_spec, u64_bit, Z.lnot_spec, one_bit by lia.
  rewrite (proj2 (Z.eqb_neq _ _)) by done. apply andb_true_r.
Qed.

Lemma set_bit old src i : 0 <= i < 64 -> 0 <= src ->
  Z.testbit (Z.lor old (u64 (Z.shiftl 1 src))) i = Z.testbit old i || (i =? src).
Proof. intros Hi Hs. by rewrite Z.lor_spec, u64_bit, one_bit by lia. Qed.

Lemma node_range pend ex d i n : coherent pend ex d -> nodes d !! i = Some n -> 0 <= i < caches.
Proof. intros Hg Hn. apply (g_nodes _ _ _ Hg). by eexists. Qed.

(** Taking node [src] out of the directory for a block it does not have. *)
Lemma unregister pend ex s ns dst n src a l l' : coherent pend ex (Dsm s ns l) ->
  ns !! dst = Some n -> home caches a = dst -> 0 <= src ->
  (forall x, ns !! src = Some x -> view x a = None) ->
  Forall (msg_ok ns) l' -> (forall i k, under_way i k l' = under_way i k l) ->
  exists n', ServerWriteback caches dst n a src = Ret n' /\ coherent pend ex (Dsm s (<[dst := n']> ns) l') /\
    exists dir, n' = set_directory n dir.
Proof.
  intros Hg Hn Hh Hsrc Hno Hl' Hu. unfold ServerWriteback. rewrite c_assert_true, bind_ret by lia.
  assert (exists dir, (match directory n !! a with
      | Some old => let newv := Z.land old (u64 (Z.lnot (Z.shiftl 1 src))) in
          if negb (newv =? 0) then Ret (set_directory n (<[a := newv]> (directory n)))
          else Ret (set_directory n (delete a (directory n)))
      | None => Ret n end) = Ret (set_directory n dir) /\
    forall k i, 0 <= i < 64 -> k <> a \/ i <> src ->
      Z.testbit (default 0 (directory n !! k)) i = true -> Z.testbit (default 0 (dir !! k)) i = true)
    as (dir & Hrun & Hdir).
  { destruct (directory n !! a) as [old|] eqn:Ho.
    2: { exists (directory n). split; [by destruct n|done]. }
    cbv zeta. set (newv := Z.land old _).
    exists (if newv =? 0 then delete a (directory n) else <[a := newv]> (directory n)).
    split; [by destruct (newv =? 0)|]. intros k i Hi Hka Hbit. destruct (decide (k = a)) as [->|Hne].
    - destruct Hka as [?|Hka]; [done|]. rewrite Ho in Hbit. cbn in Hbit.
      assert (Z.testbit newv i = true) as Hnew by (unfold newv; by rewrite clear_bit).
      destruct (Z.eqb_spec newv 0) as [H00|]; [by rewrite H00, Z.bits_0 in Hnew|].
      by rewrite lookup_insert_eq.
    - destruct (newv =? 0); [by rewrite lookup_delete_ne|by rewrite lookup_insert_ne]. }
  exists (set_directory n dir). split; [done|]. split; [|eauto].
  apply (coherent_update pend ex _ pend ex s dst n (set_directory n dir) l' Hg); cbn [nodes]; try done.
  - apply (g_ok _ _ _ Hg).
  - apply set_directory_wf. by apply (g_wf _ _ _ Hg).
  - intros i x k Hx Hv Hk Hbit. cbn [set_directory directory].
    assert (exists y, ns !! i = Some y /\ view y k = view x k) as (y & Hy & Hvy).
    { destruct (decide (i = dst)) as [->|]; [rewrite lookup_insert_eq in Hx; injection Hx as <-; by exists n|].
      rewrite lookup_insert_ne in Hx by done. eauto. }
    apply Hdir; [pose proof (node_range _ _ _ _ _ Hg Hy); lia| |done].
    destruct (decide (k = a)) as [->|]; [right|by left]. intros ->. by rewrite <-Hvy, (Hno y Hy) in Hv.
  - eapply Forall_impl; [eassumption|]. intros m. by apply (msg_ok_update _ _ n).
  - intros i x k ws Hx Hv Hex j Hj. rewrite Hu.
    destruct (decide (i = dst)) as [->|Hne].
    + rewrite lookup_insert_eq in Hx. injection Hx as <-. by apply (g_mem _ _ _ Hg dst n k ws).
    + rewrite lookup_insert_ne in Hx by done. by apply (g_mem _ _ _ Hg i x k ws).
Qed.

(** Delivering the oldest message of a connection. *)
Lemma deliver pend ex s ns l1 l2 src dst p :
  coherent pend ex (Dsm s ns (l1 ++ (src, dst, p) :: l2)) ->
  Forall (fun m => between src dst m = false) l1 ->
  exists n n', ns !! dst = Some n /\
    CacheProtocalProc_cmd caches dst s n src p = Ret (s, n', [], None) /\
    coherent pend ex (Dsm s (<[dst := n']> ns) (l1 ++ l2)).
Proof.
  intros Hg Hl1. pose proof (g_msgs _ _ _ Hg) as Hms. cbn [ctrl nodes] in Hms.
  apply Forall_app in Hms as [Hm1 Hm2]. apply Forall_cons in Hm2 as [Hm Hm2].
  pose proof Hm as (Hsrc & Hdst & _ & [(Hk & _)|(Hk & Hvb & Hh & Hno)]);
    unfold CacheProtocalProc_cmd; rewrite Hk.
  - destruct (deliver_renew pend ex s ns l1 l2 src dst p Hg Hl1 Hk) as (n & n' & Hn & Hrun & Hg').
    exists n, n'. by rewrite Hrun, bind_ret.
  - destruct (proj1 (g_nodes _ _ _ Hg dst) Hdst) as [n Hn]. cbn [nodes] in Hn.
    destruct (unregister pend ex s ns dst n src (p_addr p) _ (l1 ++ l2) Hg Hn) as (n' & Hrun & Hg' & _);
      [done|lia|done|by apply Forall_app| |].
    { intros i k. rewrite (under_way_deliver i k src dst p l1 l2 ns) by done.
      unfold renews_for. cbn [fst snd]. by rewrite Hk, bool_decide_false, andb_false_r. }
    exists n, n'. by rewrite Hrun, bind_ret.
Qed.

Lemma coherent_reorder pend ex s ns l src dst : coherent pend ex (Dsm s ns l) ->
  coherent pend ex (Dsm s ns (filter (fun m => between src dst m = true) l
                              ++ filter (fun m => between src dst m = false) l)).
Proof.
  intros Hg. constructor; try apply Hg.
  - cbn [ctrl nodes]. pose proof (g_msgs _ _ _ Hg) as Hms. cbn in Hms.
    apply Forall_app. split; apply Forall_forall; intros m [_ Hin]%list_elem_of_filter;
      by eapply Forall_forall in Hms.
  - intros i n k ws Hn Hv Hex. cbn [ctrl].
    rewrite (under_way_reorder i k ((home caches k =? src) && (i =? dst))).
    + by apply (g_mem _ _ _ Hg i n k ws).
    + intros m Hin Hr. pose proof (g_msgs _ _ _ Hg) as Hms. cbn in Hms.
      eapply Forall_forall in Hms; [|done].
      destruct (renews_for_true _ _ _ _ Hms Hr) as (_ & _ & _ & H1 & H2 & _).
      unfold between. by rewrite H1, H2.
Qed.

(** Handling what is in a connection before a request. *)
Lemma drain pend ex src dst before s ns rest :
  coherent pend ex (Dsm s ns (before ++ rest)) -> Forall (fun m => between src dst m = true) before ->
  exists ns', for_each before (fun m d => '(d, _) ← handle caches src dst (snd m) d; Ret d) (Dsm s ns rest)
      = Ret (Dsm s ns' rest) /\ coherent pend ex (Dsm s ns' rest) /\
    forall j, j <> dst -> ns' !! j = ns !! j.
Proof.
  revert ns. induction before as [|[[s0 d0] p] before IH]; intros ns Hg Hb; [by exists ns|].
  apply Forall_cons in Hb as [Hm Hb]. unfold between in Hm. cbn [fst snd] in Hm.
  apply andb_true_iff in Hm as [->%Z.eqb_eq ->%Z.eqb_eq].
  destruct (deliver pend ex s ns [] (before ++ rest) src dst p Hg) as (n & n' & Hn & Hrun & Hg'); [done|].
  destruct (IH _ Hg' Hb) as (ns' & Hrun' & Hg'' & Hsame). exists ns'. split; [|split; [done|]].
  - assert (handle caches src dst p (Dsm s ns rest) = Ret (Dsm s (<[dst := n']> ns) rest, None)) as Hh.
    { unfold handle, get_node. cbn [nodes backend ctrl].
      by rewrite Hn, bind_ret, Hrun, bind_ret, app_nil_r. }
    cbn [for_each snd]. by rewrite Hh, !bind_ret.
  - intros j Hj. by rewrite Hsame, lookup_insert_ne.
Qed.

(** * Writes at the home *)

Ltac Zify.zify_post_hook ::= Z.to_euclidean_division_equations.

Lemma same_range a a' len : valid a -> valid a' -> 0 <= len -> low a + len <= 32 ->
  (a' / 2 ^ 32 =? a / 2 ^ 32) && (a mod 2 ^ 32 <=? a' mod 2 ^ 32)
    && (a' mod 2 ^ 32 <? a mod 2 ^ 32 + len)
  = (a <=? a') && (a' <? a + len) /\ (a <= a' < a + len -> a' mod 2 ^ 32 - a mod 2 ^ 32 = a' - a).
Proof.
  rewrite low_eq. intros [Ha Hm] [Ha' Hm'] Hl Hlow. unfold is_u64, MAX_FIELD in *.
  split; [|lia]. apply eq_true_iff_eq. rewrite !andb_true_iff, !Z.leb_le, !Z.ltb_lt, Z.eqb_eq. lia.
Qed.

Lemma addr_range a len : valid a -> 0 <= len -> low a + len <= 32 ->
  range_ok (a / 2 ^ 32) (a mod 2 ^ 32) len.
Proof.
  rewrite low_eq. intros [Ha Hm] Hl Hlow. unfold range_ok, is_u32, is_u64, MAX_FIELD in *. lia.
Qed.

Lemma valid_mem a : valid a -> is_u32 (a / 2 ^ 32) /\ 0 <= a mod 2 ^ 32 < MAX_FIELD.
Proof. intros [Ha Hm]. unfold is_u32, is_u64, MAX_FIELD in *. lia. Qed.

Lemma block_fields k : valid_block k -> is_u32 (k / 2 ^ 32) /\ 0 <= k mod 2 ^ 32 /\
  k mod 2 ^ 32 + 32 <= MAX_FIELD /\ (k mod 2 ^ 32) mod 32 = 0 /\
  forall j, 0 <= j < 32 -> (k + j) / 2 ^ 32 = k / 2 ^ 32 /\ (k + j) mod 2 ^ 32 = k mod 2 ^ 32 + j.
Proof. intros [[Hk Hm] H32]. unfold is_u32, is_u64, MAX_FIELD in *. repeat split; lia. Qed.

Lemma MAKE64_fields k : is_u64 k -> MAKE64 (k / 2 ^ 32) (k mod 2 ^ 32) = k.
Proof. intros Hk. unfold is_u64 in *. rewrite MAKE64_add by ranges. lia. Qed.

Ltac Zify.zify_post_hook ::= idtac.

Context `{!SoReliable S}.

Definition stored (s s' : S) (a len : Z) (v : list Z) : Prop :=
  forall a', valid a' -> amem s' a' = if (a <=? a') && (a' <? a + len)
                                      then default 0 (v.[a' - a]) else amem s a'.

Lemma put_block s a len v : so_ok s -> valid a -> 0 <= len <= zlen v -> low a + len <= 32 ->
  Forall is_u32 v -> exists s',
    so_putchunk s (Z.shiftr a 32) (Z.land a 0xffffffff) len v = Ret (s', SoOK) /\ so_ok s' /\
    stored s s' a len v.
Proof.
  intros Hs Ha Hl Hlow Hv. destruct (addr_fields a) as [-> ->]; [apply Ha|].
  assert (range_ok (a / 2 ^ 32) (a mod 2 ^ 32) len) as Hr by (apply addr_range; [done|lia|lia]).
  destruct (so_putchunk_law s (a / 2 ^ 32) (a mod 2 ^ 32) len v Hs Hr ltac:(lia) Hv)
    as (s' & st & Hrun & Hs' & Hw).
  pose proof (so_reliable _ _ _ _ _ _ _ Hs Hr Hrun) as ->. exists s'. split; [done|]. split; [done|].
  intros a' Ha'. unfold amem. destruct (valid_mem a' Ha') as [H1 H2]. specialize (Hw _ _ H1 H2).
  destruct (same_range a a' len Ha Ha' ltac:(lia) Hlow) as [He Hd]. rewrite He in Hw.
  destruct ((a <=? a') && (a' <? a + len)) eqn:Hin; [|done].
  apply andb_true_iff in Hin as [?%Z.leb_le ?%Z.ltb_lt].
  destruct Hw as [Hw _]. rewrite Hd in Hw by done. by rewrite (Hw eq_refl).
Qed.

Lemma get_block s k buf : so_ok s -> valid_block k -> zlen buf = 32 -> exists buf',
  so_getblock s k buf = Ret (SoOK, buf') /\ zlen buf' = 32 /\
  forall j, 0 <= j < 32 -> buf'.[j] = Some (amem s (k + j)).
Proof.
  intros Hs Hk Hb. destruct (block_fields k Hk) as (H1 & H2 & H3 & H4 & H5).
  destruct (so_getblock_law s (k / 2 ^ 32) (k mod 2 ^ 32) buf) as (buf' & Hrun & Hz & Hj); try done.
  { by rewrite land_low_mask. }
  rewrite MAKE64_fields in Hrun by apply Hk. exists buf'. split; [done|]. split; [lia|].
  intros j Hj'. rewrite Hj by done. unfold amem. by destruct (H5 j Hj') as [-> ->].
Qed.

(** Who is told of a write by [src] at the home [self], by the directory's bits. *)
Definition told (old src self : Z) : list Z :=
  filter (fun i => Z.testbit old i = true /\ i <> src /\ i <> self) (seqZ 0 caches).

Lemma told_spec old src self i :
  i ∈ told old src self <-> 0 <= i < caches /\ Z.testbit old i = true /\ i <> src /\ i <> self.
Proof. unfold told. rewrite list_elem_of_filter, elem_of_seqZ. intuition lia. Qed.

Lemma land_one x : negb (Z.land x 1 =? 0) = Z.testbit x 0.
Proof.
  change 1 with (Z.ones 1) at 1. rewrite Z.land_ones, Z.bit0_odd by lia.
  change (2 ^ 1) with 2. rewrite Zmod_odd. by destruct (Z.odd x).
Qed.

Lemma renew_all_spec pend self n addr src len v old : 0 <= self < caches -> node_wf pend n ->
  is_u64 addr -> 0 <= len <= zlen v -> low addr + len <= 32 ->
  exists n', renew_all caches self n addr src len v old
      = Ret (n', (fun i => (i, Pack addr MsgRenew len (take (Z.to_nat len) v))) <$> told old src self) /\
    if Z.testbit old self && negb (src =? self)
    then ServerRenew n addr len v = Ret n' else n' = n.
Proof.
  intros Hself Hw Ha Hl Hlow. unfold renew_all. destruct (Z.eqb_spec old 0) as [->|Hold].
  { exists n. rewrite Z.bits_0. split; [|done]. assert (told 0 src self = []) as ->; [|done].
    apply elem_of_nil_inv. intros i (_ & Hi & _)%told_spec. by rewrite Z.bits_0 in Hi. }
  pose proof (low_range addr). rewrite c_assert_true, bind_ret by (rewrite block_size_32; lia).
  rewrite rd_range_take, bind_ret by done. set (pack := Pack addr MsgRenew len _).
  destruct (ServerRenew_spec pend n addr len v Hw Ha Hl Hlow) as (nr & Hnr & _).
  set (now := Z.testbit old self && negb (src =? self)).
  destruct (for_range_rule (fun i '(n0, sends, o) => o = Z.shiftr old i /\
      sends = (fun j => (j, pack)) <$> filter (fun j => Z.testbit old j = true /\ j <> src /\ j <> self)
                                          (seqZ 0 i) /\
      n0 = if (self <? i) && now then nr else n) 0 caches (renew_turn self addr src len v pack) (n, [], old))
    as ([[n' sends] o] & -> & _ & -> & Hn'); [lia| | |].
  - intros i [[n0 sends] o] Hi (-> & -> & ->). unfold renew_turn.
    rewrite land_one, Z.shiftr_spec, Z.add_0_l by lia.
    assert (seqZ 0 (i + 1) = seqZ 0 i ++ [i]) as Hseq by (rewrite seqZ_app by lia; done).
    rewrite Hseq, filter_app, fmap_app, filter_cons, filter_nil.
    assert (Z.shiftr old (i + 1) = Z.shiftr (Z.shiftr old i) 1) as Hsh by (rewrite Z.shiftr_shiftr by lia; done).
    destruct (Z.testbit old i && negb (src =? i)) eqn:Hc.
    + apply andb_true_iff in Hc as [Hbit Hne%negb_true_iff%Z.eqb_neq].
      destruct (Z.eqb_spec i self) as [->|Hi'].
      * assert (now = true) as Hnow by (unfold now; rewrite Hbit; by rewrite (proj2 (Z.eqb_neq _ _))).
        rewrite (proj2 (Z.ltb_ge self self)) by lia. cbn [andb]. rewrite Hnr, !bind_ret.
        eexists (_, _, _). split; [done|]. split; [done|].
        rewrite decide_False by tauto. rewrite app_nil_r. split; [done|].
        by rewrite (proj2 (Z.ltb_lt self (self + 1))), Hnow by lia.
      * rewrite bind_ret. eexists (_, _, _). split; [done|]. split; [done|].
        rewrite decide_True by (split; [done|]; split; [congruence|done]). split; [done|].
        by replace (self <? i + 1) with (self <? i) by lia.
    + rewrite bind_ret. eexists (_, _, _). split; [done|]. split; [done|].
      assert (~ (Z.testbit old i = true /\ i <> src /\ i <> self)) as Hno.
      { intros (Hb & Hs & _). rewrite Hb, (proj2 (Z.eqb_neq src i)) in Hc by congruence. done. }
      rewrite decide_False, app_nil_r by done. split; [done|].
      destruct (Z.eqb_spec i self) as [->|Hi']; [|by replace (self <? i + 1) with (self <? i) by lia].
      unfold now. by rewrite Hc, !andb_false_r.
  - rewrite Z.shiftr_0_r. split; [done|]. split; [done|]. by rewrite (proj2 (Z.ltb_ge _ _)) by lia.
  - rewrite bind_ret. exists n'. split; [done|]. rewrite (proj2 (Z.ltb_lt self caches)) in Hn' by lia.
    fold now. destruct now; [|done]. by rewrite Hn'.
Qed.

Lemma under_way_news i k h a len buf l : NoDup l ->
  under_way i k ((fun j => (h, j, Pack a MsgRenew len buf)) <$> l)
  = if decide (i ∈ l /\ high a = k) then [(h, i, Pack a MsgRenew len buf)] else [].
Proof.
  induction 1 as [|j l Hj Hnd IH]; [case_decide as Hd; [by destruct Hd as [?%not_elem_of_nil _]|done]|].
  rewrite fmap_cons, under_way_cons, IH. unfold renews_for. cbn [fst snd p_kind p_addr].
  rewrite bool_decide_true, andb_true_r by done.
  destruct (Z.eqb_spec j i) as [->|Hne], (Z.eqb_spec (high a) k) as [He|He]; cbn [andb].
  - rewrite decide_False by tauto. rewrite decide_True; [done|]. split; [by left|done].
  - by rewrite !decide_False by tauto.
  - destruct (decide (i ∈ l /\ high a = k)) as [[Hi _]|Hn].
    + rewrite decide_True; [done|]. split; [by right|done].
    + rewrite decide_False; [done|]. intros [Hi%elem_of_cons _]. destruct Hi; [done|tauto].
  - by rewrite !decide_False by tauto.
Qed.

Lemma stored_block s s' a len v ws : valid a -> 0 <= len <= zlen v -> low a + len <= 32 ->
  stored s s' a len v -> (forall j, 0 <= j < 32 -> ws.[j] = Some (amem s (high a + j))) ->
  forall j, 0 <= j < 32 ->
    (patched ws (low a) (take (Z.to_nat len) v)).[j] = Some (amem s' (high a + j)).
Proof.
  intros Ha Hl Hlow Hst Hws j Hj. pose proof (low_range a) as Hr.
  assert (32 <= zlen ws) as Hz.
  { pose proof (Hws 31 ltac:(lia)) as H31. apply zlook_Some_range in H31. lia. }
  destruct (patched_spec ws (low a) (take (Z.to_nat len) v)) as [_ Hp]; [lia|rewrite zlen_take by done; lia|].
  rewrite Hp, zlen_take by done. rewrite Hst by (apply valid_in_block; [by apply high_valid|done]).
  pose proof (addr_split a ltac:(apply Ha)) as Hsp.
  replace (a <=? high a + j) with (low a <=? j) by lia.
  replace (high a + j <? a + len) with (j <? low a + len) by lia.
  destruct ((low a <=? j) && (j <? low a + len)) eqn:Hin; [|by apply Hws].
  replace (high a + j - a) with (j - low a) by lia. rewrite zlook_take by lia.
  assert ((0 <=? j - low a) && (j - low a <? len) = true) as -> by lia.
  destruct (zlook_is_Some v (j - low a)) as [x Hx]; [lia|]. by rewrite Hx.
Qed.

Lemma stored_other s s' a len v k j : valid a -> low a + len <= 32 -> stored s s' a len v ->
  valid_block k -> k <> high a -> 0 <= j < 32 -> amem s' (k + j) = amem s (k + j).
Proof.
  intros Ha Hlow Hst Hk Hne Hj. rewrite Hst by (by apply valid_in_block).
  pose proof (addr_split a ltac:(apply Ha)) as Hsp. pose proof (low_range a) as Hr.
  destruct ((a <=? k + j) && (k + j <? a + len)) eqn:Hin; [|done]. exfalso.
  destruct (block_eq k (high a) j (k + j - high a)) as [? _]; [done|by apply high_valid|lia..|done].
Qed.

(** The home's node after the loop over the directory's bits. *)
Lemma home_renewed lock h n a src len v old n' : node_wf lock n -> is_u64 a -> 0 <= len <= zlen v -> low a + len <= 32 ->
  (if Z.testbit old h && negb (src =? h) then ServerRenew n a len v = Ret n' else n' = n) ->
  directory n' = directory n /\ node_wf lock n' /\ (src = h -> n' = n) /\
  forall k, view n' k = if decide (k = high a /\ Z.testbit old h = true /\ src <> h)
    then (fun ws => patched ws (low a) (take (Z.to_nat len) v)) <$> view n k else view n k.
Proof.
  intros Hw Hau Hl Hlow Hn'. destruct (Z.testbit old h && negb (src =? h)) eqn:Hc.
  - destruct (ServerRenew_spec lock n a len v Hw Hau Hl Hlow) as (n2 & Hn2 & Hw2 & Hd2 & _ & Hv2).
    assert (n2 = n') as -> by congruence.
    apply andb_true_iff in Hc as [Hb Hne%negb_true_iff%Z.eqb_neq]. do 2 (split; [done|]).
    split; [done|]. intros k. rewrite Hv2. case_decide as H1.
    + by rewrite decide_True.
    + by rewrite decide_False by tauto.
  - subst n'. do 3 (split; [done|]). intros k. rewrite decide_False; [done|]. intros (_ & Hb & Hne).
    by rewrite Hb, (proj2 (Z.eqb_neq src h)) in Hc.
Qed.

(** A write at the home of its address: stored, and renewed wherever the block is,
    except at its source. *)
Lemma home_write pend ex s ns l h n src a len v old :
  coherent pend ex (Dsm s ns l) -> ns !! h = Some n -> h = home caches a -> valid a ->
  0 <= len <= zlen v -> low a + len <= 32 -> Forall is_u32 v ->
  (forall i x, ns !! i = Some x -> i <> src -> view x (high a) <> None -> Z.testbit old i = true) ->
  exists s' n' sends, so_putchunk s (Z.shiftr a 32) (Z.land a 0xffffffff) len v = Ret (s', SoOK) /\
    renew_all caches h n a src len v old = Ret (n', sends) /\
    let l' := l ++ ((fun '(t, q) => (h, t, q)) <$> sends) in
    coherent pend (fun i k => ex i k \/ i = src /\ k = high a) (Dsm s' (<[h := n']> ns) l') /\
    so_ok s' /\ stored s s' a len v /\ directory n' = directory n /\ (src = h -> n' = n) /\
    (forall m, m ∈ l' -> m ∈ l \/ fst (fst m) = h) /\ forall k, under_way src k l' = under_way src k l.
Proof.
  intros Hg Hn Hh Ha Hl Hlow Hv Hold. pose proof (node_range _ _ _ _ _ Hg Hn) as Hhr.
  destruct (put_block s a len v) as (s' & Hput & Hs' & Hst); try done; [by apply (g_ok _ _ _ Hg)|].
  pose proof (g_wf _ _ _ Hg h n Hn) as Hw. pose proof (proj1 Ha) as Hau.
  destruct (renew_all_spec (pend h) h n a src len v old Hhr Hw Hau Hl Hlow) as (n' & Hrun & Hn').
  set (pack := Pack a MsgRenew len (take (Z.to_nat len) v)) in *.
  eexists s', n', _. split; [done|]. split; [done|]. rewrite <-list_fmap_compose.
  set (news := _ <$> told old src h). assert (news = (fun i => (h, i, pack)) <$> told old src h) as Hnews by done.
  assert (NoDup (told old src h)) as Hnd by (apply NoDup_filter, NoDup_seqZ).
  destruct (home_renewed (pend h) h n a src len v old n' Hw Hau Hl Hlow Hn') as (Hdir & Hw' & Hsame & Hview).
  assert (forall i k, under_way i k news = if decide (i ∈ told old src h /\ high a = k)
    then [(h, i, pack)] else []) as Hun by (intros i k; rewrite Hnews; by apply under_way_news).
  cbv zeta. split; [|split; [done|split; [done|split; [done|split; [done|split]]]]].
  - apply (coherent_update pend ex _ pend _ s' h n n' _ Hg); cbn [nodes]; try done.
    + intros k Hk. rewrite Hview, Hk. by destruct (decide _).
    + by rewrite Hdir.
    + assert (forall k, view n k = None -> view n' k = None) as Hnone.
      { intros k Hk. rewrite Hview, Hk. by destruct (decide _). }
      apply Forall_app. split.
      * eapply Forall_impl; [apply (g_msgs _ _ _ Hg)|]. intros m. by apply (msg_ok_update _ _ n).
      * rewrite Hnews. apply Forall_forall. intros m (i & -> & Hi)%list_elem_of_fmap.
        apply told_spec in Hi as (Hi & _ & _ & Hih). split; [done|]. split; [done|]. split; [done|].
        left. split; [done|]. split; [|done]. constructor; cbn [pack p_addr p_len p_buf];
          [done|lia|lia|by rewrite zlen_take].
    + intros i x k ws Hx Hws Hex j Hj. rewrite under_way_app, Hun.
      assert (exists y ws0, ns !! i = Some y /\ view y k = Some ws0 /\ (i = h -> y = n) /\ (i <> h -> y = x))
        as (y & ws0 & Hy & Hw0 & Hyn & Hyx).
      { destruct (decide (i = h)) as [->|Hne].
        - rewrite lookup_insert_eq in Hx. injection Hx as <-. rewrite Hview in Hws.
          destruct (view n k) as [ws0|] eqn:Hv0; [by exists n, ws0|]. by destruct (decide _).
        - rewrite lookup_insert_ne in Hx by done. by exists x, ws. }
      destruct (g_dir _ _ _ Hg i y k ws0 Hy Hw0) as (Hvk & _).
      pose proof (g_mem _ _ _ Hg i y k ws0 Hy Hw0 ltac:(tauto)) as Hmem. cbn [ctrl backend] in Hmem.
      destruct (decide (k = high a)) as [->|Hk].
      * assert (i <> src) as His by tauto.
        assert (Z.testbit old i = true) as Hbit by (apply (Hold i y Hy His); congruence).
        destruct (decide (i = h)) as [Hih|Hih].
        -- rewrite decide_False by (intros [Hi%told_spec _]; naive_solver). rewrite app_nil_r.
           rewrite Hih in *. rewrite lookup_insert_eq in Hx. injection Hx as <-.
           rewrite (Hyn eq_refl) in Hw0. rewrite Hview, decide_True, Hw0 in Hws by done. injection Hws as <-.
           assert (under_way h (high a) l = []) as Hu.
           { rewrite Hh. rewrite <-home_high by done. apply (home_not_renewed _ _ _ (high a) Hg). }
           rewrite Hu in Hmem |- *. by apply (stored_block s s').
        -- rewrite decide_True by (split; [apply told_spec; by pose proof (node_range _ _ _ _ _ Hg Hy)|done]).
           unfold apply_renews. rewrite foldl_app. cbn [foldl fst snd pack p_addr p_buf].
           rewrite (Hyx Hih) in Hw0. assert (ws0 = ws) as -> by congruence. by apply (stored_block s s').
      * rewrite decide_False by naive_solver. rewrite app_nil_r. rewrite (stored_other s s' a len v) by done.
        assert (ws0 = ws) as ->; [|by apply Hmem].
        destruct (decide (i = h)) as [Hih|Hih]; [|by rewrite (Hyx Hih) in Hw0; congruence].
        rewrite Hih, lookup_insert_eq in Hx. injection Hx as <-. rewrite (Hyn Hih) in Hw0.
        rewrite Hview, decide_False in Hws by tauto. congruence.
  - intros m [Hm|Hm]%elem_of_app; [by left|right]. rewrite Hnews in Hm.
    by apply list_elem_of_fmap in Hm as (i & -> & _).
  - intros k. rewrite under_way_app, Hun.
    rewrite decide_False by (intros [Hi%told_spec _]; naive_solver). apply app_nil_r.
Qed.

(** Entering a node in the directory. *)
Lemma register pend ex s ns l h n src a : coherent pend ex (Dsm s ns l) -> ns !! h = Some n ->
  0 <= src < 64 ->
  let n' := set_directory n (<[a := Z.lor (default 0 (directory n !! a)) (u64 (Z.shiftl 1 src))]> (directory n)) in
  coherent pend ex (Dsm s (<[h := n']> ns) l) /\
  Z.testbit (default 0 (directory n' !! a)) src = true.
Proof.
  intros Hg Hn Hsrc n'. split.
  - apply (coherent_update pend ex _ pend ex s h n n' l Hg); cbn [nodes]; try done.
    + apply (g_ok _ _ _ Hg).
    + apply set_directory_wf. by apply (g_wf _ _ _ Hg).
    + intros i x k Hx _ _ Hbit. cbn [n' set_directory directory].
      destruct (decide (k = a)) as [->|Hne]; [|by rewrite lookup_insert_ne].
      rewrite lookup_insert_eq. cbn. unfold u64.
      by rewrite Z.lor_spec, Hbit.
    + eapply Forall_impl; [apply (g_msgs _ _ _ Hg)|]. intros m. by apply (msg_ok_update _ _ n).
    + intros i x k ws Hx Hv Hex. destruct (decide (i = h)) as [->|Hne].
      * rewrite lookup_insert_eq in Hx. injection Hx as <-. by apply (g_mem _ _ _ Hg h n k ws).
      * rewrite lookup_insert_ne in Hx by done. by apply (g_mem _ _ _ Hg i x k ws).
  - cbn [n' set_directory directory]. rewrite lookup_insert_eq. cbn [default from_option id].
    rewrite set_bit, Z.eqb_refl by lia. apply orb_true_r.
Qed.

(** * Requests *)

Lemma request_drain pend ex s ns l src dst p : coherent pend ex (Dsm s ns l) -> src <> dst ->
  exists ns' l', request caches src dst p (Dsm s ns l)
      = ('(d, r) ← handle caches src dst p (Dsm s ns' l');
         match r with Some r => Ret (d, r) | None => NoFuel end) /\
    coherent pend ex (Dsm s ns' l') /\ (forall j, j <> dst -> ns' !! j = ns !! j) /\
    (forall m, m ∈ l' -> between src dst m = false) /\ forall k, under_way src k l' = under_way src k l.
Proof.
  intros Hg Hne. unfold request. cbn [ctrl backend nodes].
  destruct (drain pend ex src dst _ s ns _ (coherent_reorder pend ex s ns l src dst Hg)) as (ns' & Hrun & Hg' & Hsame).
  { apply Forall_forall. by intros m [? _]%list_elem_of_filter. }
  exists ns', (filter (fun m => between src dst m = false) l). rewrite Hrun, bind_ret.
  split; [done|]. split; [done|]. split; [done|]. split; [by intros m [? _]%list_elem_of_filter|].
  intros k. rewrite <-(under_way_reorder src k false l (between src dst)).
  - rewrite under_way_app. rewrite (under_way_nil src k (filter (fun m => between src dst m = true) l)); [done|].
    intros m [Hb _]%list_elem_of_filter. unfold renews_for, between in *.
    apply andb_true_iff in Hb as [_ Hb%Z.eqb_eq]. by rewrite Hb, (proj2 (Z.eqb_neq dst src)).
  - intros m _ Hr. unfold renews_for, between in *. apply andb_true_iff in Hr as [Hr _].
    apply andb_true_iff in Hr as [Hr%Z.eqb_eq _]. by rewrite Hr, (proj2 (Z.eqb_neq src dst)), andb_false_r.
Qed.

Lemma home_node pend ex s ns l a : coherent pend ex (Dsm s ns l) ->
  exists nh, ns !! home caches a = Some nh.
Proof. intros Hg. by apply (g_nodes _ _ _ Hg), home_range. Qed.

Lemma in_directory pend ex s ns l a nh i x : coherent pend ex (Dsm s ns l) -> is_u64 a ->
  ns !! home caches a = Some nh -> ns !! i = Some x -> view x (high a) <> None ->
  Z.testbit (default 0 (directory nh !! high a)) i = true.
Proof.
  intros Hg Ha Hh Hx Hv. destruct (view x (high a)) as [ws|] eqn:Hw; [|done].
  destruct (g_dir _ _ _ Hg i x _ ws Hx Hw) as (_ & nh' & Hnh & Hb). cbn [nodes] in Hnh.
  rewrite home_high in Hnh by done. congruence.
Qed.

Definition or_at (ex : Z -> Z -> Prop) (i0 k0 : Z) : Z -> Z -> Prop :=
  fun i k => ex i k \/ i = i0 /\ k = k0.

Lemma Write_ok pend ex s ns l i n a len v : coherent pend ex (Dsm s ns l) -> ns !! i = Some n ->
  valid a -> 0 <= len <= zlen v -> low a + len <= 32 -> Forall is_u32 v ->
  exists s' ns' l', Write caches i a v len (Dsm s ns l) = Ret (Dsm s' ns' l') /\
    coherent pend (or_at ex i (high a)) (Dsm s' ns' l') /\ stored s s' a len v /\
    ns' !! i = Some n /\ forall k, under_way i k l' = under_way i k l.
Proof.
  intros Hg Hn Ha Hl Hlow Hv. pose proof (low_range a). unfold Write, ServerWrite.
  destruct (Z.eqb_spec (home caches a) i) as [Hh|Hh].
  - destruct (home_write pend ex s ns l i n i a len v (default 0 (directory n !! high a)) Hg Hn)
      as (s' & n' & sends & Hput & Hren & Hg' & _ & Hst & _ & Hsame & _ & Hu); try done.
    { intros j x Hx Hj Hvx. rewrite <-Hh in Hn. by apply (in_directory _ _ _ _ _ _ _ _ _ Hg (proj1 Ha) Hn Hx). }
    eexists s', _, _. unfold get_node, check_home. cbn [nodes backend ctrl].
    rewrite Hn, bind_ret, Z.eqb_refl, c_assert_true, bind_ret, Hput, bind_ret, Hren, !bind_ret by done.
    split; [done|]. split; [done|]. split; [done|]. split; [|done].
    by rewrite lookup_insert_eq, Hsame.
  - rewrite c_assert_true, bind_ret by (rewrite block_size_32; lia).
    rewrite rd_range_take, bind_ret by done. set (v' := take (Z.to_nat len) v).
    assert (zlen v' = len) as Hv' by (by apply zlen_take).
    destruct (request_drain pend ex s ns l i (home caches a) (Pack a MsgWrite len v') Hg) as
      (ns1 & l1 & -> & Hg1 & Hsame1 & _ & Hu1); [congruence|].
    destruct (home_node _ _ _ _ _ a Hg1) as [nh Hnh].
    destruct (home_write pend ex s ns1 l1 (home caches a) nh i a len v' (default 0 (directory nh !! high a)) Hg1 Hnh)
      as (s' & n' & sends & Hput & Hren & Hg' & _ & Hst & _ & _ & _ & Hu); try done; [lia| | |].
    { by apply Forall_take. }
    { intros j x Hx Hj Hvx. by apply (in_directory _ _ _ _ _ _ _ _ _ Hg1 (proj1 Ha) Hnh Hx). }
    eexists s', _, _. unfold handle, get_node, CacheProtocalProc_cmd, ServerWrite, check_home.
    cbn [nodes backend ctrl p_kind p_addr p_len p_buf].
    rewrite Hnh, bind_ret, Z.eqb_refl, orb_true_r, c_assert_true, bind_ret, Hput, bind_ret, Hren, !bind_ret by done.
    rewrite Z.eqb_refl. split; [done|]. split; [done|]. split.
    { intros a' Ha'. rewrite Hst by done. case_test; [|done]. unfold v'. rewrite zlook_take by lia.
      by rewrite (proj2 (andb_true_iff _ _)) by lia. }
    split; [by rewrite lookup_insert_ne, Hsame1 by congruence|]. intros k. by rewrite Hu, Hu1.
Qed.

(** The pending request of node [i] for block [k]. *)
Definition pending (i k b : Z) : Z -> option (Z * Z) := fun j => if decide (j = i) then Some (k, b) else None.

(** What a fetched block must be for the caches to be coherent with it. *)
Record fetched (i k b c : Z) (s : S) (ns : gmap Z cache_node) (l : list (Z * Z * DataPack))
    (buf : list Z) : Prop := {
  f_coh : coherent (pending i k b) (or_at nowhere i k) (Dsm s ns l);
  f_node : exists n, ns !! i = Some n /\ clock n = c;
  f_valid : valid_block k;
  f_len : zlen buf = 32;
  f_mem : forall j, 0 <= j < 32 -> buf.[j] = Some (amem s (k + j));
  f_dir : exists nh, ns !! home caches k = Some nh /\ Z.testbit (default 0 (directory nh !! k)) i = true;
  f_free : forall m, m ∈ l -> between i (home caches k) m = false \/ home caches k = i;
  f_quiet : under_way i k l = [];
}.

(** What a node sees of a block once node [i] has filled its block [k]. *)
Lemma viewed_before i k n n' (ns : gmap Z cache_node) buf : ns !! i = Some n ->
  (forall kx, view n' kx = if decide (kx = k) then Some buf else view n kx) ->
  forall j x kx ws, <[i := n']> ns !! j = Some x -> view x kx = Some ws ->
  j = i /\ kx = k /\ ws = buf \/ ~ (j = i /\ kx = k) /\ exists y, ns !! j = Some y /\ view y kx = Some ws.
Proof.
  intros Hn Hview j x kx ws Hx Hws. destruct (decide (j = i)) as [->|Hne].
  - rewrite lookup_insert_eq in Hx. injection Hx as <-. rewrite Hview in Hws.
    destruct (decide (kx = k)) as [->|Hkx]; [left; by injection Hws as <-|right].
    split; [by intros [_ ?]|eauto].
  - rewrite lookup_insert_ne in Hx by done. right. split; [by intros [? _]|eauto].
Qed.

Lemma same_directory i n n' (ns : gmap Z cache_node) j kx : ns !! i = Some n -> directory n' = directory n ->
  (exists nh, ns !! home caches kx = Some nh /\ Z.testbit (default 0 (directory nh !! kx)) j = true) ->
  exists nh, <[i := n']> ns !! home caches kx = Some nh /\ Z.testbit (default 0 (directory nh !! kx)) j = true.
Proof.
  intros Hn Hd (nh & Hnh & Hbit). destruct (decide (home caches kx = i)) as [He|He].
  - rewrite He in Hnh |- *. exists n'. rewrite lookup_insert_eq. split; [done|].
    assert (nh = n) as -> by congruence. by rewrite Hd.
  - exists nh. by rewrite lookup_insert_ne.
Qed.

(** The block becomes available to the node. *)
Lemma fill_ready i k b c addr s ns l p : fetched i k b c s ns l (p_buf p) ->
  p_kind p = MsgReplyOK -> p_addr p = addr -> exists nm n',
    fill_block i b k addr (DataReply p) (Dsm s ns l) = Ret (Dsm s (<[i := nm]> ns) l) /\
    touch i b false (Dsm s (<[i := nm]> ns) l) = Ret (Dsm s (<[i := n']> ns) l) /\
    coherent settled nowhere (Dsm s (<[i := n']> ns) l) /\
    clock n' = u32 (c + 1) /\ (block_cache n').[b] = Some (Block (p_buf p) c k false).
Proof.
  intros Hf Hk Ha. pose proof (f_coh _ _ _ _ _ _ _ _ Hf) as Hg. destruct (f_node _ _ _ _ _ _ _ _ Hf) as (n & Hn & Hclk).
  pose proof (g_wf _ _ _ Hg i n Hn) as Hw. unfold pending in Hw. rewrite decide_True in Hw by done.
  destruct (fill n k b (p_buf p) (u32 (clock n + 1)) Hw (f_len _ _ _ _ _ _ _ _ Hf))
    as (blk & bs & bs' & Hb & Hwr & Hbb & Hwr' & Hbb' & Hw' & Hview).
  set (nm := CacheNode bs (block_queue n) (cache n) (directory n) (clock n)).
  set (n' := CacheNode bs' (block_queue n) (cache n) (directory n) (u32 (clock n + 1))) in *.
  exists nm, n'. split; [|split; [|split; [|by rewrite <-Hclk]]].
  - unfold fill_block, get_node, set_block, set_node. cbn [nodes backend ctrl].
    rewrite decide_True by done. rewrite (proj2 (Z.eqb_eq _ _)) by done.
    by rewrite Hn, bind_ret, (rd_ok _ _ _ Hb), bind_ret, Hwr, !bind_ret.
  - unfold touch, get_node, set_block, set_node, CacheClock. cbn [nodes backend ctrl].
    rewrite lookup_insert_eq, bind_ret. cbn [nm block_cache clock block_queue cache directory].
    rewrite (rd_ok _ _ _ Hbb), bind_ret. cbn [words bkey].
    by rewrite Hwr', !bind_ret, insert_insert_eq.
  - assert (forall j x kx ws, <[i := n']> ns !! j = Some x -> view x kx = Some ws ->
      j = i /\ kx = k /\ ws = p_buf p \/ ~ (j = i /\ kx = k) /\ exists y, ns !! j = Some y /\ view y kx = Some ws) as Hback
      by (intros j x kx ws; by apply (viewed_before i k n n')).
    constructor; cbn [backend nodes ctrl].
    + apply (g_ok _ _ _ Hg).
    + intros j. rewrite (g_nodes _ _ _ Hg j). cbn [nodes].
      destruct (decide (j = i)) as [->|Hne]; [rewrite lookup_insert_eq, Hn; by split|].
      by rewrite lookup_insert_ne.
    + intros j x Hx. destruct (decide (j = i)) as [->|Hne].
      * rewrite lookup_insert_eq in Hx. by injection Hx as <-.
      * rewrite lookup_insert_ne in Hx by done. pose proof (g_wf _ _ _ Hg j x Hx) as Hwx.
        unfold pending in Hwx. by rewrite decide_False in Hwx.
    + apply Forall_forall. intros [[s0 d0] q] Hm. pose proof (g_msgs _ _ _ Hg) as Hms. cbn in Hms.
      rewrite Forall_forall in Hms. destruct (Hms _ Hm) as (? & ? & Hsd & Hq). do 3 (split; [done|]).
      destruct Hq as [?|(? & ? & Hd0 & Hvn)]; [by left|right]. do 3 (split; [done|]). intros x Hx.
      destruct (view x (p_addr q)) as [ws|] eqn:Hvx; [exfalso|done].
      destruct (Hback _ _ _ _ Hx Hvx) as [(-> & Hka & _)|(_ & y & Hy & Hvy)];
        [|by rewrite (Hvn y Hy) in Hvy].
      destruct (f_free _ _ _ _ _ _ _ _ Hf _ Hm) as [Hbt|Hbt]; [|by rewrite <-Hka in Hbt; congruence].
      unfold between in Hbt. cbn [fst snd] in Hbt. by rewrite Hd0, Hka, !Z.eqb_refl in Hbt.
    + intros j x kx ws Hx Hws.
      destruct (Hback _ _ _ _ Hx Hws) as [(-> & -> & _)|(_ & y & Hy & Hvy)].
      * split; [apply (f_valid _ _ _ _ _ _ _ _ Hf)|]. by apply (same_directory i n n'), (f_dir _ _ _ _ _ _ _ _ Hf).
      * destruct (g_dir _ _ _ Hg j y kx ws Hy Hvy) as (Hvk & Hd). split; [done|]. by apply (same_directory i n n').
    + intros j x kx ws Hx Hws _ z Hz.
      destruct (Hback _ _ _ _ Hx Hws) as [(-> & -> & ->)|(Hno & y & Hy & Hvy)].
      * rewrite (f_quiet _ _ _ _ _ _ _ _ Hf). by apply (f_mem _ _ _ _ _ _ _ _ Hf).
      * apply (g_mem _ _ _ Hg j y kx ws Hy Hvy); [|done]. by intros [[]|?].
Qed.

(** * Making room *)

(** A message that is no renewal. *)
Lemma coherent_send pend ex s ns l m : coherent pend ex (Dsm s ns l) -> msg_ok ns m ->
  p_kind (snd m) <> MsgRenew -> coherent pend ex (Dsm s ns (l ++ [m])) /\
  forall i k, under_way i k (l ++ [m]) = under_way i k l.
Proof.
  intros Hg Hm Hk. assert (forall i k, under_way i k (l ++ [m]) = under_way i k l) as Hu.
  { intros i k. rewrite under_way_app, under_way_cons. unfold renews_for.
    rewrite bool_decide_false, andb_false_r by done. apply app_nil_r. }
  split; [|done]. constructor; try apply Hg.
  - apply Forall_app. split; [apply (g_msgs _ _ _ Hg)|by apply Forall_singleton].
  - intros i n k ws Hn Hw. cbn [ctrl]. rewrite Hu. by apply (g_mem _ _ _ Hg i n).
Qed.

(** Some block can be had: a free one, or one in use that is not of the maximal age. *)
Definition room (n : cache_node) : Prop :=
  block_queue n <> [] \/ exists b blk, (block_cache n).[b] = Some blk /\
    bkey blk <> DSM_CACHE_BAD_KEY /\ lru blk < 0xffffffff.

(** The block [b] that is swapped out for [k] has the least age of those in use, and
    its key leaves the table. *)
Definition evicts (n n' : cache_node) (k b : Z) : Prop :=
  exists blk, (block_cache n).[b] = Some blk /\ bkey blk <> DSM_CACHE_BAD_KEY /\
    (forall b' blk', (block_cache n).[b'] = Some blk' -> bkey blk' <> DSM_CACHE_BAD_KEY ->
       lru blk <= lru blk') /\
    cache n' = <[k := b]> (delete (bkey blk) (cache n)).

(** Taking a block for a request leaves the caches coherent. *)
Lemma alloc_coherent s ns l i n b blk t k queue : coherent settled nowhere (Dsm s ns l) ->
  ns !! i = Some n -> cache n !! k = None -> k <> DSM_CACHE_BAD_KEY -> (block_cache n).[b] = Some blk ->
  (if decide (bkey blk = DSM_CACHE_BAD_KEY) then block_queue n = b :: queue else block_queue n = queue) ->
  exists bs, wr (block_cache n) b (Block (words blk) t DSM_CACHE_BAD_KEY true) = Ret bs /\
    let n' := CacheNode bs queue (<[k := b]> (delete (bkey blk) (cache n))) (directory n) (clock n) in
    coherent (pending i k b) nowhere (Dsm s (<[i := n']> ns) l) /\ view n' (bkey blk) = None.
Proof.
  intros Hg Hn Hc Hk Hb Hq. pose proof (g_wf _ _ _ Hg i n Hn) as Hw.
  destruct (alloc n k b blk t queue Hw Hk Hc Hb Hq) as (bs & Hwr & Hw' & Hview).
  exists bs. split; [done|]. cbv zeta in *. set (n' := CacheNode _ _ _ _ _) in *.
  split; [|by rewrite Hview, decide_True].
  apply (coherent_update settled nowhere _ (pending i k b) nowhere s i n n' l Hg); cbn [nodes]; try done.
  - apply (g_ok _ _ _ Hg).
  - unfold pending. by rewrite decide_True.
  - intros j Hj. unfold pending. by rewrite decide_False.
  - intros k' Hk'. rewrite Hview, Hk'. by destruct (decide (k' = bkey blk)).
  - eapply Forall_impl; [apply (g_msgs _ _ _ Hg)|]. intros m. apply (msg_ok_update _ _ n); [done|].
    intros k' Hk'. rewrite Hview, Hk'. by destruct (decide (k' = bkey blk)).
  - intros j x k' ws Hx Hws Hex. destruct (decide (j = i)) as [->|Hne].
    + rewrite lookup_insert_eq in Hx. injection Hx as <-. rewrite Hview in Hws.
      revert Hws. destruct (decide (k' = bkey blk)); [done|]. intros Hws. by apply (g_mem _ _ _ Hg i n k' ws).
    + rewrite lookup_insert_ne in Hx by done. by apply (g_mem _ _ _ Hg j x k' ws).
Qed.

Lemma getblock_ok s ns l i n k : coherent settled nowhere (Dsm s ns l) -> ns !! i = Some n ->
  cache n !! k = None -> valid_block k -> room n -> exists ns' l' b,
  getblock caches i k (Dsm s ns l) = Ret (Dsm s ns' l', b, false) /\
  coherent (pending i k b) nowhere (Dsm s ns' l') /\
  (exists n', ns' !! i = Some n' /\ clock n' = clock n /\
     (block_queue n = [] -> evicts n n' k b)) /\
  forall j kx, under_way j kx l' = under_way j kx l.
Proof.
  intros Hg Hn Hc Hvk Hroom. pose proof (g_wf _ _ _ Hg i n Hn) as Hw.
  pose proof (valid_not_bad k Hvk) as Hk. pose proof (node_range _ _ _ _ _ Hg Hn) as Hi.
  unfold getblock, get_node. cbn [nodes]. rewrite Hn, bind_ret, Hc.
  destruct (block_queue n) as [|b queue] eqn:Hq.
  - destruct Hroom as [?|Hroom]; [done|].
    destruct (oldest_spec n Hw Hroom) as (b & blk & -> & Hb & Hbad & Hleast).
    rewrite bind_ret, (rd_ok _ _ _ Hb), bind_ret.
    destruct (alloc_coherent s ns l i n b blk 0xffffffff k [] Hg Hn Hc Hk Hb) as (bs & Hwr & Hg' & Hno).
    { by rewrite decide_False. }
    rewrite Hwr, bind_ret. cbv zeta in Hg', Hno |- *. set (n1 := CacheNode bs _ _ _ _) in *.
    assert (valid_block (bkey blk)) as Hvo.
    { pose proof (w_used _ _ Hw _ _ Hb Hbad) as Hu.
      destruct (view_ready n b blk _ Hw Hu Hb) as (_ & _ & Hv). by destruct (g_dir _ _ _ Hg i n _ _ Hn Hv). }
    unfold Writeback, set_node, get_node. cbn [nodes backend ctrl].
    destruct (Z.eqb_spec (home caches (bkey blk)) i) as [Hh|Hh].
    + rewrite lookup_insert_eq, bind_ret.
      destruct (unregister _ _ s (<[i := n1]> ns) i n1 i (bkey blk) l l Hg') as (n2 & -> & Hg2 & dir & Hn2);
        [by rewrite lookup_insert_eq|done|lia| |apply (g_msgs _ _ _ Hg')|done|].
      { intros x. rewrite lookup_insert_eq. by intros [= <-]. }
      rewrite insert_insert_eq in Hg2. rewrite !bind_ret, insert_insert_eq.
      eexists _, l, b. split; [done|]. split; [done|]. split; [|done]. exists n2. rewrite lookup_insert_eq. rewrite Hn2. split; [done|].
      split; [done|]. intros _. by exists blk.
    + pose proof (home_range (bkey blk)) as Hhr. set (m := (i, home caches (bkey blk), Pack (bkey blk) MsgWriteback 0 [])).
      destruct (coherent_send _ _ s (<[i := n1]> ns) l m Hg') as [Hg2 Hu]; [|done|].
      { split; [done|]. split; [done|]. split; [congruence|]. right. split; [done|]. split; [done|].
        split; [done|]. intros x. rewrite lookup_insert_eq. by intros [= <-]. }
      rewrite bind_ret. eexists _, _, b. split; [done|]. split; [done|].
      split; [|done]. exists n1. rewrite lookup_insert_eq. split; [done|].
      split; [done|]. intros _. by exists blk.
  - destruct (w_queue _ _ Hw b) as (_ & blk & Hb & Hbad & _); [rewrite Hq; left|].
    rewrite (rd_ok _ _ _ Hb), bind_ret.
    destruct (alloc_coherent s ns l i n b blk (lru blk) k queue Hg Hn Hc Hk Hb) as (bs & Hwr & Hg' & _).
    { by rewrite decide_True. }
    rewrite Hbad, Hwr, bind_ret. cbv zeta in Hg'. rewrite Hbad in Hg'.
    assert (delete DSM_CACHE_BAD_KEY (cache n) = cache n) as Hd.
    { apply delete_id. destruct (cache n !! DSM_CACHE_BAD_KEY) eqn:He; [|done].
      by destruct (w_cache _ _ Hw _ _ He). }
    rewrite Hd in Hg'. eexists _, l, b. split; [done|]. split; [done|]. split; [|done].
    rewrite lookup_insert_eq. by eexists.
Qed.

(** * Fetching a block *)

Lemma coherent_weaken pend (ex ex' : Z -> Z -> Prop) d : coherent pend ex d -> (forall i k, ex i k -> ex' i k) ->
  coherent pend ex' d.
Proof.
  intros Hg He. constructor; try apply Hg. intros i n k ws Hn Hv Hex. apply (g_mem _ _ _ Hg i n k ws Hn Hv).
  intros ?. by apply Hex, He.
Qed.

Lemma reply_block_ok s k a outbuf : so_ok s -> valid_block k -> zlen outbuf = 32 -> exists buf,
  reply_block s k a outbuf = Ret (DataReply (Pack a MsgReplyOK DSM_CACHE_BLOCK_SIZE buf)) /\
  zlen buf = 32 /\ forall j, 0 <= j < 32 -> buf.[j] = Some (amem s (k + j)).
Proof.
  intros Hs Hk Hz. destruct (get_block s k outbuf Hs Hk Hz) as (buf & Hb & ? & ?).
  exists buf. unfold reply_block. rewrite Hb, bind_ret, decide_True by done. done.
Qed.

Lemma check_home_ok h a src : h = home caches a -> check_home caches h a src = Ret tt.
Proof. intros ->. unfold check_home. by rewrite Z.eqb_refl, orb_true_r. Qed.

Lemma ServerReadMiss_ok pend ex s ns l h nh src k outbuf : coherent pend ex (Dsm s ns l) ->
  ns !! h = Some nh -> h = home caches k -> valid_block k -> 0 <= src < caches -> zlen outbuf = 32 ->
  exists n' buf, ServerReadMiss caches h s nh k src outbuf
      = Ret (n', DataReply (Pack k MsgReplyOK DSM_CACHE_BLOCK_SIZE buf)) /\
    coherent pend ex (Dsm s (<[h := n']> ns) l) /\ zlen buf = 32 /\
    (forall j, 0 <= j < 32 -> buf.[j] = Some (amem s (k + j))) /\
    Z.testbit (default 0 (directory n' !! k)) src = true /\ clock n' = clock nh.
Proof.
  intros Hg Hn Hh Hk Hsrc Hz. unfold ServerReadMiss. rewrite check_home_ok, bind_ret by done.
  destruct (register pend ex s ns l h nh src k Hg Hn ltac:(lia)) as [Hg' Hbit].
  destruct (reply_block_ok s k k outbuf) as (buf & Hr & Hzb & Hm); [apply (g_ok _ _ _ Hg)|done..|].
  rewrite Hr, bind_ret. by eexists _, buf.
Qed.

Lemma ServerWriteMiss_ok pend ex s ns l h nh src a len v outbuf : coherent pend ex (Dsm s ns l) ->
  ns !! h = Some nh -> h = home caches a -> valid a -> 0 <= len <= zlen v -> low a + len <= 32 ->
  Forall is_u32 v -> 0 <= src < caches -> zlen outbuf = 32 ->
  exists s' n' sends buf, ServerWriteMiss caches h s nh a src v len outbuf
      = Ret (s', n', sends, DataReply (Pack a MsgReplyOK DSM_CACHE_BLOCK_SIZE buf)) /\
    let l' := l ++ ((fun '(t, q) => (h, t, q)) <$> sends) in
    coherent pend (or_at ex src (high a)) (Dsm s' (<[h := n']> ns) l') /\ stored s s' a len v /\
    zlen buf = 32 /\ (forall j, 0 <= j < 32 -> buf.[j] = Some (amem s' (high a + j))) /\
    Z.testbit (default 0 (directory n' !! high a)) src = true /\ (src = h -> clock n' = clock nh) /\
    (forall m, m ∈ l' -> m ∈ l \/ fst (fst m) = h) /\ forall k, under_way src k l' = under_way src k l.
Proof.
  intros Hg Hn Hh Ha Hl Hlow Hv Hsrc Hz. pose proof (node_range _ _ _ _ _ Hg Hn) as Hhr.
  destruct (register pend ex s ns l h nh src (high a) Hg Hn ltac:(lia)) as [Hg' Hbit].
  set (nr := set_directory nh _) in *.
  destruct (home_write pend ex s (<[h := nr]> ns) l h nr src a len v (default 0 (directory nh !! high a)))
    as (s' & n' & sends & Hput & Hren & Hg2 & Hs' & Hst & Hdir & Hsame & Hfrom & Hu); try done;
    [by rewrite lookup_insert_eq| |].
  { intros i x Hx Hi Hvx. assert (exists y, ns !! i = Some y /\ view y (high a) <> None) as (y & Hy & Hvy).
    { destruct (decide (i = h)) as [->|Hne].
      - rewrite lookup_insert_eq in Hx. injection Hx as <-. by exists nh.
      - rewrite lookup_insert_ne in Hx by done. eauto. }
    rewrite Hh in Hn. by apply (in_directory _ _ _ _ _ _ _ _ _ Hg (proj1 Ha) Hn Hy). }
  destruct (reply_block_ok s' (high a) a outbuf) as (buf & Hr & Hzb & Hm); [done|by apply high_valid|done|].
  exists s', n', sends, buf. unfold ServerWriteMiss. rewrite check_home_ok, bind_ret by done.
  rewrite Hput, bind_ret. fold nr. rewrite Hren, bind_ret, Hr, bind_ret. split; [done|].
  rewrite insert_insert_eq in Hg2. rewrite <-Hdir in Hbit. do 5 (split; [done|]).
  split; [|done]. intros He. by rewrite (Hsame He).
Qed.

(** The words of the block a request is pending for. *)
Lemma pending_block s ns l ex i n k b : coherent (pending i k b) ex (Dsm s ns l) -> ns !! i = Some n ->
  exists blk, (block_cache n).[b] = Some blk /\ zlen (words blk) = 32.
Proof.
  intros Hg Hn. pose proof (g_wf _ _ _ Hg i n Hn) as Hw. unfold pending in Hw.
  rewrite decide_True in Hw by done. destruct (w_pend _ _ Hw k b eq_refl) as (_ & blk & Hb & _).
  exists blk. split; [done|]. by apply (w_words _ _ Hw b).
Qed.

Lemma ReadMiss_ok s ns l i n k b : coherent (pending i k b) nowhere (Dsm s ns l) -> ns !! i = Some n ->
  valid_block k -> under_way i k l = [] -> exists ns' l' buf,
  ReadMiss caches i k b (Dsm s ns l)
    = fill_block i b k k (DataReply (Pack k MsgReplyOK DSM_CACHE_BLOCK_SIZE buf)) (Dsm s ns' l') /\
  fetched i k b (clock n) s ns' l' buf /\ forall k', under_way i k' l' = under_way i k' l.
Proof.
  intros Hg Hn Hk Hu. pose proof (node_range _ _ _ _ _ Hg Hn) as Hi. unfold ReadMiss.
  destruct (Z.eqb_spec (home caches k) i) as [Hh|Hh].
  - destruct (pending_block _ _ _ _ _ _ _ _ Hg Hn) as (blk & Hb & Hz).
    unfold get_node. cbn [nodes backend]. rewrite Hn, bind_ret, (rd_ok _ _ _ Hb), bind_ret.
    destruct (ServerReadMiss_ok _ _ s ns l i n i k (words blk) Hg Hn) as (n' & buf & -> & Hg' & Hzb & Hm & Hbit & Hclk);
      try done. rewrite bind_ret. exists (<[i := n']> ns), l, buf. split; [done|].
    split; [|done]. constructor; try done.
    + apply (coherent_weaken _ nowhere); [done|by intros ? ? []].
    + exists n'. by rewrite lookup_insert_eq.
    + exists n'. by rewrite Hh, lookup_insert_eq.
    + intros m _. by right.
  - destruct (request_drain _ _ s ns l i (home caches k) (Pack k MsgReadMiss 0 []) Hg)
      as (ns1 & l1 & -> & Hg1 & Hsame & Hbt & Hu1); [congruence|].
    destruct (home_node _ _ _ _ _ k Hg1) as [nh Hnh].
    destruct (ServerReadMiss_ok _ _ s ns1 l1 (home caches k) nh i k pack_buf Hg1 Hnh)
      as (n' & buf & Hrun & Hg' & Hzb & Hm & Hbit & _); try done.
    unfold handle, get_node, CacheProtocalProc_cmd. cbn [nodes backend ctrl p_kind p_addr p_len p_buf].
    rewrite Hnh, bind_ret, Hrun, !bind_ret. exists (<[home caches k := n']> ns1), (l1 ++ []), buf.
    split; [done|]. rewrite app_nil_r. split; [|done]. constructor; try done.
    + apply (coherent_weaken _ nowhere); [done|by intros ? ? []].
    + rewrite lookup_insert_ne, Hsame, Hn by congruence. by exists n.
    + exists n'. by rewrite lookup_insert_eq.
    + intros m Hm'. left. by apply Hbt.
    + by rewrite Hu1.
Qed.

(** At the home of the address only the first word is written. *)
Lemma WriteMiss_ok s ns l i n a b len v : coherent (pending i (high a) b) nowhere (Dsm s ns l) ->
  ns !! i = Some n -> valid a -> 1 <= len <= zlen v -> low a + len <= 32 -> Forall is_u32 v ->
  under_way i (high a) l = [] -> exists s' ns' l' buf,
  WriteMiss caches i a v len b (Dsm s ns l)
    = fill_block i b (high a) a (DataReply (Pack a MsgReplyOK DSM_CACHE_BLOCK_SIZE buf)) (Dsm s' ns' l') /\
  fetched i (high a) b (clock n) s' ns' l' buf /\ stored s s' a (if home caches a =? i then 1 else len) v /\
  forall k', under_way i k' l' = under_way i k' l.
Proof.
  intros Hg Hn Ha Hl Hlow Hv Hu. pose proof (node_range _ _ _ _ _ Hg Hn) as Hi. unfold WriteMiss.
  pose proof (low_range a). pose proof (high_valid a Ha) as Hvk.
  destruct (Z.eqb_spec (home caches a) i) as [Hh|Hh].
  - destruct (pending_block _ _ _ _ _ _ _ _ Hg Hn) as (blk & Hb & Hz).
    unfold get_node. cbn [nodes backend]. rewrite Hn, bind_ret, (rd_ok _ _ _ Hb), bind_ret.
    destruct (ServerWriteMiss_ok _ _ s ns l i n i a 1 v (words blk) Hg Hn)
      as (s' & n' & sends & buf & -> & Hg' & Hst & Hzb & Hm & Hbit & Hclk & _ & Hu'); try done; [lia..|].
    rewrite bind_ret. unfold local_sends. cbn [nodes ctrl]. eexists s', (<[i := n']> ns), _, buf.
    split; [done|]. split; [|done]. constructor; try done.
    + exists n'. rewrite lookup_insert_eq. split; [done|]. by apply Hclk.
    + exists n'. by rewrite home_high, Hh, lookup_insert_eq by apply Ha.
    + intros m _. right. by rewrite home_high by apply Ha.
    + by rewrite Hu'.
  - rewrite c_assert_true, bind_ret by (rewrite block_size_32; lia).
    rewrite rd_range_take, bind_ret by lia. set (v' := take (Z.to_nat len) v).
    assert (zlen v' = len) as Hv' by (apply zlen_take; lia).
    destruct (request_drain _ _ s ns l i (home caches a) (Pack a MsgWriteMiss len v') Hg)
      as (ns1 & l1 & -> & Hg1 & Hsame & Hbt & Hu1); [congruence|].
    destruct (home_node _ _ _ _ _ a Hg1) as [nh Hnh].
    destruct (ServerWriteMiss_ok _ _ s ns1 l1 (home caches a) nh i a len v' pack_buf Hg1 Hnh)
      as (s' & n' & sends & buf & Hrun & Hg' & Hst & Hzb & Hm & Hbit & _ & Hfrom & Hu'); try done; [lia|by apply Forall_take|].
    unfold handle, get_node, CacheProtocalProc_cmd. cbn [nodes backend ctrl p_kind p_addr p_len p_buf].
    rewrite Hnh, bind_ret, Hrun, !bind_ret. eexists s', (<[home caches a := n']> ns1), _, buf.
    split; [done|]. split.
    + constructor; try done.
      * rewrite lookup_insert_ne, Hsame, Hn by congruence. by exists n.
      * exists n'. by rewrite home_high, lookup_insert_eq by apply Ha.
      * intros m Hm'. left. rewrite home_high by apply Ha. destruct (Hfrom m Hm') as [?|Hf]; [by apply Hbt|].
        unfold between. by rewrite Hf, (proj2 (Z.eqb_neq _ i)).
      * by rewrite Hu', Hu1.
    + split; [|intros k; by rewrite Hu', Hu1].
      intros a' Ha'. rewrite Hst by done. case_test; [|done]. unfold v'. rewrite zlook_take by lia.
      by rewrite (proj2 (andb_true_iff _ _)) by lia.
Qed.

(** * Reads and writes *)

(** A step that changes neither a view nor a directory. *)
Lemma coherent_same_view ex s ns l i n n' : coherent settled ex (Dsm s ns l) -> ns !! i = Some n ->
  node_wf None n' -> (forall k, view n' k = view n k) -> directory n' = directory n ->
  coherent settled ex (Dsm s (<[i := n']> ns) l).
Proof.
  intros Hg Hn Hw Hview Hdir.
  apply (coherent_update settled ex _ settled ex s i n n' l Hg); cbn [nodes]; try done.
  - apply (g_ok _ _ _ Hg).
  - intros k Hk. by rewrite Hview.
  - by rewrite Hdir.
  - eapply Forall_impl; [apply (g_msgs _ _ _ Hg)|]. intros m. apply (msg_ok_update _ _ n); [done|].
    intros k Hk. by rewrite Hview.
  - intros j x k ws Hx Hws Hex. destruct (decide (j = i)) as [->|Hne].
    + rewrite lookup_insert_eq in Hx. injection Hx as <-. rewrite Hview in Hws.
      by apply (g_mem _ _ _ Hg i n k ws).
    + rewrite lookup_insert_ne in Hx by done. by apply (g_mem _ _ _ Hg j x k ws).
Qed.

Lemma touch_ok ex s ns l i n b k : coherent settled ex (Dsm s ns l) -> ns !! i = Some n ->
  cache n !! k = Some b -> exists n' blk,
  touch i b false (Dsm s ns l) = Ret (Dsm s (<[i := n']> ns) l) /\
  coherent settled ex (Dsm s (<[i := n']> ns) l) /\ view n k = Some (words blk) /\
  enter_block i b k (Dsm s ns l) = Ret true /\
  (block_cache n').[b] = Some (Block (words blk) (clock n) k false) /\ cache n' = cache n /\
  view n' k = view n k /\ clock n' = u32 (clock n + 1).
Proof.
  intros Hg Hn Hc. pose proof (g_wf _ _ _ Hg i n Hn) as Hw.
  destruct (w_cache _ _ Hw k b Hc) as (_ & blk & Hb & _).
  destruct (view_ready n b blk k Hw Hc Hb) as (Hk & Hl & Hv).
  destruct (update_block None n b blk (Block (words blk) (clock n) (bkey blk) false) k (u32 (clock n + 1))
    Hw Hc Hb Hk Hl Hk eq_refl) as (bs & Hwr & Hw' & Hbb & Hview); [exact (w_words _ _ Hw b blk Hb)|].
  cbv zeta in *. set (n' := CacheNode bs _ _ _ _) in *. exists n', blk. split; [|split].
  - unfold touch, get_node, set_block, set_node, CacheClock. cbn [nodes backend ctrl].
    rewrite Hn, bind_ret, (rd_ok _ _ _ Hb), bind_ret.
    cbn [block_cache block_queue cache directory clock]. by rewrite Hwr, !bind_ret.
  - apply (coherent_same_view ex s ns l i n); try done. intros k'. rewrite Hview.
    case_decide as Hk'; [|done]. by rewrite Hk', Hv.
  - split; [done|]. split; [|split; [by rewrite <-Hk|split; [done|]]].
    + unfold enter_block, get_node. cbn [nodes]. by rewrite Hn, bind_ret, (rd_ok _ _ _ Hb), bind_ret, Hl, Hk, Z.eqb_refl.
    + split; [|done]. by rewrite Hview, decide_True, Hv.
Qed.

(** What an operation on a block leaves behind at its node. *)
Definition touched (n : cache_node) (i : Z) (ns' : gmap Z cache_node) : Prop :=
  exists n', ns' !! i = Some n' /\ clock n' = u32 (clock n + 1) /\ (clock n < 0xffffffff -> room n').

Lemma touched_intro n n' i ns' b blk k : ns' !! i = Some n' -> clock n' = u32 (clock n + 1) ->
  (block_cache n').[b] = Some blk -> bkey blk = k -> lru blk = clock n -> valid_block k ->
  touched n i ns'.
Proof.
  intros Hn Hc Hb Hk Hl Hv. exists n'. do 2 (split; [done|]). intros Hlt. right. exists b, blk.
  split; [done|]. split; [rewrite Hk; by apply valid_not_bad|lia].
Qed.

(** A read: from the cache, or with no renewal of the block under way and a block to
    be had. *)
Lemma doget_ok s ns l i n a : coherent settled nowhere (Dsm s ns l) -> ns !! i = Some n -> valid a ->
  (is_Some (cache n !! high a) \/ under_way i (high a) l = [] /\ room n) ->
  exists ns' l' ws, doget caches i a (Dsm s ns l) = Ret (Dsm s ns' l', ws) /\ zlen ws = 32 /\
    coherent settled nowhere (Dsm s ns' l') /\ touched n i ns' /\
    (forall k, under_way i k l' = under_way i k l) /\ forall j, 0 <= j < 32 ->
      (apply_renews (under_way i (high a) l) ws).[j] = Some (amem s (high a + j)).
Proof.
  intros Hg Hn Ha Hcase. pose proof (high_valid a Ha) as Hvk. unfold doget, get_node at 1. cbn [nodes].
  rewrite Hn, bind_ret. destruct (cache n !! high a) as [b|] eqn:Hc.
  - destruct (touch_ok _ _ _ _ _ _ _ _ Hg Hn Hc) as (n' & blk & Ht & Hg' & Hv & -> & Hb & _ & _ & Hclk).
    rewrite bind_ret. unfold read_hit, get_node. rewrite Ht, bind_ret. cbn [nodes].
    rewrite lookup_insert_eq, bind_ret, (rd_ok _ _ _ Hb), bind_ret.
    eexists _, l, (words blk). split; [done|]. split.
    { pose proof (g_wf _ _ _ Hg' i n') as Hw'. cbn [nodes] in Hw'. rewrite lookup_insert_eq in Hw'.
      exact (w_words _ _ (Hw' eq_refl) b _ Hb). }
    split; [done|]. split; [|split; [done|]].
    { by eapply touched_intro; [rewrite lookup_insert_eq|..]. }
    apply (g_mem _ _ _ Hg i n _ _ Hn Hv). by intros [].
  - destruct Hcase as [[? ?]|[Hu Hroom]]; [done|]. unfold miss_fuel. cbn [doget_miss].
    destruct (getblock_ok s ns l i n (high a) Hg Hn Hc Hvk Hroom) as (ns1 & l1 & b & -> & Hg1 & (n1 & Hn1 & Hclk1 & _) & Hu1).
    rewrite bind_ret. destruct (ReadMiss_ok s ns1 l1 i n1 (high a) b Hg1 Hn1 Hvk) as (ns2 & l2 & buf & -> & Hf & Hu2);
      [by rewrite Hu1|].
    destruct (fill_ready _ _ _ _ (high a) _ _ _ (Pack (high a) MsgReplyOK DSM_CACHE_BLOCK_SIZE buf) Hf)
      as (nm & n' & -> & Ht & Hg3 & Hclk & Hb); [done..|].
    rewrite bind_ret. unfold read_hit, get_node. rewrite Ht, bind_ret. cbn [nodes].
    rewrite lookup_insert_eq, bind_ret, (rd_ok _ _ _ Hb), bind_ret. cbn [words p_buf].
    eexists _, l2, buf. split; [done|]. split; [apply (f_len _ _ _ _ _ _ _ _ Hf)|]. split; [done|]. split.
    { rewrite Hclk1 in Hb, Hclk. by eapply touched_intro; [rewrite lookup_insert_eq|..]. }
    rewrite Hu. split; [|apply (f_mem _ _ _ _ _ _ _ _ Hf)]. intros k. by rewrite Hu2, Hu1.
Qed.

(** Coherence at a block that was excepted. *)
Lemma coherent_restore pend (ex : Z -> Z -> Prop) d i0 k0 n0 ws0 : coherent pend ex d ->
  (forall i k, ex i k -> i = i0 /\ k = k0) -> nodes d !! i0 = Some n0 -> view n0 k0 = Some ws0 ->
  (forall j, 0 <= j < 32 -> (apply_renews (under_way i0 k0 (ctrl d)) ws0).[j] = Some (amem (backend d) (k0 + j))) ->
  coherent pend nowhere d.
Proof.
  intros Hg Hex Hn Hv Hm. constructor; try apply Hg. intros i n k ws Hi Hw _.
  destruct (decide (i = i0 /\ k = k0)) as [[-> ->]|Hne].
  - assert (n = n0) as -> by congruence. assert (ws = ws0) as -> by congruence. done.
  - apply (g_mem _ _ _ Hg i n k ws Hi Hw). intros He. by apply Hne, Hex.
Qed.

Lemma write_hit_ok s ns l i n b a len v : coherent settled nowhere (Dsm s ns l) -> ns !! i = Some n ->
  cache n !! high a = Some b -> valid a -> 0 <= len <= zlen v -> low a + len <= 32 -> Forall is_u32 v ->
  under_way i (high a) l = [] -> exists s' ns' l',
  write_hit caches i b a v len (Dsm s ns l) = Ret (Dsm s' ns' l') /\
  enter_block i b (high a) (Dsm s ns l) = Ret true /\
  coherent settled nowhere (Dsm s' ns' l') /\ stored s s' a len v /\ touched n i ns' /\
  forall k, under_way i k l' = under_way i k l.
Proof.
  intros Hg Hn Hc Ha Hl Hlow Hv Hu. pose proof (low_range a) as Hlr.
  destruct (touch_ok _ _ _ _ _ _ _ _ Hg Hn Hc) as (n1 & blk & Ht & Hg1 & Hview & He & Hb & Hc1 & Hv1 & Hclk).
  set (t := clock n) in *.
  pose proof (g_wf _ _ _ Hg1 i n1 ltac:(cbn [nodes]; by rewrite lookup_insert_eq)) as Hw1.
  rewrite <-Hc1 in Hc. set (blk1 := Block (words blk) t (high a) false) in *.
  assert (zlen (words blk) = 32) as Hz by exact (w_words _ _ Hw1 b blk1 Hb).
  set (ws := patched (words blk) (low a) (take (Z.to_nat len) v)).
  destruct (update_block None n1 b blk1 (Block ws t (high a) false) (high a) (clock n1) Hw1 Hc Hb
    eq_refl eq_refl eq_refl eq_refl) as (bs & Hwr & Hw2 & Hbb & Hview2).
  { cbn [words]. unfold ws. rewrite (proj1 (patched_spec (words blk) (low a) (take (Z.to_nat len) v)
      ltac:(lia) ltac:(rewrite zlen_take by done; lia))). done. }
  cbv zeta in *. set (n2 := CacheNode bs _ _ _ _) in *.
  assert (coherent settled (or_at nowhere i (high a)) (Dsm s (<[i := n2]> ns) l)) as Hg2.
  { rewrite <-(insert_insert_eq ns i n2 n1).
    apply (coherent_update settled nowhere _ settled _ s i n1 n2 l Hg1); cbn [nodes]; try done.
    - by rewrite lookup_insert_eq.
    - apply (g_ok _ _ _ Hg).
    - intros k Hk. rewrite Hview2. destruct (decide (k = high a)) as [->|]; [|done].
      rewrite Hv1, Hview in Hk. done.
    - eapply Forall_impl; [apply (g_msgs _ _ _ Hg1)|]. intros m. apply (msg_ok_update _ _ n1).
      { cbn [nodes]. by rewrite lookup_insert_eq. }
      intros k Hk. rewrite Hview2. destruct (decide (k = high a)) as [->|]; [|done].
      rewrite Hv1, Hview in Hk. done.
    - intros j x k ws' Hx Hws Hex. rewrite insert_insert_eq in Hx. destruct (decide (j = i)) as [->|Hne].
      + rewrite lookup_insert_eq in Hx. injection Hx as <-. rewrite Hview2 in Hws. revert Hws.
        destruct (decide (k = high a)) as [->|Hk]; [by destruct Hex; right|]. intros Hws.
        apply (g_mem _ _ _ Hg1 i n1 k ws'); [cbn [nodes]; by rewrite lookup_insert_eq|done|by intros []].
      + rewrite lookup_insert_ne in Hx by done. apply (g_mem _ _ _ Hg1 j x k ws');
          [cbn [nodes]; by rewrite lookup_insert_ne|done|by intros []]. }
  destruct (Write_ok _ _ s (<[i := n2]> ns) l i n2 a len v Hg2) as (s' & ns' & l' & Hrun & Hg3 & Hst & Hn' & Hu');
    [by rewrite lookup_insert_eq|done..|].
  exists s', ns', l'. split; [|split; [done|split; [|split; [done|split; [|done]]]]].
  - unfold write_hit, get_node, set_block, set_node. rewrite Ht, bind_ret. cbn [nodes backend ctrl].
    rewrite lookup_insert_eq, bind_ret, (rd_ok _ _ _ Hb), bind_ret.
    rewrite patch_spec, bind_ret by (cbn [blk1 words]; lia). cbn [blk1 words lru bkey locked]. fold ws.
    rewrite Hwr, !bind_ret, insert_insert_eq. done.
  - apply (coherent_restore _ _ _ i (high a) n2 ws Hg3); [|done| |].
    + intros j k [[[]|?]|?]; done.
    + by rewrite Hview2, decide_True.
    + cbn [ctrl backend]. rewrite Hu', Hu. cbn [apply_renews foldl]. unfold ws.
      apply (stored_block s s'); try done. pose proof (g_mem _ _ _ Hg i n (high a) _ Hn Hview) as Hm.
      cbn [ctrl backend] in Hm. rewrite Hu in Hm. apply Hm. by intros [].
  - by eapply (touched_intro n n2 i ns' b); [..|by apply high_valid].
Qed.

(** A write, with no renewal of the block under way to its node. *)
Lemma doput_ok s ns l i n a len v : coherent settled nowhere (Dsm s ns l) -> ns !! i = Some n ->
  valid a -> 1 <= len <= zlen v -> low a + len <= 32 -> Forall is_u32 v ->
  under_way i (high a) l = [] -> (is_Some (cache n !! high a) \/ room n) -> exists s' ns' l',
  doput caches i a v len (Dsm s ns l) = Ret (Dsm s' ns' l', SoOK) /\
  coherent settled nowhere (Dsm s' ns' l') /\
  stored s s' a (if bool_decide (cache n !! high a = None) && (home caches a =? i) then 1 else len) v /\
  touched n i ns' /\ forall k, under_way i k l' = under_way i k l.
Proof.
  intros Hg Hn Ha Hl Hlow Hv Hu Hcase. pose proof (high_valid a Ha) as Hvk.
  unfold doput, get_node at 1. cbn [nodes]. rewrite Hn, bind_ret.
  destruct (cache n !! high a) as [b|] eqn:Hc.
  - destruct (write_hit_ok s ns l i n b a len v Hg Hn Hc Ha) as (s' & ns' & l' & Hrun & -> & ? & ? & ? & ?);
      [lia|done..|]. rewrite bind_ret, Hrun, bind_ret, bool_decide_false by done. by exists s', ns', l'.
  - destruct Hcase as [[? ?]|Hroom]; [done|]. unfold miss_fuel. cbn [doput_miss].
    destruct (getblock_ok s ns l i n (high a) Hg Hn Hc Hvk Hroom) as (ns1 & l1 & b & -> & Hg1 & (n1 & Hn1 & Hclk1 & _) & Hu1).
    rewrite bind_ret. destruct (WriteMiss_ok s ns1 l1 i n1 a b len v Hg1 Hn1 Ha Hl Hlow Hv)
      as (s' & ns2 & l2 & buf & -> & Hf & Hst & Hu2); [by rewrite Hu1|].
    destruct (fill_ready _ _ _ _ a _ _ _ (Pack a MsgReplyOK DSM_CACHE_BLOCK_SIZE buf) Hf)
      as (nm & n' & -> & Ht & Hg3 & Hclk & Hb); [done..|].
    rewrite bind_ret, Ht, bind_ret. eexists s', _, l2. split; [done|]. split; [done|]. split.
    + rewrite bool_decide_true by done. done.
    + split; [|intros k; by rewrite Hu2, Hu1]. rewrite Hclk1 in Hb, Hclk.
      by eapply touched_intro; [rewrite lookup_insert_eq|..].
Qed.

End coherence.

(** * Chunks *)

Ltac Zify.zify_post_hook ::= Z.to_euclidean_division_equations.

(** The pieces of a chunk: what one piece does, repeated, does to the whole. *)
Lemma chunk_walk_spec {X} (P : Z -> X -> Prop) k len piece x :
  valid k -> 0 <= len -> k mod 2 ^ 32 + len <= MAX_FIELD -> P 0 x ->
  (forall idx n x, P idx x -> 0 <= idx -> 1 <= n -> idx + n <= len -> low (k + idx) + n <= 32 ->
     exists x', piece (k + idx) idx n x = Ret x' /\ P (idx + n) x') ->
  exists x', chunk_walk k len piece x = Ret x' /\ P len x'.
Proof.
  intros [Hk Hm] Hl Hf HP Hpiece. unfold is_u64, MAX_FIELD in *.
  assert (high k = 32 * (k / 32)) as Hhk by (by apply high_eq).
  assert (is_u64 (k + len)) as Hkl by (unfold is_u64; lia).
  assert (chunk_end k len = 32 * ((k + len) / 32)) as Hend.
  { unfold chunk_end. rewrite u64_small, high_eq by done. done. }
  assert (chunk_start k = 32 * ((k + 31) / 32)) as Hstart.
  { unfold chunk_start. rewrite Hhk, low_eq, block_size_32.
    destruct (Z.eqb_spec (k mod 32) 0); cbn [negb]; [lia|]. rewrite u64_small; unfold is_u64; lia. }
  assert (chunk_head k len = if chunk_start k <? k + len then chunk_start k - k else len) as Hhead.
  { unfold chunk_head. rewrite u64_small by done. case_test; [|done]. rewrite u32_small; [done|ranges]. }
  unfold chunk_walk. rewrite Hend. set (cs := chunk_start k) in *. set (ce := 32 * ((k + len) / 32)) in *.
  set (cl := chunk_head k len) in *. rewrite block_size_32. change (DSM_CACHE_BLOCK_SIZE) with 32.
  assert (exists x1, (if 0 <? cl then piece k 0 cl x else Ret x) = Ret x1 /\ P cl x1) as (x1 & Hx1 & HP1).
  { destruct (Z.ltb_spec 0 cl); [|exists x; split; [done|]; by replace cl with 0 by (destruct (Z.ltb_spec cs (k + len)); lia)].
    destruct (Hpiece 0 cl x) as (x' & Hx' & HP'); [done|lia|lia| | |].
    - destruct (Z.ltb_spec cs (k + len)); lia.
    - rewrite Z.add_0_r, low_eq. destruct (Z.ltb_spec cs (k + len)); lia.
    - rewrite Z.add_0_r in Hx'. by exists x'. }
  rewrite c_assert_true, bind_ret, Hx1, bind_ret by (destruct (Z.ltb_spec cs (k + len)); lia).
  destruct (Z.ltb_spec cs (k + len)) as [Hlt|Hge].
  - destruct (while_rule (S := Z * Z * X)
      (fun '(j, idx, x) => j mod 32 = 0 /\ cs <= j <= ce /\ idx = j - k /\ P idx x)
      (fun '(j, idx, x) => Z.to_nat ((ce - j) / 32)) (fun '(j, idx, x) => j <? ce)
      (fun '(j, idx, x) => x ← piece j idx 32 x; Ret (u64 (j + 32), u32 (idx + 32), x))
      (Z.to_nat (len / 32) + 2) (cs, cl, x1)) as ([[j idx] x2] & -> & (Hj32 & Hj & -> & HP2) & Hc).
    + intros [[j idx] x2] (Hj32 & Hj & -> & HP2) Hc%Z.ltb_lt.
      destruct (Hpiece (j - k) 32 x2) as (x' & Hx' & HP'); [done|lia|lia|lia| |].
      { replace (k + (j - k)) with j by lia. rewrite low_eq. lia. }
      replace (k + (j - k)) with j in Hx' by lia. rewrite Hx', bind_ret.
      eexists (_, _, _). split; [done|]. unfold is_u64 in *.
      rewrite u64_small by (unfold is_u64; lia). rewrite u32_small by (unfold is_u32; lia).
      replace (j - k + 32) with (j + 32 - k) in * by lia. split; [|lia]. split; [lia|]. split; [lia|done].
    + split; [lia|]. split; [lia|]. split; [lia|done].
    + lia.
    + rewrite bind_ret. apply Z.ltb_ge in Hc. assert (j = ce) as -> by lia.
      destruct (Z.ltb_spec (ce - k) len) as [Hlen|Hlen].
      * destruct (Hpiece (ce - k) (len - (ce - k)) x2) as (x' & Hx' & HP'); [done|lia|lia|lia| |].
        { replace (k + (ce - k)) with ce by lia. rewrite low_eq. lia. }
        replace (k + (ce - k)) with ce in Hx' by lia. replace (ce - k + (len - (ce - k))) with len in HP' by lia.
        by exists x'.
      * exists x2. split; [done|]. by replace len with (ce - k) by lia.
  - assert (cl = len) as Hcl by done.
    rewrite Nat.add_comm. cbn [while Nat.add]. rewrite (proj2 (Z.ltb_ge cs ce)), bind_ret by lia.
    rewrite (proj2 (Z.ltb_ge cl len)) by lia. exists x1. split; [done|]. by rewrite <-Hcl.
Qed.

Ltac Zify.zify_post_hook ::= idtac.

(** * Runs *)

Section runs.
Context {S : Type} `{SoStorageLaws S} `{!SoReliable S}.
Context (caches : Z) (Hcaches : 0 < caches <= 64).

(** The reads and writes of fields that clients of node [i] see. *)
Inductive cache_event :=
| Read (i o f w : Z)
| Wrote (i o f v : Z).

(** The block of [a] can be had at node [i] while no renewal of it is under way. *)
Definition ordered (d : dsm S) (i a : Z) : Prop :=
  valid a /\ under_way i (high a) (ctrl d) = [] /\
  exists n, nodes d !! i = Some n /\ (is_Some (cache n !! high a) \/ room n).

(** Runs in which a node reads and writes a field only when no renewal of its block is
    under way to it; messages are delivered at any time. *)
Inductive ordered_run : dsm S -> list cache_event -> dsm S -> Prop :=
| run_done d : ordered_run d [] d
| run_get d i o f d1 w evs d2 :
    is_u32 o -> 0 <= f < MAX_FIELD -> ordered d i (MAKE64 o f) ->
    get caches i o f d = Ret (d1, w) -> ordered_run d1 evs d2 ->
    ordered_run d (Read i o f w :: evs) d2
| run_put d i o f v d1 st evs d2 :
    is_u32 o -> 0 <= f < MAX_FIELD -> is_u32 v -> ordered d i (MAKE64 o f) ->
    put caches i o f v d = Ret (d1, st) -> ordered_run d1 evs d2 ->
    ordered_run d (Wrote i o f v :: evs) d2
| run_deliver s ns l1 l2 src dst p d1 r evs d2 :
    Forall (fun m => between src dst m = false) l1 ->
    handle caches src dst p (Dsm s ns (l1 ++ l2)) = Ret (d1, r) -> ordered_run d1 evs d2 ->
    ordered_run (Dsm s ns (l1 ++ (src, dst, p) :: l2)) evs d2.

Definition ok (d : dsm S) : Prop := coherent caches settled nowhere d.

Lemma init_lookup (s : S) i : nodes (init_dsm caches s) !! i = if decide (0 <= i < caches) then Some init_node else None.
Proof.
  unfold init_dsm. cbn [nodes].
  assert (NoDup ((fun j : Z => (j, init_node)) <$> seqZ 0 caches).*1) as Hnd.
  { rewrite <-list_fmap_compose. rewrite (list_fmap_ext _ id) by done. rewrite list_fmap_id. apply NoDup_seqZ. }
  case_decide as Hi.
  - apply elem_of_list_to_map_1; [done|]. apply list_elem_of_fmap. exists i. split; [done|].
    apply elem_of_seqZ. lia.
  - apply not_elem_of_list_to_map_1. rewrite <-list_fmap_compose. intros (j & -> & Hj)%list_elem_of_fmap.
    apply elem_of_seqZ in Hj. cbn in Hi. lia.
Qed.

Lemma init_ok (s : S) : so_ok s -> ok (init_dsm caches s).
Proof.
  intros Hs. destruct init_node_wf as [Hw Hv].
  assert (forall i n, nodes (init_dsm caches s) !! i = Some n -> n = init_node) as Hn.
  { intros i n. rewrite init_lookup. case_decide; [by intros [= <-]|done]. }
  constructor; try done.
  - intros i. rewrite init_lookup. by case_decide.
  - intros i n ->%Hn. done.
  - intros i n k ws Hi Hk. rewrite (Hn i n Hi), Hv in Hk. done.
  - intros i n k ws Hi Hk. rewrite (Hn i n Hi), Hv in Hk. done.
Qed.

(** A field is read as the back end has it. *)
Lemma get_ok d i o f : ok d -> is_u32 o -> 0 <= f < MAX_FIELD -> ordered d i (MAKE64 o f) ->
  exists d', get caches i o f d = Ret (d', so_mem (backend d) o f) /\ ok d' /\ backend d' = backend d.
Proof.
  intros Hok Ho Hf (Hv & Hu & n & Hn & Hcase). destruct d as [s ns l]. cbn [ctrl nodes backend] in *.
  destruct (MAKE64_valid o f Ho Hf) as (_ & Hdiv & Hmod).
  destruct (doget_ok caches Hcaches s ns l i n (MAKE64 o f) Hok Hn Hv) as
    (ns' & l' & ws & Hrun & _ & Hok' & _ & _ & Hws); [by destruct Hcase; [left|right]|].
  rewrite Hu in Hws. cbn [apply_renews foldl] in Hws.
  assert (Z.land f DSM_CACHE_LOW_MASK = low (MAKE64 o f)) as Hlow.
  { rewrite land_low_mask, low_eq, MAKE64_add by (unfold is_u32, MAX_FIELD in *; lia).
    rewrite <-(Z_mod_plus_full f (o * 2 ^ 27) 32). f_equal. lia. }
  unfold get. rewrite Hrun, bind_ret, Hlow, (rd_ok _ _ _ (Hws _ (low_range _))), bind_ret.
  eexists. split; [|split; [exact Hok'|done]]. rewrite <-addr_split by apply Hv.
  unfold amem. by rewrite Hdiv, Hmod.
Qed.

(** A write changes the field, and nothing else. *)
Lemma put_ok d i o f v : ok d -> is_u32 o -> 0 <= f < MAX_FIELD -> is_u32 v -> ordered d i (MAKE64 o f) ->
  exists d', put caches i o f v d = Ret (d', SoOK) /\ ok d' /\
    forall o' f', is_u32 o' -> 0 <= f' < MAX_FIELD ->
      so_mem (backend d') o' f' = if (o' =? o) && (f' =? f) then v else so_mem (backend d) o' f'.
Proof.
  intros Hok Ho Hf Hvv (Hv & Hu & n & Hn & Hcase). destruct d as [s ns l]. cbn [ctrl nodes backend] in *.
  pose proof (low_range (MAKE64 o f)).
  destruct (doput_ok caches Hcaches s ns l i n (MAKE64 o f) 1 [v] Hok Hn Hv) as
    (s' & ns' & l' & Hrun & Hok' & Hst & _); [done|lia|u32s|done|done|].
  eexists. split; [exact Hrun|]. split; [done|]. intros o' f' Ho' Hf'. cbn [backend].
  destruct (MAKE64_valid o' f' Ho' Hf') as (Hv' & Hdiv' & Hmod'). specialize (Hst _ Hv').
  unfold amem in Hst. rewrite Hdiv', Hmod' in Hst.
  assert (forall b : bool, (if b then 1 else 1) = 1) as Hone by (by intros []). rewrite Hone in Hst.
  rewrite Hst. rewrite !MAKE64_add by (unfold is_u32, MAX_FIELD in *; lia).
  unfold is_u32, MAX_FIELD in *.
  destruct (Z.eqb_spec o' o) as [->|Ho2], (Z.eqb_spec f' f) as [->|Hf2]; cbn [andb].
  - rewrite (proj2 (andb_true_iff _ _)) by lia. by rewrite Z.sub_diag.
  - by rewrite (proj2 (andb_false_iff _ _)) by lia.
  - by rewrite (proj2 (andb_false_iff _ _)) by lia.
  - by rewrite (proj2 (andb_false_iff _ _)) by lia.
Qed.

Lemma deliver_ok s ns l1 l2 src dst p d1 r : ok (Dsm s ns (l1 ++ (src, dst, p) :: l2)) ->
  Forall (fun m => between src dst m = false) l1 ->
  handle caches src dst p (Dsm s ns (l1 ++ l2)) = Ret (d1, r) -> ok d1 /\ backend d1 = s.
Proof.
  intros Hok Hl1 Hrun. destruct (deliver caches Hcaches _ _ s ns l1 l2 src dst p Hok Hl1) as (n & n' & Hn & Hp & Hok').
  unfold handle, get_node in Hrun. cbn [nodes backend ctrl] in Hrun.
  rewrite Hn, bind_ret, Hp, bind_ret, app_nil_r in Hrun. by injection Hrun as <- _.
Qed.

Lemma ordered_run_ok d evs d' : ok d -> ordered_run d evs d' -> ok d'.
Proof.
  intros Hok Hrun. induction Hrun as [|d i o f d1 w evs d2 ? ? Ho Hg _ IH|d i o f v d1 st evs d2 ? ? ? Ho Hg _ IH|
    s ns l1 l2 src dst p d1 r evs d2 Hl1 Hh _ IH]; [done|..]; apply IH.
  - destruct (get_ok d i o f) as (d3 & Hg3 & ? & _); try done. congruence.
  - destruct (put_ok d i o f v) as (d3 & Hg3 & ? & _); try done. congruence.
  - by destruct (deliver_ok _ _ _ _ _ _ _ _ _ Hok Hl1 Hh).
Qed.

(** The abstract memory: every read returns what was written last. *)
Fixpoint reads_last (mem : Z -> Z -> Z) (evs : list cache_event) : Prop :=
  match evs with
  | [] => True
  | Read _ o f w :: evs => w = mem o f /\ reads_last mem evs
  | Wrote _ o f v :: evs =>
      reads_last (fun o' f' => if (o' =? o) && (f' =? f) then v else mem o' f') evs
  end.

Lemma run_reads_last d evs d' mem : ok d -> ordered_run d evs d' ->
  (forall o f, is_u32 o -> 0 <= f < MAX_FIELD -> mem o f = so_mem (backend d) o f) -> reads_last mem evs.
Proof.
  intros Hok Hrun. revert mem. induction Hrun as [|d i o f d1 w evs d2 Ho Hf Hord Hg _ IH|
    d i o f v d1 st evs d2 Ho Hf Hv Hord Hg _ IH|s ns l1 l2 src dst p d1 r evs d2 Hl1 Hh _ IH];
    intros mem Hmem; cbn [reads_last]; [done|..].
  - destruct (get_ok d i o f Hok Ho Hf Hord) as (d3 & Hg3 & Hok3 & Hb). assert (d3 = d1 /\ w = so_mem (backend d) o f) as [-> ->]
      by (split; congruence). split; [symmetry; by apply Hmem|]. apply IH; [done|]. by rewrite Hb.
  - destruct (put_ok d i o f v Hok Ho Hf Hv Hord) as (d3 & Hg3 & Hok3 & Hb).
    assert (d3 = d1) as -> by congruence. apply IH; [done|]. intros o' f' Ho' Hf'.
    rewrite Hb by done. by rewrite Hmem.
  - destruct (deliver_ok _ _ _ _ _ _ _ _ _ Hok Hl1 Hh) as [Hok' Hb]. apply IH; [done|]. by rewrite Hb.
Qed.
End runs.

(** * Properties *)

Section properties.
Context {S : Type} `{SoStorageLaws S} `{!SoReliable S}.




(** When no block is free, the least recently used one makes room: its key leaves
    the table, the requested key comes in, and no block in use is older. *)
Theorem getblock_evicts_oldest caches (s : S) evs d i n k : 0 < caches <= 64 -> so_ok s ->
  ordered_run caches (init_dsm caches s) evs d -> nodes d !! i = Some n ->
  valid_block k -> cache n !! k = None -> block_queue n = [] -> room n ->
  exists d' b n', getblock caches i k d = Ret (d', b, false) /\ nodes d' !! i = Some n' /\ evicts n n' k b.
Proof.
  intros Hc Hs Hrun Hn Hk Hno Hq Hroom.
  pose proof (ordered_run_ok caches Hc _ _ _ (init_ok caches s Hs) Hrun) as Hok. destruct d as [s' ns l].
  destruct (getblock_ok caches Hc s' ns l i n k Hok Hn Hno Hk Hroom)
    as (ns' & l' & b & Hg & _ & (n' & Hn' & _ & He) & _).
  exists (Dsm s' ns' l'), b, n'. split; [done|]. split; [done|]. by apply He.
Qed.

(** What the chunk operations keep: node [i] of a coherent state without renewals under
    way to it, whose clock has advanced by at most one per word. *)
Definition chunk_state (caches i c : Z) (d : dsm S) : Prop :=
  coherent caches settled nowhere d /\ (forall k, under_way i k (ctrl d) = []) /\
  exists n, nodes d !! i = Some n /\ room n /\ 0 <= clock n <= c.

Lemma touched_clock n i ns' c idx m : touched n i ns' -> 0 <= clock n <= c + idx -> 1 <= m ->
  c + idx + m < 0xffffffff -> exists n', ns' !! i = Some n' /\ room n' /\ 0 <= clock n' <= c + (idx + m).
Proof.
  intros (n' & Hn & Hc & Hr) Hcl Hm Hlt. exists n'. split; [done|]. split; [apply Hr; lia|].
  rewrite Hc, u32_small by ranges. lia.
Qed.

Lemma chunk_addr o f len : range_ok o f len -> 0 < len -> valid (MAKE64 o f) /\
  MAKE64 o f mod 2 ^ 32 = f /\ forall idx, 0 <= idx < len -> valid (MAKE64 o f + idx) /\
    MAKE64 o f + idx = MAKE64 o (f + idx).
Proof.
  intros (Ho & Hf & Hl & Hm) Hpos. destruct (MAKE64_valid o f Ho) as (Hv & _ & Hmod); [lia|].
  split; [done|]. split; [done|]. intros idx Hi.
  assert (MAKE64 o f + idx = MAKE64 o (f + idx)) as ->.
  { rewrite !MAKE64_add by (unfold is_u32, MAX_FIELD in *; lia). lia. }
  split; [|done]. apply MAKE64_valid; [done|lia].
Qed.


(** What is stored when the first [idx] words of a chunk at [k] are put: words whose home
    is another node are written, the others are written or keep their value. *)
Definition partly_put (caches i k idx : Z) (v : list Z) (s s' : S) : Prop :=
  forall a, valid a -> if (k <=? a) && (a <? k + idx)
    then (home caches a <> i -> v.[a - k] = Some (amem s' a)) /\
         (amem s' a = amem s a \/ v.[a - k] = Some (amem s' a))
    else amem s' a = amem s a.

Lemma partly_put_more caches i k idx m (short : bool) v buf (s s1 s2 : S) :
  valid (k + idx) -> 0 <= idx -> 1 <= m -> low (k + idx) + m <= 32 -> zlen buf = m ->
  (forall j, 0 <= j < m -> buf.[j] = v.[idx + j]) -> (short = true -> home caches (k + idx) = i) ->
  stored s1 s2 (k + idx) (if short then 1 else m) buf ->
  partly_put caches i k idx v s s1 -> partly_put caches i k (idx + m) v s s2.
Proof.
  intros Hva Hidx Hm Hlow Hzb Hbj Hhome Hst Hm1 a Ha. specialize (Hm1 a Ha). specialize (Hst a Ha).
  set (w := if short then 1 else m) in Hst. assert (1 <= w <= m) as Hw by (unfold w; destruct short; lia).
  destruct ((k + idx <=? a) && (a <? k + idx + m)) eqn:Hin.
  - assert ((k <=? a) && (a <? k + (idx + m)) = true) as -> by lia.
    rewrite (proj2 (andb_false_iff _ _)) in Hm1 by lia.
    assert (v.[a - k] = Some (default 0 (buf.[a - (k + idx)]))) as Hval.
    { destruct (zlook_is_Some buf (a - (k + idx))) as [x Hx]; [lia|]. rewrite Hx. cbn.
      rewrite Hbj in Hx by lia. by replace (idx + (a - (k + idx))) with (a - k) in Hx by lia. }
    destruct ((k + idx <=? a) && (a <? k + idx + w)) eqn:Hin2; rewrite Hst.
    + split; [by intros _|by right].
    + split; [|by left]. intros Hh. exfalso. apply Hh.
      rewrite <- Hhome by (unfold w in *; destruct short; [done|lia]).
      rewrite <-(home_high caches a), <-(home_high caches (k + idx)) by (apply Ha || apply Hva). f_equal.
      pose proof (addr_split _ (proj1 Hva)). pose proof (low_range (k + idx)).
      replace a with (high (k + idx) + (a - high (k + idx))) by lia.
      apply high_in_block; [by apply high_valid|lia].
  - rewrite (proj2 (andb_false_iff _ _)) in Hst by lia. rewrite Hst.
    by replace ((k <=? a) && (a <? k + (idx + m))) with ((k <=? a) && (a <? k + idx)) by lia.
Qed.

(** Writing a chunk through the cache: nothing outside the range changes, a word
    whose home is another node is written, and a word whose home is this node is
    written or, with the rest of its block, keeps its old value. *)
Theorem cache_putchunk caches (s : S) evs d i n o f len v : 0 < caches <= 64 -> so_ok s ->
  ordered_run caches (init_dsm caches s) evs d -> nodes d !! i = Some n -> room n ->
  (forall k, under_way i k (ctrl d) = []) -> 0 <= clock n -> clock n + len < 0xffffffff ->
  range_ok o f len -> 0 < len -> len <= zlen v -> Forall is_u32 v ->
  exists d', putchunk caches i o f len v d = Ret d' /\
    forall o' f', is_u32 o' -> 0 <= f' < MAX_FIELD ->
      if (o' =? o) && (f <=? f') && (f' <? f + len)
      then (home caches (MAKE64 o f') <> i -> v.[f' - f] = Some (so_mem (backend d') o' f')) /\
           (so_mem (backend d') o' f' = so_mem (backend d) o' f' \/
            v.[f' - f] = Some (so_mem (backend d') o' f'))
      else so_mem (backend d') o' f' = so_mem (backend d) o' f'.
Proof.
  intros Hc Hs Hrun Hn Hroom Hu Hcl0 Hcl Hr Hpos Hz Hv32.
  pose proof (ordered_run_ok caches Hc _ _ _ (init_ok caches s Hs) Hrun) as Hok.
  destruct (chunk_addr o f len Hr Hpos) as (Hv & Hmod & Haddr).
  destruct (chunk_walk_spec (fun idx d' => chunk_state caches i (clock n + idx) d' /\
      partly_put caches i (MAKE64 o f) idx v (backend d) (backend d'))
    (MAKE64 o f) len (fun a idx n d => buf ← rd_range v idx n; '(d, _) ← doput caches i a buf n d; Ret d) d)
    as (d' & Hwalk & _ & Hm).
  - done.
  - lia.
  - rewrite Hmod. apply Hr.
  - split.
    + split; [done|]. split; [done|]. exists n. split; [done|]. split; [done|lia].
    + intros a Ha. case_test; [lia|done].
  - intros idx m d1 ((Hok1 & Hu1 & n1 & Hn1 & Hr1 & Hc1) & Hm1) Hidx Hm Hle Hlow.
    destruct (Haddr idx) as [Hva _]; [lia|]. destruct d1 as [s1 ns1 l1]. cbn [ctrl nodes backend] in *.
    destruct (rd_range_ok v idx m) as (buf & Hbuf & Hzb & Hbj); [lia..|].
    assert (Forall is_u32 buf) as Hb32.
    { unfold rd_range in Hbuf. case_test in Hbuf; [|done]. injection Hbuf as <-. by apply Forall_take, Forall_drop. }
    destruct (doput_ok caches Hc s1 ns1 l1 i n1 (MAKE64 o f + idx) m buf Hok1 Hn1 Hva) as
      (s2 & ns2 & l2 & Hput & Hok2 & Hst & Ht & Hu2); [lia|done|done|by rewrite Hu1|by right|].
    exists (Dsm s2 ns2 l2). split; [by rewrite Hbuf, bind_ret, Hput, bind_ret|].
    destruct (touched_clock n1 i ns2 (clock n) idx m Ht) as (n2 & Hn2 & Hr2 & Hc2); [lia..|].
    split.
    { split; [done|]. split; [intros k; cbn [ctrl]; by rewrite Hu2|]. by exists n2. }
    cbn [backend]. eapply (partly_put_more caches i (MAKE64 o f) idx m _ v buf (backend d) s1 s2);
      [exact Hva|lia|lia|done|done|done| |exact Hst|exact Hm1].
    by intros [_ ?%Z.eqb_eq]%andb_true_iff.
  - exists d'. split; [done|]. intros o' f' Ho' Hf'. destruct (MAKE64_valid o' f' Ho' Hf') as (Ha & Hd1 & Hd2).
    specialize (Hm _ Ha). unfold amem in Hm. rewrite Hd1, Hd2 in Hm.
    unfold range_ok, is_u32, MAX_FIELD in *.
    destruct (Z.eqb_spec o' o) as [->|Hoo]; cbn [andb].
    + rewrite !MAKE64_add in * by ranges.
      replace ((o * 2 ^ 32 + f <=? o * 2 ^ 32 + f') && (o * 2 ^ 32 + f' <? o * 2 ^ 32 + f + len))
        with ((f <=? f') && (f' <? f + len)) in Hm by lia.
      by replace (o * 2 ^ 32 + f' - (o * 2 ^ 32 + f)) with (f' - f) in Hm by lia.
    + rewrite !MAKE64_add in Hm by ranges. rewrite (proj2 (andb_false_iff _ _)) in Hm by lia. done.
Qed.

(** A write of several words to a block that its home node has not cached stores
    only the first word: the local case of [WriteMiss] passes the length 1. *)
Theorem local_write_miss_drops caches (s : S) evs d i n a len v : 0 < caches <= 64 -> so_ok s ->
  ordered_run caches (init_dsm caches s) evs d -> nodes d !! i = Some n ->
  ordered d i a -> cache n !! high a = None -> home caches a = i ->
  1 <= len <= zlen v -> low a + len <= 32 -> Forall is_u32 v ->
  exists d', doput caches i a v len d = Ret (d', SoOK) /\
    forall a', valid a' -> amem (backend d') a' = if a' =? a then default 0 (v.[0]) else amem (backend d) a'.
Proof.
  intros Hc Hs Hrun Hn (Ha & Hu & n0 & Hn0 & Hcase) Hno Hh Hl Hlow Hv.
  pose proof (ordered_run_ok caches Hc _ _ _ (init_ok caches s Hs) Hrun) as Hok. destruct d as [s1 ns1 l1].
  assert (n0 = n) as -> by congruence.
  destruct (doput_ok caches Hc s1 ns1 l1 i n a len v Hok Hn Ha Hl Hlow Hv Hu Hcase)
    as (s2 & ns2 & l2 & Hput & _ & Hst & _).
  rewrite bool_decide_true, Hh, Z.eqb_refl in Hst by done. exists (Dsm s2 ns2 l2). split; [done|].
  intros a' Ha'. cbn [backend]. rewrite Hst by done. cbn [andb].
  destruct (Z.eqb_spec a' a) as [->|Hne].
  - rewrite (proj2 (andb_true_iff _ _)) by lia. by rewrite Z.sub_diag.
  - by rewrite (proj2 (andb_false_iff _ _)) by lia.
Qed.
End properties.
