(* ===== verification/DirectoryCacheRuns.v ===== *)
(** Concrete runs of the directory cache on the map server behind the Memcached
    back end with one word per key: the race that leaves a copy stale, two renewals
    handled in the wrong order, and the witnesses of the properties of
    DirectoryCacheFacts.v. *)

From S2P Require Import Prelude Storage Memcached MemcachedFacts DirectoryCache DirectoryCacheFacts.
Import MapServer MapServerFacts.

Definition deliver_first {S} `{SoStorage S} (caches : Z) (d : dsm S) : outcome (dsm S) :=
  match ctrl d with
  | (src, dst, p) :: l => '(d, _) ← handle caches src dst p (Dsm (backend d) (nodes d) l); Ret d
  | [] => Abort
  end.

Definition start : dsm (word_store server) := init_dsm 2 (WordStore (∅ : server)).

(** Field 0 of object 1: home 0. Both nodes read it, node 0 writes 5, node 1 writes 7,
    then node 1 gets the renewal of the first write. *)
Definition race : outcome (dsm (word_store server)) :=
  '(d, _) ← doget 2 0 (MAKE64 1 0) start;
  '(d, _) ← doget 2 1 (MAKE64 1 0) d;
  '(d, _) ← doput 2 0 (MAKE64 1 0) [5] 1 d;
  '(d, _) ← doput 2 1 (MAKE64 1 0) [7] 1 d;
  deliver_first 2 d.

Definition stale (r : outcome (dsm (word_store server))) : bool :=
  match r with
  | Ret d => match ctrl d, get 2 1 1 0 d, so_get (backend d) 1 0 with
             | [], Ret (_, 5), Ret 7 => true
             | _, _, _ => false
             end
  | _ => false
  end.

Lemma stale_reads r : stale r = true -> exists d, r = Ret d /\ ctrl d = [] /\
  so_get (backend d) 1 0 = Ret 7 /\ exists d', get 2 1 1 0 d = Ret (d', 5).
Proof.
  intros Hs. destruct r as [d| |]; [|discriminate Hs..]. exists d. split; [done|].
  unfold stale in Hs. destruct (ctrl d); [|discriminate Hs]. split; [reflexivity|].
  destruct (get 2 1 1 0 d) as [[d' w]| |]; [|discriminate Hs..].
  destruct (so_get (backend d) 1 0) as [x| |]; [|by repeat (case_match; try discriminate Hs)..].
  assert (x = 7 /\ w = 5) as [-> ->]; [|eauto]. by repeat (case_match; try discriminate Hs).
Qed.

Lemma race_stale : stale race = true.
Proof. vm_compute. reflexivity. Qed.

Lemma race_steps d : race = Ret d -> rtc (dsm_step 2) start d.
Proof.
  unfold race. intros Hr. apply bind_Ret_inv in Hr as ([d1 ws1] & H1 & Hr).
  apply bind_Ret_inv in Hr as ([d2 ws2] & H2 & Hr). apply bind_Ret_inv in Hr as ([d3 st3] & H3 & Hr).
  apply bind_Ret_inv in Hr as ([d4 st4] & H4 & Hr).
  eapply rtc_l; [by eapply step_get|]. eapply rtc_l; [by eapply step_get|].
  eapply rtc_l; [by eapply step_put|]. eapply rtc_l; [by eapply step_put|].
  apply rtc_once. unfold deliver_first in Hr. destruct d4 as [s4 ns4 l4]. cbn [ctrl backend nodes] in Hr.
  destruct l4 as [|[[src dst] p] l]; [done|]. apply bind_Ret_inv in Hr as ([d5 r] & H5 & [= <-]).
  by apply (step_deliver 2 s4 ns4 [] l src dst p d5 r).
Qed.

(** Without that order a copy can stay stale for ever: two nodes that write the
    same field at the same time leave the second writer with the first value in its
    cache, while the back end has the second and no message is under way. *)
Theorem copy_can_stay_stale : exists d : dsm (word_store server),
  rtc (dsm_step 2) (init_dsm 2 (WordStore (∅ : server))) d /\ ctrl d = [] /\
  so_get (backend d) 1 0 = Ret 7 /\ exists d', get 2 1 1 0 d = Ret (d', 5).
Proof.
  pose proof race_stale as Hs. pose proof race_steps as Hsteps.
  generalize dependent race. intros race Hs Hsteps.
  apply stale_reads in Hs as (d & -> & H). exists d. auto.
Qed.

(** * Two threads on one connection

    A cache handles the messages of each cache before it with two threads
    ([caches_connect] of CacheConnectionsFacts.v), so that of two messages the second
    may be handled first. *)
Definition deliver_second_first (d : dsm (word_store server)) : outcome (dsm (word_store server)) :=
  match ctrl d with
  | [(src1, dst1, p1); (src2, dst2, p2)] =>
      '(d, _) ← handle 2 src2 dst2 p2 (Dsm (backend d) (nodes d) []);
      '(d, _) ← handle 2 src1 dst1 p1 d; Ret d
  | _ => Abort
  end.

(** Node 1 reads the field, then node 0 alone writes it, 5 and then 7. *)
Definition two_writes : outcome (dsm (word_store server)) :=
  '(d, _) ← doget 2 1 (MAKE64 1 0) start;
  '(d, _) ← doput 2 0 (MAKE64 1 0) [5] 1 d;
  '(d, _) ← doput 2 0 (MAKE64 1 0) [7] 1 d;
  Ret d.

#[export] Instance DataPack_eq_dec : EqDecision DataPack.
Proof. solve_decision. Defined.

Definition two_renewals (r : outcome (dsm (word_store server))) : bool :=
  match r with
  | Ret d => bool_decide (ctrl d = [(0, 1, Pack (MAKE64 1 0) MsgRenew 1 [5]); (0, 1, Pack (MAKE64 1 0) MsgRenew 1 [7])])
             && stale (deliver_second_first d)
  | _ => false
  end.

Lemma two_writes_renewals : two_renewals two_writes = true.
Proof. vm_compute. reflexivity. Qed.

Lemma two_writes_steps d : two_writes = Ret d -> rtc (dsm_step 2) start d.
Proof.
  unfold two_writes. intros Hr. apply bind_Ret_inv in Hr as ([d1 ws1] & H1 & Hr).
  apply bind_Ret_inv in Hr as ([d2 st2] & H2 & Hr). apply bind_Ret_inv in Hr as ([d3 st3] & H3 & [= <-]).
  eapply rtc_l; [by eapply step_get|]. eapply rtc_l; [by eapply step_put|]. apply rtc_once. by eapply step_put.
Qed.

(** Then even a field that one node alone writes, with no access in between, can stay
    stale for ever in the cache of a reader. *)
Theorem swapped_renewals_stale : exists d d' : dsm (word_store server),
  rtc (dsm_step 2) (init_dsm 2 (WordStore (∅ : server))) d /\
  ctrl d = [(0, 1, Pack (MAKE64 1 0) MsgRenew 1 [5]); (0, 1, Pack (MAKE64 1 0) MsgRenew 1 [7])] /\
  deliver_second_first d = Ret d' /\ ctrl d' = [] /\
  so_get (backend d') 1 0 = Ret 7 /\ exists d'', get 2 1 1 0 d' = Ret (d'', 5).
Proof.
  pose proof two_writes_renewals as Hs. pose proof two_writes_steps as Hsteps.
  generalize dependent two_writes. intros r Hs Hsteps. destruct r as [d| |]; [|discriminate Hs..].
  apply andb_true_iff in Hs as [Hc%bool_decide_eq_true_1 (d' & E & H)%stale_reads]. exists d, d'. auto.
Qed.

(** * Witnesses *)

Lemma start_ok : so_ok (WordStore (∅ : server)).
Proof. exact empty_word_ok. Qed.

Definition block_free (d : dsm (word_store server)) (i : Z) : bool :=
  match ctrl d, nodes d !! i with
  | [], Some n => match block_queue n with [] => false | _ => true end
  | _, _ => false
  end.

Lemma block_free_ordered d i a : valid a -> block_free d i = true -> ordered d i a.
Proof.
  intros Ha Hb. unfold block_free in Hb. destruct (ctrl d) eqn:Hc; [|discriminate Hb].
  destruct (nodes d !! i) as [n|] eqn:Hn; [|discriminate Hb].
  split; [done|]. split; [by rewrite Hc|]. exists n. split; [done|]. right. left.
  by destruct (block_queue n).
Qed.

Lemma start_node i : 0 <= i < 2 -> nodes start !! i = Some init_node.
Proof. intros Hi. unfold start. rewrite init_lookup. by rewrite decide_True. Qed.

Lemma start_room : room init_node.
Proof. left. discriminate. Qed.

Lemma start_ordered i o f : 0 <= i < 2 -> is_u32 o -> 0 <= f < MAX_FIELD -> ordered start i (MAKE64 o f).
Proof.
  intros Hi Ho Hf. destruct (MAKE64_valid o f Ho Hf) as (Hv & _). split; [done|]. split; [done|].
  exists init_node. split; [by apply start_node|right; apply start_room].
Qed.

(** Node 1 writes, node 0 reads. *)
Lemma calm_put : exists d, put 2 1 1 0 7 start = Ret (d, SoOK) /\ block_free d 0 = true.
Proof.
  assert ((match put 2 1 1 0 7 start with Ret (d, SoOK) => block_free d 0 | _ => false end) = true) as Hp
    by (vm_compute; reflexivity).
  generalize dependent (put 2 1 1 0 7 start). intros r Hp. destruct r as [[d st]| |]; [|discriminate Hp..].
  exists d. by destruct st; [|discriminate Hp..].
Qed.




Lemma cache_putchunk_witness : exists d', putchunk 2 1 7 30 4 [1; 2; 3; 4] start = Ret d' /\
  so_mem (backend d') 7 29 = so_mem (WordStore (∅ : server)) 7 29 /\ so_mem (backend d') 7 31 = 2.
Proof.
  destruct (cache_putchunk 2 (WordStore (∅ : server)) [] start 1 init_node 7 30 4 [1; 2; 3; 4])
    as (d' & Hrun & Hm);
    [lia|exact start_ok|constructor|by apply start_node|apply start_room|done|done|done| |lia|done|u32s|].
  - split; [ranges|]. unfold MAX_FIELD. lia.
  - exists d'. split; [exact Hrun|].
    pose proof (Hm 7 29 ltac:(ranges) ltac:(unfold MAX_FIELD; lia)) as H29.
    pose proof (Hm 7 31 ltac:(ranges) ltac:(unfold MAX_FIELD; lia)) as H31.
    assert ((7 =? 7) && (30 <=? 29) && (29 <? 30 + 4) = false) as E by reflexivity. rewrite E in H29. clear E.
    assert ((7 =? 7) && (30 <=? 31) && (31 <? 30 + 4) = true) as E by reflexivity. rewrite E in H31. clear E.
    split; [exact H29|]. destruct H31 as [Hw _].
    assert (Some 2 = Some (so_mem (backend d') 7 31)) as Hs; [|by injection Hs].
    apply Hw. by vm_compute.
Defined.

Lemma local_write_miss_drops_witness : exists d',
  doput 2 0 (MAKE64 1 0) [5; 6; 7] 3 start = Ret (d', SoOK) /\
  amem (backend d') (MAKE64 1 0) = 5 /\
  amem (backend d') (MAKE64 1 0 + 1) = amem (WordStore (∅ : server)) (MAKE64 1 0 + 1).
Proof.
  destruct (local_write_miss_drops 2 (WordStore (∅ : server)) [] start 0 init_node (MAKE64 1 0) 3 [5; 6; 7])
    as (d' & Hrun & Hm);
    [lia|exact start_ok|constructor|by apply start_node| |done|by vm_compute|by vm_compute|by vm_compute|u32s|].
  - apply start_ordered; [lia|ranges|unfold MAX_FIELD; lia].
  - exists d'. split; [exact Hrun|].
    destruct (MAKE64_valid 1 0) as (Hv0 & _); [ranges|unfold MAX_FIELD; lia|].
    assert (valid (MAKE64 1 0 + 1)) as Hv1.
    { destruct (MAKE64_valid 1 1) as (Hv1 & _); [ranges|unfold MAX_FIELD; lia|exact Hv1]. }
    pose proof (Hm _ Hv0) as H0. pose proof (Hm _ Hv1) as H1. rewrite Z.eqb_refl in H0.
    assert (MAKE64 1 0 + 1 =? MAKE64 1 0 = false) as E by reflexivity. rewrite E in H1.
    split; [exact H0|exact H1].
Defined.

Definition has_copy (d : dsm (word_store server)) (i k : Z) : bool :=
  match nodes d !! i with
  | Some n => match view n k with Some _ => true | None => false end
  | None => false
  end.


(** Reads of node 1 that use up its free blocks. *)
Fixpoint reads (fs : list Z) (d : dsm (word_store server)) : outcome (dsm (word_store server)) :=
  match fs with
  | [] => Ret d
  | f :: fs => if block_free d 1 then '(d, _) ← get 2 1 7 f d; reads fs d else Abort
  end.

Lemma reads_run fs d d' : Forall (fun f => 0 <= f < MAX_FIELD) fs -> reads fs d = Ret d' ->
  exists evs, ordered_run 2 d evs d'.
Proof.
  intros Hf. revert d. induction Hf as [|f fs Hf _ IH]; intros d; cbn [reads].
  { intros [= ->]. exists []. constructor. }
  destruct (block_free d 1) eqn:Hb; [|done]. intros ([d1 w] & Hg & Hr)%bind_Ret_inv.
  destruct (IH d1 Hr) as [evs Hrun]. exists (Read 1 7 f w :: evs).
  eapply run_get; [ranges|done| |exact Hg|exact Hrun].
  apply block_free_ordered; [|done]. apply MAKE64_valid; [ranges|done].
Qed.

Definition full (d : dsm (word_store server)) : bool :=
  match nodes d !! 1 with
  | Some n => match block_queue n, cache n !! MAKE64 8 0, (block_cache n).[0] with
              | [], None, Some blk => negb (bkey blk =? DSM_CACHE_BAD_KEY) && (lru blk <? 0xffffffff)
              | _, _, _ => false
              end
  | None => false
  end.

Lemma read_fields : Forall (fun f => 0 <= f < MAX_FIELD) ((fun j => 32 * j) <$> seqZ 0 1024).
Proof.
  apply Forall_fmap, Forall_forall. intros j Hj%elem_of_seqZ. unfold compose, MAX_FIELD. lia.
Qed.

Lemma getblock_evicts_oldest_witness : exists (d : dsm (word_store server)) n d' b n', nodes d !! 1 = Some n /\
  getblock 2 1 (MAKE64 8 0) d = Ret (d', b, false) /\ nodes d' !! 1 = Some n' /\ evicts n n' (MAKE64 8 0) b.
Proof.
  assert (match reads ((fun j => 32 * j) <$> seqZ 0 1024) start with Ret d => full d | _ => false end = true) as Hg
    by (vm_compute; reflexivity).
  destruct (reads ((fun j => 32 * j) <$> seqZ 0 1024) start) as [d| |] eqn:Hrun; [|discriminate Hg..].
  apply reads_run in Hrun as [evs Hrun].
  2: exact read_fields.
  unfold full in Hg. destruct (nodes d !! 1) as [n|] eqn:Hn; [|discriminate Hg].
  destruct (block_queue n) eqn:Hq; [|discriminate Hg].
  destruct (cache n !! MAKE64 8 0) eqn:Hno; [discriminate Hg|].
  destruct ((block_cache n).[0]) as [blk|] eqn:Hb; [|discriminate Hg].
  apply andb_true_iff in Hg as [Hk%negb_true_iff%Z.eqb_neq Hl%Z.ltb_lt].
  destruct (getblock_evicts_oldest 2 (WordStore (∅ : server)) evs d 1 n (MAKE64 8 0)) as (d' & b & n' & H1 & H2 & H3);
    [lia|exact start_ok|exact Hrun|exact Hn|by vm_compute|exact Hno|exact Hq|by right; exists 0, blk|].
  by exists d, n, d', b, n'.
Defined.
