(* ===== verification/Startup.v ===== *)
(** Starting and restarting the cluster: [HelperInitCluster] and
    [RestartCurrentProcess] of [Dogee/DogeeShared.cpp], [RcMaster] and [RestartCluster]
    of [Dogee/DogeeRemote.cpp]. Strings are their bytes. *)
From stdpp Require Import sorting.
From S2P Require Import Prelude Handshake.

(** * Text *)

(** A string literal. *)
Definition text (s : string) : list Z := (fun a => Z.of_N (Ascii.N_of_ascii a)) <$> String.list_ascii_of_string s.

Definition is_space (c : Z) : bool := (c =? 32) || ((9 <=? c) && (c <=? 13)).
Definition is_digit (c : Z) : bool := (48 <=? c) && (c <=? 57).

Fixpoint skip_spaces (l : list Z) : list Z :=
  match l with
  | c :: l' => if is_space c then skip_spaces l' else l
  | [] => []
  end.

(** The characters up to the next space. *)
Fixpoint take_word (l : list Z) : list Z * list Z :=
  match l with
  | c :: l' => if is_space c then ([], l) else let '(w, r) := take_word l' in (c :: w, r)
  | [] => ([], [])
  end.

(** The value of the digits that come next, what is left, and how many they are. *)
Fixpoint take_digits (acc : Z) (l : list Z) : Z * list Z * nat :=
  match l with
  | c :: l' =>
      if is_digit c then
        let '(v, r, n) := take_digits (10 * acc + (c - 48)) l' in (v, r, S n)
      else (acc, l, O)
  | [] => (acc, [], O)
  end.
Definition take_sign (l : list Z) : bool * list Z :=
  match l with
  | c :: l' => if c =? 45 then (true, l') else if c =? 43 then (false, l') else (false, l)
  | [] => (false, [])
  end.
Definition INT_MIN : Z := - 2 ^ 31.
Definition INT_MAX : Z := 2 ^ 31 - 1.

(** [atoi]; a number that is no [int] has no defined result. *)
Definition atoi (l : list Z) : outcome Z :=
  let '(neg, l) := take_sign (skip_spaces l) in
  let '(v, _, _) := take_digits 0 l in
  let v := if neg : bool then - v else v in
  if (INT_MIN <=? v) && (v <=? INT_MAX) then Ret v else Abort.

(** [ss << n] for an [int]. *)
Fixpoint print_digits (fuel : nat) (n : Z) (acc : list Z) : list Z :=
  match fuel with
  | O => acc
  | S fuel =>
      let acc := (48 + n mod 10) :: acc in
      if n <? 10 then acc else print_digits fuel (n / 10) acc
  end.
Definition print_int (n : Z) : list Z :=
  if n <? 0 then 45 :: print_digits 10 (- n) [] else print_digits 10 n [].

(** * Input streams *)

(** The characters to come; [eof] is [eofbit], [fail] is [failbit] (or [badbit], for a
    file that is not there). *)
Record istream := Istream { chars_left : list Z; eof : bool; fail : bool }.
Definition open_file (content : option (list Z)) : istream :=
  match content with
  | Some l => Istream l false false
  | None => Istream [] false true
  end.

(** What every [>>] does first: give up on a stream that is not good, skip spaces. *)
Definition sentry (f : istream) : istream * bool :=
  if eof f || fail f then (Istream (chars_left f) (eof f) true, false)
  else
    match skip_spaces (chars_left f) with
    | [] => (Istream [] true true, false)
    | l => (Istream l false false, true)
    end.

(** [file >> str]. *)
Definition read_string (f : istream) (str : list Z) : istream * list Z :=
  let '(f, ok) := sentry f in
  if ok : bool then
    let '(w, r) := take_word (chars_left f) in
    (Istream r (bool_decide (r = [])) false, w)
  else (f, str).

(** [file >> n] for an [int]: without digits it becomes 0, out of range the nearest
    value, and the stream fails. [None] is an uninitialised variable. *)
Definition read_int (f : istream) (n : option Z) : istream * option Z :=
  let '(f, ok) := sentry f in
  if ok : bool then
    let '(neg, l) := take_sign (chars_left f) in
    let '(v, r, k) := take_digits 0 l in
    let v := if neg : bool then - v else v in
    let bad := (k =? 0)%nat || (v <? INT_MIN) || (INT_MAX <? v) in
    (Istream r (bool_decide (r = [])) bad, Some (Z.max INT_MIN (Z.min INT_MAX v)))
  else (f, n).
Definition init_int (n : option Z) : outcome Z :=
  match n with Some n => Ret n | None => Abort end.

(** [std::getline] with a delimiter until it fails. *)
Fixpoint split_from (cur s : list Z) (delim : Z) : list (list Z) :=
  match s with
  | [] => match cur with [] => [] | _ => [cur] end
  | c :: s => if c =? delim then cur :: split_from [] s delim else split_from (cur ++ [c]) s delim
  end.
Definition str_split (s : list Z) (delim : Z) : list (list Z) := split_from [] s delim.
Definition str_split_set (s : list Z) (delim : Z) (outset : gset (list Z)) : gset (list Z) :=
  list_to_set (str_split s delim) ∪ outset.

Definition str_starts_with (str substr : list Z) : bool :=
  bool_decide (take (length substr) str = substr).

Fixpoint index_from (i : Z) (arr : list (list Z)) (f : list Z) : Z :=
  match arr with
  | [] => -1
  | x :: arr => if bool_decide (f = x) then i else index_from (i + 1) arr f
  end.
Definition FindIndex (arr : list (list Z)) (f : list Z) : Z := index_from 0 arr f.

(** * Start-up parameters *)

Notation params := (gmap (list Z) (list Z)).

(** [param[argv[i]] = argv[i + 1]] for the odd [i]. *)
Fixpoint read_pairs (args : list (list Z)) (param : params) : params :=
  match args with
  | k :: v :: args => read_pairs args (<[k := v]> param)
  | _ => param
  end.
Definition read_params (argv : list (list Z)) (param : params) : params := read_pairs (tail argv) param.

(** [HelperGetParam], which inserts what it does not find, and [HelperGetParamInt]. *)
Definition HelperGetParam (param : params) (str : list Z) : params * list Z :=
  match param !! str with
  | Some v => (param, v)
  | None => (<[str := []]> param, [])
  end.
Definition HelperGetParamInt (param : params) (str : list Z) : outcome (params * Z) :=
  let '(param, v) := HelperGetParam param str in
  n ← atoi v; Ret (param, n).

(** [HelperGetParamDouble]; the type [double] and the conversion [atof] are parameters. *)
Definition HelperGetParamDouble {double} (atof : list Z -> double) (param : params) (str : list Z) : params * double :=
  let '(param, v) := HelperGetParam param str in (param, atof v).

(** The set [excludes]. *)
Definition parse_excludes (s : list Z) : outcome (gset (list Z * Z)) :=
  for_each (str_split s 59) (fun str ex =>
    let ip_port := str_split str 58 in
    ip ← rd ip_port 0;
    p ← rd ip_port 1;
    port ← atoi p;
    Ret ({[(ip, port)]} ∪ ex)) ∅.

(** * [HelperInitCluster] *)

(** What the call ends in: [exit(3)] with a message, a slave on a port, or a master with
    the arguments of [RcMaster], after it waited for the process that it replaces. *)
Record master_config := MasterConfig {
  mc_wait : option Z;
  mc_hosts : list (list Z);
  mc_ports : list Z;
  mc_memhosts : list (list Z);
  mc_memports : list Z;
  mc_back : Z;
  mc_cache : Z;
}.
Inductive startup :=
| StartExit (msg : list Z)
| StartSlave (port : Z)
| StartMaster (cfg : master_config).

(** [num] entries of a list of hosts and ports, without those in [excludes]. *)
Definition read_hosts (excludes : gset (list Z * Z)) (num : Z) (f : istream) (str : list Z) (port : option Z)
    (hosts : list (list Z)) (ports : list Z) : outcome (istream * list Z * option Z * list (list Z) * list Z) :=
  for_range 0 num (fun _ '(f, str, port, hosts, ports) =>
    let '(f, str) := read_string f str in
    let '(f, port) := read_int f port in
    p ← init_int port;
    if decide ((str, p) ∈ excludes) then Ret (f, str, port, hosts, ports)
    else Ret (f, str, port, hosts ++ [str], ports ++ [p])) (f, str, port, hosts, ports).

(** The configuration file. *)
Definition read_config (excludes : gset (list Z * Z)) (wait : option Z) (f : istream) : outcome startup :=
  let '(f, str) := read_string f [] in
  if negb (str_starts_with str (text "DogeeConfigVer=")) then Ret (StartExit (text "No DogeeConfigVer" ++ [10])) else
  let '(f, ver) := read_int f None in
  ver ← init_int ver;
  if negb (ver =? 1) then Ret (StartExit (text "Bad config version" ++ [10])) else
  let '(f, str) := read_string f str in
  if negb (str_starts_with str (text "MasterPort=")) then Ret (StartExit (text "No MasterPort" ++ [10])) else
  let '(f, mport) := read_int f None in
  let '(f, str) := read_string f str in
  if negb (str_starts_with str (text "NumSlaves=")) then Ret (StartExit (text "No NumSlaves" ++ [10])) else
  let '(f, num_slaves) := read_int f None in
  let '(f, str) := read_string f str in
  if negb (str_starts_with str (text "NumMemServers=")) then Ret (StartExit (text "No NumMemServers" ++ [10])) else
  let '(f, num_mem) := read_int f None in
  let '(f, str) := read_string f str in
  if negb (str_starts_with str (text "DSMBackend=")) then Ret (StartExit (text "No DSMBackend" ++ [10])) else
  let '(f, str) := read_string f str in
  let back := FindIndex [text "BackendTest"; text "ChunkMemcached"; text "Memcached"] str in
  if negb (0 <=? back) then Ret (StartExit (text "Bad DSMBackend Name:" ++ str ++ [10])) else
  let '(f, str) := read_string f str in
  if negb (str_starts_with str (text "DSMCache=")) then Ret (StartExit (text "No DSMCache" ++ [10])) else
  let '(f, str) := read_string f str in
  let cache := FindIndex [text "NoCache"; text "WriteThroughCache"] str in
  if negb (0 <=? cache) then Ret (StartExit (text "Bad DSMCache Name:" ++ str ++ [10])) else
  let '(f, str) := read_string f str in
  if negb (str_starts_with str (text "Slaves=")) then Ret (StartExit (text "No Slaves" ++ [10])) else
  mport ← init_int mport;
  num_slaves ← init_int num_slaves;
  '(f, str, port, slaves, ports) ← read_hosts excludes num_slaves f str None [[]] [mport];
  let '(f, str) := read_string f str in
  if negb (str_starts_with str (text "MemServers=")) then Ret (StartExit (text "No MemServers" ++ [10])) else
  num_mem ← init_int num_mem;
  '(f, str, port, mem, mem_ports) ← read_hosts excludes num_mem f str port [] [];
  Ret (StartMaster (MasterConfig wait slaves ports mem mem_ports back cache)).

(** A master, or what was a master and restarted itself. *)
Definition init_master (argv : list (list Z)) (param : params) (content : option (list Z)) : outcome startup :=
  let param := read_params argv param in
  excludes ← match param !! text "----exclude" with
             | Some s => parse_excludes s
             | None => Ret ∅
             end;
  wait ← match param !! text "----restart" with
         | Some s => pid ← atoi s; Ret (Some pid)
         | None => Ret None
         end;
  read_config excludes wait (open_file content).
Definition HelperInitCluster (argv : list (list Z)) (param : params) (content : option (list Z)) : outcome startup :=
  match argv with
  | _ :: s :: p :: _ =>
      if bool_decide (s = text "-s") then port ← atoi p; Ret (StartSlave port)
      else init_master argv param content
  | _ => init_master argv param content
  end.

(** * [RcMaster] *)

Section master.
(** The connection to a slave, as what the slave sends and how it arrives, or none. *)
Context (connect : Z -> list Z -> Z -> option (list (list Z))).

(** The loop over the slaves: 1 when one is not reached or does not greet; the bytes sent
    to each. *)
Fixpoint greet_slaves (n : nat) (i : Z) (hosts : list (list Z)) (ports : list Z) (memhosts : list (list Z))
    (memports : list Z) (backty cachety checkpoint : Z) (sent : list (list Z)) : outcome (Z * list (list Z)) :=
  match n with
  | O => Ret (0, sent)
  | S n =>
      host ← rd hosts i;
      port ← rd ports i;
      match connect i host port with
      | None => Ret (1, sent)
      | Some stream =>
          '(r, hosts, memhosts, bytes) ← RcMasterHello stream hosts ports memhosts memports (u32 i) backty cachety checkpoint;
          if r =? 0 then greet_slaves n (i + 1) hosts ports memhosts memports backty cachety checkpoint (sent ++ [bytes])
          else Ret (1, sent)
      end
  end.

(** [checkpoint] is what [MasterCheckCheckPoint] found, [ready] what [AcWaitForReady]
    answers. *)
Definition RcMaster (checkpoint : Z) (ready : bool) (hosts : list (list Z)) (ports : list Z)
    (memhosts : list (list Z)) (memports : list Z) (backty cachety : Z) : outcome (Z * list (list Z)) :=
  '(r, sent) ← greet_slaves (Z.to_nat (zlen hosts - 1)) 1 hosts ports memhosts memports backty cachety checkpoint [];
  if negb (r =? 0) then Ret (1, sent)
  else if ready then Ret (0, sent)
  else Ret (1, sent).
End master.

(** * Restarting *)

(** [----exclude ip:port;ip:port]. *)
Fixpoint print_excludes (l : list (list Z * Z)) : list Z :=
  match l with
  | [] => []
  | [(ip, port)] => ip ++ 58 :: print_int port
  | (ip, port) :: l => ip ++ 58 :: print_int port ++ 59 :: print_excludes l
  end.

(** The command line of the new process under Windows, where [cmd] is the one of the old
    process and [handle] one of it. *)
Definition restart_command_line (cmd : list Z) (handle : Z) (excludes : list (list Z * Z)) : list Z :=
  cmd ++ text " ----restart " ++ print_int handle ++
  (if bool_decide (excludes = []) then [] else text " ----exclude " ++ print_excludes excludes).

(** The strings that [RestartCurrentProcess] elsewhere stores into [newargv], the last one [NULL]. *)
Definition newargv_strings (myargv : list (list Z)) (pid : Z) (excludes : list (list Z * Z)) : list (option (list Z)) :=
  (Some <$> myargv) ++ [Some (text "----restart"); Some (print_int pid)] ++
  (if bool_decide (excludes = []) then [None] else [Some (text "----exclude " ++ print_excludes excludes); None]).

(** [new char*[myargc + excludes_ip.size() > 0 ? 4 : 3]]: the sum is compared. *)
Definition newargv_room (myargc n : Z) : Z := if 0 <? myargc + n then 4 else 3.

(** The array given to [execv]. *)
Definition RestartCurrentProcess (myargv : list (list Z)) (pid : Z) (excludes : list (list Z * Z)) :
    outcome (list (option (list Z))) :=
  let strings := newargv_strings myargv pid excludes in
  '(_, newargv) ← for_each strings (fun str '(i, newargv) =>
    newargv ← wr newargv i str; Ret (i + 1, newargv))
    (0, replicate (Z.to_nat (newargv_room (zlen myargv) (zlen excludes))) None);
  Ret (take (length strings) newargv).

(** The arguments the new process sees. *)
Fixpoint exec_args (newargv : list (option (list Z))) : list (list Z) :=
  match newargv with
  | Some a :: newargv => a :: exec_args newargv
  | _ => []
  end.

(** [RestartCluster]: nothing when a restart is under way; else the slaves that cannot be
    reached ([RcSend] fails) join the excluded ones. *)
Definition RestartCluster (restart_lock : bool) (reached : Z -> bool) (num_nodes : Z) (hosts : list (list Z)) (ports : list Z)
    (excludes : list (list Z * Z)) : outcome (option (list (list Z * Z))) :=
  if restart_lock then Ret None
  else
    ex ← for_range 1 num_nodes (fun i ex =>
      if reached i then Ret ex
      else h ← rd hosts i; p ← rd ports i; Ret (ex ++ [(h, p)])) excludes;
    Ret (Some ex).
