(* ===== verification/StartupFacts.v ===== *)
(** What [HelperInitCluster] makes of a configuration file, and what becomes of a
    restart. *)
From S2P Require Import Prelude Handshake Startup.

(** * Numbers *)

(** The digits [ds] denote [n]. *)
Definition digits_of (ds : list Z) (n : Z) : Prop :=
  ds <> [] /\ Forall (λ c, is_digit c = true) ds /\
  forall a r, take_digits a (ds ++ r) =
    let '(v, r', k) := take_digits (a * 10 ^ zlen ds + n) r in (v, r', (length ds + k)%nat).

Lemma print_digits_of fuel : forall n acc, 0 <= n < 10 ^ Z.of_nat fuel -> (0 < fuel)%nat ->
  exists ds, print_digits fuel n acc = ds ++ acc /\ digits_of ds n.
Proof.
  induction fuel as [|fuel IH]; intros n acc Hn Hf; [lia|]. cbn [print_digits].
  assert (is_digit (48 + n mod 10) = true) as Hd by (unfold is_digit; pose proof (Z.mod_pos_bound n 10); lia).
  destruct (Z.ltb_spec n 10) as [Hs|Hs].
  - exists [48 + n mod 10]. split; [done|]. split; [done|]. split; [by constructor|]. intros a r. cbn [app take_digits]. rewrite Hd.
    rewrite Z.mod_small by lia. change (zlen [48 + n]) with 1. replace (10 * a + (48 + n - 48)) with (a * 10 ^ 1 + n) by lia.
    by destruct (take_digits _ r) as [[v r'] k].
  - rewrite Nat2Z.inj_succ, Z.pow_succ_r in Hn by lia.
    destruct (IH (n / 10) ((48 + n mod 10) :: acc)) as (ds & -> & Hne & Hds & Htake).
    { pose proof (Z.div_pos n 10). split; [lia|]. apply Z.div_lt_upper_bound; lia. }
    { destruct fuel; [|lia]. change (10 ^ Z.of_nat 0) with 1 in Hn. lia. }
    exists (ds ++ [48 + n mod 10]). rewrite <- app_assoc. split; [done|]. split; [by destruct ds|].
    split; [apply Forall_app; by repeat constructor|]. intros a r. rewrite <- app_assoc, Htake. cbn [app take_digits]. rewrite Hd.
    rewrite zlen_app. change (zlen [48 + n mod 10]) with 1. rewrite Z.pow_add_r by (pose proof (zlen_nonneg ds); lia).
    replace (10 * (a * 10 ^ zlen ds + n / 10) + (48 + n mod 10 - 48)) with (a * (10 ^ zlen ds * 10 ^ 1) + n)
      by (pose proof (Z.div_mod n 10); lia).
    destruct (take_digits _ r) as [[v r'] k]. f_equal. rewrite length_app. cbn [length]. lia.
Qed.

(** What comes after a number or a word ends it. *)
Definition stops (P : Z -> bool) (r : list Z) : Prop := match r with c :: _ => P c = true | [] => True end.

Lemma take_digits_stop a r : stops (λ c, negb (is_digit c)) r -> take_digits a r = (a, r, O).
Proof. destruct r as [|c r]; [done|]. cbn. by destruct (is_digit c). Qed.

(** Reading back what [<<] wrote. *)
Lemma read_printed n r : INT_MIN <= n <= INT_MAX -> stops (λ c, negb (is_digit c)) r ->
  exists neg ds v k, take_sign (print_int n ++ r) = (neg, ds ++ r) /\ take_digits 0 (ds ++ r) = (v, r, S k) /\
    (if neg : bool then - v else v) = n /\ skip_spaces (print_int n ++ r) = print_int n ++ r /\ print_int n <> [].
Proof.
  intros Hn Hr. unfold INT_MIN, INT_MAX in Hn. unfold print_int.
  destruct (Z.ltb_spec n 0) as [Hneg|Hpos].
  - destruct (print_digits_of 10 (- n) []) as (ds & -> & Hne & Hds & Ht); [lia|lia|]. rewrite app_nil_r.
    exists true, ds, (- n). cbn. rewrite Ht, take_digits_stop by done. destruct ds as [|d ds]; [done|].
    exists (length ds + 0)%nat. rewrite Z.mul_0_l. repeat split; try done. lia.
  - destruct (print_digits_of 10 n []) as (ds & -> & Hne & Hds & Ht); [lia|lia|]. rewrite app_nil_r.
    exists false, ds, n. rewrite Ht, take_digits_stop by done. destruct ds as [|d ds]; [done|].
    exists (length ds + 0)%nat. rewrite Z.mul_0_l. apply Forall_cons in Hds as [Hd _]. unfold is_digit in Hd. cbn.
    unfold is_space. rewrite (proj2 (Z.eqb_neq d 45)), (proj2 (Z.eqb_neq d 43)), (proj2 (Z.eqb_neq d 32)) by lia.
    rewrite (proj2 (Z.leb_gt d 13)), andb_false_r by lia. done.
Qed.

Lemma atoi_print n : INT_MIN <= n <= INT_MAX -> atoi (print_int n) = Ret n.
Proof.
  intros Hn. destruct (read_printed n [] Hn I) as (neg & ds & v & k & H1 & H2 & H3 & H4 & _).
  rewrite !app_nil_r in *. unfold atoi. rewrite H4, H1, H2, H3.
  by rewrite (proj2 (andb_true_iff _ _)) by (split; lia).
Qed.

Lemma print_int_Forall (P : Z -> Prop) n : INT_MIN <= n <= INT_MAX -> P 45 -> (forall c, 48 <= c <= 57 -> P c) ->
  Forall P (print_int n).
Proof.
  intros Hn H45 Hd. unfold print_int, INT_MIN, INT_MAX in *.
  assert (forall ds, Forall (λ c, is_digit c = true) ds -> Forall P ds) as Hall.
  { intros ds Hds. eapply Forall_impl; [exact Hds|]. intros c Hc. apply Hd. unfold is_digit in Hc. lia. }
  destruct (Z.ltb_spec n 0).
  - destruct (print_digits_of 10 (- n) []) as (ds & -> & _ & Hds & _); [lia|lia|]. rewrite app_nil_r.
    constructor; [done|by apply Hall].
  - destruct (print_digits_of 10 n []) as (ds & -> & _ & Hds & _); [lia|lia|]. rewrite app_nil_r. by apply Hall.
Qed.

(** * The excluded nodes *)

Lemma split_from_piece cur s rest delim : delim ∉ s ->
  split_from cur (s ++ delim :: rest) delim = (cur ++ s) :: split_from [] rest delim.
Proof.
  revert cur. induction s as [|c s IH]; intros cur Hs; cbn.
  - by rewrite Z.eqb_refl, app_nil_r.
  - apply not_elem_of_cons in Hs as [Hc Hs]. rewrite (proj2 (Z.eqb_neq c delim)) by done.
    by rewrite IH, <- app_assoc.
Qed.

Lemma split_from_last cur s delim : delim ∉ s -> cur ++ s <> [] -> split_from cur s delim = [cur ++ s].
Proof.
  revert cur. induction s as [|c s IH]; intros cur Hs Hne; cbn.
  - rewrite app_nil_r in *. by destruct cur.
  - apply not_elem_of_cons in Hs as [Hc Hs]. rewrite (proj2 (Z.eqb_neq c delim)) by done.
    rewrite IH by (done || by destruct cur). by rewrite <- app_assoc.
Qed.

(** An address and port that the format can carry. *)
Definition excludable (x : list Z * Z) : Prop := 58 ∉ fst x /\ 59 ∉ fst x /\ INT_MIN <= snd x <= INT_MAX.
Definition print_exclude (x : list Z * Z) : list Z := fst x ++ 58 :: print_int (snd x).

(** A number is printed without bytes above the digits. *)
Lemma print_int_char n c : INT_MIN <= n <= INT_MAX -> 58 <= c -> c ∉ print_int n.
Proof.
  intros Hn Hc Hin. assert (Forall (λ d, d <> c) (print_int n)) as HF by (apply print_int_Forall; [done|lia|lia]).
  rewrite Forall_forall in HF. by apply (HF c).
Qed.

Lemma print_exclude_split x : excludable x -> str_split (print_exclude x) 58 = [fst x; print_int (snd x)] /\ 59 ∉ print_exclude x.
Proof.
  intros (H58 & H59 & Hn). unfold print_exclude, str_split. split.
  - rewrite split_from_piece by done. cbn [app].
    destruct (read_printed (snd x) [] Hn I) as (_ & _ & _ & _ & _ & _ & _ & _ & Hne).
    rewrite split_from_last; [done|by apply print_int_char; [|lia]|done].
  - rewrite not_elem_of_app, not_elem_of_cons. repeat split; [done|done|by apply print_int_char; [|lia]].
Qed.

Lemma print_excludes_split l : Forall excludable l -> str_split (print_excludes l) 59 = print_exclude <$> l.
Proof.
  induction 1 as [|[ip port] l Hx Hl IH]; [done|]. destruct (print_exclude_split _ Hx) as [_ H59].
  destruct l as [|y l].
  - unfold str_split. cbn [print_excludes]. rewrite split_from_last; [done|exact H59|by destruct ip].
  - change (print_excludes ((ip, port) :: y :: l)) with (ip ++ 58 :: print_int port ++ 59 :: print_excludes (y :: l)).
    replace (ip ++ 58 :: print_int port ++ 59 :: print_excludes (y :: l))
      with (print_exclude (ip, port) ++ 59 :: print_excludes (y :: l)) by (unfold print_exclude; cbn; by rewrite <- app_assoc).
    unfold str_split in *. rewrite split_from_piece by done. by rewrite IH.
Qed.

(** [HelperInitCluster] reads the list that [RestartCurrentProcess] prints. *)
Lemma parse_print_excludes l : Forall excludable l -> parse_excludes (print_excludes l) = Ret (list_to_set l).
Proof.
  intros Hl. unfold parse_excludes. rewrite print_excludes_split by done.
  assert (forall ex : gset (list Z * Z), for_each (print_exclude <$> l) (fun str ex =>
    let ip_port := str_split str 58 in
    ip ← rd ip_port 0; p ← rd ip_port 1; port ← atoi p; Ret ({[(ip, port)]} ∪ ex)) ex = Ret (list_to_set l ∪ ex)) as H.
  { induction Hl as [|[ip port] l Hx Hl IH]; intros ex; cbn [fmap list_fmap for_each].
    - f_equal. set_solver.
    - destruct (print_exclude_split _ Hx) as [E _]. cbv zeta. rewrite E. cbn [fst snd].
      change (rd [ip; print_int port] 0) with (Ret ip). change (rd [ip; print_int port] 1) with (Ret (print_int port)).
      rewrite !bind_ret, atoi_print, !bind_ret by apply Hx. rewrite IH. f_equal. cbn. set_solver. }
  rewrite H. f_equal. set_solver.
Qed.

(** * The configuration file *)

(** The words of a text. *)
Fixpoint words_from (cur l : list Z) : list (list Z) :=
  match l with
  | [] => match cur with [] => [] | _ => [cur] end
  | c :: l =>
      if is_space c then match cur with [] => words_from [] l | _ => cur :: words_from [] l end
      else words_from (cur ++ [c]) l
  end.
Definition words (l : list Z) : list (list Z) := words_from [] l.

(** A stream that is good while words are left. *)
Definition reads (f : istream) (ws : list (list Z)) : Prop :=
  fail f = false /\ (eof f = false \/ ws = []) /\ words (chars_left f) = ws.

Lemma words_skip l : words l = words (skip_spaces l).
Proof. unfold words. induction l as [|c l IH]; [done|]. cbn. destruct (is_space c) eqn:E; [done|]. cbn. by rewrite E. Qed.

Lemma skip_spaces_head l : match skip_spaces l with c :: _ => is_space c = false | [] => True end.
Proof. induction l as [|c l IH]; [done|]. cbn. by destruct (is_space c) eqn:E. Qed.

Lemma words_take cur l : let '(w, r) := take_word l in
  l = w ++ r /\ stops is_space r /\ (cur ++ w <> [] -> words_from cur l = (cur ++ w) :: words r).
Proof.
  revert cur. induction l as [|c l IH]; intros cur; cbn.
  - rewrite app_nil_r. split; [done|]. split; [done|]. by destruct cur.
  - destruct (is_space c) eqn:E.
    + rewrite app_nil_r. split; [done|]. split; [done|]. unfold words. cbn. rewrite E. by destruct cur.
    + specialize (IH (cur ++ [c])). destruct (take_word l) as [w r]. destruct IH as (-> & Hr & Hw).
      rewrite <- app_assoc in Hw. split; [done|]. split; [done|]. intros _. apply Hw. by destruct cur.
Qed.

(** The next word of a stream. *)
Lemma reads_next f w ws : reads f (w :: ws) -> exists r,
  sentry f = (Istream (w ++ r) false false, true) /\ take_word (w ++ r) = (w, r) /\ stops is_space r /\
  words r = ws.
Proof.
  intros (Hf & [He|] & Hw); [|done]. unfold sentry. rewrite Hf, He. cbn [orb]. rewrite words_skip in Hw.
  pose proof (skip_spaces_head (chars_left f)) as Hh. destruct (skip_spaces (chars_left f)) as [|c l]; [done|].
  pose proof (words_take [] (c :: l)) as Ht. destruct (take_word (c :: l)) as [w' r] eqn:E. destruct Ht as (El & Hr & Hws).
  assert (w' <> []) as Hne by (cbn in E; rewrite Hh in E; destruct (take_word l); injection E as <- _; done).
  unfold words in Hw. rewrite Hws in Hw by done. injection Hw as <- <-. exists r. cbn [app]. by rewrite <- El.
Qed.

Lemma read_string_next f str w ws : reads f (w :: ws) -> exists f', read_string f str = (f', w) /\ reads f' ws.
Proof.
  intros (r & E & Hw & Hr & Hws)%reads_next. unfold read_string. rewrite E. cbn [chars_left]. rewrite Hw.
  eexists. split; [done|]. split; [done|]. split; [|done]. cbn [eof]. destruct r as [|c r]; [right; by subst|by left].
Qed.

Lemma space_no_digit c : is_space c = true -> negb (is_digit c) = true.
Proof. unfold is_space, is_digit. intros. apply negb_true_iff. lia. Qed.

Lemma read_int_next f x n ws : INT_MIN <= n <= INT_MAX -> reads f (print_int n :: ws) ->
  exists f', read_int f x = (f', Some n) /\ reads f' ws.
Proof.
  intros Hn (r & E & Hw & Hr & Hws)%reads_next. unfold read_int. rewrite E. cbn [chars_left].
  destruct (read_printed n r Hn) as (neg & ds & v & k & -> & -> & Hv & _); [destruct r; [done|by apply space_no_digit]|].
  rewrite Hv. eexists. split; [do 2 f_equal; lia|]. split; [|split; [|exact Hws]].
  - cbn. unfold INT_MIN, INT_MAX in *. lia.
  - cbn [eof]. destruct r as [|c r]; [right; by subst|by left].
Qed.

(** The entries of a list of hosts. *)
Fixpoint host_words (l : list (list Z * Z)) : list (list Z) :=
  match l with
  | [] => []
  | (h, p) :: l => h :: print_int p :: host_words l
  end.

(** Those that are not excluded. *)
Definition kept (ex : gset (list Z * Z)) (l : list (list Z * Z)) : list (list Z * Z) := filter (λ x, x ∉ ex) l.
Definition int_ports (l : list (list Z * Z)) : Prop := Forall (λ x, INT_MIN <= snd x <= INT_MAX) l.

Lemma read_hosts_kept ex l : int_ports l -> forall f str port hosts ports ws, reads f (host_words l ++ ws) ->
  exists f' str' port', read_hosts ex (zlen l) f str port hosts ports =
    Ret (f', str', port', hosts ++ (kept ex l).*1, ports ++ (kept ex l).*2) /\ reads f' ws.
Proof.
  unfold read_hosts, for_range. rewrite Z.sub_0_r. unfold zlen. rewrite Nat2Z.id. intros Hl. generalize 0.
  induction Hl as [|[h p] l Hp Hl IH]; intros i f str port hosts ports ws Hr.
  { exists f, str, port. cbn. by rewrite !app_nil_r. }
  cbn [host_words app] in Hr. destruct (read_string_next f str h _ Hr) as (f1 & E1 & H1).
  destruct (read_int_next f1 port p _ Hp H1) as (f2 & E2 & H2). cbn [length count_loop]. rewrite E1, E2.
  cbn [init_int]. rewrite bind_ret.
  unfold kept in *. rewrite filter_cons. destruct (decide ((h, p) ∈ ex)) as [Hin|Hin].
  - rewrite decide_False by tauto. rewrite bind_ret. by apply IH.
  - rewrite decide_True by done. rewrite bind_ret. destruct (IH (i + 1) f2 h (Some p) (hosts ++ [h]) (ports ++ [p]) ws H2)
      as (f' & str' & port' & E & H'). exists f', str', port'. rewrite E. cbn [fmap list_fmap]. by rewrite <- !app_assoc.
Qed.

(** A configuration, and its words in the file. *)
Definition back_names : list (list Z) := [text "BackendTest"; text "ChunkMemcached"; text "Memcached"].
Definition cache_names : list (list Z) := [text "NoCache"; text "WriteThroughCache"].
Definition config_words (mport : Z) (back cache : list Z) (slaves mem : list (list Z * Z)) : list (list Z) :=
  [text "DogeeConfigVer="; print_int 1; text "MasterPort="; print_int mport;
   text "NumSlaves="; print_int (zlen slaves); text "NumMemServers="; print_int (zlen mem);
   text "DSMBackend="; back; text "DSMCache="; cache; text "Slaves="] ++
  host_words slaves ++ text "MemServers=" :: host_words mem.

Lemma starts_with_refl s : str_starts_with s s = true.
Proof. unfold str_starts_with. rewrite bool_decide_eq_true_2; [done|]. apply take_ge. done. Qed.

Ltac read_step :=
  match goal with
  | H : reads ?f (print_int ?n :: ?ws) |- context [read_int ?f ?x] =>
      let f' := fresh "f" in let E := fresh in let H' := fresh in
      destruct (read_int_next f x n ws) as (f' & E & H'); [unfold INT_MIN, INT_MAX; lia|exact H|]; rewrite E; clear E H; rename H' into H
  | H : reads ?f (?w :: ?ws) |- context [read_string ?f ?x] =>
      let f' := fresh "f" in let E := fresh in let H' := fresh in
      destruct (read_string_next f x w ws H) as (f' & E & H'); rewrite E; clear E H; rename H' into H
  end.

Lemma read_config_words ex wait content mport back cache slaves mem b c :
  words content = config_words mport back cache slaves mem ->
  back_names !! Z.to_nat b = Some back -> cache_names !! Z.to_nat c = Some cache -> 0 <= b -> 0 <= c ->
  INT_MIN <= mport <= INT_MAX -> zlen slaves <= INT_MAX -> zlen mem <= INT_MAX -> int_ports slaves -> int_ports mem ->
  read_config ex wait (open_file (Some content)) = Ret (StartMaster (MasterConfig wait
    ([] :: (kept ex slaves).*1) (mport :: (kept ex slaves).*2) (kept ex mem).*1 (kept ex mem).*2 b c)).
Proof.
  intros Hw Hb Hc Hb0 Hc0 Hm Hns Hnm Hs Hmem. unfold INT_MIN, INT_MAX in *.
  pose proof (zlen_nonneg slaves). pose proof (zlen_nonneg mem).
  assert (FindIndex back_names back = b /\ FindIndex cache_names cache = c) as [Fb Fc].
  { split.
    - destruct (Z.to_nat b) as [|[|[|k]]] eqn:E; cbn in Hb; try (injection Hb as <-; vm_compute FindIndex; lia). done.
    - destruct (Z.to_nat c) as [|[|k]] eqn:E; cbn in Hc; try (injection Hc as <-; vm_compute FindIndex; lia). done. }
  assert (reads (open_file (Some content)) (config_words mport back cache slaves mem)) as HR by (split; [done|split; [by left|done]]).
  unfold read_config, config_words in *. cbn [app] in HR. fold back_names cache_names.
  repeat (read_step; cbv beta iota; rewrite ?starts_with_refl, ?Z.eqb_refl, ?Fb, ?Fc, ?(proj2 (Z.leb_le 0 b)), ?(proj2 (Z.leb_le 0 c)) by done;
    cbn [negb init_int]; rewrite ?bind_ret).
  destruct (read_hosts_kept ex slaves Hs _ (text "Slaves=") None [[]] [mport] _ HR) as (f' & str' & port' & E & HR').
  rewrite E, bind_ret. read_step. cbv beta iota. rewrite starts_with_refl. cbn [negb].
  rewrite <- (app_nil_r (host_words mem)) in HR'.
  destruct (read_hosts_kept ex mem Hmem _ (text "MemServers=") port' [] [] _ HR') as (g2 & str2 & port2 & E2 & _).
  by rewrite bind_ret, E2, bind_ret.
Qed.

(** * Greeting the slaves *)

(** A host that fits the hand-shake. *)
Definition greetable (x : list Z * Z) : Prop := 0 ∉ fst x /\ zlen (fst x) < 255 /\ INT_MIN <= snd x <= INT_MAX.

Lemma kept_Forall P ex l : Forall P l -> Forall P (kept ex l).
Proof. intros H. unfold kept. rewrite Forall_forall in *. intros x [_ Hx]%list_elem_of_filter. by apply H. Qed.

Lemma zlen_kept ex l : zlen (kept ex l) <= zlen l.
Proof. unfold zlen, kept. pose proof (length_filter (λ x, x ∉ ex) l). lia. Qed.

Lemma cut_short h : zlen h < 255 -> cut h = h.
Proof. intros H. unfold cut. apply take_ge. unfold zlen in H. lia. Qed.

Lemma greetable_hosts l : Forall greetable l -> Forall (λ h, 0 ∉ h) l.*1 /\ Forall (λ h, zlen h < 255) l.*1 /\
  Forall (λ p, - 2 ^ 31 <= p < 2 ^ 31) l.*2 /\ cut <$> l.*1 = l.*1.
Proof.
  induction 1 as [|[h p] l (H0 & Hl & Hp) Hx (IH1 & IH2 & IH3 & IH4)]; [done|]. unfold INT_MIN, INT_MAX in Hp. cbn in *.
  repeat split; try (constructor; done || lia). by rewrite cut_short, IH4.
Qed.

(** What the slave with this node id is told. *)
Definition told (peer : list Z) (mport : Z) (slaves mem : list (list Z * Z)) (b c chk nid : Z) : slave_config :=
  {| cfg_info := {| magic := RC_MAGIC_MASTER; num_mem_server := zlen mem; num_nodes := zlen slaves + 1; node_id := nid;
                    localport := mport; backty := b; cachety := c; checkpoint := chk |};
     cfg_hosts := peer :: slaves.*1; cfg_ports := mport :: slaves.*2; cfg_memhosts := mem.*1; cfg_memports := mem.*2 |}.

Section greet.
Context (connect : Z -> list Z -> Z -> option (list (list Z))).
Context (mport b c chk : Z) (slaves mem : list (list Z * Z)).
Hypothesis Hslaves : Forall greetable slaves.
Hypothesis Hmem : Forall greetable mem.
Hypothesis Hranges : INT_MIN <= mport <= INT_MAX /\ is_u32 b /\ is_u32 c /\ INT_MIN <= chk <= INT_MAX.
Hypothesis Hlens : zlen slaves < INT_MAX /\ zlen mem <= INT_MAX.
Hypothesis Hconnect : forall i h p, slaves.[i] = Some (h, p) -> exists rest more, connect (i + 1) h p = Some ((slave_greeting ++ rest) :: more).

Lemma greet_slaves_told n : forall i sent, 0 <= i -> i + Z.of_nat n = zlen slaves ->
  exists sent', greet_slaves connect n (i + 1) ([] :: slaves.*1) (mport :: slaves.*2) mem.*1 mem.*2 b c chk sent =
    Ret (0, sent ++ sent') /\ length sent' = n /\
  forall j bytes peer, sent' !! j = Some bytes ->
    RcSlave_handshake peer [bytes] = Ret (inr (told peer mport slaves mem b c chk (i + 1 + Z.of_nat j))).
Proof.
  destruct (greetable_hosts _ Hslaves) as (Hs1 & Hs2 & Hs3 & Hs4), (greetable_hosts _ Hmem) as (Hm1 & Hm2 & Hm3 & Hm4).
  destruct Hranges as (Hr1 & Hr2 & Hr3 & Hr4), Hlens as (Hl1 & Hl2). unfold INT_MIN, INT_MAX in *.
  induction n as [|n IH]; intros i sent Hi Hn.
  { exists []. by rewrite app_nil_r. }
  assert (0 <= i < zlen slaves) as Hi' by lia. destruct (zlook_is_Some slaves i Hi') as [[h p] Hx].
  assert (([] :: slaves.*1).[i + 1] = Some h /\ (mport :: slaves.*2).[i + 1] = Some p) as [Eh Ep].
  { rewrite zlook_lookup in Hx by lia. rewrite !zlook_lookup by lia. replace (Z.to_nat (i + 1)) with (S (Z.to_nat i)) by lia.
    split; [transitivity (slaves.*1 !! Z.to_nat i)|transitivity (slaves.*2 !! Z.to_nat i)]; (done || by rewrite list_lookup_fmap, Hx). }
  destruct (Hconnect i h p Hx) as (rest & more & Hc). cbn [greet_slaves].
  rewrite (rd_ok _ _ _ Eh), (rd_ok _ _ _ Ep), !bind_ret, Hc.
  assert (zlen ([] :: slaves.*1) = zlen slaves + 1 /\ zlen (mport :: slaves.*2) = zlen slaves + 1) as [Hz1 Hz2]
    by (rewrite !zlen_cons, !zlen_fmap; done).
  assert (is_u32 (i + 1)) as Hu by ranges.
  assert (forall peer, exists hosts' memhosts' sent p0,
    RcMasterHello ((slave_greeting ++ rest) :: more) ([] :: slaves.*1) (mport :: slaves.*2) mem.*1 mem.*2 (u32 (i + 1)) b c chk
      = Ret (0, hosts', memhosts', sent) /\ head (mport :: slaves.*2) = Some p0 /\
    (Forall (fun h => zlen h < 255) ([] :: slaves.*1) -> hosts' = [] :: slaves.*1) /\
    (Forall (fun h => zlen h < 255) mem.*1 -> memhosts' = mem.*1) /\
    RcSlave_handshake peer [sent] = Ret (inr
      {| cfg_info := {| magic := RC_MAGIC_MASTER; num_mem_server := zlen mem.*1; num_nodes := zlen ([] :: slaves.*1);
                        node_id := u32 (i + 1); localport := p0; backty := b; cachety := c; checkpoint := chk |};
         cfg_hosts := peer :: (cut <$> tail ([] :: slaves.*1)); cfg_ports := mport :: slaves.*2;
         cfg_memhosts := cut <$> mem.*1; cfg_memports := mem.*2 |})) as Hello.
  { intros peer. apply hello_parsed; rewrite ?Hz1, ?Hz2, ?zlen_fmap; try (constructor; [set_solver || lia|done]); (done || lia || apply u32_range). }
  destruct (Hello []) as (hosts' & memhosts' & bytes & p0 & E & _ & Hk1 & Hk2 & _).
  rewrite E, bind_ret, Z.eqb_refl, Hk1, Hk2 by (done || by constructor).
  destruct (IH (i + 1) (sent ++ [bytes])) as (sent' & E' & Hlen & Htold); [lia|lia|].
  exists (bytes :: sent'). rewrite E', <- app_assoc. split; [done|]. split; [cbn; lia|].
  intros [|j] bytes' peer Hj; cbn in Hj.
  - injection Hj as <-. destruct (Hello peer) as (h2 & m2 & bytes2 & p2 & E2 & Hp2 & _ & _ & Hslave).
    rewrite E in E2. injection E2 as <- <- <-. injection Hp2 as <-. rewrite Hslave. unfold told. do 2 f_equal.
    rewrite Hz1, zlen_fmap, u32_small by done. cbn [tail]. rewrite Hs4, Hm4, Z.add_0_r. done.
  - rewrite (Htold j bytes' peer Hj). do 3 f_equal. lia.
Qed.
End greet.

(** * Command lines *)

Lemma words_from_space cur a b : words_from cur (a ++ 32 :: b) = words_from cur a ++ words b.
Proof.
  revert cur. induction a as [|c a IH]; intros cur; cbn; [by destruct cur|].
  destruct (is_space c); [|apply IH]. destruct cur; [apply IH|]. cbn. by rewrite IH.
Qed.
Lemma words_space a b : words (a ++ 32 :: b) = words a ++ words b.
Proof. apply words_from_space. Qed.

Lemma words_from_one cur w : Forall (λ c, is_space c = false) w -> cur ++ w <> [] -> words_from cur w = [cur ++ w].
Proof.
  intros Hw. revert cur. induction Hw as [|c w Hc Hw IH]; intros cur Hne; cbn.
  - rewrite app_nil_r in *. by destruct cur.
  - rewrite Hc, IH by (rewrite <- ?app_assoc; by destruct cur). by rewrite <- app_assoc.
Qed.
Lemma words_one w : Forall (λ c, is_space c = false) w -> w <> [] -> words w = [w].
Proof. apply (words_from_one []). Qed.

Lemma print_int_word n : INT_MIN <= n <= INT_MAX -> Forall (λ c, is_space c = false) (print_int n) /\ print_int n <> [].
Proof.
  intros Hn. split; [|by destruct (read_printed n [] Hn I) as (_ & _ & _ & _ & _ & _ & _ & _ & Hne)].
  apply print_int_Forall; [done|done|]. intros c Hc. unfold is_space. lia.
Qed.

Lemma rev_case {A} (l : list A) : l = [] \/ exists l' x, l = l' ++ [x].
Proof. destruct l as [|x l _] using rev_ind; [by left|right; eauto]. Qed.

Lemma print_excludes_word ex : Forall excludable ex -> Forall (λ x, Forall (λ c, is_space c = false) (fst x)) ex -> ex <> [] ->
  Forall (λ c, is_space c = false) (print_excludes ex) /\ print_excludes ex <> [].
Proof.
  induction 1 as [|[ip port] l (_ & _ & Hp) Hl IH]; intros Hsp Hne; [done|]. apply Forall_cons in Hsp as [Hip Hsp]. cbn in Hip, Hp.
  destruct (print_int_word port Hp) as [Hw _]. cbn. split; [|by destruct l, ip]. destruct l as [|y l].
  - apply Forall_app; split; [done|by constructor].
  - apply Forall_app; split; [done|]. constructor; [done|]. apply Forall_app; split; [done|]. constructor; [done|].
    apply IH; done.
Qed.

(** The pairs of an even number of arguments, then those of the rest. *)
Lemma read_pairs_app n : forall l1 l2 m, length l1 = (2 * n)%nat -> read_pairs (l1 ++ l2) m = read_pairs l2 (read_pairs l1 m).
Proof.
  induction n as [|n IH]; intros [|k [|v l1]] l2 m Hl; cbn in Hl; try lia; [done|]. cbn [app read_pairs]. apply IH. lia.
Qed.

Lemma init_not_slave argv param content : argv !! 1%nat <> Some (text "-s") ->
  HelperInitCluster argv param content = init_master argv param content.
Proof.
  intros H. destruct argv as [|a [|s [|p argv]]]; [done..|]. cbn in *. rewrite bool_decide_eq_false_2; [done|]. congruence.
Qed.

(** * Properties *)

(** The restart that [HelperInitCluster] was given: nobody excluded, or the list that a
    restart prints. *)
Definition given_excludes (param : params) (ex : list (list Z * Z)) : Prop :=
  Forall excludable ex /\
  match param !! text "----exclude" with Some s => s = print_excludes ex | None => ex = [] end.

(** C17. From the configuration file to the slaves: a master started with a well-formed
    file (words separated by any spaces, as many hosts as announced) greets every slave
    that is not excluded, and each slave it greets has learnt the same cluster: its own
    node id, the ports, the slaves and the memory servers of the file without the
    excluded ones, the back end, the cache and the checkpoint. What each side sent has
    arrived when the other reads it. *)
Theorem start_cluster argv content connect chk ex mport back cache slaves mem b c :
  words content = config_words mport back cache slaves mem ->
  back_names !! Z.to_nat b = Some back -> cache_names !! Z.to_nat c = Some cache -> 0 <= b -> 0 <= c ->
  INT_MIN <= mport <= INT_MAX -> INT_MIN <= chk <= INT_MAX -> zlen slaves < INT_MAX -> zlen mem <= INT_MAX ->
  Forall greetable slaves -> Forall greetable mem ->
  argv !! 1%nat <> Some (text "-s") -> read_params argv ∅ !! text "----restart" = None ->
  given_excludes (read_params argv ∅) ex ->
  let slaves' := kept (list_to_set ex) slaves in
  let mem' := kept (list_to_set ex) mem in
  (forall i h p, slaves'.[i] = Some (h, p) -> exists rest more, connect (i + 1) h p = Some ((slave_greeting ++ rest) :: more)) ->
  exists cfg sent, HelperInitCluster argv ∅ (Some content) = Ret (StartMaster cfg) /\
    RcMaster connect chk true (mc_hosts cfg) (mc_ports cfg) (mc_memhosts cfg) (mc_memports cfg) (mc_back cfg) (mc_cache cfg)
      = Ret (0, sent) /\ zlen sent = zlen slaves' /\
    forall i bytes peer, sent.[i] = Some bytes ->
      RcSlave_handshake peer [bytes] = Ret (inr (told peer mport slaves' mem' b c chk (i + 1))).
Proof.
  intros Hw Hb Hc Hb0 Hc0 Hm Hchk Hns Hnm Hs Hmem Hargv Hrestart [Hex Hgiven] slaves' mem' Hconnect.
  assert (Forall (λ x, INT_MIN <= snd x <= INT_MAX) slaves /\ Forall (λ x, INT_MIN <= snd x <= INT_MAX) mem) as [Hps Hpm]
    by (split; eapply Forall_impl; eauto; intros ? (_ & _ & ?); done).
  destruct (greet_slaves_told connect mport b c chk slaves' mem' (kept_Forall _ _ _ Hs) (kept_Forall _ _ _ Hmem))
    with (n := length slaves') (i := 0) (sent := @nil (list Z)) as (sent & E & Hlen & Htold); [| |exact Hconnect|lia|done|].
  { assert (b < 3) by (apply lookup_lt_Some in Hb; cbn in Hb; lia). assert (c < 2) by (apply lookup_lt_Some in Hc; cbn in Hc; lia).
    repeat split; try done; ranges. }
  { pose proof (zlen_kept (list_to_set ex) slaves). pose proof (zlen_kept (list_to_set ex) mem). subst slaves' mem'. lia. }
  eexists _, sent. split; [|split].
  - rewrite init_not_slave by done. unfold init_master. cbv zeta.
    assert (match read_params argv ∅ !! text "----exclude" with Some s => parse_excludes s | None => Ret ∅ end
      = Ret (list_to_set ex)) as ->.
    { destruct (read_params argv ∅ !! text "----exclude"); subst; [by apply parse_print_excludes|done]. }
    rewrite bind_ret, Hrestart, bind_ret. apply (read_config_words _ _ _ mport back cache slaves mem); (done || lia).
  - unfold RcMaster. cbn [mc_hosts mc_ports mc_memhosts mc_memports mc_back mc_cache].
    rewrite zlen_cons, zlen_fmap, Z.add_simpl_r. unfold zlen at 1. rewrite Nat2Z.id.
    change (0 + 1) with 1 in E. fold slaves' mem'. rewrite E, bind_ret. done.
  - split; [unfold zlen; by rewrite Hlen|]. intros i bytes peer Hi. pose proof (zlook_Some_range _ _ _ Hi).
    rewrite zlook_lookup in Hi by lia. rewrite (Htold _ bytes peer Hi). do 3 f_equal. lia.
Qed.

(** A file for two slaves and a memory server; the master was restarted without the
    second slave. *)
Definition demo_file : list Z := text "DogeeConfigVer= 1 MasterPort= 9090 NumSlaves= 2 NumMemServers= 1
DSMBackend= ChunkMemcached DSMCache= NoCache Slaves=
10.0.0.1 18080
10.0.0.2 18081
MemServers=
10.0.0.1 11211
".
Definition demo_argv : list (list Z) := text <$> ["prog"; "----exclude"; "10.0.0.2:18081"]%string.

Lemma start_cluster_witness : exists cfg sent, HelperInitCluster demo_argv ∅ (Some demo_file) = Ret (StartMaster cfg) /\
  RcMaster (fun _ _ _ => Some [slave_greeting]) (-1) true (mc_hosts cfg) (mc_ports cfg) (mc_memhosts cfg) (mc_memports cfg)
    (mc_back cfg) (mc_cache cfg) = Ret (0, sent) /\ zlen sent = 1 /\
  forall i bytes peer, sent.[i] = Some bytes -> RcSlave_handshake peer [bytes] =
    Ret (inr (told peer 9090 [(text "10.0.0.1", 18080)] [(text "10.0.0.1", 11211)] 1 0 (-1) (i + 1))).
Proof.
  assert (forall s p, bool_decide (0 ∉ text s) = true -> INT_MIN <= p <= INT_MAX -> (zlen (text s) <? 255) = true -> greetable (text s, p)) as Hg.
  { intros s p H1%bool_decide_eq_true_1 H2 H3. split; [done|]. split; [by apply Z.ltb_lt|done]. }
  apply (start_cluster demo_argv demo_file _ (-1) [(text "10.0.0.2", 18081)] 9090 (text "ChunkMemcached") (text "NoCache")
    [(text "10.0.0.1", 18080); (text "10.0.0.2", 18081)] [(text "10.0.0.1", 11211)] 1 0).
  - vm_compute. reflexivity.
  - reflexivity.
  - reflexivity.
  - lia.
  - lia.
  - split; vm_compute; discriminate.
  - split; vm_compute; discriminate.
  - vm_compute. reflexivity.
  - vm_compute. discriminate.
  - repeat constructor; cbn; try (apply (bool_decide_unpack _); vm_compute; exact I); vm_compute; (reflexivity || discriminate).
  - repeat constructor; cbn; try (apply (bool_decide_unpack _); vm_compute; exact I); vm_compute; (reflexivity || discriminate).
  - vm_compute. discriminate.
  - vm_compute. reflexivity.
  - split; [|vm_compute; reflexivity]. repeat constructor; try (apply (bool_decide_unpack _); vm_compute; exact I); vm_compute; discriminate.
  - intros i h p _. exists [], []. reflexivity.
Defined.

Lemma keys_differ : text "----restart" <> text "----exclude".
Proof. discriminate. Qed.

(** The words of the command line of a restart. *)
Lemma restart_words cmd pid ex : Forall excludable ex -> Forall (λ x, Forall (λ c, is_space c = false) (fst x)) ex ->
  INT_MIN <= pid <= INT_MAX ->
  words (restart_command_line cmd pid ex) = words cmd ++ [text "----restart"; print_int pid] ++
    (if bool_decide (ex = []) then [] else [text "----exclude"; print_excludes ex]).
Proof.
  intros Hex Hsp Hpid. unfold restart_command_line. change (text " ----restart ") with (32 :: text "----restart" ++ [32]).
  rewrite <- app_comm_cons, words_space, <- app_assoc. f_equal. cbn [app].
  rewrite words_space. rewrite (words_one (text "----restart")) by (done || (vm_compute; repeat constructor)). cbn [app]. f_equal.
  case_bool_decide as He; [by rewrite app_nil_r, (words_one (print_int pid)) by (by apply print_int_word)|].
  change (text " ----exclude ") with (32 :: text "----exclude" ++ [32]). rewrite <- app_comm_cons, words_space, <- app_assoc.
  cbn [app]. rewrite words_space, !words_one; [done|..]; try by apply print_excludes_word. all: try by apply print_int_word. all: done || (vm_compute; repeat constructor).
Qed.

(** With an odd number of words the new process finds both keys. *)
Lemma restart_odd cmd pid ex content : Forall excludable ex -> Forall (λ x, Forall (λ c, is_space c = false) (fst x)) ex ->
  INT_MIN <= pid <= INT_MAX -> Nat.Odd (length (words cmd)) ->
  read_params (words cmd) ∅ !! text "----exclude" = None ->
  init_master (words (restart_command_line cmd pid ex)) ∅ content = read_config (list_to_set ex) (Some pid) (open_file content).
Proof.
  intros Hex Hsp Hpid [n Hn] Hno. rewrite restart_words by done.
  destruct (words cmd) as [|prog args] eqn:Ew; [cbn in Hn; lia|]. unfold init_master, read_params. cbn [app tail length] in *.
  unfold read_params in Hno. cbn [tail] in Hno.
  rewrite (read_pairs_app n) by lia. case_bool_decide as He.
  - subst ex. cbn [read_pairs]. rewrite (lookup_insert_ne _ (text "----restart") (text "----exclude")), Hno, bind_ret by apply keys_differ.
    rewrite lookup_insert. by rewrite decide_True, atoi_print, !bind_ret.
  - cbn [read_pairs]. rewrite (lookup_insert _ (text "----exclude") (text "----exclude")), decide_True, parse_print_excludes, bind_ret by done.
    rewrite lookup_insert_ne by (apply not_eq_sym, keys_differ). by rewrite lookup_insert, decide_True, atoi_print, !bind_ret.
Qed.

(** The keys that words give are among them. *)
Lemma read_pairs_no_key n : forall l m k, (length l <= n)%nat -> k ∉ l -> m !! k = None -> read_pairs l m !! k = None.
Proof.
  induction n as [|n IH]; intros [|a [|b l]] m k Hl Hk Hm; cbn in Hl; try done; [lia|].
  cbn [read_pairs]. apply IH; [lia|set_solver|]. rewrite lookup_insert_ne; [done|set_solver].
Qed.

(** With an even number of words it finds neither. *)
Lemma restart_even cmd pid ex content : Forall excludable ex -> Forall (λ x, Forall (λ c, is_space c = false) (fst x)) ex ->
  INT_MIN <= pid <= INT_MAX -> Nat.Even (length (words cmd)) ->
  text "----exclude" ∉ words cmd -> text "----restart" ∉ words cmd ->
  init_master (words (restart_command_line cmd pid ex)) ∅ content = read_config ∅ None (open_file content).
Proof.
  intros Hex Hsp Hpid [n Hn] Hno1 Hno2. rewrite restart_words by done.
  assert (forall key, 101 ∈ key -> print_int pid <> key) as Hkey.
  { intros key Hin <-. revert Hin. by apply print_int_char. }
  assert (101 ∈ text "----exclude" /\ 101 ∈ text "----restart") as [H1 H2]
    by (split; apply (bool_decide_unpack _); vm_compute; exact I).
  set (w := words cmd) in *. set (tl := if bool_decide (ex = []) then [] else _).
  assert (forall key, key ∉ w -> 101 ∈ key -> read_params (w ++ [text "----restart"; print_int pid] ++ tl) ∅ !! key = None) as Hnone.
  { intros key Hk He. specialize (Hkey key He). assert (forall m, m !! key = None ->
      read_pairs (print_int pid :: (if bool_decide (ex = []) then [] else [text "----exclude"; print_excludes ex])) m !! key = None) as Hend.
    { intros m Hm. case_bool_decide; [done|]. cbn [read_pairs]. by rewrite lookup_insert_ne. }
    unfold read_params. destruct w as [|prog args]; [by apply Hend, lookup_empty|]. cbn [app tail length] in *.
    destruct (rev_case args) as [->|(args' & k & ->)]; [cbn in Hn; lia|]. rewrite length_app in Hn. cbn [length] in Hn.
    rewrite <- app_assoc, (read_pairs_app (n - 1)) by lia. cbn [app read_pairs]. apply Hend.
    rewrite lookup_insert_ne by set_solver. apply (read_pairs_no_key (length args')); [done|set_solver|apply lookup_empty]. }
  unfold init_master. by rewrite !Hnone, !bind_ret by done.
Qed.

(** Storing into an array until it is full. *)
Lemma store_overflow {A} (l : list A) : forall i (arr : list A), 0 <= i -> zlen arr < i + zlen l -> i <= zlen arr ->
  for_each l (fun str '(i, arr) => arr ← wr arr i str; Ret (i + 1, arr)) (i, arr) = Abort.
Proof.
  induction l as [|x l IH]; intros i arr Hi Hlen Hle; [change (zlen (@nil A)) with 0 in Hlen; lia|].
  rewrite zlen_cons in Hlen. cbn [for_each]. destruct (Z.ltb_spec i (zlen arr)) as [Hlt|Hge].
  - destruct (wr_ok arr i x) as (arr' & -> & Hl & _); [lia|]. rewrite !bind_ret. apply IH; lia.
  - unfold wr. by rewrite (proj2 (andb_false_iff _ _)) by (right; lia).
Qed.

(** [RestartCurrentProcess] (other than under Windows) writes past the end of its
    argument array: the array has four elements whatever the arguments are, and the
    strings fit only if at most one argument was given and nobody is excluded. *)
Lemma restart_overflows myargv pid ex :
  (2 <= zlen myargv -> RestartCurrentProcess myargv pid ex = Abort) /\
  (1 <= zlen myargv -> ex <> [] -> RestartCurrentProcess myargv pid ex = Abort) /\
  RestartCurrentProcess [] pid [] = Ret [Some (text "----restart"); Some (print_int pid); None] /\
  forall prog, RestartCurrentProcess [prog] pid [] = Ret [Some prog; Some (text "----restart"); Some (print_int pid); None].
Proof.
  pose proof (zlen_nonneg ex).
  assert (forall myargv ex, 4 < zlen (newargv_strings myargv pid ex) -> RestartCurrentProcess myargv pid ex = Abort) as Hover.
  { intros argv l Hl. unfold RestartCurrentProcess. rewrite store_overflow; [done|done| |apply zlen_nonneg].
    unfold newargv_room. destruct (0 <? _); change (zlen (replicate (Z.to_nat 4) (@None (list Z)))) with 4;
      change (zlen (replicate (Z.to_nat 3) (@None (list Z)))) with 3; lia. }
  assert (zlen (newargv_strings myargv pid ex) = zlen myargv + 2 + (if bool_decide (ex = []) then 1 else 2)) as Hlen.
  { unfold newargv_strings. rewrite !zlen_app, zlen_fmap. rewrite Z.add_assoc. f_equal. by case_bool_decide. }
  repeat split.
  - intros H2. apply Hover. rewrite Hlen. case_bool_decide; lia.
  - intros H1 Hne. apply Hover. rewrite Hlen, bool_decide_eq_false_2 by done. lia.
Qed.

Lemma restart_overflows_witness : RestartCurrentProcess [text "prog"; text "-n"] 1 [] = Abort /\
  RestartCurrentProcess [text "prog"] 1 [(text "10.0.0.2", 18081)] = Abort.
Proof.
  split.
  - apply (proj1 (restart_overflows [text "prog"; text "-n"] 1 [])). vm_compute. discriminate.
  - apply (proj1 (proj2 (restart_overflows [text "prog"] 1 [(text "10.0.0.2", 18081)]))); vm_compute; discriminate.
Defined.



(** On the way there the excluded nodes grow by those that cannot be told. *)
Lemma RestartCluster_excludes reached num_nodes hosts ports ex : num_nodes = zlen hosts -> zlen ports = zlen hosts ->
  exists more, RestartCluster false reached num_nodes hosts ports ex = Ret (Some (ex ++ more)) /\
    forall h p, (h, p) ∈ more <-> exists i, 1 <= i < num_nodes /\ reached i = false /\ hosts.[i] = Some h /\ ports.[i] = Some p.
Proof.
  intros -> Hp. unfold RestartCluster. destruct (Z.leb_spec 1 (zlen hosts)) as [H1|H1].
  - destruct (for_range_rule (fun i ex' => exists more, ex' = ex ++ more /\
      forall h p, (h, p) ∈ more <-> exists k, 1 <= k < i /\ reached k = false /\ hosts.[k] = Some h /\ ports.[k] = Some p)
      1 (zlen hosts) (fun i ex => if reached i then Ret ex else h ← rd hosts i; p ← rd ports i; Ret (ex ++ [(h, p)])) ex)
      as (ex' & -> & more & -> & Hmore); [lia| | |].
    + intros i ex' Hi (more & -> & Hmore). destruct (reached i) eqn:Hr.
      * eexists. split; [done|]. exists more. split; [done|]. intros h p. rewrite Hmore. split; intros (k & Hk & Hrk & Hx);
          exists k; (split; [|done]); [lia|]. destruct (decide (k = i)) as [->|]; [congruence|lia].
      * destruct (zlook_is_Some hosts i) as [h Hh]; [lia|]. destruct (zlook_is_Some ports i) as [p Hpi]; [lia|].
        rewrite (rd_ok _ _ _ Hh), (rd_ok _ _ _ Hpi), !bind_ret. eexists. split; [done|]. exists (more ++ [(h, p)]).
        rewrite app_assoc. split; [done|]. intros h' p'. rewrite elem_of_app, list_elem_of_singleton, Hmore. split.
        { intros [(k & Hk & Hx)|[= -> ->]]; [exists k; split; [lia|done]|exists i; split; [lia|done]]. }
        { intros (k & Hk & Hrk & Hx1 & Hx2). destruct (decide (k = i)) as [->|]; [right; congruence|].
          left. exists k. split; [lia|done]. }
    + exists []. rewrite app_nil_r. split; [done|]. intros h p. split; [by intros ?%not_elem_of_nil|]. intros (k & Hk & _). lia.
    + exists more. by rewrite bind_ret.
  - exists []. unfold for_range. replace (Z.to_nat (zlen hosts - 1)) with O by lia. cbn. rewrite app_nil_r. split; [done|].
    intros h p. split; [by intros ?%not_elem_of_nil|]. intros (k & Hk & _). lia.
Qed.
