(* ===== verification/FileTools.v ===== *)
(** [ParseCSV] and the line cache of [Dogee/DogeeShared.cpp]: a file is read by [fgets]
    into a buffer of 2048 bytes and cut at commas and newlines in place; the position of
    the first line that counts is kept in a file next to it. *)
From S2P Require Import Prelude Handshake.

(** * Reading *)

(** The bytes that [fgets] with room for [n] bytes takes from [rest]: up to a newline, to
    the room, or to the end of the file, which it then has seen. *)
Fixpoint get_chars (n : nat) (rest : list Z) : list Z * bool :=
  match n with
  | O => ([], false)
  | S n =>
      match rest with
      | [] => ([], true)
      | c :: rest =>
          if c =? 10 then ([c], false)
          else let '(l, eof) := get_chars n rest in (c :: l, eof)
      end
  end.

(** [fgets(buf + st, n, f)] at position [pos]: the buffer, the position, [feof(f)]. At the
    end of the file nothing is written. *)
Definition fgets (content : list Z) (pos : Z) (buf : list Z) (st n : Z) : outcome (list Z * Z * bool) :=
  let '(l, eof) := get_chars (Z.to_nat (n - 1)) (drop (Z.to_nat pos) content) in
  if eof && (zlen l =? 0) then Ret (buf, pos, true)
  else buf ← wr_range buf st (l ++ [0]); Ret (buf, pos + zlen l, eof).

(** * Parsing *)

Section csv.
(** [func] on what it works on, with the cell, its line and its index; [false] ends the
    parse. *)
Context {X : Type} (func : X -> list Z -> Z -> Z -> X * bool).
Context (skip_to_line : Z) (use_cache : bool).

(** The locals: the buffer, [p] and [last] as indices, [line], [cnt]; [func]'s state and
    the cache file. *)
Record csv_state := Csv {
  c_buf : list Z;
  c_p : Z;
  c_last : Z;
  c_line : Z;
  c_cnt : Z;
  c_x : X;
  c_cache : option Z;
}.

(** [line >= skip_to_line && !func(last, line, cnt)]. *)
Definition call_func (s : csv_state) : outcome (X * bool) :=
  if skip_to_line <=? c_line s then
    cell ← c_string (drop (Z.to_nat (c_last s)) (c_buf s));
    let '(x, go) := func (c_x s) cell (c_line s) (c_cnt s) in
    Ret (x, negb go)
  else Ret (c_x s, false).

(** The loop over the buffer, [tell] being [ftell(f)]; a returned state is [inr]. *)
Fixpoint scan (fuel : nat) (tell : Z) (s : csv_state) : outcome (csv_state + X * option Z) :=
  match fuel with
  | O => NoFuel
  | S fuel =>
      let p := c_p s in
      c ← rd (c_buf s) p;
      if c =? 0 then Ret (inl s)
      else if c =? 10 then
        cache ← (if use_cache && (c_line s + 1 =? skip_to_line) then
                   tail ← c_string (drop (Z.to_nat p) (c_buf s));
                   Ret (Some (tell - (zlen tail - 1)))
                 else Ret (c_cache s));
        buf ← wr (c_buf s) p 0;
        '(x, stop) ← call_func (Csv buf p (c_last s) (c_line s) (c_cnt s) (c_x s) cache);
        if stop : bool then Ret (inr (x, cache))
        else scan fuel tell (Csv buf (p + 1) (p + 1) (s32 (c_line s + 1)) 0 x cache)
      else if c =? 44 then
        buf ← wr (c_buf s) p 0;
        '(x, stop) ← call_func (Csv buf p (c_last s) (c_line s) (c_cnt s) (c_x s) (c_cache s));
        if stop : bool then Ret (inr (x, c_cache s))
        else scan fuel tell (Csv buf (p + 1) (p + 1) (c_line s) (s32 (c_cnt s + 1)) x (c_cache s))
      else scan fuel tell (Csv (c_buf s) (p + 1) (c_last s) (c_line s) (c_cnt s) (c_x s) (c_cache s))
  end.

(** The loop over the file, and the call after it. *)
Fixpoint parse_loop (fuel : nat) (content : list Z) (pos lagacy : Z) (s : csv_state) : outcome (X * option Z) :=
  match fuel with
  | O => NoFuel
  | S fuel =>
      '(buf, pos, eof) ← fgets content pos (c_buf s) lagacy (2048 - lagacy);
      r ← scan 2049 pos (Csv buf lagacy 0 (c_line s) (c_cnt s) (c_x s) (c_cache s));
      match r with
      | inr r => Ret r
      | inl s =>
          if (c_p s <=? 0) || eof then '(x, _) ← call_func s; Ret (x, c_cache s)
          else
            let lagacy := c_p s - c_last s in
            moved ← rd_range (c_buf s) (c_last s) lagacy;
            buf ← wr_range (c_buf s) 0 moved;
            parse_loop fuel content pos lagacy (Csv buf (c_p s) (c_last s) (c_line s) (c_cnt s) (c_x s) (c_cache s))
      end
  end.

(** The bytes of the buffer that [buf[0] = 0] does not set are taken as 0. The result is
    what [func] made of its state, and the cache file. *)
Definition ParseCSV (fuel : nat) (content : list Z) (cache : option Z) (x : X) : outcome (X * option Z) :=
  let buf := replicate 2048 0 in
  let '(pos, line) :=
    match use_cache, cache with
    | true, Some fp => (fp, skip_to_line)
    | _, _ => (0, 0)
    end in
  parse_loop fuel content pos 0 (Csv buf 0 0 line 0 x cache).
End csv.

(** * Going to a line *)

(** A stream is its position, or [None] once it has met the end of the file: then it is
    not good, and [tellg] answers -1. *)
Definition tellg (st : option Z) : Z := default (-1) st.

(** [seekg(f)] on a good stream. *)
Definition seekg (f : Z) : option Z := if f <? 0 then None else Some f.

(** [WriteFilePointerCache] makes the cache file hold the position. *)
Definition WriteFilePointerCache (st : option Z) : option Z := Some (tellg st).

(** The other [WriteFilePointerCache], of a given position. *)
Definition WriteFilePointerCache_pos (pos : Z) : option Z := Some pos.

(** [RestoreFilePointerCache]: the stream, and whether there is a cache file. *)
Definition RestoreFilePointerCache (st cache : option Z) : option Z * bool :=
  match cache with
  | None => (st, false)
  | Some f => (seekg f, true)
  end.

(** What is left behind the next newline. *)
Fixpoint after_newline (l : list Z) : option (list Z) :=
  match l with
  | [] => None
  | c :: l => if c =? 10 then Some l else after_newline l
  end.

(** [file.ignore(max, '\n')]. *)
Definition ignore_line (content : list Z) (st : option Z) : option Z :=
  pos ← st;
  rest ← after_newline (drop (Z.to_nat pos) content);
  Some (zlen content - zlen rest).

(** [SkipFileToLine]: the stream and the cache file of this line. *)
Definition SkipFileToLine (content : list Z) (cache : option Z) (num : Z) : option Z * option Z :=
  let st := Some 0 in
  if num =? 0 then (st, cache)
  else
    let '(st, found) := RestoreFilePointerCache st cache in
    if found : bool then (st, cache)
    else
      let st := Nat.iter (Z.to_nat num) (ignore_line content) st in
      (st, WriteFilePointerCache st).
