(* ===== verification/FileToolsFacts.v ===== *)
(** [ParseCSV] calls its function with the cells of the file, in order; [SkipFileToLine]
    and its cache files lead to the same place. *)
From S2P Require Import Prelude Handshake FileTools.

(** * The cells of a file *)

(** The cells of the bytes [l] with their lines and indices, the first having begun with
    [cur]. *)
Fixpoint csv (cur : list Z) (line idx : Z) (l : list Z) : list (list Z * Z * Z) :=
  match l with
  | [] => [(cur, line, idx)]
  | c :: l =>
      if c =? 10 then (cur, line, idx) :: csv [] (line + 1) 0 l
      else if c =? 44 then (cur, line, idx) :: csv [] line (idx + 1) l
      else csv (cur ++ [c]) line idx l
  end.

(** The cell that is open behind the bytes [l]. *)
Definition last_cell (cur l : list Z) : list Z := foldl (λ cur c, if c =? 44 then [] else cur ++ [c]) cur l.

(** The bytes of the lines [ls]. *)
Definition joined (ls : list (list Z)) : list Z := ls ≫= (λ l, l ++ [10]).

(** The cells of lines, from the line [line] on. *)
Fixpoint line_cells (line : Z) (ls : list (list Z)) : list (list Z * Z * Z) :=
  match ls with
  | [] => []
  | l :: ls => csv [] line 0 l ++ line_cells (line + 1) ls
  end.

Fixpoint first_cell (l : list Z) : list Z :=
  match l with
  | [] => []
  | c :: l => if c =? 44 then [] else c :: first_cell l
  end.

(** The cells that [ParseCSV] finds in lines with their newlines and a final line without
    one. When that is empty, its cell is not: it is what is left in the buffer, the first
    cell of the line before (or [prev]). *)
Definition cells_from (prev : list Z) (line : Z) (ls : list (list Z)) (final : list Z) : list (list Z * Z * Z) :=
  line_cells line ls ++
  if decide (final = []) then [(default prev (first_cell <$> last ls), line + zlen ls, 0)]
  else csv [] (line + zlen ls) 0 final.

(** The calls that are made, as a log; a line that begins with the byte 120 ends the
    parse. *)
Definition log_cell (log : list (list Z * Z * Z)) (cell : list Z) (line idx : Z) : list (list Z * Z * Z) * bool :=
  (log ++ [(cell, line, idx)], match cell with 120 :: _ => false | _ => true end).

Section csv.
Context {X : Type} (func : X -> list Z -> Z -> Z -> X * bool) (skip : Z).

(** The calls for these cells, until one returns [false]. *)
Fixpoint calls (x : X) (cells : list (list Z * Z * Z)) : X :=
  match cells with
  | [] => x
  | (cell, line, idx) :: cells =>
      if skip <=? line then
        let '(x, go) := func x cell line idx in
        if go then calls x cells else x
      else calls x cells
  end.

(** Files without zero bytes, with lines that fit the buffer. *)
Definition plain (c : Z) : Prop := c <> 0 /\ c <> 10.

(** * Reading *)

Lemma get_chars_line n l rest : Forall plain l -> (length l < n)%nat ->
  get_chars n (l ++ 10 :: rest) = (l ++ [10], false).
Proof.
  revert n. induction l as [|c l IH]; intros [|n] Hl Hn; cbn in *; [lia|done|lia|].
  apply Forall_cons in Hl as [[_ Hc] Hl]. rewrite (proj2 (Z.eqb_neq c 10)) by done. by rewrite IH by (done || lia).
Qed.

Lemma get_chars_last n l : Forall plain l -> (length l < n)%nat -> get_chars n l = (l, true).
Proof.
  revert n. induction l as [|c l IH]; intros [|n] Hl Hn; cbn in *; [lia|done|lia|].
  apply Forall_cons in Hl as [[_ Hc] Hl]. rewrite (proj2 (Z.eqb_neq c 10)) by done. by rewrite IH by (done || lia).
Qed.

(** * Scanning *)

Context (use_cache : bool).
#[local] Abbreviation scan := (scan func skip use_cache).
#[local] Abbreviation Csv := (Csv (X := X)).

(** The call for the cell [cur] that was just cut. *)
Lemma call_cut l1 cur post p line idx x cache : 0 ∉ cur ->
  exists x' stop, call_func func skip (Csv (l1 ++ cur ++ 0 :: post) p (zlen l1) line idx x cache) = Ret (x', stop) /\
  forall cells, calls x ((cur, line, idx) :: cells) = if stop : bool then x' else calls x' cells.
Proof.
  intros Hcur. unfold call_func. cbn [c_line c_last c_buf c_x c_cnt calls].
  destruct (skip <=? line); [|by exists x, false].
  unfold zlen. rewrite Nat2Z.id, drop_app_length, c_string_app by done. cbn [mbind outcome_bind].
  destruct (func x cur line idx) as [x' go]. exists x', (negb go). split; [done|]. by destruct go.
Qed.

(** What [scan] makes of the bytes of a line. *)
Definition zero_commas (l : list Z) : list Z := (λ c, if c =? 44 then 0 else c) <$> l.

(** The cells that the bytes [l2] end, the last of which begins with [cur]. *)
Definition cut_cells (cur : list Z) (line idx : Z) (l2 : list Z) (cells : list (list Z * Z * Z)) (idx' : Z) : Prop :=
  idx <= idx' <= idx + zlen l2 /\
  forall rest, csv cur line idx (l2 ++ rest) = cells ++ csv (last_cell cur l2) line idx' rest.

Lemma cut_cells_cons c cur line idx l2 cells idx' : c <> 10 ->
  cut_cells (if c =? 44 then [] else cur ++ [c]) line (if c =? 44 then idx + 1 else idx) l2 cells idx' ->
  cut_cells cur line idx (c :: l2) ((if c =? 44 then [(cur, line, idx)] else []) ++ cells) idx'.
Proof.
  intros Hc [Hi H]. unfold cut_cells, last_cell in *. cbn [foldl csv app]. rewrite zlen_cons.
  rewrite (proj2 (Z.eqb_neq c 10)) by done. split; [destruct (c =? 44); lia|]. intros rest. specialize (H rest).
  destruct (c =? 44); cbn [app]; by rewrite H.
Qed.

Lemma last_cell_no_zero cur l2 : 0 ∉ cur -> Forall plain l2 -> 0 ∉ last_cell cur l2.
Proof.
  intros Hcur Hl. revert cur Hcur. induction Hl as [|c l2 [Hc _] Hl IH]; intros cur Hcur; [done|].
  unfold last_cell. cbn [foldl]. apply IH. destruct (c =? 44); set_solver.
Qed.

(** Cells within a line. *)
Lemma scan_cells tell l2 post : Forall plain l2 -> forall fuel l1 cur p last line idx x cache, (length l2 <= fuel)%nat ->
  0 ∉ cur -> 0 <= idx -> idx + zlen l2 < 2 ^ 31 -> last = zlen l1 -> p = zlen l1 + zlen cur ->
  exists cells idx', cut_cells cur line idx l2 cells idx' /\
  ((exists x', scan fuel tell (Csv (l1 ++ cur ++ l2 ++ post) p last line idx x cache) = Ret (inr (x', cache)) /\
     forall tail, calls x (cells ++ tail) = x') \/
  (exists l1' x', scan fuel tell (Csv (l1 ++ cur ++ l2 ++ post) p last line idx x cache) =
       scan (fuel - length l2) tell (Csv (l1' ++ last_cell cur l2 ++ post) (p + zlen l2) (zlen l1') line idx' x' cache) /\
     l1' ++ last_cell cur l2 = l1 ++ cur ++ zero_commas l2 /\
     forall tail, calls x (cells ++ tail) = calls x' tail)).
Proof.
  induction 1 as [|c l2 [Hc0 Hc10] Hl2 IH]; intros fuel l1 cur p last line idx x cache Hf Hcur Hidx Hmax -> ->.
  - exists [], idx. split; [split; [change (zlen (@nil Z)) with 0; lia|done]|]. right. exists l1, x. cbn [app length zero_commas fmap list_fmap].
    change (zlen (@nil Z)) with 0. rewrite Nat.sub_0_r, Z.add_0_r, app_nil_r. done.
  - destruct fuel as [|fuel]; [cbn in Hf; lia|]. cbn [length] in Hf. rewrite zlen_cons in Hmax |- *.
    pose proof (zlen_nonneg l2). cbn [FileTools.scan]. cbn [c_p c_buf c_line c_last c_cnt c_x c_cache].
    assert (forall d, l1 ++ cur ++ (d :: l2) ++ post = (l1 ++ cur) ++ d :: l2 ++ post) as Ebuf by (intros; by rewrite <- !app_assoc).
    rewrite Ebuf, rd_split by (rewrite zlen_app; lia). cbn [mbind outcome_bind].
    rewrite (proj2 (Z.eqb_neq c 0)), (proj2 (Z.eqb_neq c 10)) by done.
    change (last_cell cur (c :: l2)) with (last_cell (if c =? 44 then [] else cur ++ [c]) l2).
    destruct (Z.eqb_spec c 44) as [->|Hc44].
    + rewrite wr_split by (rewrite zlen_app; lia). cbn [mbind outcome_bind]. rewrite <- !app_assoc.
      destruct (call_cut l1 cur (l2 ++ post) (zlen l1 + zlen cur) line idx x cache) as (x' & stop & E & Hcall); [done|].
      cbn [app]. rewrite E. cbn [mbind outcome_bind].
      destruct (IH fuel (l1 ++ cur ++ [0]) [] (zlen l1 + zlen cur + 1) (zlen l1 + zlen cur + 1) line (idx + 1) x' cache)
        as (cells & idx' & Hcut & Hcase);
        [lia|set_solver|lia|lia|rewrite !zlen_app; change (zlen [0]) with 1; lia|rewrite !zlen_app; change (zlen [0]) with 1; change (zlen (@nil Z)) with 0; lia|].
      rewrite <- !app_assoc in Hcase. cbn [app] in Hcase.
      exists ((cur, line, idx) :: cells), idx'. split; [by apply (cut_cells_cons 44 cur)|].
      destruct stop; [left; exists x'; split; [done|]; intros tail; cbn [app]; by rewrite Hcall|]. rewrite s32_small by lia.
      destruct Hcase as [(x2 & E2 & H2)|(l1' & x2 & E2 & Hl1 & H2)].
      * left. exists x2. split; [exact E2|]. intros tail. cbn [app]. by rewrite Hcall.
      * right. exists l1', x2. cbn [length Nat.sub]. split; [rewrite E2; do 2 f_equal; lia|].
        split; [exact Hl1|]. intros tail. cbn [app]. by rewrite Hcall.
    + destruct (IH fuel l1 (cur ++ [c]) (zlen l1 + zlen cur + 1) (zlen l1) line idx x cache)
        as (cells & idx' & Hcut & Hcase);
        [lia|set_solver|lia|lia|done|rewrite !zlen_app; change (zlen [c]) with 1; lia|].
      rewrite <- !app_assoc in Hcase. cbn [app] in Hcase.
      exists cells, idx'. split.
      { pose proof (cut_cells_cons c cur line idx l2 cells idx' Hc10) as Hk. rewrite (proj2 (Z.eqb_neq c 44)) in Hk by done.
        by apply Hk. }
      rewrite <- !app_assoc. cbn [app].
      destruct Hcase as [(x2 & E2 & H2)|(l1' & x2 & E2 & Hl1 & H2)]; [left; by exists x2|].
      right. exists l1', x2. cbn [length Nat.sub]. split; [rewrite E2; do 2 f_equal; lia|].
      split; [|done]. rewrite Hl1. cbn [zero_commas fmap list_fmap]. by rewrite (proj2 (Z.eqb_neq c 44)).
Qed.

(** The newline that ends a line, and the end of the buffer behind it. *)
Lemma scan_newline tell fuel l1 cur tail p last line idx x cache : (2 <= fuel)%nat -> 0 ∉ cur ->
  0 <= line -> line + 1 < 2 ^ 31 -> last = zlen l1 -> p = zlen l1 + zlen cur ->
  let cache' := if use_cache && (line + 1 =? skip) then Some tell else cache in
  exists x', (scan fuel tell (Csv (l1 ++ cur ++ 10 :: 0 :: tail) p last line idx x cache) = Ret (inr (x', cache')) /\
     forall cells, calls x ((cur, line, idx) :: cells) = x') \/
  (scan fuel tell (Csv (l1 ++ cur ++ 10 :: 0 :: tail) p last line idx x cache) =
       Ret (inl (Csv (l1 ++ cur ++ 0 :: 0 :: tail) (p + 1) (p + 1) (line + 1) 0 x' cache')) /\
     forall cells, calls x ((cur, line, idx) :: cells) = calls x' cells).
Proof.
  intros Hf Hcur Hline Hmax -> -> cache'. destruct fuel as [|fuel]; [lia|].
  cbn [FileTools.scan c_p c_buf c_line c_last c_cnt c_x c_cache].
  rewrite app_assoc, rd_split by (rewrite zlen_app; lia). rewrite bind_ret. cbn [Z.eqb Pos.eqb].
  assert ((if use_cache && (line + 1 =? skip) then
      t ← c_string (drop (Z.to_nat (zlen l1 + zlen cur)) ((l1 ++ cur) ++ 10 :: 0 :: tail)); Ret (Some (tell - (zlen t - 1)))
    else Ret cache) = Ret cache') as ->.
  { subst cache'. destruct (use_cache && _); [|done].
    replace (Z.to_nat (zlen l1 + zlen cur)) with (length (l1 ++ cur)) by (rewrite length_app; unfold zlen; lia).
    rewrite drop_app_length. change (c_string (10 :: 0 :: tail)) with (Ret [10]). rewrite bind_ret.
    change (zlen [10]) with 1. do 2 f_equal. lia. }
  rewrite bind_ret, wr_split, bind_ret by (rewrite zlen_app; lia). rewrite <- app_assoc.
  destruct (call_cut l1 cur (0 :: tail) (zlen l1 + zlen cur) line idx x cache') as (x' & stop & E & Hcall); [done|].
  rewrite E, bind_ret. exists x'. destruct stop; [by left|right]. split; [|done]. rewrite s32_small by lia.
  destruct fuel as [|fuel]; [lia|]. cbn [FileTools.scan c_p c_buf].
  change (l1 ++ cur ++ 0 :: 0 :: tail) with (l1 ++ cur ++ [0] ++ 0 :: tail). rewrite !app_assoc, rd_split; [done|].
  rewrite !zlen_app. change (zlen [0]) with 1. lia.
Qed.

(** Bytes without anything to cut. *)
Lemma scan_quiet tell w tl : Forall (λ c, plain c /\ c <> 44) w -> forall fuel pre last line idx x cache, (length w < fuel)%nat ->
  scan fuel tell (Csv (pre ++ w ++ 0 :: tl) (zlen pre) last line idx x cache)
  = Ret (inl (Csv (pre ++ w ++ 0 :: tl) (zlen pre + zlen w) last line idx x cache)).
Proof.
  induction 1 as [|c w [[H0 H10] H44] Hw IH]; intros fuel pre last line idx x cache Hf; (destruct fuel as [|fuel]; [cbn in Hf; lia|]);
    cbn [FileTools.scan c_p c_buf c_line c_last c_cnt c_x c_cache app]; rewrite rd_split, bind_ret by done.
  - cbn [Z.eqb]. change (zlen (@nil Z)) with 0. by rewrite Z.add_0_r.
  - rewrite (proj2 (Z.eqb_neq c 0)), (proj2 (Z.eqb_neq c 10)), (proj2 (Z.eqb_neq c 44)) by done.
    specialize (IH fuel (pre ++ [c]) last line idx x cache). rewrite <- !app_assoc, zlen_app in IH. cbn [app] in IH.
    change (zlen [c]) with 1 in IH. rewrite IH by (cbn in Hf; lia). do 3 f_equal. rewrite zlen_cons. lia.
Qed.

(** * The file *)

(** [fgets] behind the [cur] at the start of the buffer, when it takes [l]. *)
Lemma fgets_takes content pos cur hole l eof : get_chars (Z.to_nat (2047 - zlen cur)) (drop (Z.to_nat pos) content) = (l, eof) ->
  l <> [] -> zlen cur + zlen l <= 2047 -> zlen (cur ++ hole) = 2048 ->
  exists tail, fgets content pos (cur ++ hole) (zlen cur) (2048 - zlen cur) = Ret (cur ++ l ++ 0 :: tail, pos + zlen l, eof) /\
    zlen (cur ++ l ++ 0 :: tail) = 2048.
Proof.
  intros Hg Hl Hlen Hb. unfold fgets. replace (2048 - zlen cur - 1) with (2047 - zlen cur) by lia. rewrite Hg.
  assert (0 < zlen l) by (destruct l; [done|unfold zlen; cbn; lia]).
  rewrite (proj2 (Z.eqb_neq (zlen l) 0)), andb_false_r by lia. rewrite zlen_app in Hb.
  destruct (zlen_split hole (zlen l + 1)) as (h & tail & -> & Hh); [lia|]. exists tail.
  assert (wr_range (cur ++ h ++ tail) (zlen cur) (l ++ [0]) = Ret (cur ++ (l ++ [0]) ++ tail)) as Hw.
  { apply wr_range_split; [done|]. rewrite zlen_app. exact Hh. }
  rewrite Hw, bind_ret. rewrite zlen_app in Hb. rewrite <- app_assoc. split; [done|].
  rewrite !zlen_app, zlen_cons. lia.
Qed.

Lemma get_chars_full l rest : Forall plain l -> get_chars (length l) (l ++ rest) = (l, false).
Proof.
  induction 1 as [|c l [_ Hc] _ IH]; [done|]. cbn [length app get_chars].
  by rewrite (proj2 (Z.eqb_neq c 10)), IH by done.
Qed.

(** A line whose cells fit the buffer. *)
Definition short_cells (l : list Z) : Prop := Forall (λ '(cell, _, _), zlen cell <= 2046) (csv [] 0 0 l).

(** No open cell behind [l] is too long. *)
Definition fits (cur l : list Z) : Prop := forall l2 l3, l = l2 ++ l3 -> zlen (last_cell cur l2) <= 2046.

Lemma fits_csv l : Forall plain l -> forall cur line idx,
  Forall (λ '(cell, _, _), zlen cell <= 2046) (csv cur line idx l) -> fits cur l.
Proof.
  induction 1 as [|c l [_ Hc] Hl IH]; intros cur line idx Hs l2 l3 E.
  - symmetry in E. apply app_eq_nil in E as [-> ->]. by apply Forall_cons in Hs as [? _].
  - cbn [csv] in Hs. rewrite (proj2 (Z.eqb_neq c 10)) in Hs by done. destruct l2 as [|d l2].
    + destruct (c =? 44); [by apply Forall_cons in Hs as [? _]|]. specialize (IH _ _ _ Hs [] l eq_refl).
      change (last_cell ?x []) with x in *. rewrite zlen_app in IH. change (zlen [c]) with 1 in IH. lia.
    + injection E as <- E. unfold last_cell. cbn [foldl]. fold (last_cell (if c =? 44 then [] else cur ++ [c]) l2).
      destruct (c =? 44); [apply Forall_cons in Hs as [_ Hs]|]; by eapply IH.
Qed.

Lemma fits_app cur l2 l3 : fits cur (l2 ++ l3) -> fits (last_cell cur l2) l3.
Proof.
  intros H l l' ->. unfold last_cell. rewrite <- foldl_app. apply (H (l2 ++ l) l'). by rewrite app_assoc.
Qed.

#[local] Abbreviation parse_loop := (parse_loop func skip use_cache).

(** A chunk without a newline that fills the buffer: its cells, then the loop goes on
    with the open cell at the start of the buffer. *)
Lemma parse_chunk content pos cur hole p last line idx x cache l2 rest : 0 <= pos ->
  drop (Z.to_nat pos) content = l2 ++ rest -> Forall plain l2 -> l2 <> [] -> zlen cur + zlen l2 = 2047 -> zlen (cur ++ hole) = 2048 ->
  0 ∉ cur -> 0 <= idx -> idx + zlen l2 < 2 ^ 31 ->
  exists cells idx', cut_cells cur line idx l2 cells idx' /\
  ((exists x', (forall fuel, parse_loop (S fuel) content pos (zlen cur) (Csv (cur ++ hole) p last line idx x cache) = Ret (x', cache)) /\
      forall tail, calls x (cells ++ tail) = x') \/
   (exists hole' p' last' x', let cur' := last_cell cur l2 in
      (forall fuel, parse_loop (S fuel) content pos (zlen cur) (Csv (cur ++ hole) p last line idx x cache)
        = parse_loop fuel content (pos + zlen l2) (zlen cur') (Csv (cur' ++ hole') p' last' line idx' x' cache)) /\
      zlen (cur' ++ hole') = 2048 /\ forall tail, calls x (cells ++ tail) = calls x' tail)).
Proof.
  intros Hpos Hd Hl Hne Hlen Hb Hcur Hidx Hmax. pose proof (zlen_nonneg cur). pose proof (zlen_nonneg l2).
  destruct (fgets_takes content pos cur hole l2 false) as (tail & Hfg & Hb'); [|done|lia|done|].
  { rewrite Hd. replace (Z.to_nat (2047 - zlen cur)) with (length l2) by (unfold zlen in *; lia). by apply get_chars_full. }
  assert (tail = []) as -> by (rewrite !zlen_app, zlen_cons in Hb'; destruct tail; [done|rewrite zlen_cons in Hb'; pose proof (zlen_nonneg tail); lia]).
  destruct (scan_cells (pos + zlen l2) l2 [0] Hl 2049 [] cur (zlen cur) 0 line idx x cache)
    as (cells & idx' & Hcut & Hcase); [unfold zlen in *; lia|done|lia|lia|done|done|].
  exists cells, idx'. split; [done|]. cbn [app] in Hcase.
  destruct Hcase as [(x' & E & H1)|(l1 & x' & E & Hl1 & H1)].
  - left. exists x'. split; [|done]. intros fuel. cbn [FileTools.parse_loop c_buf c_line c_cnt c_x c_cache].
    by rewrite Hfg, bind_ret, E, bind_ret.
  - right. set (cur' := last_cell cur l2) in *.
    assert (zlen l1 + zlen cur' = 2047) as Hz.
    { rewrite <- zlen_app, Hl1. cbn [app]. unfold zero_commas. rewrite zlen_app, zlen_fmap. lia. }
    destruct (zlen_split (l1 ++ cur' ++ [0]) (zlen cur')) as (h & hole' & Eh & Hh).
    { rewrite !zlen_app. change (zlen [0]) with 1. pose proof (zlen_nonneg l1). pose proof (zlen_nonneg cur'). lia. }
    exists hole', (zlen cur + zlen l2), (zlen l1), x'. cbv zeta. split; [|split; [|done]].
    + intros fuel. cbn [FileTools.parse_loop c_buf c_line c_cnt c_x c_cache]. rewrite Hfg, bind_ret, E.
      destruct (2049 - length l2)%nat as [|f] eqn:Ef; [unfold zlen in *; lia|].
      cbn [FileTools.scan c_buf c_p]. rewrite app_assoc, rd_split, bind_ret by (rewrite zlen_app; lia). cbn [Z.eqb].
      rewrite bind_ret. cbn [c_buf c_p c_last c_line c_cnt c_x c_cache]. rewrite (proj2 (Z.leb_gt _ _)) by lia. cbn [orb].
      replace (zlen cur + zlen l2 - zlen l1) with (zlen cur') by lia. rewrite <- app_assoc.
      rewrite rd_range_split, bind_ret by done. rewrite Eh.
      assert (wr_range (h ++ hole') 0 cur' = Ret (cur' ++ hole')) as Hw by (by apply (wr_range_split [] h hole')).
      by rewrite Hw, bind_ret.
    + rewrite zlen_app, <- Hh, <- zlen_app, <- Eh, !zlen_app. change (zlen [0]) with 1. lia.
Qed.

Lemma drop_add_zlen (content : list Z) pos l rest : 0 <= pos -> drop (Z.to_nat pos) content = l ++ rest ->
  rest = drop (Z.to_nat (pos + zlen l)) content.
Proof.
  intros Hpos Hd. replace (Z.to_nat (pos + zlen l)) with (Z.to_nat pos + length l)%nat by (unfold zlen; lia).
  by rewrite <- drop_drop, Hd, drop_app_length.
Qed.

(** [t] turns of the loop from the state [s] make the calls of [cells], which end the
    parse, or lead to the start of the next line at [pos'], with a buffer like [P]. *)
Definition line_parsed (t : nat) content pos lag (s : csv_state) (cells : list (list Z * Z * Z)) x cache cache' line' pos' (P : list Z -> Prop) : Prop :=
  (exists x' c, (forall fuel, parse_loop (t + fuel) content pos lag s = Ret (x', c)) /\ (c = cache \/ c = cache') /\
     forall tail, calls x (cells ++ tail) = x') \/
  (exists buf p x', (forall fuel, parse_loop (t + fuel) content pos lag s
       = parse_loop fuel content pos' 0 (Csv buf p p line' 0 x' cache')) /\ zlen buf = 2048 /\ P buf /\
     forall tail, calls x (cells ++ tail) = calls x' tail).

(** The last part of a line, which fits the buffer with its newline. *)
Lemma parse_newline content pos cur hole p last line idx x cache l rest : 0 <= pos -> drop (Z.to_nat pos) content = l ++ 10 :: rest ->
  Forall plain l -> zlen cur + zlen l <= 2046 -> zlen (cur ++ hole) = 2048 -> 0 ∉ cur -> 0 <= idx -> idx + zlen l < 2 ^ 31 ->
  0 <= line -> line + 1 < 2 ^ 31 ->
  let pos' := pos + zlen l + 1 in
  let cache' := if use_cache && (line + 1 =? skip) then Some pos' else cache in
  exists cells, (forall rest, csv cur line idx (l ++ 10 :: rest) = cells ++ csv [] (line + 1) 0 rest) /\
    line_parsed 1 content pos (zlen cur) (Csv (cur ++ hole) p last line idx x cache) cells x cache cache' (line + 1) pos'
      (λ buf, exists tl, buf = cur ++ zero_commas l ++ 0 :: tl).
Proof.
  intros Hpos Hd Hl Hlen Hb Hcur Hidx Hmaxi Hline Hmax pos' cache'. pose proof (zlen_nonneg l). pose proof (zlen_nonneg cur).
  assert (zlen (l ++ [10]) = zlen l + 1) as Hz by (rewrite zlen_app; done).
  destruct (fgets_takes content pos cur hole (l ++ [10]) false) as (tail & Hfg & Hb');
    [rewrite Hd; apply get_chars_line; [done|unfold zlen in *; lia]|by destruct l|lia|done|].
  rewrite Hz, Z.add_assoc in Hfg. fold pos' in Hfg.
  rewrite <- app_assoc in Hfg, Hb'. cbn [app] in Hfg, Hb'.
  destruct (scan_cells pos' l (10 :: 0 :: tail) Hl 2049 [] cur (zlen cur) 0 line idx x cache)
    as (cells & idx' & [Hi Hcut] & Hcase); [unfold zlen in *; lia|done|lia|lia|done|done|]. cbn [app] in Hcase.
  exists (cells ++ [(last_cell cur l, line, idx')]). split.
  { intros r. rewrite Hcut, <- app_assoc. cbn [csv Z.eqb Pos.eqb app]. done. }
  destruct Hcase as [(x' & E & H1)|(l1 & x' & E & Hl1 & H1)].
  - left. exists x', cache. split; [|split; [by left|]].
    + intros fuel. cbn [Nat.add FileTools.parse_loop c_buf c_line c_cnt c_x c_cache]. by rewrite Hfg, bind_ret, E, bind_ret.
    + intros tl. by rewrite <- app_assoc.
  - assert (zlen l1 + zlen (last_cell cur l) = zlen cur + zlen l) as Hz2.
    { rewrite <- zlen_app, Hl1. cbn [app]. unfold zero_commas. by rewrite zlen_app, zlen_fmap. }
    destruct (scan_newline pos' (2049 - length l) l1 (last_cell cur l) tail (zlen cur + zlen l) (zlen l1) line idx' x' cache)
      as (x2 & [[E2 H2]|[E2 H2]]); [unfold zlen in *; lia|by apply last_cell_no_zero|lia|lia|done|lia|left|right].
    + exists x2, cache'. split; [|split; [by right|]].
      * intros fuel. cbn [Nat.add FileTools.parse_loop c_buf c_line c_cnt c_x c_cache]. by rewrite Hfg, bind_ret, E, E2, bind_ret.
      * intros tl. rewrite <- app_assoc, H1. apply H2.
    + exists (l1 ++ last_cell cur l ++ 0 :: 0 :: tail), (zlen cur + zlen l + 1), x2.
      assert (l1 ++ last_cell cur l ++ 0 :: 0 :: tail = cur ++ zero_commas l ++ 0 :: 0 :: tail) as Eb
        by (rewrite app_assoc, Hl1; cbn [app]; by rewrite <- app_assoc).
      split; [|split; [|split; [by exists (0 :: tail)|]]].
      * intros fuel. cbn [Nat.add FileTools.parse_loop c_buf c_line c_cnt c_x c_cache]. rewrite Hfg, bind_ret, E, E2, bind_ret.
        cbn [c_buf c_p c_last c_line c_cnt c_x c_cache]. rewrite (proj2 (Z.leb_gt _ _)) by lia. cbn [orb]. rewrite Z.sub_diag.
        rewrite !zlen_app, !zlen_cons in Hb'.
        rewrite rd_range_none, bind_ret, wr_range_none, bind_ret; [done|..];
        rewrite !zlen_app, !zlen_cons; pose proof (zlen_nonneg tail); pose proof (zlen_nonneg l1); pose proof (zlen_nonneg (last_cell cur l)); lia.
      * rewrite Eb. unfold zero_commas. rewrite !zlen_app, !zlen_cons, zlen_fmap in *. lia.
      * intros tl. rewrite <- app_assoc, H1. apply H2.
Qed.

(** The turns of the loop that a line takes at most. *)
Definition turns (n : Z) : nat := if n <=? 2046 then 1%nat else S (Z.to_nat n).

(** A line: its cells up to the newline, then the loop goes on behind it. *)
Lemma parse_line content n : forall pos cur hole p last line idx x cache l rest, Z.to_nat (zlen l) = n -> 0 <= pos ->
  drop (Z.to_nat pos) content = l ++ 10 :: rest ->
  Forall plain l -> fits cur l -> zlen (cur ++ hole) = 2048 -> 0 ∉ cur -> 0 <= idx -> idx + zlen l < 2 ^ 31 ->
  0 <= line -> line + 1 < 2 ^ 31 ->
  let pos' := pos + zlen l + 1 in
  let cache' := if use_cache && (line + 1 =? skip) then Some pos' else cache in
  exists t cells, (1 <= t <= turns (zlen cur + zlen l))%nat /\ (t <= S n)%nat /\
    (forall rest, csv cur line idx (l ++ 10 :: rest) = cells ++ csv [] (line + 1) 0 rest) /\
    line_parsed t content pos (zlen cur) (Csv (cur ++ hole) p last line idx x cache) cells x cache cache' (line + 1) pos'
      (λ buf, zlen cur + zlen l <= 2046 -> exists tl, buf = cur ++ zero_commas l ++ 0 :: tl).
Proof.
  induction n as [n IH] using lt_wf_ind. intros pos cur hole p last line idx x cache l rest Hn Hpos Hd Hl Hfits Hb Hcur Hidx Hmaxi Hline Hmax pos' cache'.
  pose proof (zlen_nonneg l). pose proof (zlen_nonneg cur). unfold turns.
  destruct (Z.leb_spec (zlen cur + zlen l) 2046) as [Hle|Hgt].
  { destruct (parse_newline content pos cur hole p last line idx x cache l rest) as (cells & Hc & Hp); [done..|].
    exists 1%nat, cells. split; [lia|]. split; [lia|]. split; [done|]. destruct Hp as [Hp|(buf & p' & x' & E & Hz & Hbuf & H1)]; [by left|right].
    by exists buf, p', x'. }
  pose proof (Hfits [] l eq_refl) as Hcl. change (last_cell cur []) with cur in Hcl.
  destruct (zlen_split l (2047 - zlen cur)) as (l2 & l3 & -> & Hl2); [lia|].
  assert (pos' = pos + zlen l2 + zlen l3 + 1) as Hpos' by (unfold pos'; rewrite zlen_app; lia).
  rewrite zlen_app in Hn, Hmaxi, Hgt |- *. pose proof (zlen_nonneg l2). pose proof (zlen_nonneg l3). apply Forall_app in Hl as [Hp2 Hp3].
  destruct (parse_chunk content pos cur hole p last line idx x cache l2 (l3 ++ 10 :: rest)) as (cells & idx' & [Hi Hcut] & Hcase);
    [done|by rewrite Hd, <- app_assoc|done|by intros ->; change (zlen (@nil Z)) with 0 in Hl2; lia|lia|done|done|done|lia|].
  destruct Hcase as [(x' & E & Hq1)|(hole' & p' & last' & x' & E & Hb' & Hq1)].
  - destruct (IH (Z.to_nat (zlen l3)) ltac:(lia) (pos + zlen l2) (last_cell cur l2) (replicate (Z.to_nat (2048 - zlen (last_cell cur l2))) 0) 0 0 line idx' x cache l3 rest)
      as (t & cells3 & _ & _ & Hc3 & _); [done|lia| |done|by apply fits_app| |by apply last_cell_no_zero|lia|lia|done|done|].
    { rewrite <- (drop_add_zlen content pos l2 (l3 ++ 10 :: rest)) by (done || by rewrite <- app_assoc in Hd). done. }
    { specialize (Hfits l2 l3 eq_refl). rewrite zlen_app, zlen_replicate by lia. lia. }
    exists 1%nat, (cells ++ cells3). split; [lia|]. split; [lia|]. split.
    { intros r. rewrite <- app_assoc, Hcut, Hc3. by rewrite app_assoc. }
    left. exists x', cache. split; [exact E|]. split; [by left|]. intros tail. by rewrite <- app_assoc.
  - destruct (IH (Z.to_nat (zlen l3)) ltac:(lia) (pos + zlen l2) (last_cell cur l2) hole' p' last' line idx' x' cache l3 rest)
      as (t & cells3 & _ & Ht & Hc3 & Hp3'); [done|lia| |done|by apply fits_app|done|by apply last_cell_no_zero|lia|lia|done|done|].
    { rewrite <- (drop_add_zlen content pos l2 (l3 ++ 10 :: rest)) by (done || by rewrite <- app_assoc in Hd). done. }
    exists (S t), (cells ++ cells3). split; [lia|]. split; [lia|]. split.
    { intros r. rewrite <- app_assoc, Hcut, Hc3. by rewrite app_assoc. }
    rewrite <- Hpos' in Hp3'. fold cache' in Hp3'.
    destruct Hp3' as [(x2 & c & E2 & Hcc & Hq2)|(buf & p2 & x2 & E2 & Hz & _ & Hq2)]; [left|right].
    + exists x2, c. split; [intros fuel; cbn [Nat.add]; by rewrite E, E2|]. split; [done|]. intros tail. by rewrite <- app_assoc, Hq1.
    + exists buf, p2, x2. split; [intros fuel; cbn [Nat.add]; by rewrite E, E2|]. split; [done|]. split; [lia|].
      intros tail. by rewrite <- app_assoc, Hq1.
Qed.

(** The end of the file, when it does not end in a newline. *)
Lemma parse_last fuel content pos buf p lst line x cache l : drop (Z.to_nat pos) content = l ->
  Forall plain l -> l <> [] -> zlen l <= 2046 -> zlen buf = 2048 ->
  parse_loop (S fuel) content pos 0 (Csv buf p lst line 0 x cache) = Ret (calls x (csv [] line 0 l), cache).
Proof.
  intros Hd Hl Hne Hlen Hb. pose proof (zlen_nonneg l).
  assert (get_chars (Z.to_nat (2047 - zlen (@nil Z))) (drop (Z.to_nat pos) content) = (l, true)) as Hg.
  { rewrite Hd. apply get_chars_last; [done|]. change (zlen (@nil Z)) with 0. unfold zlen in *. lia. }
  destruct (fgets_takes content pos [] buf l true Hg Hne) as (tail & Hfg & _); [change (zlen (@nil Z)) with 0; lia|exact Hb|].
  cbn [FileTools.parse_loop c_buf c_line c_cnt c_x c_cache]. change (zlen (@nil Z)) with 0 in Hfg. cbn [app] in Hfg. rewrite Hfg, bind_ret.
  destruct (scan_cells (pos + zlen l) l (0 :: tail) Hl 2049 [] [] 0 0 line 0 x cache)
    as (cells & idx & [_ Hcut] & Hcase); [unfold zlen in *; lia|apply not_elem_of_nil|lia|lia|done|done|].
  specialize (Hcut []). rewrite app_nil_r in Hcut. rewrite Hcut. cbn [csv]. cbn [app] in Hcase.
  destruct Hcase as [(x' & E & H1)|(l1 & x' & E & Hl1 & H1)]; rewrite E, H1; [by rewrite bind_ret|].
  assert (zlen l1 + zlen (last_cell [] l) = zlen l) as Hz.
  { rewrite <- zlen_app, Hl1. cbn [app]. unfold zero_commas. by rewrite zlen_fmap. }
  destruct (2049 - length l)%nat as [|f] eqn:Ef; [unfold zlen in *; lia|].
  cbn [FileTools.scan c_buf c_p]. rewrite app_assoc, rd_split, !bind_ret by (rewrite zlen_app; lia).
  cbn [Z.eqb]. rewrite bind_ret, orb_true_r, <- app_assoc.
  destruct (call_cut l1 (last_cell [] l) tail (0 + zlen l) line idx x' cache) as (x2 & stop & E2 & H2);
    [apply last_cell_no_zero; [apply not_elem_of_nil|done]|].
  rewrite E2, bind_ret. cbn [c_cache]. rewrite H2. cbn [calls]. by destruct stop.
Qed.

(** The bytes of a cell. *)
Definition quiet (c : Z) : Prop := plain c /\ c <> 44.

(** The end of the file behind a newline: the buffer is as the line before left it. *)
Lemma parse_end fuel content pos w tl p lst line x cache : drop (Z.to_nat pos) content = [] -> Forall quiet w ->
  zlen (w ++ 0 :: tl) = 2048 ->
  parse_loop (S fuel) content pos 0 (Csv (w ++ 0 :: tl) p lst line 0 x cache) = Ret (calls x [(w, line, 0)], cache).
Proof.
  intros Hd Hw Hb. cbn [FileTools.parse_loop c_buf c_line c_cnt c_x c_cache]. unfold fgets. rewrite Hd.
  change (Z.to_nat (2048 - 0 - 1)) with 2047%nat. cbn [get_chars]. change (zlen (@nil Z)) with 0. cbn [andb Z.eqb].
  rewrite bind_ret. rewrite zlen_app, zlen_cons in Hb. pose proof (zlen_nonneg tl).
  pose proof (scan_quiet pos w tl Hw 2049 [] 0 line 0 x cache ltac:(unfold zlen in *; lia)) as E.
  change (zlen (@nil Z)) with 0 in E. cbn [app] in E. rewrite E, bind_ret, orb_true_r.
  destruct (call_cut [] w tl (0 + zlen w) line 0 x cache) as (x2 & stop & E2 & H2).
  { intros Hin. rewrite Forall_forall in Hw. by destruct (Hw _ Hin) as [[? _] _]. }
  change (zlen (@nil Z)) with 0 in E2. cbn [app] in E2. rewrite E2, bind_ret. cbn [c_cache]. rewrite H2. by destruct stop.
Qed.

(** The turns for these lines. *)
Definition file_turns (ls : list (list Z)) : nat := sum_list_with (λ l, turns (zlen l)) ls.

(** A line of the file: its cells fit the buffer. *)
Definition line_ok (l : list Z) : Prop := Forall plain l /\ short_cells l /\ zlen l < 2 ^ 31.

Lemma csv_line l : Forall plain l -> forall cur line idx rest,
  csv cur line idx (l ++ 10 :: rest) = csv cur line idx l ++ csv [] (line + 1) 0 rest.
Proof.
  induction 1 as [|c l [_ Hc] Hl IH]; intros cur line idx rest; [done|]. cbn [app csv].
  rewrite (proj2 (Z.eqb_neq c 10)) by done. destruct (c =? 44); by rewrite IH.
Qed.

Lemma zero_commas_first l : exists tl, zero_commas l ++ [0] = first_cell l ++ 0 :: tl.
Proof.
  induction l as [|c l [tl IH]]; [by exists []|]. cbn [zero_commas fmap list_fmap first_cell app].
  destruct (c =? 44); [by eexists|]. cbn [app]. unfold zero_commas in IH. rewrite IH. by exists tl.
Qed.

Lemma first_cell_quiet l : Forall plain l -> Forall quiet (first_cell l).
Proof.
  induction 1 as [|c l Hc Hl IH]; cbn [first_cell]; [by apply Forall_nil|]. destruct (Z.eqb_spec c 44); [by apply Forall_nil|].
  by apply Forall_cons.
Qed.

Lemma file_turns_lines ls : Forall (λ l, zlen l <= 2046) ls -> file_turns ls = length ls.
Proof.
  induction 1 as [|l ls Hl _ IH]; [done|]. unfold file_turns in *. cbn [sum_list_with length]. rewrite IH. unfold turns.
  by rewrite (proj2 (Z.leb_le _ _)) by done.
Qed.

Lemma file_turns_joined ls : (file_turns ls <= length (joined ls))%nat.
Proof.
  induction ls as [|l ls IH]; [done|]. change (file_turns (l :: ls)) with (turns (zlen l) + file_turns ls)%nat.
  change (joined (l :: ls)) with ((l ++ [10]) ++ joined ls). rewrite !length_app. unfold turns, zlen. cbn [length].
  destruct (_ <=? _); lia.
Qed.

Lemma short_line l : Forall plain l -> zlen l <= 2046 -> line_ok l.
Proof.
  intros Hl Hz. split; [done|]. split; [|lia]. unfold short_cells.
  assert (forall cur line idx, zlen cur + zlen l <= 2046 -> Forall (λ '(cell, _, _), zlen cell <= 2046) (csv cur line idx l)) as H;
    [|by apply H]. clear Hz. induction Hl as [|c l [_ Hc] Hl IH]; intros cur line idx Hz.
  - apply Forall_cons. split; [change (zlen (@nil Z)) with 0 in Hz; lia|by apply Forall_nil].
  - rewrite zlen_cons in Hz. pose proof (zlen_nonneg cur). pose proof (zlen_nonneg l). cbn [csv]. rewrite (proj2 (Z.eqb_neq c 10)) by done. destruct (c =? 44).
    + apply Forall_cons. split; [lia|]. apply IH. change (zlen (@nil Z)) with 0. lia.
    + apply IH. rewrite zlen_app. change (zlen [c]) with 1. lia.
Qed.

(** A file, or what is left of it. *)
Lemma parse_lines final content ls : Forall plain final -> zlen final <= 2046 -> Forall line_ok ls ->
  forall fuel pos buf p lst line x cache prev,
  (file_turns ls < fuel)%nat -> 0 <= pos -> drop (Z.to_nat pos) content = joined ls ++ final -> zlen buf = 2048 ->
  0 <= line -> line + zlen ls < 2 ^ 31 ->
  (final = [] -> (ls = [] -> Forall quiet prev /\ exists tl, buf = prev ++ 0 :: tl) /\
     (forall l, last ls = Some l -> zlen l <= 2046)) ->
  exists c, parse_loop fuel content pos 0 (Csv buf p lst line 0 x cache) =
    Ret (calls x (cells_from prev line ls final), c) /\
    (c = cache \/ use_cache = true /\ exists ls1 ls2, ls = ls1 ++ ls2 /\ ls1 <> [] /\ line + zlen ls1 = skip /\
       c = Some (pos + zlen (joined ls1))).
Proof.
  intros Hfin Hlen. induction 1 as [|l ls (Hl & Hsh & Hll) Hls IH]; intros fuel pos buf p lst line x cache prev Hf Hpos Hd Hb Hline Hmax Hend.
  - destruct fuel as [|fuel]; [lia|]. exists cache. split; [|by left]. unfold cells_from. cbn [line_cells app last].
    change (zlen (@nil (list Z))) with 0. rewrite Z.add_0_r. destruct (decide (final = [])) as [->|Hne]; [|by apply parse_last].
    destruct (Hend eq_refl) as [He _]. destruct (He eq_refl) as [Hq [tl ->]]. by apply parse_end.
  - rewrite zlen_cons in Hmax. pose proof (zlen_nonneg ls). pose proof (zlen_nonneg l).
    assert (joined (l :: ls) ++ final = l ++ 10 :: joined ls ++ final) as Hj by (unfold joined; cbn; by rewrite <- !app_assoc).
    rewrite Hj in Hd. unfold file_turns in Hf. cbn [sum_list_with] in Hf. fold (file_turns ls) in Hf.
    set (cache1 := if use_cache && (line + 1 =? skip) then Some (pos + zlen l + 1) else cache).
    assert (cache1 = cache \/ use_cache = true /\ exists ls1 ls2, l :: ls = ls1 ++ ls2 /\ ls1 <> [] /\ line + zlen ls1 = skip /\
       cache1 = Some (pos + zlen (joined ls1))) as Hc1.
    { subst cache1. destruct use_cache; [|by left]. destruct (Z.eqb_spec (line + 1) skip); cbn [andb]; [|by left]. right. split; [done|].
      exists [l], ls. repeat split; [done..|]. unfold joined. cbn. rewrite app_nil_r, zlen_app. change (zlen [10]) with 1. f_equal. lia. }
    assert (forall prev', (final = [] -> ls = [] -> prev' = first_cell l) -> cells_from prev line (l :: ls) final = csv [] line 0 l ++ cells_from prev' (line + 1) ls final) as Hcells.
    { intros prev' Hp. unfold cells_from. cbn [line_cells]. rewrite zlen_cons, <- app_assoc.
      replace (line + 1 + zlen ls) with (line + (zlen ls + 1)) by lia. destruct (decide (final = [])) as [Hf0|]; [|done].
      destruct ls as [|l' ls']; [by rewrite (Hp Hf0 eq_refl)|]. change (last (l :: l' :: ls')) with (last (l' :: ls')).
      destruct (proj2 (last_is_Some (l' :: ls'))) as [z Hz]; [done|]. by rewrite Hz. }
    destruct (parse_line content (Z.to_nat (zlen l)) pos [] buf p lst line 0 x cache l (joined ls ++ final))
      as (t & cells & Ht & _ & Hcsv & Hp); [done|done|done|done|exact (fits_csv l Hl [] 0 0 Hsh)|exact Hb|apply not_elem_of_nil|lia|lia|done|lia|].
    change (zlen (@nil Z)) with 0 in *. rewrite Z.add_0_l in Ht. cbn [app] in Hp. fold cache1 in Hp.
    assert (cells = csv [] line 0 l) as ->.
    { specialize (Hcsv []). rewrite csv_line in Hcsv by done. by apply app_inv_tail in Hcsv. }
    destruct Hp as [(x' & c & E & Hc & H1)|(buf' & p' & x' & E & Hb' & Hbuf & H1)].
    + exists c. replace fuel with (t + (fuel - t))%nat by lia. rewrite E, (Hcells (first_cell l)), H1 by done. split; [done|].
      destruct Hc as [->| ->]; [by left|exact Hc1].
    + destruct (IH (fuel - t)%nat (pos + zlen l + 1) buf' p' p' (line + 1) x' cache1 (first_cell l)) as (c & E2 & Hc);
        [lia|lia| |done|lia|lia| |].
      { rewrite (drop_add_zlen content pos (l ++ [10]) (joined ls ++ final)) by (done || by rewrite <- app_assoc).
        rewrite zlen_app. change (zlen [10]) with 1. by rewrite Z.add_assoc. }
      { intros Hf0. destruct (Hend Hf0) as [_ Hshort]. split.
        - intros ->. split; [by apply first_cell_quiet|]. destruct Hbuf as [tl ->]; [rewrite Z.add_0_l; by apply (Hshort l)|].
          destruct (zero_commas_first l) as [tl2 E0]. exists (tl2 ++ tl). cbn [app].
          change (zero_commas l ++ 0 :: tl) with (zero_commas l ++ [0] ++ tl). by rewrite app_assoc, E0, <- app_assoc.
        - intros l' Hl'. apply (Hshort l'). destruct ls; [done|exact Hl']. }
      exists c. replace fuel with (t + (fuel - t))%nat by lia. rewrite E, (Hcells (first_cell l)), H1, E2 by done. split; [done|].
      destruct Hc as [->|(Hu & ls1 & ls2 & -> & Hn1 & Hs & ->)]; [exact Hc1|].
      right. split; [done|]. exists (l :: ls1), ls2. rewrite zlen_cons. repeat split; [done|lia|].
      unfold joined. cbn. rewrite !zlen_app. change (zlen [10]) with 1. f_equal. lia.
Qed.

(** Lines before the first that counts make no calls. *)
Lemma calls_skipped l : Forall plain l -> forall cur line idx x tail, line < skip ->
  calls x (csv cur line idx l ++ tail) = calls x tail.
Proof.
  induction 1 as [|c l [_ Hc] Hl IH]; intros cur line idx x tail Hs; cbn [csv app calls].
  - by rewrite (proj2 (Z.leb_gt _ _)) by lia.
  - rewrite (proj2 (Z.eqb_neq c 10)) by done. destruct (c =? 44); [|by apply IH].
    cbn [app calls]. rewrite (proj2 (Z.leb_gt _ _)) by lia. by apply IH.
Qed.

Lemma calls_skipped_lines x ls tail : Forall line_ok ls -> forall line, line + zlen ls <= skip ->
  calls x (line_cells line ls ++ tail) = calls x tail.
Proof.
  induction 1 as [|l ls [Hl _] Hls IH]; intros line Hs; [done|]. rewrite zlen_cons in Hs. pose proof (zlen_nonneg ls).
  cbn [line_cells]. rewrite <- app_assoc, calls_skipped, IH; (done || lia).
Qed.

Lemma line_cells_app line ls1 ls2 : line_cells line (ls1 ++ ls2) = line_cells line ls1 ++ line_cells (line + zlen ls1) ls2.
Proof.
  revert line. induction ls1 as [|l ls1 IH]; intros line; [change (zlen (@nil (list Z))) with 0; by rewrite Z.add_0_r|].
  cbn [line_cells app]. rewrite IH, zlen_cons, <- app_assoc. do 3 f_equal. lia.
Qed.

(** The cells of a file without a newline at its end are those of the plain split. *)
Lemma cells_from_csv prev ls final : Forall line_ok ls -> final <> [] -> forall line,
  cells_from prev line ls final = csv [] line 0 (joined ls ++ final).
Proof.
  intros Hls Hne line. unfold cells_from. rewrite decide_False by done. revert line.
  induction Hls as [|l ls [Hl _] _ IH]; intros line; cbn [line_cells].
  - change (zlen (@nil (list Z))) with 0. by rewrite Z.add_0_r.
  - change (joined (l :: ls)) with ((l ++ [10]) ++ joined ls). rewrite <- !app_assoc. cbn [app]. rewrite csv_line, <- IH by done.
    rewrite zlen_cons. do 3 f_equal. lia.
Qed.

Lemma cells_from_app line ls1 ls2 final : final <> [] \/ ls2 <> [] ->
  cells_from [] line (ls1 ++ ls2) final = line_cells line ls1 ++ cells_from [] (line + zlen ls1) ls2 final.
Proof.
  intros Hne. unfold cells_from. rewrite line_cells_app, zlen_app, <- app_assoc, Z.add_assoc.
  destruct (decide (final = [])) as [Hf|]; [|done]. destruct Hne as [?|Hne]; [done|]. rewrite last_app.
  destruct (proj2 (last_is_Some ls2) Hne) as [z Hz]. by rewrite Hz.
Qed.

#[local] Abbreviation ParseCSV := (ParseCSV func skip use_cache).

(** A parse that begins at the cached position of the line. *)
Lemma ParseCSV_cached ls1 ls2 final fuel x : use_cache = true -> zlen ls1 = skip ->
  Forall line_ok (ls1 ++ ls2) -> Forall plain final -> final <> [] \/ ls2 <> [] -> zlen final <= 2046 ->
  (final = [] -> forall l, last (ls1 ++ ls2) = Some l -> zlen l <= 2046) ->
  zlen (ls1 ++ ls2) < 2 ^ 31 - 1 -> (file_turns ls2 < fuel)%nat ->
  let start := Some (zlen (joined ls1)) in
  ParseCSV fuel (joined (ls1 ++ ls2) ++ final) start x = Ret (calls x (cells_from [] 0 (ls1 ++ ls2) final), start).
Proof.
  intros Hu Hskip Hls Hfin Hne Hlen Hlast Hmax Hf start. rewrite zlen_app in Hmax. apply Forall_app in Hls as [Hls1 Hls2].
  pose proof (zlen_nonneg (joined ls1)). pose proof (zlen_nonneg ls1).
  destruct (parse_lines final (joined (ls1 ++ ls2) ++ final) ls2 Hfin Hlen Hls2 fuel (zlen (joined ls1)) (replicate 2048 0) 0 0 skip x start [])
    as (c & E2 & Hc); [lia|lia| |done|lia|lia| |].
  { unfold joined. rewrite bind_app, <- app_assoc. unfold zlen. by rewrite Nat2Z.id, drop_app_length. }
  { intros Hf0. split; [intros ->; by destruct Hne|]. intros l Hl. apply (Hlast Hf0). by rewrite last_app, Hl. }
  assert (c = start) as ->.
  { destruct Hc as [->|(_ & l1 & l2 & _ & Hl1 & Hz & _)]; [done|]. destruct l1; [done|]. rewrite zlen_cons in Hz.
    pose proof (zlen_nonneg l1). lia. }
  unfold FileTools.ParseCSV. rewrite Hu in *. etransitivity; [exact E2|].
  rewrite cells_from_app, calls_skipped_lines by (done || lia). by rewrite Hskip.
Qed.

End csv.

(** Three lines, the first skipped, the second longer than the buffer, and an end behind
    a newline: "a,b", 1500 times "c", a comma, 1500 times "d", then "e,f". *)
Definition long_line : list Z := replicate 1500 99 ++ 44 :: replicate 1500 100.

(** A file that ends in a newline: after its last line the function is called once more,
    with what the buffer still holds. *)
Example ParseCSV_stale_cell :
  ParseCSV log_cell 0 false 3 (joined [[97; 44; 98]]) None [] = Ret ([([97], 0, 0); ([98], 0, 1); ([97], 1, 0)], None).
Proof. vm_compute. reflexivity. Qed.

(** * Going to a line *)

Lemma after_newline_line l rest : Forall plain l -> after_newline (l ++ 10 :: rest) = Some rest.
Proof.
  induction 1 as [|c l [_ Hc] Hl IH]; [done|]. cbn [app after_newline]. by rewrite (proj2 (Z.eqb_neq c 10)).
Qed.

Lemma ignore_lines ls : Forall (Forall plain) ls -> forall pre rest,
  Nat.iter (length ls) (ignore_line (pre ++ joined ls ++ rest)) (Some (zlen pre)) = Some (zlen (pre ++ joined ls)).
Proof.
  induction 1 as [|l ls Hl Hls IH]; intros pre rest.
  - by rewrite app_nil_r.
  - cbn [length]. rewrite Nat.iter_succ_r.
    assert (joined (l :: ls) = (l ++ [10]) ++ joined ls) as -> by done.
    unfold ignore_line at 2. cbn [mbind option_bind]. unfold zlen at 3. rewrite Nat2Z.id, drop_app_length, <- !app_assoc.
    cbn [app]. rewrite after_newline_line by done. cbn [option_bind].
    specialize (IH (pre ++ l ++ [10]) rest). rewrite <- !app_assoc in IH. cbn [app] in IH. rewrite <- IH. do 2 f_equal.
    cbn [mbind option_bind]. f_equal. rewrite !zlen_app, !zlen_cons, !zlen_app. change (zlen (@nil Z)) with 0. lia.
Qed.

(** C36. [SkipFileToLine] brings the stream to the first byte of the line, with or without
    the cache file that it leaves; and a [ParseCSV] of the same file that finds this cache
    file makes the calls of a parse from the beginning. *)
Theorem SkipFileToLine_spec {X} (func : X -> list Z -> Z -> Z -> X * bool) ls1 ls2 last fuel x :
  Forall (λ l, Forall plain l /\ zlen l <= 2046) (ls1 ++ ls2) -> Forall plain last -> last <> [] -> zlen last <= 2046 ->
  zlen (ls1 ++ ls2) < 2 ^ 31 - 1 -> (length ls2 < fuel)%nat -> ls1 <> [] ->
  let content := joined (ls1 ++ ls2) ++ last in
  let start := Some (zlen (joined ls1)) in
  SkipFileToLine content None (zlen ls1) = (start, start) /\
  SkipFileToLine content start (zlen ls1) = (start, start) /\
  ParseCSV func (zlen ls1) true fuel content start x = Ret (calls func (zlen ls1) x (csv [] 0 0 content), start).
Proof.
  intros Hls Hlast Hne Hlen Hmax Hf Hn1 content start. pose proof (zlen_nonneg ls1). pose proof (zlen_nonneg (joined ls1)).
  assert (zlen ls1 =? 0 = false) as Hnum by (destruct ls1; [done|rewrite zlen_cons in *; pose proof (zlen_nonneg ls1); lia]).
  assert (content = joined ls1 ++ joined ls2 ++ last) as Hcont by (unfold content, joined; by rewrite bind_app, <- app_assoc).
  unfold SkipFileToLine, RestoreFilePointerCache. rewrite Hnum. split; [|split].
  - assert (Nat.iter (Z.to_nat (zlen ls1)) (ignore_line content) (Some 0) = start) as ->; [|done].
    unfold zlen. rewrite Nat2Z.id, Hcont. apply (ignore_lines ls1) with (pre := []).
    apply Forall_app in Hls as [Hls1 _]. eapply Forall_impl; [exact Hls1|by intros ? []].
  - unfold start, seekg. by rewrite (proj2 (Z.ltb_ge _ _)) by lia.
  - assert (Forall line_ok (ls1 ++ ls2)) as Hok by (eapply Forall_impl; [exact Hls|intros l [? ?]; by apply short_line]).
    destruct (proj1 (Forall_app _ _ _) Hls) as [_ Hls2]. unfold content. rewrite <- (cells_from_csv []) by done.
    apply ParseCSV_cached; try done; [by left|].
    rewrite file_turns_lines; [done|]. eapply Forall_impl; [exact Hls2|by intros l []].
Qed.

(** The file "a", "b,c", "d" without a newline at the end, from its third line. *)
Lemma SkipFileToLine_spec_witness :
  let content := joined ([[97]; [98; 44; 99]] ++ []) ++ [100] in
  SkipFileToLine content None 2 = (Some 6, Some 6) /\
  SkipFileToLine content (Some 6) 2 = (Some 6, Some 6) /\
  ParseCSV log_cell 2 true 1 content (Some 6) [] = Ret (calls log_cell 2 [] (csv [] 0 0 content), Some 6).
Proof.
  apply (SkipFileToLine_spec log_cell [[97]; [98; 44; 99]] [] [100] 1 []);
    [repeat constructor; discriminate|repeat constructor; discriminate|discriminate|vm_compute; discriminate|vm_compute; reflexivity|cbn; lia|discriminate].
Defined.

(** A position written by hand is where the line is taken to start. *)
Lemma SkipFileToLine_written content pos num : 0 <= pos -> num <> 0 ->
  SkipFileToLine content (WriteFilePointerCache_pos pos) num = (Some pos, Some pos).
Proof.
  intros Hp Hn. unfold SkipFileToLine. rewrite (proj2 (Z.eqb_neq _ _) Hn). cbn. unfold seekg.
  by rewrite (proj2 (Z.ltb_ge _ _) Hp).
Qed.
